(** * Verification of the scraper core of dockerize-django-api

    A shallow embedding of [scraper_api/models.py], [scraper_api/tasks.py]
    and [scraper_api/serializers.py].

    Conventions of the embedding.
    - The strings the program handles are Rocq [string]s; each [ascii] is
      one code point in the range 0..255.  On that range [str.isspace],
      [str.lower] and the UTF-8 encoder are the functions of [PyStr],
      character for character.  [Unicode] has the same functions over all
      code points, with [compute_quote_hash] on them; the [.string] of a
      tag is a list of code points.
    - [hashlib.sha256] is the FIPS 180-4 function, written out over [Z].
    - The database, the clock and the network are explicit state and an
      explicit environment ([World]); Python exceptions are a result type. *)

From Stdlib Require Import ZArith Ascii String List Lia Bool.
From stdpp Require Import gmap strings list.

Local Open Scope Z_scope.

(** ** Python strings *)

Module PyStr.

Definition chars (s : string) : list ascii := list_ascii_of_string s.
Definition str (l : list ascii) : string := string_of_list_ascii l.

Definition code (c : ascii) : Z := Z.of_N (N_of_ascii c).
Definition chr (z : Z) : ascii := ascii_of_N (Z.to_N z).

(** [str.isspace] on one character: the whitespace code points below 256. *)
Definition isspace (c : ascii) : bool :=
  let n := code c in
  ((9 <=? n) && (n <=? 13)) || ((28 <=? n) && (n <=? 32))
  || (n =? 133) || (n =? 160).

(** [str.lower] on one character: A-Z, and the upper-case letters of the
    upper half (0xC0-0xDE without the multiplication sign 0xD7). *)
Definition lower_char (c : ascii) : ascii :=
  let n := code c in
  if ((65 <=? n) && (n <=? 90))
     || ((192 <=? n) && (n <=? 222) && negb (n =? 215))
  then chr (n + 32) else c.

Definition lower_l (l : list ascii) : list ascii := map lower_char l.

Fixpoint lstrip_l (l : list ascii) : list ascii :=
  match l with
  | [] => []
  | c :: l' => if isspace c then lstrip_l l' else l
  end.

Definition rstrip_l (l : list ascii) : list ascii := rev (lstrip_l (rev l)).
Definition strip_l (l : list ascii) : list ascii := rstrip_l (lstrip_l l).

(** The pieces between whitespace characters, empty pieces included. *)
Fixpoint fields (l : list ascii) : list (list ascii) :=
  match l with
  | [] => [[]]
  | c :: l' =>
      if isspace c then [] :: fields l'
      else match fields l' with
           | w :: ws => (c :: w) :: ws
           | [] => [[c]]
           end
  end.

Definition nonempty (w : list ascii) : bool :=
  match w with [] => false | _ => true end.

(** [s.split()] without arguments: maximal runs of non-whitespace. *)
Definition split_l (l : list ascii) : list (list ascii) :=
  List.filter nonempty (fields l).

(** [sep.join(ws)] *)
Fixpoint join_l (sep : list ascii) (ws : list (list ascii)) : list ascii :=
  match ws with
  | [] => []
  | [w] => w
  | w :: ws' => w ++ sep ++ join_l sep ws'
  end.

Definition lower (s : string) : string := str (lower_l (chars s)).
Definition strip (s : string) : string := str (strip_l (chars s)).
Definition split (s : string) : list string := map str (split_l (chars s)).
Definition join (sep : string) (ws : list string) : string :=
  str (join_l (chars sep) (map chars ws)).

(** Truth value of a [str]. *)
Definition truthy (s : string) : bool :=
  match s with EmptyString => false | _ => true end.

(** [x or ""] for an optional string. *)
Definition or_empty (o : option string) : string :=
  match o with Some s => s | None => EmptyString end.

(** [s.encode("utf-8")] for code points below 256. *)
Definition utf8_char (c : ascii) : list Z :=
  let n := code c in
  if n <? 128 then [n] else [192 + n / 64; 128 + n mod 64].

Definition encode_utf8 (s : string) : list Z := flat_map utf8_char (chars s).

End PyStr.

(** ** hashlib.sha256 *)

Module Sha256.

Definition w32 : Z := 4294967296.
Definition add32 (a b : Z) : Z := (a + b) mod w32.
Definition rotr (n x : Z) : Z :=
  Z.lor (Z.shiftr x n) (Z.shiftl x (32 - n) mod w32).
Definition shr (n x : Z) : Z := Z.shiftr x n.
Definition not32 (x : Z) : Z := Z.lxor x (w32 - 1).

Definition Ch (x y z : Z) : Z := Z.lxor (Z.land x y) (Z.land (not32 x) z).
Definition Maj (x y z : Z) : Z :=
  Z.lxor (Z.lxor (Z.land x y) (Z.land x z)) (Z.land y z).
Definition Sigma0 (x : Z) : Z := Z.lxor (Z.lxor (rotr 2 x) (rotr 13 x)) (rotr 22 x).
Definition Sigma1 (x : Z) : Z := Z.lxor (Z.lxor (rotr 6 x) (rotr 11 x)) (rotr 25 x).
Definition sigma0 (x : Z) : Z := Z.lxor (Z.lxor (rotr 7 x) (rotr 18 x)) (shr 3 x).
Definition sigma1 (x : Z) : Z := Z.lxor (Z.lxor (rotr 17 x) (rotr 19 x)) (shr 10 x).

Definition K : list Z :=
  [1116352408; 1899447441; 3049323471; 3921009573; 961987163; 1508970993;
   2453635748; 2870763221; 3624381080; 310598401; 607225278; 1426881987;
   1925078388; 2162078206; 2614888103; 3248222580; 3835390401; 4022224774;
   264347078; 604807628; 770255983; 1249150122; 1555081692; 1996064986;
   2554220882; 2821834349; 2952996808; 3210313671; 3336571891; 3584528711;
   113926993; 338241895; 666307205; 773529912; 1294757372; 1396182291;
   1695183700; 1986661051; 2177026350; 2456956037; 2730485921; 2820302411;
   3259730800; 3345764771; 3516065817; 3600352804; 4094571909; 275423344;
   430227734; 506948616; 659060556; 883997877; 958139571; 1322822218;
   1537002063; 1747873779; 1955562222; 2024104815; 2227730452; 2361852424;
   2428436474; 2756734187; 3204031479; 3329325298].

(** The eight chaining words. *)
Record digest := Digest {
  h0 : Z; h1 : Z; h2 : Z; h3 : Z; h4 : Z; h5 : Z; h6 : Z; h7 : Z }.

Definition init : digest :=
  Digest 1779033703 3144134277 1013904242 2773480762
         1359893119 2600822924 528734635 1541459225.

(** Padding: 0x80, zero bytes up to 56 mod 64, the bit length on 8 bytes. *)
Definition be_bytes (n : nat) (v : Z) : list Z :=
  map (fun i => Z.shiftr v (8 * Z.of_nat i) mod 256) (rev (seq 0 n)).

Definition pad (msg : list Z) : list Z :=
  let len := Z.of_nat (length msg) in
  let zeros := Z.to_nat ((55 - len) mod 64) in
  msg ++ [128] ++ repeat 0 zeros ++ be_bytes 8 (8 * len).

Fixpoint be_words (bytes : list Z) : list Z :=
  match bytes with
  | a :: b :: c :: d :: rest =>
      (Z.shiftl a 24 + Z.shiftl b 16 + Z.shiftl c 8 + d) :: be_words rest
  | _ => []
  end.

Fixpoint blocks (fuel : nat) (words : list Z) : list (list Z) :=
  match fuel, words with
  | O, _ | _, [] => []
  | S fuel', _ => take 16 words :: blocks fuel' (drop 16 words)
  end.

(** The message schedule, newest word first while it is built. *)
Fixpoint schedule_rev (n : nat) (block : list Z) : list Z :=
  match n with
  | O => rev block
  | S n' =>
      let w := schedule_rev n' block in
      let x j := nth j w 0 in
      add32 (add32 (add32 (sigma1 (x 1%nat)) (x 6%nat)) (sigma0 (x 14%nat)))
            (x 15%nat) :: w
  end.

Definition schedule (block : list Z) : list Z := rev (schedule_rev 48 block).

Definition round (s : digest) (kw : Z * Z) : digest :=
  let '(k, w) := kw in
  let t1 := add32 (add32 (add32 (add32 (h7 s) (Sigma1 (h4 s)))
                                 (Ch (h4 s) (h5 s) (h6 s))) k) w in
  let t2 := add32 (Sigma0 (h0 s)) (Maj (h0 s) (h1 s) (h2 s)) in
  Digest (add32 t1 t2) (h0 s) (h1 s) (h2 s)
         (add32 (h3 s) t1) (h4 s) (h5 s) (h6 s).

Definition compress (s : digest) (block : list Z) : digest :=
  let r := fold_left round (combine K (schedule block)) s in
  Digest (add32 (h0 s) (h0 r)) (add32 (h1 s) (h1 r))
         (add32 (h2 s) (h2 r)) (add32 (h3 s) (h3 r))
         (add32 (h4 s) (h4 r)) (add32 (h5 s) (h5 r))
         (add32 (h6 s) (h6 r)) (add32 (h7 s) (h7 r)).

Definition sha256 (msg : list Z) : digest :=
  let ws := be_words (pad msg) in
  fold_left compress (blocks (length ws) ws) init.

Definition hexdigits : list ascii :=
  list_ascii_of_string "0123456789abcdef".

Definition nibble (v : Z) : ascii := nth (Z.to_nat (v mod 16)) hexdigits "0"%char.

Definition hex32 (v : Z) : list ascii :=
  [nibble (Z.shiftr v 28); nibble (Z.shiftr v 24); nibble (Z.shiftr v 20);
   nibble (Z.shiftr v 16); nibble (Z.shiftr v 12); nibble (Z.shiftr v 8);
   nibble (Z.shiftr v 4); nibble v].

(** [.hexdigest()] *)
Definition hexdigest (d : digest) : string :=
  string_of_list_ascii
    (hex32 (h0 d) ++ hex32 (h1 d) ++ hex32 (h2 d) ++ hex32 (h3 d) ++
     hex32 (h4 d) ++ hex32 (h5 d) ++ hex32 (h6 d) ++ hex32 (h7 d)).

End Sha256.

(** ** models.py: compute_quote_hash *)

Definition norm_text (text : option string) : string :=
  PyStr.lower (PyStr.join " " (PyStr.split (PyStr.strip (PyStr.or_empty text)))).

Definition norm_author (author_name : option string) : string :=
  PyStr.lower (PyStr.strip (PyStr.or_empty author_name)).

Definition compute_quote_hash (text : option string) (author_name : option string)
  : string :=
  let payload := (norm_text text +:+ "|" +:+ norm_author author_name)%string in
  Sha256.hexdigest (Sha256.sha256 (PyStr.encode_utf8 payload)).

(** ** Exceptions and Python computations *)

(** An exception object: its class name and [str(e)]. *)
Record exn := Exn { exn_class : string; exn_str : string }.

Inductive result (A : Type) : Type :=
| Ok (a : A)
| Raise (e : exn).
Arguments Ok {A} a.
Arguments Raise {A} e.


(** ** Python strings over all code points *)

(** The strings above hold the code points below 256.  Here a [str] is the
    list of its code points, over the whole range of Unicode, and
    [str.isspace], [str.lower] and the UTF-8 encoder are those of CPython
    3.11 (Unicode 14.0). *)
Module Unicode.

(** The code points [str.isspace] accepts: bidirectional type WS, B or S,
    or general category Zs. *)
Definition whitespace : list Z :=
  [
   9; 10; 11; 12; 13; 28; 29; 30; 31; 32; 133; 160; 5760; 8192; 8193; 8194; 8195; 8196;
   8197; 8198; 8199; 8200; 8201; 8202; 8232; 8233; 8239; 8287; 12288].

Definition isspace (c : Z) : bool := existsb (Z.eqb c) whitespace.

(** The lower-case mapping of every code point that has one other than
    itself (UnicodeData.txt and SpecialCasing.txt).  One code point maps to
    two: the capital I with dot above, 304. *)
Definition lower_table : list (Z * list Z) :=
  [
   (65, [97]); (66, [98]); (67, [99]); (68, [100]); (69, [101]); (70, [102]);
   (71, [103]); (72, [104]); (73, [105]); (74, [106]); (75, [107]); (76, [108]);
   (77, [109]); (78, [110]); (79, [111]); (80, [112]); (81, [113]); (82, [114]);
   (83, [115]); (84, [116]); (85, [117]); (86, [118]); (87, [119]); (88, [120]);
   (89, [121]); (90, [122]); (192, [224]); (193, [225]); (194, [226]); (195, [227]);
   (196, [228]); (197, [229]); (198, [230]); (199, [231]); (200, [232]); (201, [233]);
   (202, [234]); (203, [235]); (204, [236]); (205, [237]); (206, [238]); (207, [239]);
   (208, [240]); (209, [241]); (210, [242]); (211, [243]); (212, [244]); (213, [245]);
   (214, [246]); (216, [248]); (217, [249]); (218, [250]); (219, [251]); (220, [252]);
   (221, [253]); (222, [254]); (256, [257]); (258, [259]); (260, [261]); (262, [263]);
   (264, [265]); (266, [267]); (268, [269]); (270, [271]); (272, [273]); (274, [275]);
   (276, [277]); (278, [279]); (280, [281]); (282, [283]); (284, [285]); (286, [287]);
   (288, [289]); (290, [291]); (292, [293]); (294, [295]); (296, [297]); (298, [299]);
   (300, [301]); (302, [303]); (304, [105; 775]); (306, [307]); (308, [309]);
   (310, [311]); (313, [314]); (315, [316]); (317, [318]); (319, [320]); (321, [322]);
   (323, [324]); (325, [326]); (327, [328]); (330, [331]); (332, [333]); (334, [335]);
   (336, [337]); (338, [339]); (340, [341]); (342, [343]); (344, [345]); (346, [347]);
   (348, [349]); (350, [351]); (352, [353]); (354, [355]); (356, [357]); (358, [359]);
   (360, [361]); (362, [363]); (364, [365]); (366, [367]); (368, [369]); (370, [371]);
   (372, [373]); (374, [375]); (376, [255]); (377, [378]); (379, [380]); (381, [382]);
   (385, [595]); (386, [387]); (388, [389]); (390, [596]); (391, [392]); (393, [598]);
   (394, [599]); (395, [396]); (398, [477]); (399, [601]); (400, [603]); (401, [402]);
   (403, [608]); (404, [611]); (406, [617]); (407, [616]); (408, [409]); (412, [623]);
   (413, [626]); (415, [629]); (416, [417]); (418, [419]); (420, [421]); (422, [640]);
   (423, [424]); (425, [643]); (428, [429]); (430, [648]); (431, [432]); (433, [650]);
   (434, [651]); (435, [436]); (437, [438]); (439, [658]); (440, [441]); (444, [445]);
   (452, [454]); (453, [454]); (455, [457]); (456, [457]); (458, [460]); (459, [460]);
   (461, [462]); (463, [464]); (465, [466]); (467, [468]); (469, [470]); (471, [472]);
   (473, [474]); (475, [476]); (478, [479]); (480, [481]); (482, [483]); (484, [485]);
   (486, [487]); (488, [489]); (490, [491]); (492, [493]); (494, [495]); (497, [499]);
   (498, [499]); (500, [501]); (502, [405]); (503, [447]); (504, [505]); (506, [507]);
   (508, [509]); (510, [511]); (512, [513]); (514, [515]); (516, [517]); (518, [519]);
   (520, [521]); (522, [523]); (524, [525]); (526, [527]); (528, [529]); (530, [531]);
   (532, [533]); (534, [535]); (536, [537]); (538, [539]); (540, [541]); (542, [543]);
   (544, [414]); (546, [547]); (548, [549]); (550, [551]); (552, [553]); (554, [555]);
   (556, [557]); (558, [559]); (560, [561]); (562, [563]); (570, [11365]);
   (571, [572]); (573, [410]); (574, [11366]); (577, [578]); (579, [384]);
   (580, [649]); (581, [652]); (582, [583]); (584, [585]); (586, [587]); (588, [589]);
   (590, [591]); (880, [881]); (882, [883]); (886, [887]); (895, [1011]); (902, [940]);
   (904, [941]); (905, [942]); (906, [943]); (908, [972]); (910, [973]); (911, [974]);
   (913, [945]); (914, [946]); (915, [947]); (916, [948]); (917, [949]); (918, [950]);
   (919, [951]); (920, [952]); (921, [953]); (922, [954]); (923, [955]); (924, [956]);
   (925, [957]); (926, [958]); (927, [959]); (928, [960]); (929, [961]); (931, [963]);
   (932, [964]); (933, [965]); (934, [966]); (935, [967]); (936, [968]); (937, [969]);
   (938, [970]); (939, [971]); (975, [983]); (984, [985]); (986, [987]); (988, [989]);
   (990, [991]); (992, [993]); (994, [995]); (996, [997]); (998, [999]);
   (1000, [1001]); (1002, [1003]); (1004, [1005]); (1006, [1007]); (1012, [952]);
   (1015, [1016]); (1017, [1010]); (1018, [1019]); (1021, [891]); (1022, [892]);
   (1023, [893]); (1024, [1104]); (1025, [1105]); (1026, [1106]); (1027, [1107]);
   (1028, [1108]); (1029, [1109]); (1030, [1110]); (1031, [1111]); (1032, [1112]);
   (1033, [1113]); (1034, [1114]); (1035, [1115]); (1036, [1116]); (1037, [1117]);
   (1038, [1118]); (1039, [1119]); (1040, [1072]); (1041, [1073]); (1042, [1074]);
   (1043, [1075]); (1044, [1076]); (1045, [1077]); (1046, [1078]); (1047, [1079]);
   (1048, [1080]); (1049, [1081]); (1050, [1082]); (1051, [1083]); (1052, [1084]);
   (1053, [1085]); (1054, [1086]); (1055, [1087]); (1056, [1088]); (1057, [1089]);
   (1058, [1090]); (1059, [1091]); (1060, [1092]); (1061, [1093]); (1062, [1094]);
   (1063, [1095]); (1064, [1096]); (1065, [1097]); (1066, [1098]); (1067, [1099]);
   (1068, [1100]); (1069, [1101]); (1070, [1102]); (1071, [1103]); (1120, [1121]);
   (1122, [1123]); (1124, [1125]); (1126, [1127]); (1128, [1129]); (1130, [1131]);
   (1132, [1133]); (1134, [1135]); (1136, [1137]); (1138, [1139]); (1140, [1141]);
   (1142, [1143]); (1144, [1145]); (1146, [1147]); (1148, [1149]); (1150, [1151]);
   (1152, [1153]); (1162, [1163]); (1164, [1165]); (1166, [1167]); (1168, [1169]);
   (1170, [1171]); (1172, [1173]); (1174, [1175]); (1176, [1177]); (1178, [1179]);
   (1180, [1181]); (1182, [1183]); (1184, [1185]); (1186, [1187]); (1188, [1189]);
   (1190, [1191]); (1192, [1193]); (1194, [1195]); (1196, [1197]); (1198, [1199]);
   (1200, [1201]); (1202, [1203]); (1204, [1205]); (1206, [1207]); (1208, [1209]);
   (1210, [1211]); (1212, [1213]); (1214, [1215]); (1216, [1231]); (1217, [1218]);
   (1219, [1220]); (1221, [1222]); (1223, [1224]); (1225, [1226]); (1227, [1228]);
   (1229, [1230]); (1232, [1233]); (1234, [1235]); (1236, [1237]); (1238, [1239]);
   (1240, [1241]); (1242, [1243]); (1244, [1245]); (1246, [1247]); (1248, [1249]);
   (1250, [1251]); (1252, [1253]); (1254, [1255]); (1256, [1257]); (1258, [1259]);
   (1260, [1261]); (1262, [1263]); (1264, [1265]); (1266, [1267]); (1268, [1269]);
   (1270, [1271]); (1272, [1273]); (1274, [1275]); (1276, [1277]); (1278, [1279]);
   (1280, [1281]); (1282, [1283]); (1284, [1285]); (1286, [1287]); (1288, [1289]);
   (1290, [1291]); (1292, [1293]); (1294, [1295]); (1296, [1297]); (1298, [1299]);
   (1300, [1301]); (1302, [1303]); (1304, [1305]); (1306, [1307]); (1308, [1309]);
   (1310, [1311]); (1312, [1313]); (1314, [1315]); (1316, [1317]); (1318, [1319]);
   (1320, [1321]); (1322, [1323]); (1324, [1325]); (1326, [1327]); (1329, [1377]);
   (1330, [1378]); (1331, [1379]); (1332, [1380]); (1333, [1381]); (1334, [1382]);
   (1335, [1383]); (1336, [1384]); (1337, [1385]); (1338, [1386]); (1339, [1387]);
   (1340, [1388]); (1341, [1389]); (1342, [1390]); (1343, [1391]); (1344, [1392]);
   (1345, [1393]); (1346, [1394]); (1347, [1395]); (1348, [1396]); (1349, [1397]);
   (1350, [1398]); (1351, [1399]); (1352, [1400]); (1353, [1401]); (1354, [1402]);
   (1355, [1403]); (1356, [1404]); (1357, [1405]); (1358, [1406]); (1359, [1407]);
   (1360, [1408]); (1361, [1409]); (1362, [1410]); (1363, [1411]); (1364, [1412]);
   (1365, [1413]); (1366, [1414]); (4256, [11520]); (4257, [11521]); (4258, [11522]);
   (4259, [11523]); (4260, [11524]); (4261, [11525]); (4262, [11526]); (4263, [11527]);
   (4264, [11528]); (4265, [11529]); (4266, [11530]); (4267, [11531]); (4268, [11532]);
   (4269, [11533]); (4270, [11534]); (4271, [11535]); (4272, [11536]); (4273, [11537]);
   (4274, [11538]); (4275, [11539]); (4276, [11540]); (4277, [11541]); (4278, [11542]);
   (4279, [11543]); (4280, [11544]); (4281, [11545]); (4282, [11546]); (4283, [11547]);
   (4284, [11548]); (4285, [11549]); (4286, [11550]); (4287, [11551]); (4288, [11552]);
   (4289, [11553]); (4290, [11554]); (4291, [11555]); (4292, [11556]); (4293, [11557]);
   (4295, [11559]); (4301, [11565]); (5024, [43888]); (5025, [43889]); (5026, [43890]);
   (5027, [43891]); (5028, [43892]); (5029, [43893]); (5030, [43894]); (5031, [43895]);
   (5032, [43896]); (5033, [43897]); (5034, [43898]); (5035, [43899]); (5036, [43900]);
   (5037, [43901]); (5038, [43902]); (5039, [43903]); (5040, [43904]); (5041, [43905]);
   (5042, [43906]); (5043, [43907]); (5044, [43908]); (5045, [43909]); (5046, [43910]);
   (5047, [43911]); (5048, [43912]); (5049, [43913]); (5050, [43914]); (5051, [43915]);
   (5052, [43916]); (5053, [43917]); (5054, [43918]); (5055, [43919]); (5056, [43920]);
   (5057, [43921]); (5058, [43922]); (5059, [43923]); (5060, [43924]); (5061, [43925]);
   (5062, [43926]); (5063, [43927]); (5064, [43928]); (5065, [43929]); (5066, [43930]);
   (5067, [43931]); (5068, [43932]); (5069, [43933]); (5070, [43934]); (5071, [43935]);
   (5072, [43936]); (5073, [43937]); (5074, [43938]); (5075, [43939]); (5076, [43940]);
   (5077, [43941]); (5078, [43942]); (5079, [43943]); (5080, [43944]); (5081, [43945]);
   (5082, [43946]); (5083, [43947]); (5084, [43948]); (5085, [43949]); (5086, [43950]);
   (5087, [43951]); (5088, [43952]); (5089, [43953]); (5090, [43954]); (5091, [43955]);
   (5092, [43956]); (5093, [43957]); (5094, [43958]); (5095, [43959]); (5096, [43960]);
   (5097, [43961]); (5098, [43962]); (5099, [43963]); (5100, [43964]); (5101, [43965]);
   (5102, [43966]); (5103, [43967]); (5104, [5112]); (5105, [5113]); (5106, [5114]);
   (5107, [5115]); (5108, [5116]); (5109, [5117]); (7312, [4304]); (7313, [4305]);
   (7314, [4306]); (7315, [4307]); (7316, [4308]); (7317, [4309]); (7318, [4310]);
   (7319, [4311]); (7320, [4312]); (7321, [4313]); (7322, [4314]); (7323, [4315]);
   (7324, [4316]); (7325, [4317]); (7326, [4318]); (7327, [4319]); (7328, [4320]);
   (7329, [4321]); (7330, [4322]); (7331, [4323]); (7332, [4324]); (7333, [4325]);
   (7334, [4326]); (7335, [4327]); (7336, [4328]); (7337, [4329]); (7338, [4330]);
   (7339, [4331]); (7340, [4332]); (7341, [4333]); (7342, [4334]); (7343, [4335]);
   (7344, [4336]); (7345, [4337]); (7346, [4338]); (7347, [4339]); (7348, [4340]);
   (7349, [4341]); (7350, [4342]); (7351, [4343]); (7352, [4344]); (7353, [4345]);
   (7354, [4346]); (7357, [4349]); (7358, [4350]); (7359, [4351]); (7680, [7681]);
   (7682, [7683]); (7684, [7685]); (7686, [7687]); (7688, [7689]); (7690, [7691]);
   (7692, [7693]); (7694, [7695]); (7696, [7697]); (7698, [7699]); (7700, [7701]);
   (7702, [7703]); (7704, [7705]); (7706, [7707]); (7708, [7709]); (7710, [7711]);
   (7712, [7713]); (7714, [7715]); (7716, [7717]); (7718, [7719]); (7720, [7721]);
   (7722, [7723]); (7724, [7725]); (7726, [7727]); (7728, [7729]); (7730, [7731]);
   (7732, [7733]); (7734, [7735]); (7736, [7737]); (7738, [7739]); (7740, [7741]);
   (7742, [7743]); (7744, [7745]); (7746, [7747]); (7748, [7749]); (7750, [7751]);
   (7752, [7753]); (7754, [7755]); (7756, [7757]); (7758, [7759]); (7760, [7761]);
   (7762, [7763]); (7764, [7765]); (7766, [7767]); (7768, [7769]); (7770, [7771]);
   (7772, [7773]); (7774, [7775]); (7776, [7777]); (7778, [7779]); (7780, [7781]);
   (7782, [7783]); (7784, [7785]); (7786, [7787]); (7788, [7789]); (7790, [7791]);
   (7792, [7793]); (7794, [7795]); (7796, [7797]); (7798, [7799]); (7800, [7801]);
   (7802, [7803]); (7804, [7805]); (7806, [7807]); (7808, [7809]); (7810, [7811]);
   (7812, [7813]); (7814, [7815]); (7816, [7817]); (7818, [7819]); (7820, [7821]);
   (7822, [7823]); (7824, [7825]); (7826, [7827]); (7828, [7829]); (7838, [223]);
   (7840, [7841]); (7842, [7843]); (7844, [7845]); (7846, [7847]); (7848, [7849]);
   (7850, [7851]); (7852, [7853]); (7854, [7855]); (7856, [7857]); (7858, [7859]);
   (7860, [7861]); (7862, [7863]); (7864, [7865]); (7866, [7867]); (7868, [7869]);
   (7870, [7871]); (7872, [7873]); (7874, [7875]); (7876, [7877]); (7878, [7879]);
   (7880, [7881]); (7882, [7883]); (7884, [7885]); (7886, [7887]); (7888, [7889]);
   (7890, [7891]); (7892, [7893]); (7894, [7895]); (7896, [7897]); (7898, [7899]);
   (7900, [7901]); (7902, [7903]); (7904, [7905]); (7906, [7907]); (7908, [7909]);
   (7910, [7911]); (7912, [7913]); (7914, [7915]); (7916, [7917]); (7918, [7919]);
   (7920, [7921]); (7922, [7923]); (7924, [7925]); (7926, [7927]); (7928, [7929]);
   (7930, [7931]); (7932, [7933]); (7934, [7935]); (7944, [7936]); (7945, [7937]);
   (7946, [7938]); (7947, [7939]); (7948, [7940]); (7949, [7941]); (7950, [7942]);
   (7951, [7943]); (7960, [7952]); (7961, [7953]); (7962, [7954]); (7963, [7955]);
   (7964, [7956]); (7965, [7957]); (7976, [7968]); (7977, [7969]); (7978, [7970]);
   (7979, [7971]); (7980, [7972]); (7981, [7973]); (7982, [7974]); (7983, [7975]);
   (7992, [7984]); (7993, [7985]); (7994, [7986]); (7995, [7987]); (7996, [7988]);
   (7997, [7989]); (7998, [7990]); (7999, [7991]); (8008, [8000]); (8009, [8001]);
   (8010, [8002]); (8011, [8003]); (8012, [8004]); (8013, [8005]); (8025, [8017]);
   (8027, [8019]); (8029, [8021]); (8031, [8023]); (8040, [8032]); (8041, [8033]);
   (8042, [8034]); (8043, [8035]); (8044, [8036]); (8045, [8037]); (8046, [8038]);
   (8047, [8039]); (8072, [8064]); (8073, [8065]); (8074, [8066]); (8075, [8067]);
   (8076, [8068]); (8077, [8069]); (8078, [8070]); (8079, [8071]); (8088, [8080]);
   (8089, [8081]); (8090, [8082]); (8091, [8083]); (8092, [8084]); (8093, [8085]);
   (8094, [8086]); (8095, [8087]); (8104, [8096]); (8105, [8097]); (8106, [8098]);
   (8107, [8099]); (8108, [8100]); (8109, [8101]); (8110, [8102]); (8111, [8103]);
   (8120, [8112]); (8121, [8113]); (8122, [8048]); (8123, [8049]); (8124, [8115]);
   (8136, [8050]); (8137, [8051]); (8138, [8052]); (8139, [8053]); (8140, [8131]);
   (8152, [8144]); (8153, [8145]); (8154, [8054]); (8155, [8055]); (8168, [8160]);
   (8169, [8161]); (8170, [8058]); (8171, [8059]); (8172, [8165]); (8184, [8056]);
   (8185, [8057]); (8186, [8060]); (8187, [8061]); (8188, [8179]); (8486, [969]);
   (8490, [107]); (8491, [229]); (8498, [8526]); (8544, [8560]); (8545, [8561]);
   (8546, [8562]); (8547, [8563]); (8548, [8564]); (8549, [8565]); (8550, [8566]);
   (8551, [8567]); (8552, [8568]); (8553, [8569]); (8554, [8570]); (8555, [8571]);
   (8556, [8572]); (8557, [8573]); (8558, [8574]); (8559, [8575]); (8579, [8580]);
   (9398, [9424]); (9399, [9425]); (9400, [9426]); (9401, [9427]); (9402, [9428]);
   (9403, [9429]); (9404, [9430]); (9405, [9431]); (9406, [9432]); (9407, [9433]);
   (9408, [9434]); (9409, [9435]); (9410, [9436]); (9411, [9437]); (9412, [9438]);
   (9413, [9439]); (9414, [9440]); (9415, [9441]); (9416, [9442]); (9417, [9443]);
   (9418, [9444]); (9419, [9445]); (9420, [9446]); (9421, [9447]); (9422, [9448]);
   (9423, [9449]); (11264, [11312]); (11265, [11313]); (11266, [11314]);
   (11267, [11315]); (11268, [11316]); (11269, [11317]); (11270, [11318]);
   (11271, [11319]); (11272, [11320]); (11273, [11321]); (11274, [11322]);
   (11275, [11323]); (11276, [11324]); (11277, [11325]); (11278, [11326]);
   (11279, [11327]); (11280, [11328]); (11281, [11329]); (11282, [11330]);
   (11283, [11331]); (11284, [11332]); (11285, [11333]); (11286, [11334]);
   (11287, [11335]); (11288, [11336]); (11289, [11337]); (11290, [11338]);
   (11291, [11339]); (11292, [11340]); (11293, [11341]); (11294, [11342]);
   (11295, [11343]); (11296, [11344]); (11297, [11345]); (11298, [11346]);
   (11299, [11347]); (11300, [11348]); (11301, [11349]); (11302, [11350]);
   (11303, [11351]); (11304, [11352]); (11305, [11353]); (11306, [11354]);
   (11307, [11355]); (11308, [11356]); (11309, [11357]); (11310, [11358]);
   (11311, [11359]); (11360, [11361]); (11362, [619]); (11363, [7549]); (11364, [637]);
   (11367, [11368]); (11369, [11370]); (11371, [11372]); (11373, [593]);
   (11374, [625]); (11375, [592]); (11376, [594]); (11378, [11379]); (11381, [11382]);
   (11390, [575]); (11391, [576]); (11392, [11393]); (11394, [11395]);
   (11396, [11397]); (11398, [11399]); (11400, [11401]); (11402, [11403]);
   (11404, [11405]); (11406, [11407]); (11408, [11409]); (11410, [11411]);
   (11412, [11413]); (11414, [11415]); (11416, [11417]); (11418, [11419]);
   (11420, [11421]); (11422, [11423]); (11424, [11425]); (11426, [11427]);
   (11428, [11429]); (11430, [11431]); (11432, [11433]); (11434, [11435]);
   (11436, [11437]); (11438, [11439]); (11440, [11441]); (11442, [11443]);
   (11444, [11445]); (11446, [11447]); (11448, [11449]); (11450, [11451]);
   (11452, [11453]); (11454, [11455]); (11456, [11457]); (11458, [11459]);
   (11460, [11461]); (11462, [11463]); (11464, [11465]); (11466, [11467]);
   (11468, [11469]); (11470, [11471]); (11472, [11473]); (11474, [11475]);
   (11476, [11477]); (11478, [11479]); (11480, [11481]); (11482, [11483]);
   (11484, [11485]); (11486, [11487]); (11488, [11489]); (11490, [11491]);
   (11499, [11500]); (11501, [11502]); (11506, [11507]); (42560, [42561]);
   (42562, [42563]); (42564, [42565]); (42566, [42567]); (42568, [42569]);
   (42570, [42571]); (42572, [42573]); (42574, [42575]); (42576, [42577]);
   (42578, [42579]); (42580, [42581]); (42582, [42583]); (42584, [42585]);
   (42586, [42587]); (42588, [42589]); (42590, [42591]); (42592, [42593]);
   (42594, [42595]); (42596, [42597]); (42598, [42599]); (42600, [42601]);
   (42602, [42603]); (42604, [42605]); (42624, [42625]); (42626, [42627]);
   (42628, [42629]); (42630, [42631]); (42632, [42633]); (42634, [42635]);
   (42636, [42637]); (42638, [42639]); (42640, [42641]); (42642, [42643]);
   (42644, [42645]); (42646, [42647]); (42648, [42649]); (42650, [42651]);
   (42786, [42787]); (42788, [42789]); (42790, [42791]); (42792, [42793]);
   (42794, [42795]); (42796, [42797]); (42798, [42799]); (42802, [42803]);
   (42804, [42805]); (42806, [42807]); (42808, [42809]); (42810, [42811]);
   (42812, [42813]); (42814, [42815]); (42816, [42817]); (42818, [42819]);
   (42820, [42821]); (42822, [42823]); (42824, [42825]); (42826, [42827]);
   (42828, [42829]); (42830, [42831]); (42832, [42833]); (42834, [42835]);
   (42836, [42837]); (42838, [42839]); (42840, [42841]); (42842, [42843]);
   (42844, [42845]); (42846, [42847]); (42848, [42849]); (42850, [42851]);
   (42852, [42853]); (42854, [42855]); (42856, [42857]); (42858, [42859]);
   (42860, [42861]); (42862, [42863]); (42873, [42874]); (42875, [42876]);
   (42877, [7545]); (42878, [42879]); (42880, [42881]); (42882, [42883]);
   (42884, [42885]); (42886, [42887]); (42891, [42892]); (42893, [613]);
   (42896, [42897]); (42898, [42899]); (42902, [42903]); (42904, [42905]);
   (42906, [42907]); (42908, [42909]); (42910, [42911]); (42912, [42913]);
   (42914, [42915]); (42916, [42917]); (42918, [42919]); (42920, [42921]);
   (42922, [614]); (42923, [604]); (42924, [609]); (42925, [620]); (42926, [618]);
   (42928, [670]); (42929, [647]); (42930, [669]); (42931, [43859]); (42932, [42933]);
   (42934, [42935]); (42936, [42937]); (42938, [42939]); (42940, [42941]);
   (42942, [42943]); (42944, [42945]); (42946, [42947]); (42948, [42900]);
   (42949, [642]); (42950, [7566]); (42951, [42952]); (42953, [42954]);
   (42960, [42961]); (42966, [42967]); (42968, [42969]); (42997, [42998]);
   (65313, [65345]); (65314, [65346]); (65315, [65347]); (65316, [65348]);
   (65317, [65349]); (65318, [65350]); (65319, [65351]); (65320, [65352]);
   (65321, [65353]); (65322, [65354]); (65323, [65355]); (65324, [65356]);
   (65325, [65357]); (65326, [65358]); (65327, [65359]); (65328, [65360]);
   (65329, [65361]); (65330, [65362]); (65331, [65363]); (65332, [65364]);
   (65333, [65365]); (65334, [65366]); (65335, [65367]); (65336, [65368]);
   (65337, [65369]); (65338, [65370]); (66560, [66600]); (66561, [66601]);
   (66562, [66602]); (66563, [66603]); (66564, [66604]); (66565, [66605]);
   (66566, [66606]); (66567, [66607]); (66568, [66608]); (66569, [66609]);
   (66570, [66610]); (66571, [66611]); (66572, [66612]); (66573, [66613]);
   (66574, [66614]); (66575, [66615]); (66576, [66616]); (66577, [66617]);
   (66578, [66618]); (66579, [66619]); (66580, [66620]); (66581, [66621]);
   (66582, [66622]); (66583, [66623]); (66584, [66624]); (66585, [66625]);
   (66586, [66626]); (66587, [66627]); (66588, [66628]); (66589, [66629]);
   (66590, [66630]); (66591, [66631]); (66592, [66632]); (66593, [66633]);
   (66594, [66634]); (66595, [66635]); (66596, [66636]); (66597, [66637]);
   (66598, [66638]); (66599, [66639]); (66736, [66776]); (66737, [66777]);
   (66738, [66778]); (66739, [66779]); (66740, [66780]); (66741, [66781]);
   (66742, [66782]); (66743, [66783]); (66744, [66784]); (66745, [66785]);
   (66746, [66786]); (66747, [66787]); (66748, [66788]); (66749, [66789]);
   (66750, [66790]); (66751, [66791]); (66752, [66792]); (66753, [66793]);
   (66754, [66794]); (66755, [66795]); (66756, [66796]); (66757, [66797]);
   (66758, [66798]); (66759, [66799]); (66760, [66800]); (66761, [66801]);
   (66762, [66802]); (66763, [66803]); (66764, [66804]); (66765, [66805]);
   (66766, [66806]); (66767, [66807]); (66768, [66808]); (66769, [66809]);
   (66770, [66810]); (66771, [66811]); (66928, [66967]); (66929, [66968]);
   (66930, [66969]); (66931, [66970]); (66932, [66971]); (66933, [66972]);
   (66934, [66973]); (66935, [66974]); (66936, [66975]); (66937, [66976]);
   (66938, [66977]); (66940, [66979]); (66941, [66980]); (66942, [66981]);
   (66943, [66982]); (66944, [66983]); (66945, [66984]); (66946, [66985]);
   (66947, [66986]); (66948, [66987]); (66949, [66988]); (66950, [66989]);
   (66951, [66990]); (66952, [66991]); (66953, [66992]); (66954, [66993]);
   (66956, [66995]); (66957, [66996]); (66958, [66997]); (66959, [66998]);
   (66960, [66999]); (66961, [67000]); (66962, [67001]); (66964, [67003]);
   (66965, [67004]); (68736, [68800]); (68737, [68801]); (68738, [68802]);
   (68739, [68803]); (68740, [68804]); (68741, [68805]); (68742, [68806]);
   (68743, [68807]); (68744, [68808]); (68745, [68809]); (68746, [68810]);
   (68747, [68811]); (68748, [68812]); (68749, [68813]); (68750, [68814]);
   (68751, [68815]); (68752, [68816]); (68753, [68817]); (68754, [68818]);
   (68755, [68819]); (68756, [68820]); (68757, [68821]); (68758, [68822]);
   (68759, [68823]); (68760, [68824]); (68761, [68825]); (68762, [68826]);
   (68763, [68827]); (68764, [68828]); (68765, [68829]); (68766, [68830]);
   (68767, [68831]); (68768, [68832]); (68769, [68833]); (68770, [68834]);
   (68771, [68835]); (68772, [68836]); (68773, [68837]); (68774, [68838]);
   (68775, [68839]); (68776, [68840]); (68777, [68841]); (68778, [68842]);
   (68779, [68843]); (68780, [68844]); (68781, [68845]); (68782, [68846]);
   (68783, [68847]); (68784, [68848]); (68785, [68849]); (68786, [68850]);
   (71840, [71872]); (71841, [71873]); (71842, [71874]); (71843, [71875]);
   (71844, [71876]); (71845, [71877]); (71846, [71878]); (71847, [71879]);
   (71848, [71880]); (71849, [71881]); (71850, [71882]); (71851, [71883]);
   (71852, [71884]); (71853, [71885]); (71854, [71886]); (71855, [71887]);
   (71856, [71888]); (71857, [71889]); (71858, [71890]); (71859, [71891]);
   (71860, [71892]); (71861, [71893]); (71862, [71894]); (71863, [71895]);
   (71864, [71896]); (71865, [71897]); (71866, [71898]); (71867, [71899]);
   (71868, [71900]); (71869, [71901]); (71870, [71902]); (71871, [71903]);
   (93760, [93792]); (93761, [93793]); (93762, [93794]); (93763, [93795]);
   (93764, [93796]); (93765, [93797]); (93766, [93798]); (93767, [93799]);
   (93768, [93800]); (93769, [93801]); (93770, [93802]); (93771, [93803]);
   (93772, [93804]); (93773, [93805]); (93774, [93806]); (93775, [93807]);
   (93776, [93808]); (93777, [93809]); (93778, [93810]); (93779, [93811]);
   (93780, [93812]); (93781, [93813]); (93782, [93814]); (93783, [93815]);
   (93784, [93816]); (93785, [93817]); (93786, [93818]); (93787, [93819]);
   (93788, [93820]); (93789, [93821]); (93790, [93822]); (93791, [93823]);
   (125184, [125218]); (125185, [125219]); (125186, [125220]); (125187, [125221]);
   (125188, [125222]); (125189, [125223]); (125190, [125224]); (125191, [125225]);
   (125192, [125226]); (125193, [125227]); (125194, [125228]); (125195, [125229]);
   (125196, [125230]); (125197, [125231]); (125198, [125232]); (125199, [125233]);
   (125200, [125234]); (125201, [125235]); (125202, [125236]); (125203, [125237]);
   (125204, [125238]); (125205, [125239]); (125206, [125240]); (125207, [125241]);
   (125208, [125242]); (125209, [125243]); (125210, [125244]); (125211, [125245]);
   (125212, [125246]); (125213, [125247]); (125214, [125248]); (125215, [125249]);
   (125216, [125250]); (125217, [125251])].

(** The ranges of the property Cased (Lowercase, Uppercase, or general
    category Lt). *)
Definition Cased : list (Z * Z) :=
  [
   (65, 90); (97, 122); (170, 170); (181, 181); (186, 186); (192, 214); (216, 246);
   (248, 442); (444, 447); (452, 659); (661, 696); (704, 705); (736, 740); (837, 837);
   (880, 883); (886, 887); (890, 893); (895, 895); (902, 902); (904, 906); (908, 908);
   (910, 929); (931, 1013); (1015, 1153); (1162, 1327); (1329, 1366); (1376, 1416);
   (4256, 4293); (4295, 4295); (4301, 4301); (4304, 4346); (4349, 4351); (5024, 5109);
   (5112, 5117); (7296, 7304); (7312, 7354); (7357, 7359); (7424, 7615); (7680, 7957);
   (7960, 7965); (7968, 8005); (8008, 8013); (8016, 8023); (8025, 8025); (8027, 8027);
   (8029, 8029); (8031, 8061); (8064, 8116); (8118, 8124); (8126, 8126); (8130, 8132);
   (8134, 8140); (8144, 8147); (8150, 8155); (8160, 8172); (8178, 8180); (8182, 8188);
   (8305, 8305); (8319, 8319); (8336, 8348); (8450, 8450); (8455, 8455); (8458, 8467);
   (8469, 8469); (8473, 8477); (8484, 8484); (8486, 8486); (8488, 8488); (8490, 8493);
   (8495, 8500); (8505, 8505); (8508, 8511); (8517, 8521); (8526, 8526); (8544, 8575);
   (8579, 8580); (9398, 9449); (11264, 11492); (11499, 11502); (11506, 11507);
   (11520, 11557); (11559, 11559); (11565, 11565); (42560, 42605); (42624, 42653);
   (42786, 42887); (42891, 42894); (42896, 42954); (42960, 42961); (42963, 42963);
   (42965, 42969); (42997, 42998); (43000, 43002); (43824, 43866); (43868, 43880);
   (43888, 43967); (64256, 64262); (64275, 64279); (65313, 65338); (65345, 65370);
   (66560, 66639); (66736, 66771); (66776, 66811); (66928, 66938); (66940, 66954);
   (66956, 66962); (66964, 66965); (66967, 66977); (66979, 66993); (66995, 67001);
   (67003, 67004); (67456, 67456); (67459, 67461); (67463, 67504); (67506, 67514);
   (68736, 68786); (68800, 68850); (71840, 71903); (93760, 93823); (119808, 119892);
   (119894, 119964); (119966, 119967); (119970, 119970); (119973, 119974);
   (119977, 119980); (119982, 119993); (119995, 119995); (119997, 120003);
   (120005, 120069); (120071, 120074); (120077, 120084); (120086, 120092);
   (120094, 120121); (120123, 120126); (120128, 120132); (120134, 120134);
   (120138, 120144); (120146, 120485); (120488, 120512); (120514, 120538);
   (120540, 120570); (120572, 120596); (120598, 120628); (120630, 120654);
   (120656, 120686); (120688, 120712); (120714, 120744); (120746, 120770);
   (120772, 120779); (122624, 122633); (122635, 122654); (125184, 125251);
   (127280, 127305); (127312, 127337); (127344, 127369)].

(** The ranges of the property Case_Ignorable. *)
Definition Case_Ignorable : list (Z * Z) :=
  [
   (39, 39); (46, 46); (58, 58); (94, 94); (96, 96); (168, 168); (173, 173);
   (175, 175); (180, 180); (183, 184); (688, 879); (884, 885); (890, 890); (900, 901);
   (903, 903); (1155, 1161); (1369, 1369); (1375, 1375); (1425, 1469); (1471, 1471);
   (1473, 1474); (1476, 1477); (1479, 1479); (1524, 1524); (1536, 1541); (1552, 1562);
   (1564, 1564); (1600, 1600); (1611, 1631); (1648, 1648); (1750, 1757); (1759, 1768);
   (1770, 1773); (1807, 1807); (1809, 1809); (1840, 1866); (1958, 1968); (2027, 2037);
   (2042, 2042); (2045, 2045); (2070, 2093); (2137, 2139); (2184, 2184); (2192, 2193);
   (2200, 2207); (2249, 2306); (2362, 2362); (2364, 2364); (2369, 2376); (2381, 2381);
   (2385, 2391); (2402, 2403); (2417, 2417); (2433, 2433); (2492, 2492); (2497, 2500);
   (2509, 2509); (2530, 2531); (2558, 2558); (2561, 2562); (2620, 2620); (2625, 2626);
   (2631, 2632); (2635, 2637); (2641, 2641); (2672, 2673); (2677, 2677); (2689, 2690);
   (2748, 2748); (2753, 2757); (2759, 2760); (2765, 2765); (2786, 2787); (2810, 2815);
   (2817, 2817); (2876, 2876); (2879, 2879); (2881, 2884); (2893, 2893); (2901, 2902);
   (2914, 2915); (2946, 2946); (3008, 3008); (3021, 3021); (3072, 3072); (3076, 3076);
   (3132, 3132); (3134, 3136); (3142, 3144); (3146, 3149); (3157, 3158); (3170, 3171);
   (3201, 3201); (3260, 3260); (3263, 3263); (3270, 3270); (3276, 3277); (3298, 3299);
   (3328, 3329); (3387, 3388); (3393, 3396); (3405, 3405); (3426, 3427); (3457, 3457);
   (3530, 3530); (3538, 3540); (3542, 3542); (3633, 3633); (3636, 3642); (3654, 3662);
   (3761, 3761); (3764, 3772); (3782, 3782); (3784, 3789); (3864, 3865); (3893, 3893);
   (3895, 3895); (3897, 3897); (3953, 3966); (3968, 3972); (3974, 3975); (3981, 3991);
   (3993, 4028); (4038, 4038); (4141, 4144); (4146, 4151); (4153, 4154); (4157, 4158);
   (4184, 4185); (4190, 4192); (4209, 4212); (4226, 4226); (4229, 4230); (4237, 4237);
   (4253, 4253); (4348, 4348); (4957, 4959); (5906, 5908); (5938, 5939); (5970, 5971);
   (6002, 6003); (6068, 6069); (6071, 6077); (6086, 6086); (6089, 6099); (6103, 6103);
   (6109, 6109); (6155, 6159); (6211, 6211); (6277, 6278); (6313, 6313); (6432, 6434);
   (6439, 6440); (6450, 6450); (6457, 6459); (6679, 6680); (6683, 6683); (6742, 6742);
   (6744, 6750); (6752, 6752); (6754, 6754); (6757, 6764); (6771, 6780); (6783, 6783);
   (6823, 6823); (6832, 6862); (6912, 6915); (6964, 6964); (6966, 6970); (6972, 6972);
   (6978, 6978); (7019, 7027); (7040, 7041); (7074, 7077); (7080, 7081); (7083, 7085);
   (7142, 7142); (7144, 7145); (7149, 7149); (7151, 7153); (7212, 7219); (7222, 7223);
   (7288, 7293); (7376, 7378); (7380, 7392); (7394, 7400); (7405, 7405); (7412, 7412);
   (7416, 7417); (7468, 7530); (7544, 7544); (7579, 7679); (8125, 8125); (8127, 8129);
   (8141, 8143); (8157, 8159); (8173, 8175); (8189, 8190); (8203, 8207); (8216, 8217);
   (8228, 8228); (8231, 8231); (8234, 8238); (8288, 8292); (8294, 8303); (8305, 8305);
   (8319, 8319); (8336, 8348); (8400, 8432); (11388, 11389); (11503, 11505);
   (11631, 11631); (11647, 11647); (11744, 11775); (11823, 11823); (12293, 12293);
   (12330, 12333); (12337, 12341); (12347, 12347); (12441, 12446); (12540, 12542);
   (40981, 40981); (42232, 42237); (42508, 42508); (42607, 42610); (42612, 42621);
   (42623, 42623); (42652, 42655); (42736, 42737); (42752, 42785); (42864, 42864);
   (42888, 42890); (42994, 42996); (43000, 43001); (43010, 43010); (43014, 43014);
   (43019, 43019); (43045, 43046); (43052, 43052); (43204, 43205); (43232, 43249);
   (43263, 43263); (43302, 43309); (43335, 43345); (43392, 43394); (43443, 43443);
   (43446, 43449); (43452, 43453); (43471, 43471); (43493, 43494); (43561, 43566);
   (43569, 43570); (43573, 43574); (43587, 43587); (43596, 43596); (43632, 43632);
   (43644, 43644); (43696, 43696); (43698, 43700); (43703, 43704); (43710, 43711);
   (43713, 43713); (43741, 43741); (43756, 43757); (43763, 43764); (43766, 43766);
   (43867, 43871); (43881, 43883); (44005, 44005); (44008, 44008); (44013, 44013);
   (64286, 64286); (64434, 64450); (65024, 65039); (65043, 65043); (65056, 65071);
   (65106, 65106); (65109, 65109); (65279, 65279); (65287, 65287); (65294, 65294);
   (65306, 65306); (65342, 65342); (65344, 65344); (65392, 65392); (65438, 65439);
   (65507, 65507); (65529, 65531); (66045, 66045); (66272, 66272); (66422, 66426);
   (67456, 67461); (67463, 67504); (67506, 67514); (68097, 68099); (68101, 68102);
   (68108, 68111); (68152, 68154); (68159, 68159); (68325, 68326); (68900, 68903);
   (69291, 69292); (69446, 69456); (69506, 69509); (69633, 69633); (69688, 69702);
   (69744, 69744); (69747, 69748); (69759, 69761); (69811, 69814); (69817, 69818);
   (69821, 69821); (69826, 69826); (69837, 69837); (69888, 69890); (69927, 69931);
   (69933, 69940); (70003, 70003); (70016, 70017); (70070, 70078); (70089, 70092);
   (70095, 70095); (70191, 70193); (70196, 70196); (70198, 70199); (70206, 70206);
   (70367, 70367); (70371, 70378); (70400, 70401); (70459, 70460); (70464, 70464);
   (70502, 70508); (70512, 70516); (70712, 70719); (70722, 70724); (70726, 70726);
   (70750, 70750); (70835, 70840); (70842, 70842); (70847, 70848); (70850, 70851);
   (71090, 71093); (71100, 71101); (71103, 71104); (71132, 71133); (71219, 71226);
   (71229, 71229); (71231, 71232); (71339, 71339); (71341, 71341); (71344, 71349);
   (71351, 71351); (71453, 71455); (71458, 71461); (71463, 71467); (71727, 71735);
   (71737, 71738); (71995, 71996); (71998, 71998); (72003, 72003); (72148, 72151);
   (72154, 72155); (72160, 72160); (72193, 72202); (72243, 72248); (72251, 72254);
   (72263, 72263); (72273, 72278); (72281, 72283); (72330, 72342); (72344, 72345);
   (72752, 72758); (72760, 72765); (72767, 72767); (72850, 72871); (72874, 72880);
   (72882, 72883); (72885, 72886); (73009, 73014); (73018, 73018); (73020, 73021);
   (73023, 73029); (73031, 73031); (73104, 73105); (73109, 73109); (73111, 73111);
   (73459, 73460); (78896, 78904); (92912, 92916); (92976, 92982); (92992, 92995);
   (94031, 94031); (94095, 94111); (94176, 94177); (94179, 94180); (110576, 110579);
   (110581, 110587); (110589, 110590); (113821, 113822); (113824, 113827);
   (118528, 118573); (118576, 118598); (119143, 119145); (119155, 119170);
   (119173, 119179); (119210, 119213); (119362, 119364); (121344, 121398);
   (121403, 121452); (121461, 121461); (121476, 121476); (121499, 121503);
   (121505, 121519); (122880, 122886); (122888, 122904); (122907, 122913);
   (122915, 122916); (122918, 122922); (123184, 123197); (123566, 123566);
   (123628, 123631); (125136, 125142); (125252, 125259); (127995, 127999);
   (917505, 917505); (917536, 917631); (917760, 917999)].

Fixpoint assoc (c : Z) (t : list (Z * list Z)) : option (list Z) :=
  match t with
  | [] => None
  | (k, v) :: t' => if c =? k then Some v else assoc c t'
  end.

Definition in_ranges (c : Z) (rs : list (Z * Z)) : bool :=
  existsb (fun r => (fst r <=? c) && (c <=? snd r)) rs.

Definition cased (c : Z) : bool := in_ranges c Cased.
Definition case_ignorable (c : Z) : bool := in_ranges c Case_Ignorable.

(** The full lower-case mapping of one code point, out of context. *)
Definition lower_full (c : Z) : list Z :=
  match assoc c lower_table with
  | Some l => l
  | None => [c]
  end.

(** The first code point of [l] that is not case-ignorable exists and is
    cased. *)
Fixpoint cased_first (l : list Z) : bool :=
  match l with
  | [] => false
  | c :: l' => if case_ignorable c then cased_first l' else cased c
  end.

(** The capital sigma, 931, is in final position when a cased letter comes
    before it and none after it, case-ignorable code points skipped;
    [before] lists the code points before it, nearest first. *)
Definition final_sigma (before after : list Z) : bool :=
  cased_first before && negb (cased_first after).

(** [str.lower]: the capital sigma becomes the final small sigma, 962, in
    final position and the small sigma, 963, elsewhere; every other code
    point has its full lower-case mapping. *)
Fixpoint lower_from (before : list Z) (s : list Z) : list Z :=
  match s with
  | [] => []
  | c :: s' =>
      (if c =? 931
       then [if final_sigma before s' then 962 else 963]
       else lower_full c)
      ++ lower_from (c :: before) s'
  end.

Definition lower (s : list Z) : list Z := lower_from [] s.

Fixpoint lstrip (l : list Z) : list Z :=
  match l with
  | [] => []
  | c :: l' => if isspace c then lstrip l' else l
  end.

Definition rstrip (l : list Z) : list Z := rev (lstrip (rev l)).

(** [s.strip()] *)
Definition strip (l : list Z) : list Z := rstrip (lstrip l).

(** The pieces between whitespace characters, empty pieces included. *)
Fixpoint fields (l : list Z) : list (list Z) :=
  match l with
  | [] => [[]]
  | c :: l' =>
      if isspace c then [] :: fields l'
      else match fields l' with
           | w :: ws => (c :: w) :: ws
           | [] => [[c]]
           end
  end.

Definition nonempty (w : list Z) : bool :=
  match w with [] => false | _ => true end.

(** [s.split()] without arguments: maximal runs of non-whitespace. *)
Definition split (l : list Z) : list (list Z) := List.filter nonempty (fields l).

(** [sep.join(ws)] *)
Fixpoint join (sep : list Z) (ws : list (list Z)) : list Z :=
  match ws with
  | [] => []
  | [w] => w
  | w :: ws' => w ++ sep ++ join sep ws'
  end.

(** [x or ""] *)
Definition or_empty (o : option (list Z)) : list Z :=
  match o with Some s => s | None => [] end.

(** A surrogate code point, 0xD800..0xDFFF. *)
Definition surrogate (c : Z) : bool := (55296 <=? c) && (c <=? 57343).

Definition utf8_char (c : Z) : list Z :=
  if c <? 128 then [c]
  else if c <? 2048 then [192 + c / 64; 128 + c mod 64]
  else if c <? 65536 then [224 + c / 4096; 128 + (c / 64) mod 64; 128 + c mod 64]
  else [240 + c / 262144; 128 + (c / 4096) mod 64; 128 + (c / 64) mod 64;
        128 + c mod 64].

(** [s.encode("utf-8")]: a string that holds a surrogate is refused.  The
    message of the source names the code point and its position. *)
Definition encode_utf8 (s : list Z) : result (list Z) :=
  if existsb surrogate s
  then Raise (Exn "UnicodeEncodeError" "'utf-8' codec can't encode: surrogates not allowed")
  else Ok (flat_map utf8_char s).

(** models.py, lines 9-17 *)
Definition norm_text (text : option (list Z)) : list Z :=
  lower (join [32] (split (strip (or_empty text)))).

Definition norm_author (author_name : option (list Z)) : list Z :=
  lower (strip (or_empty author_name)).

Definition compute_quote_hash (text author_name : option (list Z)) : result string :=
  let payload := norm_text text ++ [124] ++ norm_author author_name in
  match encode_utf8 payload with
  | Ok bytes => Ok (Sha256.hexdigest (Sha256.sha256 bytes))
  | Raise e => Raise e
  end.

(** [a == b] *)
Fixpoint eqb (a b : list Z) : bool :=
  match a, b with
  | [], [] => true
  | x :: a', y :: b' => (x =? y) && eqb a' b'
  | _, _ => false
  end.

(** A string of the code points below 256, as a list of code points. *)
Definition of_string (s : string) : list Z := map PyStr.code (PyStr.chars s).

End Unicode.
(** ** bs4: a parsed document as seen through the selector interface *)

Module Tag.

(** A tag carries its rendered text ([get_text(separator=" ", strip=True)]),
    its [.string] (the code points of it), its attributes, and for each
    selector the descendants the selector matches, in document order. *)
#[local] Unset Elimination Schemes.
Inductive t : Type :=
| mk (text : string) (string_ : option (list Z))
     (attrs : list (string * string)) (matches : list (string * list t)).
#[local] Set Elimination Schemes.

Definition get_text (n : t) : string := let 'mk x _ _ _ := n in x.
Definition string_ (n : t) : option (list Z) := let 'mk _ x _ _ := n in x.
Definition attrs (n : t) : list (string * string) := let 'mk _ _ x _ := n in x.
Definition matches (n : t) : list (string * list t) := let 'mk _ _ _ x := n in x.

Fixpoint assoc {V} (k : string) (l : list (string * V)) : option V :=
  match l with
  | [] => None
  | (k', v) :: l' => if String.eqb k k' then Some v else assoc k l'
  end.

(** [tag.get(name)] *)
Definition get (n : t) (name : string) : option string := assoc name (attrs n).

(** [tag.select(css)] *)
Definition select (n : t) (css : string) : list t :=
  match assoc css (matches n) with Some l => l | None => [] end.

(** [tag.select_one(css)] *)
Definition select_one (n : t) (css : string) : option t := head (select n css).

(** [soup.find("a", string=pred)]: the first [a] whose [.string] passes. *)
Definition find_a (n : t) (pred : option (list Z) -> bool) : option t :=
  List.find (fun a => pred (string_ a)) (select n "a").

End Tag.

(** ** models.py: the entities *)

Module ScrapeSite.
Record t := mk {
  pk : nat;
  name : string;
  base_url : string;
  start_path : string;
  quote_selector : string;
  author_selector : string;
  pagination_selector : string;
  max_pages : nat;
  rate_limit_ms : nat;
  active : bool }.
End ScrapeSite.

Module Author.
Record t := mk { pk : nat; name : string; bio_url : option string }.
End Author.

Module ScrapeJob.

Inductive Status := PENDING | RUNNING | SUCCESS | PARTIAL | FAILED.

Record t := mk {
  pk : string;
  site : ScrapeSite.t;
  status : Status;
  started_at : option Z;
  finished_at : option Z;
  quotes_fetched : Z;
  quotes_saved : Z;
  errors_count : Z;
  initiator : string }.

(** Attribute assignment, one setter per attribute the code writes. *)
Definition set_pk (v : string) (j : t) : t :=
  mk v (site j) (status j) (started_at j) (finished_at j)
     (quotes_fetched j) (quotes_saved j) (errors_count j) (initiator j).
Definition set_status (v : Status) (j : t) : t :=
  mk (pk j) (site j) v (started_at j) (finished_at j)
     (quotes_fetched j) (quotes_saved j) (errors_count j) (initiator j).
Definition set_started_at (v : option Z) (j : t) : t :=
  mk (pk j) (site j) (status j) v (finished_at j)
     (quotes_fetched j) (quotes_saved j) (errors_count j) (initiator j).
Definition set_finished_at (v : option Z) (j : t) : t :=
  mk (pk j) (site j) (status j) (started_at j) v
     (quotes_fetched j) (quotes_saved j) (errors_count j) (initiator j).
Definition set_quotes_fetched (v : Z) (j : t) : t :=
  mk (pk j) (site j) (status j) (started_at j) (finished_at j)
     v (quotes_saved j) (errors_count j) (initiator j).
Definition set_quotes_saved (v : Z) (j : t) : t :=
  mk (pk j) (site j) (status j) (started_at j) (finished_at j)
     (quotes_fetched j) v (errors_count j) (initiator j).
Definition set_errors_count (v : Z) (j : t) : t :=
  mk (pk j) (site j) (status j) (started_at j) (finished_at j)
     (quotes_fetched j) (quotes_saved j) v (initiator j).

(** [save(update_fields=...)] writes the listed columns of the instance
    into the stored row; [updated_at] is not modelled. *)
Definition copy_field (field : string) (self row : t) : t :=
  if String.eqb field "status" then set_status (status self) row
  else if String.eqb field "started_at" then set_started_at (started_at self) row
  else if String.eqb field "finished_at" then set_finished_at (finished_at self) row
  else if String.eqb field "quotes_fetched" then set_quotes_fetched (quotes_fetched self) row
  else if String.eqb field "quotes_saved" then set_quotes_saved (quotes_saved self) row
  else if String.eqb field "errors_count" then set_errors_count (errors_count self) row
  else row.

Definition copy_fields (fields : list string) (self row : t) : t :=
  fold_left (fun r f => copy_field f self r) fields row.

(** A row as a serializer creates it: PENDING, counters at their defaults. *)
Definition fresh (job_id : string) (s : ScrapeSite.t) : t :=
  mk job_id s PENDING None None 0 0 0 "api".

End ScrapeJob.

Module ScrapeError.
Record t := mk {
  job : string;
  url : option string;
  error_type : string;
  message : string;
  traceback : option string }.
End ScrapeError.

Module Quote.
Record t := mk {
  text : string;
  author : option Author.t;
  site : nat;
  source_url : option string;
  hash : string;
  saved_by_job : option string }.

Definition set_hash (v : string) (q : t) : t :=
  mk (text q) (author q) (site q) (source_url q) v (saved_by_job q).
End Quote.

(** ** The store and the environment *)

(** The tables, and the bookkeeping of the environment: [tick] counts the
    database statements issued so far, [clock] is [timezone.now()] in
    milliseconds, [requests_log] lists the URLs handed to [requests.get]. *)
Record Store := mkStore {
  jobs : gmap string ScrapeJob.t;
  authors : list Author.t;
  quotes : list Quote.t;
  scrape_errors : list ScrapeError.t;
  tick : nat;
  clock : Z;
  requests_log : list string }.

Definition set_jobs (v : gmap string ScrapeJob.t) (s : Store) : Store :=
  mkStore v (authors s) (quotes s) (scrape_errors s) (tick s) (clock s) (requests_log s).
Definition set_authors (v : list Author.t) (s : Store) : Store :=
  mkStore (jobs s) v (quotes s) (scrape_errors s) (tick s) (clock s) (requests_log s).
Definition set_quotes (v : list Quote.t) (s : Store) : Store :=
  mkStore (jobs s) (authors s) v (scrape_errors s) (tick s) (clock s) (requests_log s).
Definition set_scrape_errors (v : list ScrapeError.t) (s : Store) : Store :=
  mkStore (jobs s) (authors s) (quotes s) v (tick s) (clock s) (requests_log s).
Definition set_tick (v : nat) (s : Store) : Store :=
  mkStore (jobs s) (authors s) (quotes s) (scrape_errors s) v (clock s) (requests_log s).
Definition set_clock (v : Z) (s : Store) : Store :=
  mkStore (jobs s) (authors s) (quotes s) (scrape_errors s) (tick s) v (requests_log s).
Definition set_requests_log (v : list string) (s : Store) : Store :=
  mkStore (jobs s) (authors s) (quotes s) (scrape_errors s) (tick s) (clock s) v.

(** What the code cannot control.  [requests_get u] is [requests.get(u)]
    followed by [raise_for_status()]: the body text, or the exception.
    [urljoin] and [urlparse_path] give what the calls of urllib return when
    they return; which of them raise is told apart, by [Raises] below.
    [faults n] is the exception, if any, that database statement number [n]
    raises (connection loss, lock timeout, data error); [rivals n] are the
    quote rows other workers commit just before statement [n]. *)
Record World := mkWorld {
  requests_get : string -> result string;
  BeautifulSoup : string -> Tag.t;
  urljoin : string -> string -> string;
  urlparse_path : string -> string;
  faults : nat -> option exn;
  rivals : nat -> list Quote.t }.

(** A Python computation with local variables [L]: it runs on the locals
    and the store, and ends with a value or a raised exception.  The state
    reached when an exception is raised is kept: handlers run from it. *)
Definition Py (L A : Type) : Type := L * Store -> result A * (L * Store).

Definition ret {L A} (a : A) : Py L A := fun s => (Ok a, s).

Definition bind {L A B} (m : Py L A) (k : A -> Py L B) : Py L B :=
  fun s => match m s with
           | (Ok a, s') => k a s'
           | (Raise e, s') => (Raise e, s')
           end.

Definition raise {L A} (e : exn) : Py L A := fun s => (Raise e, s).

(** [try: m  except Exception as e: h e] *)
Definition try_except {L A} (m : Py L A) (h : exn -> Py L A) : Py L A :=
  fun s => match m s with
           | (Ok a, s') => (Ok a, s')
           | (Raise e, s') => h e s'
           end.

Declare Scope py_scope.
Delimit Scope py_scope with py.
Notation "x <- m ;; k" := (bind m (fun x => k))
  (at level 100, m at next level, k at level 200, right associativity) : py_scope.
Notation "m ;; k" := (bind m (fun _ => k))
  (at level 100, k at level 200, right associativity) : py_scope.
Local Open Scope py_scope.

Definition locals {L} : Py L L := fun s => (Ok (fst s), s).
Definition store {L} : Py L Store := fun s => (Ok (snd s), s).
Definition assign {L} (f : L -> L) : Py L unit := fun s => (Ok tt, (f (fst s), snd s)).
Definition update {L} (f : Store -> Store) : Py L unit :=
  fun s => (Ok tt, (fst s, f (snd s))).

(** Run [m] with locals [l0]; its locals are dropped on exit. *)
Definition call {L L' A} (l0 : L') (m : Py L' A) : Py L A :=
  fun s => let '(r, (_, st)) := m (l0, snd s) in (r, (fst s, st)).

(** Run a method on the object held in the locals: [get] reads it, [put]
    writes the (possibly mutated) object back. *)
Definition method {L A} (get : L -> ScrapeJob.t) (put : ScrapeJob.t -> L -> L)
    (m : Py ScrapeJob.t A) : Py L A :=
  fun s => let '(r, (self, st)) := m (get (fst s), snd s) in
           (r, (put self (fst s), st)).

(** ** The database *)

Definition hash_exists (h : string) (qs : list Quote.t) : bool :=
  existsb (fun q => String.eqb (Quote.hash q) h) qs.

(** Another worker's insert: refused by the unique index when the hash is
    already stored. *)
Definition commit_rival (qs : list Quote.t) (q : Quote.t) : list Quote.t :=
  if hash_exists (Quote.hash q) qs then qs else qs ++ [q].

Definition commit_rivals (rs : list Quote.t) (qs : list Quote.t) : list Quote.t :=
  fold_left commit_rival rs qs.

(** One database statement: what other workers committed becomes visible,
    the statement is counted, and it either fails or runs. *)
Definition arrive (w : World) (st : Store) : Store :=
  set_tick (S (tick st))
    (set_quotes (commit_rivals (rivals w (tick st)) (quotes st)) st).

Definition statement {L A} (w : World) (body : Store -> result A * Store) : Py L A :=
  fun s =>
    let st := snd s in
    match faults w (tick st) with
    | Some e => (Raise e, (fst s, arrive w st))
    | None => let '(r, st2) := body (arrive w st) in (r, (fst s, st2))
    end.

(** The commits of other workers between statements [t0] and [t1]. *)
Definition replay (w : World) (t0 t1 : nat) (qs : list Quote.t) : list Quote.t :=
  fold_left (fun qs n => commit_rivals (rivals w n) qs) (seq t0 (t1 - t0)) qs.

(** Rolling back to [st0]: the writes of the block are undone, the commits
    of other workers stay. *)
Definition rollback (w : World) (st0 st1 : Store) : Store :=
  set_jobs (jobs st0)
    (set_authors (authors st0)
       (set_scrape_errors (scrape_errors st0)
          (set_quotes (replay w (tick st0) (tick st1) (quotes st0)) st1))).

(** [with transaction.atomic(): m]: the writes of a block that raises are
    rolled back.  The COMMIT at the end of a block that returns is taken to
    succeed. *)
Definition atomic {L A} (w : World) (m : Py L A) : Py L A :=
  fun s => match m s with
           | (Ok a, s') => (Ok a, s')
           | (Raise e, s') => (Raise e, (fst s', rollback w (snd s) (snd s')))
           end.

(** [timezone.now()] *)
Definition now {L} : Py L Z := st <- store ;; ret (clock st).

(** [time.sleep(ms / 1000.0)] *)
Definition sleep_ms {L} (ms : nat) : Py L unit :=
  update (fun st => set_clock (clock st + Z.of_nat ms) st).

(** [ScrapeJob.objects...get(pk=job_id)]: the instance built from the row
    stored under [job_id]; its primary key is [job_id]. *)
Definition ScrapeJob_get {L} (w : World) (job_id : string) : Py L ScrapeJob.t :=
  statement w (fun st =>
    match jobs st !! job_id with
    | Some row => (Ok (ScrapeJob.set_pk job_id row), st)
    | None => (Raise (Exn "DoesNotExist" "ScrapeJob matching query does not exist."), st)
    end).

(** [job.save(update_fields=fields)]: an UPDATE of the row with [job]'s
    primary key. *)
Definition ScrapeJob_save {L} (w : World) (job : ScrapeJob.t) (fields : list string)
  : Py L unit :=
  statement w (fun st =>
    match jobs st !! ScrapeJob.pk job with
    | Some row =>
        (Ok tt, set_jobs (<[ScrapeJob.pk job := ScrapeJob.copy_fields fields job row]>
                            (jobs st)) st)
    | None => (Raise (Exn "DatabaseError"
                          "Save with update_fields did not affect any rows."), st)
    end).

(** [ScrapeError.objects.create(...)] *)
Definition ScrapeError_create {L} (w : World) (job : ScrapeJob.t) (url : option string)
    (error_type message : string) : Py L unit :=
  statement w (fun st =>
    (Ok tt, set_scrape_errors
              (scrape_errors st
               ++ [ScrapeError.mk (ScrapeJob.pk job) url error_type message None]) st)).

(** [Author.objects.get_or_create(name=name)]: a lookup, then an insert when
    the lookup finds nothing. *)
Definition Author_get_or_create {L} (w : World) (name : string)
  : Py L (Author.t * bool) :=
  found <- statement w (fun st =>
    (Ok (List.find (fun a => String.eqb (Author.name a) name) (authors st)), st)) ;;
  match found with
  | Some a => ret (a, false)
  | None =>
      a <- statement w (fun st =>
        let a := Author.mk (S (length (authors st))) name None in
        (Ok a, set_authors (authors st ++ [a]) st)) ;;
      ret (a, true)
  end.

(** [Quote.objects.filter(hash=h).exists()] *)
Definition Quote_exists {L} (w : World) (h : string) : Py L bool :=
  statement w (fun st => (Ok (hash_exists h (quotes st)), st)).

(** The INSERT behind [Quote.save]: the unique index on [hash] refuses a
    second row with a stored hash. *)
Definition Quote_insert {L} (w : World) (q : Quote.t) : Py L unit :=
  statement w (fun st =>
    if hash_exists (Quote.hash q) (quotes st)
    then (Raise (Exn "IntegrityError"
                     "duplicate key value violates unique constraint on hash"), st)
    else (Ok tt, set_quotes (quotes st ++ [q]) st)).

(** ** models.py: the methods *)

(** [ScrapeJob.mark_running] *)
Definition mark_running (w : World) : Py ScrapeJob.t unit :=
  assign (ScrapeJob.set_status ScrapeJob.RUNNING) ;;
  t <- now ;;
  assign (ScrapeJob.set_started_at (Some t)) ;;
  self <- locals ;;
  ScrapeJob_save w self ["status"; "started_at"; "updated_at"]%string.

(** [ScrapeJob.mark_finished] *)
Definition mark_finished (w : World) (success : bool) : Py ScrapeJob.t unit :=
  t <- now ;;
  assign (ScrapeJob.set_finished_at (Some t)) ;;
  self <- locals ;;
  (if negb success then
     assign (ScrapeJob.set_status ScrapeJob.FAILED)
   else if (0 <? ScrapeJob.errors_count self) && (0 <? ScrapeJob.quotes_saved self) then
     assign (ScrapeJob.set_status ScrapeJob.PARTIAL)
   else if 0 <? ScrapeJob.quotes_saved self then
     assign (ScrapeJob.set_status ScrapeJob.SUCCESS)
   else
     assign (ScrapeJob.set_status ScrapeJob.FAILED)) ;;
  self <- locals ;;
  ScrapeJob_save w self ["status"; "finished_at"; "updated_at"]%string.

(** [ScrapeJob.increment_counters]: the row is read again and the sums are
    written to the row; [self] is left as it was. *)
Definition increment_counters (w : World) (fetched saved errors : Z)
  : Py ScrapeJob.t unit :=
  self <- locals ;;
  atomic w (
    job <- ScrapeJob_get w (ScrapeJob.pk self) ;;
    let job := ScrapeJob.set_quotes_fetched (ScrapeJob.quotes_fetched job + fetched) job in
    let job := ScrapeJob.set_quotes_saved (ScrapeJob.quotes_saved job + saved) job in
    let job := ScrapeJob.set_errors_count (ScrapeJob.errors_count job + errors) job in
    ScrapeJob_save w job
      ["quotes_fetched"; "quotes_saved"; "errors_count"; "updated_at"]%string).

(** [Quote.save] *)
Definition Quote_save {L} (w : World) (self : Quote.t) : Py L Quote.t :=
  let self :=
    if negb (PyStr.truthy (Quote.hash self)) then
      let author_name :=
        match Quote.author self with
        | Some a => Author.name a
        | None => EmptyString
        end in
      Quote.set_hash (compute_quote_hash (Some (Quote.text self)) (Some author_name)) self
    else self in
  Quote_insert w self ;;
  ret self.

(** [Quote.objects.create]: build the instance, then [save] it. *)
Definition Quote_create {L} (w : World) (text : string) (author : option Author.t)
    (site : ScrapeSite.t) (source_url : option string) (hash : string)
    (saved_by_job : option string) : Py L Quote.t :=
  Quote_save w (Quote.mk text author (ScrapeSite.pk site) source_url hash saved_by_job).

(** ** tasks.py: scrape_site *)

(** Truth value of an optional string ([None] and the empty string are false). *)
Definition truthy_opt (o : option string) : bool :=
  match o with Some s => PyStr.truthy s | None => false end.

(** [a or b] on optional strings. *)
Definition py_or (a b : option string) : option string :=
  if truthy_opt a then a else b.

(** The local variables of [scrape_site]. *)
Record Frame := mkFrame {
  job : ScrapeJob.t;
  pages_scraped : list string;
  saved : Z;
  fetched : Z;
  errors : Z;
  next_url : option string }.

Definition set_job (v : ScrapeJob.t) (f : Frame) : Frame :=
  mkFrame v (pages_scraped f) (saved f) (fetched f) (errors f) (next_url f).
Definition set_pages_scraped (v : list string) (f : Frame) : Frame :=
  mkFrame (job f) v (saved f) (fetched f) (errors f) (next_url f).
Definition set_saved (v : Z) (f : Frame) : Frame :=
  mkFrame (job f) (pages_scraped f) v (fetched f) (errors f) (next_url f).
Definition set_fetched (v : Z) (f : Frame) : Frame :=
  mkFrame (job f) (pages_scraped f) (saved f) v (errors f) (next_url f).
Definition set_errors (v : Z) (f : Frame) : Frame :=
  mkFrame (job f) (pages_scraped f) (saved f) (fetched f) v (next_url f).
Definition set_next_url (v : option string) (f : Frame) : Frame :=
  mkFrame (job f) (pages_scraped f) (saved f) (fetched f) (errors f) v.

(** [requests.get(url, ...)] and [resp.raise_for_status()]; yields [resp.text]. *)
Definition fetch_page {L} (w : World) (url : string) : Py L string :=
  update (fun st => set_requests_log (requests_log st ++ [url]) st) ;;
  match requests_get w url with
  | Ok text => ret text
  | Raise e => raise e
  end.

(** Lines 88-95: the author of the quote node at index [i]. *)
Definition resolve_author_name (site : ScrapeSite.t) (author_nodes : list Tag.t)
    (i : nat) (qnode : Tag.t) : option string :=
  if negb (Nat.eqb (length author_nodes) 0) && (i <? length author_nodes)%nat then
    match author_nodes !! i with
    | Some a => Some (Tag.get_text a)
    | None => None
    end
  else
    let possible :=
      if PyStr.truthy (ScrapeSite.author_selector site)
      then Tag.select_one qnode (ScrapeSite.author_selector site)
      else None in
    match possible with
    | Some p => Some (Tag.get_text p)
    | None => None
    end.

(** Lines 98-112: the atomic block that stores one candidate. *)
Definition save_candidate (w : World) (site : ScrapeSite.t) (text : string)
    (author_name : option string) : Py Frame unit :=
  atomic w (
    author <- (if truthy_opt author_name then
                 p <- Author_get_or_create w (PyStr.or_empty author_name) ;;
                 ret (Some (fst p))
               else ret None) ;;
    let h := compute_quote_hash (Some text) author_name in
    found <- Quote_exists w h ;;
    if negb found then
      f <- locals ;;
      _ <- Quote_create w text author site (next_url f) h
             (Some (ScrapeJob.pk (job f))) ;;
      assign (fun f => set_saved (saved f + 1) f)
    else ret tt).

(** Lines 85-116: the loop over the quote nodes of one page. *)
Fixpoint candidates (w : World) (site : ScrapeSite.t) (author_nodes : list Tag.t)
    (i : nat) (quote_nodes : list Tag.t) : Py Frame unit :=
  match quote_nodes with
  | [] => ret tt
  | qnode :: rest =>
      try_except
        (let text := Tag.get_text qnode in
         let author_name := resolve_author_name site author_nodes i qnode in
         save_candidate w site text author_name)
        (fun ex =>
           assign (fun f => set_errors (errors f + 1) f) ;;
           f <- locals ;;
           ScrapeError_create w (job f) (next_url f) "parse" (exn_str ex)) ;;
      candidates w site author_nodes (S i) rest
  end.

(** [lambda s: s and s.lower().strip() in ("next", "›", "»")]: the angle
    quotation marks are the code points 8250 and 187. *)
Definition is_next_text (s : option (list Z)) : bool :=
  match s with
  | Some s =>
      Unicode.nonempty s &&
      let t := Unicode.strip (Unicode.lower s) in
      Unicode.eqb t (Unicode.of_string "next")
      || Unicode.eqb t [8250] || Unicode.eqb t [187]
  | None => false
  end.

(** Lines 126-138: the next page, if the current one names any, when the
    selector engine and [urljoin] return; [Strict.discover_next_url] has
    the exceptions. *)
Definition discover_next_url (w : World) (site : ScrapeSite.t) (soup : Tag.t)
  : option string :=
  if PyStr.truthy (ScrapeSite.pagination_selector site) then
    match Tag.select_one soup (ScrapeSite.pagination_selector site) with
    | Some nxt =>
        let href := py_or (Tag.get nxt "href") (Tag.get nxt "data-href") in
        if truthy_opt href
        then Some (urljoin w (ScrapeSite.base_url site) (PyStr.or_empty href))
        else None
    | None => None
    end
  else
    let nxt :=
      match Tag.select_one soup "a[rel=next]" with
      | Some n => Some n
      | None => Tag.find_a soup is_next_text
      end in
    match nxt with
    | Some n =>
        if truthy_opt (Tag.get n "href")
        then Some (urljoin w (ScrapeSite.base_url site)
                     (PyStr.or_empty (Tag.get n "href")))
        else None
    | None => None
    end.

(** Lines 141-143: the comparison of the next URL's path with itself, when
    [urlparse] returns; [Strict.same_page_guard] has the exception. *)
Definition same_page_guard (w : World) : Py Frame unit :=
  f <- locals ;;
  if truthy_opt (next_url f)
     && String.eqb (urlparse_path w (PyStr.or_empty (next_url f)))
                   (urlparse_path w (PyStr.or_empty (next_url f)))
  then ret tt
  else ret tt.

(** Lines 61-143: [n] iterations of the page loop, [guard] standing at
    lines 141-143, when the selector engine and [urljoin] return;
    [Strict.page_loop_with] has the exceptions. *)
Fixpoint page_loop_with (guard : World -> Py Frame unit) (w : World)
    (site : ScrapeSite.t) (n : nat) : Py Frame unit :=
  match n with
  | O => ret tt
  | S n' =>
      f <- locals ;;
      if negb (truthy_opt (next_url f)) then ret tt
      else
        let url := PyStr.or_empty (next_url f) in
        sleep_ms (ScrapeSite.rate_limit_ms site) ;;
        resp <- try_except
                  (text <- fetch_page w url ;; ret (Some text))
                  (fun e =>
                     assign (fun f => set_errors (errors f + 1) f) ;;
                     f <- locals ;;
                     ScrapeError_create w (job f) (next_url f) "network" (exn_str e) ;;
                     ret None) ;;
        match resp with
        | None => ret tt
        | Some text =>
            assign (fun f => set_fetched (fetched f + 1) f) ;;
            assign (fun f => set_pages_scraped (pages_scraped f ++ [url]) f) ;;
            let soup := BeautifulSoup w text in
            let quote_nodes := Tag.select soup (ScrapeSite.quote_selector site) in
            let author_nodes :=
              if PyStr.truthy (ScrapeSite.author_selector site)
              then Tag.select soup (ScrapeSite.author_selector site)
              else [] in
            candidates w site author_nodes 0 quote_nodes ;;
            f <- locals ;;
            method job set_job
              (increment_counters w (fetched f) (saved f) (errors f)) ;;
            assign (set_fetched 0) ;;
            assign (set_saved 0) ;;
            assign (set_errors 0) ;;
            assign (set_next_url (discover_next_url w site soup)) ;;
            guard w ;;
            page_loop_with guard w site n'
        end
  end.

(** Lines 59-150: the body of the [try]. *)
Definition scrape_site_try (guard : World -> Py Frame unit) (w : World)
    (site : ScrapeSite.t) (job_id : string) : Py Frame (string * string) :=
  let start_url :=
    urljoin w (ScrapeSite.base_url site)
      (if PyStr.truthy (ScrapeSite.start_path site)
       then ScrapeSite.start_path site else "/"%string) in
  assign (set_next_url (Some start_url)) ;;
  page_loop_with guard w site (ScrapeSite.max_pages site) ;;
  f <- locals ;;
  method job set_job (increment_counters w (fetched f) (saved f) (errors f)) ;;
  method job set_job (mark_finished w true) ;;
  ret (job_id, "done"%string).

(** Lines 151-157: the handler of the [try]. *)
Definition scrape_site_except {A} (w : World) (fatal : exn) : Py Frame A :=
  f <- locals ;;
  ScrapeError_create w (job f) None "fatal" (exn_str fatal) ;;
  method job set_job (increment_counters w (fetched f) (saved f) 1) ;;
  method job set_job (mark_finished w false) ;;
  raise fatal.

(** The local variables after lines 47-56. *)
Definition init_frame (j : ScrapeJob.t) : Frame := mkFrame j [] 0 0 0 None.

Definition scrape_site_with (guard : World -> Py Frame unit) (w : World)
    (job_id : string) : Py unit (string * string) :=
  j <- ScrapeJob_get w job_id ;;
  call (init_frame j)
    (let site := ScrapeJob.site j in
     method job set_job (mark_running w) ;;
     try_except (scrape_site_try guard w site job_id) (scrape_site_except w)).

(** [scrape_site(job_id)] *)
Definition scrape_site (w : World) (job_id : string) : Py unit (string * string) :=
  scrape_site_with same_page_guard w job_id.

(** The orchestrator with lines 141-143 removed. *)
Definition scrape_site_unguarded (w : World) (job_id : string)
  : Py unit (string * string) :=
  scrape_site_with (fun _ => ret tt) w job_id.

(** ** serializers.py: QuoteSerializer.create *)

(** The validated data: [author] and [author_name] may be missing.  The
    [site] field resolves primary keys among the active sites only (line
    43), so that the site of validated data is active. *)
Record QuoteData := mkQuoteData {
  vd_text : string;
  vd_author : option Author.t;
  vd_author_name : option string;
  vd_site : ScrapeSite.t;
  vd_source_url : option string;
  vd_saved_by_job : option string }.

Definition QuoteSerializer_create (w : World) (validated_data : QuoteData)
  : Py unit Quote.t :=
  let author := vd_author validated_data in
  let author_name :=
    PyStr.strip (match vd_author_name validated_data with
                 | Some s => s
                 | None => EmptyString
                 end) in
  author <- (match author with
             | None =>
                 if PyStr.truthy author_name then
                   p <- Author_get_or_create w author_name ;; ret (Some (fst p))
                 else ret author
             | Some _ => ret author
             end) ;;
  let site := vd_site validated_data in
  if negb (ScrapeSite.active site) then
    raise (Exn "ValidationError" "Specified site is not active for scraping.")
  else
    Quote_save w
      (Quote.mk (vd_text validated_data) author (ScrapeSite.pk site)
         (vd_source_url validated_data) EmptyString
         (vd_saved_by_job validated_data)).

(** ** Concrete sites and pages *)

Module Scenario.

Local Open Scope string_scope.

Definition site : ScrapeSite.t :=
  ScrapeSite.mk 1 "quotes" "http://quotes.test" "/" ".text" ".author"
    "li.next a" 50 500 true.

Definition leaf (text : string) : Tag.t :=
  Tag.mk text (Some (Unicode.of_string text)) [] [].

(** Page 1: two quotes, the first with an author, the second without, and a
    link to page 2.  Page 2: one quote with its author inside the quote
    node only, and no link. *)
Definition page1 : Tag.t :=
  Tag.mk "page 1" None []
    [(".text", [leaf "The world as we have created it."; leaf "It is our choices."]);
     (".author", [leaf "Albert Einstein"]);
     ("li.next a", [Tag.mk "Next" (Some (Unicode.of_string "Next")) [("href", "/page/2/")] []])].

Definition page2 : Tag.t :=
  Tag.mk "page 2" None []
    [(".text", [Tag.mk "A day without sunshine is like, you know, night."
                  None [] [(".author", [leaf "Steve Martin"])]])].

Definition get (u : string) : result string :=
  if String.eqb u "http://quotes.test/" then Ok "<html>1</html>"
  else if String.eqb u "http://quotes.test/page/2/" then Ok "<html>2</html>"
  else Raise (Exn "HTTPError" "404 Client Error: Not Found").

Definition parse (html : string) : Tag.t :=
  if String.eqb html "<html>1</html>" then page1
  else if String.eqb html "<html>2</html>" then page2
  else Tag.mk "" None [] [].

(** [urljoin] on a base without a path and an absolute path. *)
Definition join (base href : string) : string := base +:+ href.

Definition path (u : string) : string := u.

(** A quiet world: no database fault, no other worker. *)
Definition world : World :=
  mkWorld get parse join path (fun _ => None) (fun _ => []).

Definition job_id : string := "6f1c".

Definition store0 : Store :=
  mkStore {[ job_id := ScrapeJob.fresh job_id site ]} [] [] [] 0 0 [].

(** The counters and the status of the stored job row. *)
Definition summary (st : Store) : option (ScrapeJob.Status * Z * Z * Z) :=
  match jobs st !! job_id with
  | Some j => Some (ScrapeJob.status j, ScrapeJob.quotes_fetched j,
                    ScrapeJob.quotes_saved j, ScrapeJob.errors_count j)
  | None => None
  end.

Definition run (w : World) (st : Store) : result (string * string) * Store :=
  let '(r, (_, st')) := scrape_site w job_id (tt, st) in (r, st').

(** A page whose pagination link points back to the page itself, crawled
    with a cap of three pages. *)
Definition loop_site : ScrapeSite.t :=
  ScrapeSite.mk 2 "loop" "http://loop.test" "/" ".text" ".author" "li.next a" 3 0 true.

Definition loop_page : Tag.t :=
  Tag.mk "loop" None []
    [(".text", [leaf "Round and round."]);
     ("li.next a", [Tag.mk "Next" (Some (Unicode.of_string "Next")) [("href", "/")] []])].

Definition loop_world : World :=
  mkWorld (fun _ => Ok "<html>loop</html>") (fun _ => loop_page) join path
    (fun _ => None) (fun _ => []).

Definition loop_store : Store :=
  mkStore {[ job_id := ScrapeJob.fresh job_id loop_site ]} [] [] [] 0 0 [].

(** The first request times out. *)
Definition timeout_world : World :=
  mkWorld (fun _ => Raise (Exn "ReadTimeout" "Read timed out. (read timeout=10)"))
    parse join path (fun _ => None) (fun _ => []).

(** Another worker stores the first quote of page 1 while this run handles
    it.  In [race_world] its row is committed between the existence check
    (statement 4 of the run) and the insert (statement 5); in [early_world]
    it is committed before the existence check. *)
Definition rival_quote : Quote.t :=
  Quote.mk "The world as we have created it." None 1 (Some "http://quotes.test/")
    (compute_quote_hash (Some "The world as we have created it.")
       (Some "Albert Einstein"))
    (Some "9a2e").

Definition race_world : World :=
  mkWorld get parse join path (fun _ => None)
    (fun n => if Nat.eqb n 5 then [rival_quote] else []).

Definition early_world : World :=
  mkWorld get parse join path (fun _ => None)
    (fun n => if Nat.eqb n 4 then [rival_quote] else []).

(** The insert of the quote of page 2 (statement 13 of the run) and the
    insert of the error row that reports it (statement 14) are refused by
    the database, as for a page URL longer than the 1000 characters of
    [Quote.source_url] and [ScrapeError.url]. *)
Definition data_error : exn :=
  Exn "DataError" "value too long for type character varying(1000)".

Definition overlong_world : World :=
  mkWorld get parse join path
    (fun n => if Nat.eqb n 13 || Nat.eqb n 14 then Some data_error else None)
    (fun _ => []).

(** The page-level deltas [(fetched, saved, errors)] of a frame. *)
Definition deltas (f : Frame) : Z * Z * Z := (fetched f, saved f, errors f).

End Scenario.


(** ** models.py and admin.py: the display strings of a quote *)

(** [Quote.__str__] *)
Definition Quote_str (self : Quote.t) : string :=
  let short :=
    if (60 <? String.length (Quote.text self))%nat
    then (substring 0 60 (Quote.text self) +:+ "...")%string
    else Quote.text self in
  ("Quote(" +:+ short +:+ ") - "
   +:+ match Quote.author self with
       | Some a => Author.name a
       | None => "Unknown"
       end)%string.

(** [QuoteAdmin.short_text] *)
Definition short_text (obj : Quote.t) : string :=
  if (75 <? String.length (Quote.text obj))%nat
  then (substring 0 75 (Quote.text obj) +:+ "...")%string
  else Quote.text obj.

(** ** Celery: the messages handed to the broker *)

Inductive TaskName := enqueue_scrape_job_task | scrape_site_task.

Record Message := mkMessage { msg_task : TaskName; msg_arg : string }.

(** The code of the API layer has no local state of interest; the queue of
    the broker takes the place of the locals. *)
Definition Broker : Type := list Message.

(** [task.delay(arg)], [task.apply_async(args=[arg])]; the broker is taken
    to accept the message. *)
Definition delay (t : TaskName) (arg : string) : Py Broker unit :=
  assign (fun queue => queue ++ [mkMessage t arg]).

(** ** tasks.py: enqueue_scrape_job *)

Definition enqueue_scrape_job (w : World) (job_id : string)
  : Py Broker (string * string) :=
  job <- ScrapeJob_get w job_id ;;
  delay scrape_site_task (ScrapeJob.pk job) ;;
  ret (job_id, "enqueued"%string).

(** ** serializers.py: ScrapeJobSerializer *)

(** A parsed JSON value. *)
#[local] Unset Elimination Schemes.
Inductive Json : Type :=
| JNull
| JBool (b : bool)
| JNum (n : Z)
| JStr (s : string)
| JList (l : list Json)
| JDict (l : list (string * Json)).
#[local] Set Elimination Schemes.

(** The data of a job request: the site its primary key names, and the
    optional [initiator] and [meta]. *)
Record JobData := mkJobData {
  jd_site : ScrapeSite.t;
  jd_initiator : option string;
  jd_meta : option Json }.

(** [ScrapeJobSerializer.validate]: [attrs.get("meta")] is [None] both for
    a missing key and for a null. *)
Definition ScrapeJobSerializer_validate (attrs : JobData) : result JobData :=
  match jd_meta attrs with
  | None => Ok attrs
  | Some JNull => Ok attrs
  | Some (JDict _) => Ok attrs
  | Some _ => Raise (Exn "ValidationError" "meta must be a JSON object/dict.")
  end.

(** The character field the model serializer builds for
    [initiator = models.CharField(max_length=40, default="api")]: the value
    is stripped, and refused when it is blank, longer than 40 characters or
    holds a null character. *)
Definition initiator_field (s : string) : result string :=
  let v := PyStr.strip s in
  if negb (PyStr.truthy v) then
    Raise (Exn "ValidationError" "This field may not be blank.")
  else if (40 <? String.length v)%nat then
    Raise (Exn "ValidationError" "Ensure this field has no more than 40 characters.")
  else if existsb (fun c => PyStr.code c =? 0) (PyStr.chars v) then
    Raise (Exn "ValidationError" "Null characters are not allowed.")
  else Ok v.

(** [serializer.is_valid(raise_exception=True)].  The fields come first:
    [site] resolves primary keys among the active sites only (line 99),
    [initiator] is a character field, and [meta], declared as
    [JSONField(required=False)] (line 102), takes any JSON value but null.
    Then [validate] runs.  The exception of the source lists the messages
    of all failing fields; the embedding keeps the first. *)
Definition ScrapeJobSerializer_is_valid (data : JobData) : result JobData :=
  if negb (ScrapeSite.active (jd_site data)) then
    Raise (Exn "ValidationError" "Invalid pk - object does not exist.")
  else
    match match jd_initiator data with
          | Some s => match initiator_field s with
                      | Ok v => Ok (Some v)
                      | Raise e => Raise e
                      end
          | None => Ok None
          end with
    | Raise e => Raise e
    | Ok initiator =>
        match jd_meta data with
        | Some JNull => Raise (Exn "ValidationError" "This field may not be null.")
        | _ => ScrapeJobSerializer_validate
                 (mkJobData (jd_site data) initiator (jd_meta data))
        end
    end.

(** [ScrapeJob.objects.create(site=..., initiator=..., meta=...)]: an INSERT
    of a row with the model's defaults under the primary key [uuid4] drew.
    The [meta] column, like the timestamps, is not part of the rows of the
    embedding. *)
Definition ScrapeJob_create {L} (w : World) (uuid4 : string) (site : ScrapeSite.t)
    (initiator : string) : Py L ScrapeJob.t :=
  statement w (fun st =>
    match jobs st !! uuid4 with
    | Some _ => (Raise (Exn "IntegrityError"
                            "duplicate key value violates unique constraint on id"), st)
    | None =>
        let job := ScrapeJob.mk uuid4 site ScrapeJob.PENDING None None 0 0 0 initiator in
        (Ok job, set_jobs (<[uuid4 := job]> (jobs st)) st)
    end).

(** [ScrapeJobSerializer.create] *)
Definition ScrapeJobSerializer_create {L} (w : World) (uuid4 : string)
    (validated_data : JobData) : Py L ScrapeJob.t :=
  let site := jd_site validated_data in
  let initiator :=
    match jd_initiator validated_data with
    | Some i => i
    | None => "api"%string
    end in
  ScrapeJob_create w uuid4 site initiator.

(** ** views.py: ScrapeJobViewSet *)

Inductive Body :=
| Detail (message : string)
| Representation (job : ScrapeJob.t).

Record Response := mkResponse { status_code : nat; data : Body }.

Definition Status_eqb (a b : ScrapeJob.Status) : bool :=
  match a, b with
  | ScrapeJob.PENDING, ScrapeJob.PENDING
  | ScrapeJob.RUNNING, ScrapeJob.RUNNING
  | ScrapeJob.SUCCESS, ScrapeJob.SUCCESS
  | ScrapeJob.PARTIAL, ScrapeJob.PARTIAL
  | ScrapeJob.FAILED, ScrapeJob.FAILED => true
  | _, _ => false
  end.

(** [get_object_or_404(ScrapeJob, pk=pk)] *)
Definition get_object_or_404 {L} (w : World) (pk : string) : Py L ScrapeJob.t :=
  try_except (ScrapeJob_get w pk)
    (fun e =>
       if String.eqb (exn_class e) "DoesNotExist"
       then raise (Exn "Http404" "No ScrapeJob matches the given query.")
       else raise e).

(** [ScrapeJobViewSet.create] *)
Definition ScrapeJobViewSet_create (w : World) (uuid4 : string) (request_data : JobData)
  : Py Broker Response :=
  match ScrapeJobSerializer_is_valid request_data with
  | Raise e => raise e
  | Ok validated_data =>
      job <- ScrapeJobSerializer_create w uuid4 validated_data ;;
      delay enqueue_scrape_job_task (ScrapeJob.pk job) ;;
      ret (mkResponse 201 (Representation job))
  end.

(** [ScrapeJobViewSet.start] *)
Definition ScrapeJobViewSet_start (w : World) (pk : string) : Py Broker Response :=
  job <- get_object_or_404 w pk ;;
  if negb (Status_eqb (ScrapeJob.status job) ScrapeJob.PENDING) then
    ret (mkResponse 400 (Detail "Job not in PENDING state."))
  else
    delay enqueue_scrape_job_task (ScrapeJob.pk job) ;;
    ret (mkResponse 202 (Detail "Job enqueued.")).

(** ** More concrete cases *)

Module Cases.

Local Open Scope string_scope.

(** A site that has been switched off. *)
Definition closed_site : ScrapeSite.t :=
  ScrapeSite.mk 3 "closed" "http://closed.test" "/" ".text" ".author" "" 5 100 false.

Definition empty_store : Store := mkStore empty [] [] [] 0 0 [].

(** A request for a job on the site of [Scenario]. *)
Definition job_request : JobData := mkJobData Scenario.site None None.

(** The store after a run of the job of [Scenario]. *)
Definition store1 : Store := snd (Scenario.run Scenario.world Scenario.store0).

(** The store of [Scenario] with a second job, on another site. *)
Definition two_jobs : Store :=
  set_jobs (<["9a2e" := ScrapeJob.fresh "9a2e" closed_site]> (jobs Scenario.store0))
    Scenario.store0.

(** The second statement of the database fails. *)
Definition down : exn := Exn "OperationalError" "server closed the connection".

Definition down_world : World :=
  mkWorld Scenario.get Scenario.parse Scenario.join Scenario.path
    (fun n => if Nat.eqb n 1 then Some down else None) (fun _ => []).

End Cases.

(** ** tasks.py: scrape_site with the exceptions of urllib and soupsieve *)

(** The definitions above take [urljoin], [urlparse] and the selector
    engine to return.  They do not always: [urljoin] and [urlparse] raise
    ValueError on a URL they cannot split (an unbalanced bracket in the host
    part, as in "//["), and [select] and [select_one] raise
    SelectorSyntaxError on a selector that soupsieve cannot compile (an
    XPath expression, say).  [Raises] tells which calls raise, and what. *)
Record Raises := mkRaises {
  urljoin_raises : string -> string -> option exn;
  urlparse_raises : string -> option exn;
  select_raises : string -> option exn }.

Module Strict.

(** [urljoin(base, url)] *)
Definition py_urljoin {L} (r : Raises) (w : World) (base url : string) : Py L string :=
  match urljoin_raises r base url with
  | Some e => raise e
  | None => ret (urljoin w base url)
  end.

(** [urlparse(url).path] *)
Definition py_urlparse_path {L} (r : Raises) (w : World) (url : string) : Py L string :=
  match urlparse_raises r url with
  | Some e => raise e
  | None => ret (urlparse_path w url)
  end.

(** [tag.select(css)] *)
Definition select {L} (r : Raises) (n : Tag.t) (css : string) : Py L (list Tag.t) :=
  match select_raises r css with
  | Some e => raise e
  | None => ret (Tag.select n css)
  end.

(** [tag.select_one(css)] *)
Definition select_one {L} (r : Raises) (n : Tag.t) (css : string)
  : Py L (option Tag.t) :=
  match select_raises r css with
  | Some e => raise e
  | None => ret (Tag.select_one n css)
  end.

(** Lines 126-138: [next_url] is reset, then set when the page names a next
    page. *)
Definition discover_next_url (r : Raises) (w : World) (site : ScrapeSite.t)
    (soup : Tag.t) : Py Frame unit :=
  assign (set_next_url None) ;;
  if PyStr.truthy (ScrapeSite.pagination_selector site) then
    nxt <- select_one r soup (ScrapeSite.pagination_selector site) ;;
    match nxt with
    | Some nxt =>
        let href := py_or (Tag.get nxt "href") (Tag.get nxt "data-href") in
        if truthy_opt href then
          u <- py_urljoin r w (ScrapeSite.base_url site) (PyStr.or_empty href) ;;
          assign (set_next_url (Some u))
        else ret tt
    | None => ret tt
    end
  else
    first <- select_one r soup "a[rel=next]" ;;
    let nxt :=
      match first with
      | Some n => Some n
      | None => Tag.find_a soup is_next_text
      end in
    match nxt with
    | Some n =>
        if truthy_opt (Tag.get n "href") then
          u <- py_urljoin r w (ScrapeSite.base_url site)
                 (PyStr.or_empty (Tag.get n "href")) ;;
          assign (set_next_url (Some u))
        else ret tt
    | None => ret tt
    end.

(** Lines 141-143: [urlparse(next_url)] is evaluated twice, the paths are
    compared, and both branches do nothing. *)
Definition same_page_guard (r : Raises) (w : World) : Py Frame unit :=
  f <- locals ;;
  if truthy_opt (next_url f) then
    a <- py_urlparse_path r w (PyStr.or_empty (next_url f)) ;;
    b <- py_urlparse_path r w (PyStr.or_empty (next_url f)) ;;
    if String.eqb a b then ret tt else ret tt
  else ret tt.

(** Lines 61-143, [guard] standing at lines 141-143.  The selector of line
    93 is the one line 82 has compiled, so that [candidates] stands as it
    is. *)
Fixpoint page_loop_with (guard : Raises -> World -> Py Frame unit) (r : Raises)
    (w : World) (site : ScrapeSite.t) (n : nat) : Py Frame unit :=
  match n with
  | O => ret tt
  | S n' =>
      f <- locals ;;
      if negb (truthy_opt (next_url f)) then ret tt
      else
        let url := PyStr.or_empty (next_url f) in
        sleep_ms (ScrapeSite.rate_limit_ms site) ;;
        resp <- try_except
                  (text <- fetch_page w url ;; ret (Some text))
                  (fun e =>
                     assign (fun f => set_errors (errors f + 1) f) ;;
                     f <- locals ;;
                     ScrapeError_create w (job f) (next_url f) "network" (exn_str e) ;;
                     ret None) ;;
        match resp with
        | None => ret tt
        | Some text =>
            assign (fun f => set_fetched (fetched f + 1) f) ;;
            assign (fun f => set_pages_scraped (pages_scraped f ++ [url]) f) ;;
            let soup := BeautifulSoup w text in
            quote_nodes <- select r soup (ScrapeSite.quote_selector site) ;;
            author_nodes <- (if PyStr.truthy (ScrapeSite.author_selector site)
                             then select r soup (ScrapeSite.author_selector site)
                             else ret []) ;;
            candidates w site author_nodes 0 quote_nodes ;;
            f <- locals ;;
            method job set_job
              (increment_counters w (fetched f) (saved f) (errors f)) ;;
            assign (set_fetched 0) ;;
            assign (set_saved 0) ;;
            assign (set_errors 0) ;;
            discover_next_url r w site soup ;;
            guard r w ;;
            page_loop_with guard r w site n'
        end
  end.

(** Lines 59-150: the body of the [try]. *)
Definition scrape_site_try (guard : Raises -> World -> Py Frame unit) (r : Raises)
    (w : World) (site : ScrapeSite.t) (job_id : string) : Py Frame (string * string) :=
  start_url <- py_urljoin r w (ScrapeSite.base_url site)
                 (if PyStr.truthy (ScrapeSite.start_path site)
                  then ScrapeSite.start_path site else "/"%string) ;;
  assign (set_next_url (Some start_url)) ;;
  page_loop_with guard r w site (ScrapeSite.max_pages site) ;;
  f <- locals ;;
  method job set_job (increment_counters w (fetched f) (saved f) (errors f)) ;;
  method job set_job (mark_finished w true) ;;
  ret (job_id, "done"%string).

Definition scrape_site_with (guard : Raises -> World -> Py Frame unit) (r : Raises)
    (w : World) (job_id : string) : Py unit (string * string) :=
  j <- ScrapeJob_get w job_id ;;
  call (init_frame j)
    (let site := ScrapeJob.site j in
     method job set_job (mark_running w) ;;
     try_except (scrape_site_try guard r w site job_id) (scrape_site_except w)).

(** [scrape_site(job_id)] *)
Definition scrape_site (r : Raises) (w : World) (job_id : string)
  : Py unit (string * string) :=
  scrape_site_with same_page_guard r w job_id.

(** The orchestrator with lines 141-143 removed. *)
Definition scrape_site_unguarded (r : Raises) (w : World) (job_id : string)
  : Py unit (string * string) :=
  scrape_site_with (fun _ _ => ret tt) r w job_id.

End Strict.

(** An unbalanced bracket: [urljoin] on an empty base returns the URL as it
    is, [urljoin] on another base and [urlparse] raise. *)
Module Bracket.

Local Open Scope string_scope.

Definition invalid : exn := Exn "ValueError" "Invalid IPv6 URL".

Definition raises : Raises :=
  mkRaises
    (fun base url =>
       if PyStr.truthy base && String.eqb url "//[" then Some invalid else None)
    (fun url => if String.eqb url "//[" then Some invalid else None)
    (fun _ => None).

(** A site without base URL, started at an absolute URL. *)
Definition site : ScrapeSite.t :=
  ScrapeSite.mk 4 "bracket" "" "http://quotes.test/" ".text" ".author" "li.next a"
    5 0 true.

Definition page : Tag.t :=
  Tag.mk "page" None []
    [(".text", [Scenario.leaf "The world as we have created it."]);
     ("li.next a", [Tag.mk "Next" (Some (Unicode.of_string "Next")) [("href", "//[")] []])].

Definition world : World :=
  mkWorld
    (fun u => if String.eqb u "http://quotes.test/" then Ok "<html>1</html>"
              else Raise (Exn "MissingSchema" "Invalid URL: No scheme supplied."))
    (fun _ => page) Scenario.join Scenario.path (fun _ => None) (fun _ => []).

Definition store0 : Store :=
  mkStore {[ Scenario.job_id := ScrapeJob.fresh Scenario.job_id site ]} [] [] [] 0 0 [].

End Bracket.
(** * Vocabulary of the statements *)

(** ** Normal forms on character lists *)

Module PyStrSpec.
Import PyStr.

(** A word: not empty, no whitespace. *)
Definition word (w : list ascii) : Prop :=
  w <> [] /\ Forall (fun c => isspace c = false) w.

Definition space : list ascii := [" "%char].

(** The normal form of a text, on character lists. *)
Definition norm_l (l : list ascii) : list ascii :=
  lower_l (join_l space (split_l (strip_l l))).

End PyStrSpec.

(** A lower-case hexadecimal digit. *)
Definition is_lower_hex (c : ascii) : bool :=
  let n := PyStr.code c in
  ((48 <=? n) && (n <=? 57)) || ((97 <=? n) && (n <=? 102)).

(** ** Reading the outcome of a computation *)

Definition outcome {L A} (m : Py L A) (l : L) (st : Store) : result A := fst (m (l, st)).
Definition locals_after {L A} (m : Py L A) (l : L) (st : Store) : L := fst (snd (m (l, st))).
Definition store_after {L A} (m : Py L A) (l : L) (st : Store) : Store := snd (snd (m (l, st))).

(** The status [mark_finished] derives from the instance. *)
Definition finish_status (success : bool) (self : ScrapeJob.t) : ScrapeJob.Status :=
  if negb success then ScrapeJob.FAILED
  else if (0 <? ScrapeJob.errors_count self) && (0 <? ScrapeJob.quotes_saved self)
       then ScrapeJob.PARTIAL
       else if 0 <? ScrapeJob.quotes_saved self then ScrapeJob.SUCCESS
            else ScrapeJob.FAILED.

(** The instance after [mark_finished] at time [t]. *)
Definition finished (t : Z) (success : bool) (self : ScrapeJob.t) : ScrapeJob.t :=
  ScrapeJob.set_status (finish_status success self)
    (ScrapeJob.set_finished_at (Some t) self).

(** The row after [increment_counters]. *)
Definition bump (fetched saved errors : Z) (row : ScrapeJob.t) : ScrapeJob.t :=
  ScrapeJob.set_errors_count (ScrapeJob.errors_count row + errors)
    (ScrapeJob.set_quotes_saved (ScrapeJob.quotes_saved row + saved)
       (ScrapeJob.set_quotes_fetched (ScrapeJob.quotes_fetched row + fetched) row)).

(** [wp m Q l st]: running [m] from locals [l] and store [st] ends in an
    outcome, locals and store that satisfy [Q]. *)
Definition wp {L A} (m : Py L A) (Q : result A -> L -> Store -> Prop)
    (l : L) (st : Store) : Prop :=
  Q (outcome m l st) (locals_after m l st) (store_after m l st).

(** ** Counters and deltas *)

Definition counters_le (a b : ScrapeJob.t) : Prop :=
  ScrapeJob.quotes_fetched a <= ScrapeJob.quotes_fetched b
  /\ ScrapeJob.quotes_saved a <= ScrapeJob.quotes_saved b
  /\ ScrapeJob.errors_count a <= ScrapeJob.errors_count b.

(** The page-level deltas are never negative. *)
Definition nonneg (f : Frame) : Prop := 0 <= fetched f /\ 0 <= saved f /\ 0 <= errors f.


(** [kept R P st0 m]: whatever [m] does and however it ends, the store it
    leaves is related by [R] to [st0] when the store it starts from is, and
    the locals still satisfy [P]. *)
Definition kept (R : Store -> Store -> Prop) {L A} (P : L -> Prop) (st0 : Store)
    (m : Py L A) : Prop :=
  forall l st, R st0 st -> P l -> wp m (fun _ l' st' => R st0 st' /\ P l') l st.

(** A relation on stores that is respected by every elementary step the
    code takes in world [w]: the arrival of a statement at the database,
    the clock, the request log, an error row, an author row, a quote row
    keyed by a computed hash, the saving of columns of a job row that does
    not shrink its counters, and a rollback. *)
Record respected (w : World) (R : Store -> Store -> Prop) : Prop := {
  resp_refl : forall st, R st st;
  resp_trans : forall a b c, R a b -> R b c -> R a c;
  resp_arrive : forall st, R st (arrive w st);
  resp_clock : forall st v, R st (set_clock v st);
  resp_log : forall st v, R st (set_requests_log v st);
  resp_error : forall st e,
    R st (set_scrape_errors (scrape_errors st ++ [e]) st);
  resp_author : forall st a, R st (set_authors (authors st ++ [a]) st);
  resp_quote : forall st q text author_name,
    Quote.hash q = compute_quote_hash text author_name ->
    hash_exists (Quote.hash q) (quotes st) = false ->
    R st (set_quotes (quotes st ++ [q]) st);
  resp_job : forall st k row self fields,
    jobs st !! k = Some row ->
    counters_le row (ScrapeJob.copy_fields fields self row) ->
    R st (set_jobs (<[k := ScrapeJob.copy_fields fields self row]> (jobs st)) st);
  resp_rollback : forall st0 st1, R st0 st1 -> R st0 (rollback w st0 st1) }.

(** Every stored job keeps a row, with counters at least as large. *)
Definition jobs_grow (st st' : Store) : Prop :=
  forall k row, jobs st !! k = Some row ->
  exists row', jobs st' !! k = Some row' /\ counters_le row row'.

(** The format of a stored hash. *)
Definition hash_ok (q : Quote.t) : Prop :=
  String.length (Quote.hash q) = 64%nat
  /\ Forall (fun c => is_lower_hex c = true) (PyStr.chars (Quote.hash q)).

Definition hashes_ok (qs : list Quote.t) : Prop := Forall hash_ok qs.

Definition keeps_hashes_ok (st st' : Store) : Prop :=
  hashes_ok (quotes st) -> hashes_ok (quotes st').

(** [self.author.name if self.author else ""] *)
Definition author_name_of (q : Quote.t) : string :=
  match Quote.author q with
  | Some a => Author.name a
  | None => EmptyString
  end.

(** ** The candidates of a page *)

(** The text and the author of each quote node, from index [i] on. *)
Fixpoint extract (site : ScrapeSite.t) (author_nodes : list Tag.t) (i : nat)
    (quote_nodes : list Tag.t) : list (string * option string) :=
  match quote_nodes with
  | [] => []
  | qnode :: rest =>
      (Tag.get_text qnode, resolve_author_name site author_nodes i qnode)
      :: extract site author_nodes (S i) rest
  end.

(** The guarded storing of a list of candidates. *)
Fixpoint store_all (w : World) (site : ScrapeSite.t)
    (cs : list (string * option string)) : Py Frame unit :=
  match cs with
  | [] => ret tt
  | (text, author_name) :: rest =>
      try_except
        (save_candidate w site text author_name)
        (fun ex =>
           assign (fun f => set_errors (errors f + 1) f) ;;
           f <- locals ;;
           ScrapeError_create w (job f) (next_url f) "parse" (exn_str ex)) ;;
      store_all w site rest
  end.

(** The quote row the crawl loop builds for a candidate. *)
Definition crawled_quote (site : ScrapeSite.t) (f : Frame) (text : string)
    (author : option Author.t) (author_name : option string) : Quote.t :=
  Quote.mk text author (ScrapeSite.pk site) (next_url f)
    (compute_quote_hash (Some text) author_name) (Some (ScrapeJob.pk (job f))).

(** ** Worlds *)

(** No database statement fails. *)
Definition faultless (w : World) : Prop := forall n, faults w n = None.

(** No database statement fails and no other worker writes. *)
Definition quiet (w : World) : Prop := faultless w /\ forall n, rivals w n = [].

(** A guard that does nothing. *)
Definition noop (guard : World -> Py Frame unit) : Prop :=
  forall w f st, guard w (f, st) = (Ok tt, (f, st)).

(** The URLs [n] iterations of the page loop request, starting with [next]:
    the loop stops at a missing link and at a failed request. *)
Fixpoint visits (w : World) (site : ScrapeSite.t) (n : nat) (next : option string)
  : list string :=
  match n with
  | O => []
  | S n' =>
      if truthy_opt next then
        PyStr.or_empty next ::
        match requests_get w (PyStr.or_empty next) with
        | Ok html => visits w site n' (discover_next_url w site (BeautifulSoup w html))
        | Raise _ => []
        end
      else []
  end.

(** The first URL of a crawl. *)
Definition start_url (w : World) (site : ScrapeSite.t) : string :=
  urljoin w (ScrapeSite.base_url site)
    (if PyStr.truthy (ScrapeSite.start_path site)
     then ScrapeSite.start_path site else "/"%string).

(** The nodes the page loop selects on a page. *)
Definition quote_nodes_of (site : ScrapeSite.t) (soup : Tag.t) : list Tag.t :=
  Tag.select soup (ScrapeSite.quote_selector site).

Definition author_nodes_of (site : ScrapeSite.t) (soup : Tag.t) : list Tag.t :=
  if PyStr.truthy (ScrapeSite.author_selector site)
  then Tag.select soup (ScrapeSite.author_selector site)
  else [].

(** The locals and the store at the end of an iteration of the page loop
    that fetched [html] from [url], when nothing fails: the page is entered,
    its candidates are stored, the deltas are flushed and reset, the next
    URL is set. *)
Definition page_state (w : World) (site : ScrapeSite.t) (url html : string)
    (f : Frame) (st : Store) : Frame * Store :=
  let f1 := set_pages_scraped (pages_scraped f ++ [url])
              (set_fetched (fetched f + 1) f) in
  let st1 := set_requests_log (requests_log st ++ [url])
               (set_clock (clock st + Z.of_nat (ScrapeSite.rate_limit_ms site)) st) in
  let soup := BeautifulSoup w html in
  let c := candidates w site (author_nodes_of site soup) 0 (quote_nodes_of site soup) in
  let f2 := locals_after c f1 st1 in
  let st2 := store_after c f1 st1 in
  let st3 := store_after
               (increment_counters w (fetched f2) (saved f2) (errors f2))
               (job f2) st2 in
  (set_next_url (discover_next_url w site soup)
     (set_errors 0 (set_saved 0 (set_fetched 0 f2))), st3).

(** The locals and the store when the request of [url] fails with [e]. *)
Definition failed_state (w : World) (site : ScrapeSite.t) (url : string) (e : exn)
    (f : Frame) (st : Store) : Frame * Store :=
  let st1 := set_requests_log (requests_log st ++ [url])
               (set_clock (clock st + Z.of_nat (ScrapeSite.rate_limit_ms site)) st) in
  (set_errors (errors f + 1) f,
   set_scrape_errors
     (scrape_errors st
      ++ [ScrapeError.mk (ScrapeJob.pk (job f)) (next_url f) "network" (exn_str e) None])
     (arrive w st1)).

(** What storing candidates leaves untouched in the store: the job rows, the
    request log and the clock; error rows are only added, all of type
    "parse". *)
Definition still (st st' : Store) : Prop :=
  jobs st' = jobs st
  /\ requests_log st' = requests_log st
  /\ clock st' = clock st
  /\ exists es, scrape_errors st' = scrape_errors st ++ es
                /\ Forall (fun e => ScrapeError.error_type e = "parse"%string) es.

(** What storing candidates leaves untouched in the locals. *)
Definition same_page (f0 f : Frame) : Prop :=
  job f = job f0 /\ next_url f = next_url f0
  /\ pages_scraped f = pages_scraped f0 /\ fetched f = fetched f0.

(** The instance after [mark_running] at time [t]. *)
Definition running (t : Z) (self : ScrapeJob.t) : ScrapeJob.t :=
  ScrapeJob.set_started_at (Some t) (ScrapeJob.set_status ScrapeJob.RUNNING self).

(** The locals and the store when the page loop starts, for the job stored
    as [row] under [job_id], when nothing fails before. *)
Definition run_start (w : World) (job_id : string) (row : ScrapeJob.t) (st : Store)
  : Frame * Store :=
  let j := running (clock st) (ScrapeJob.set_pk job_id row) in
  (set_next_url (Some (start_url w (ScrapeJob.site row))) (init_frame j),
   set_jobs (<[job_id := ScrapeJob.copy_fields
                           ["status"; "started_at"; "updated_at"]%string j row]>
               (jobs st))
     (arrive w (arrive w st))).

(** The store after the last flush and [mark_finished(success=True)]. *)
Definition run_finish (w : World) (f : Frame) (st : Store) : Store :=
  store_after (mark_finished w true) (job f)
    (store_after (increment_counters w (fetched f) (saved f) (errors f)) (job f) st).

(** The URLs a run of the job stored as [row] requests. *)
Definition run_visits (w : World) (row : ScrapeJob.t) : list string :=
  visits w (ScrapeJob.site row) (ScrapeSite.max_pages (ScrapeJob.site row))
    (Some (start_url w (ScrapeJob.site row))).

(** An error row that is not of type "fatal". *)
Definition not_fatal (e : ScrapeError.t) : Prop :=
  ScrapeError.error_type e = "parse"%string
  \/ ScrapeError.error_type e = "network"%string.

(** An outcome that, when it is an exception, is a uniqueness violation. *)
Definition only_integrity {A} (r : result A) : Prop :=
  forall e, r = Raise e -> exn_class e = "IntegrityError"%string.

(** The locals and the store after the per-candidate handler caught [e]. *)
Definition caught_state (w : World) (e : exn) (f : Frame) (st : Store) : Frame * Store :=
  (set_errors (errors f + 1) f,
   set_scrape_errors
     (scrape_errors st
      ++ [ScrapeError.mk (ScrapeJob.pk (job f)) (next_url f) "parse" (exn_str e) None])
     (arrive w st)).

(** ** Reruns *)

(** Every stored job keeps a row, for the same site. *)
Definition sites_kept (st st' : Store) : Prop :=
  forall k row, jobs st !! k = Some row ->
  exists row', jobs st' !! k = Some row' /\ ScrapeJob.site row' = ScrapeJob.site row.

(** The unique index on [Quote.hash]. *)
Definition unique_hashes (qs : list Quote.t) : Prop := NoDup (map Quote.hash qs).

Definition keeps_unique (st st' : Store) : Prop :=
  unique_hashes (quotes st) -> unique_hashes (quotes st').

(** Stored hashes stay stored. *)
Definition hashes_stay (st st' : Store) : Prop :=
  forall h, hash_exists h (quotes st) = true -> hash_exists h (quotes st') = true.

(** The key of a candidate. *)
Definition key_of (c : string * option string) : string :=
  compute_quote_hash (Some (fst c)) (snd c).

(** All candidates of [cs] have their key in [qs]. *)
Definition covered (cs : list (string * option string)) (qs : list Quote.t) : Prop :=
  Forall (fun c => hash_exists (key_of c) qs = true) cs.

(** The candidates [n] iterations of the page loop meet, starting with
    [next]. *)
Fixpoint crawl_candidates (w : World) (site : ScrapeSite.t) (n : nat)
    (next : option string) : list (string * option string) :=
  match n with
  | O => []
  | S n' =>
      if truthy_opt next then
        match requests_get w (PyStr.or_empty next) with
        | Ok html =>
            let soup := BeautifulSoup w html in
            extract site (author_nodes_of site soup) 0 (quote_nodes_of site soup)
            ++ crawl_candidates w site n' (discover_next_url w site soup)
        | Raise _ => []
        end
      else []
  end.

(** The candidates a run of the job stored as [row] meets. *)
Definition run_candidates (w : World) (row : ScrapeJob.t) : list (string * option string) :=
  crawl_candidates w (ScrapeJob.site row) (ScrapeSite.max_pages (ScrapeJob.site row))
    (Some (start_url w (ScrapeJob.site row))).

(** The rows stored under the key of the pair [(text, author_name)]. *)
Definition rows_of (text author_name : option string) (qs : list Quote.t) : list Quote.t :=
  List.filter (fun q => String.eqb (Quote.hash q) (compute_quote_hash text author_name)) qs.

(** ** More vocabulary *)

(** A string without whitespace. *)
Definition unspaced (s : string) : Prop :=
  Forall (fun c => PyStr.isspace c = false) (PyStr.chars s).

(** The request log and the clock are as in [st0]. *)
Definition same_pace (st0 st : Store) : Prop :=
  requests_log st = requests_log st0 /\ clock st = clock st0.

(** From [st] to [st'] the URLs [l] were requested, each after a pause of
    the site's [rate_limit_ms]. *)
Definition paced (site : ScrapeSite.t) (st st' : Store) (l : list string) : Prop :=
  requests_log st' = requests_log st ++ l
  /\ clock st' = clock st + Z.of_nat (ScrapeSite.rate_limit_ms site) * Z.of_nat (length l).

(** What the page loop has done to the requests when it is left, normally
    or not, after at most [n] iterations from [f] and [st]: the URLs
    requested are the first of [visits], all of them when [r] is no
    exception. *)
Definition on_chain (w : World) (site : ScrapeSite.t) (n : nat) (f : Frame) (st : Store)
    (r : result unit) (f' : Frame) (st' : Store) : Prop :=
  nonneg f'
  /\ exists l,
       l `prefix_of` visits w site n (next_url f)
       /\ paced site st st' l
       /\ (r = Ok tt -> l = visits w site n (next_url f)).

(** The number of pages [n] iterations of the page loop fetch, starting
    with [next]: the requests of [visits] that succeed. *)
Fixpoint pages_fetched (w : World) (site : ScrapeSite.t) (n : nat)
    (next : option string) : nat :=
  match n with
  | O => O
  | S n' =>
      if truthy_opt next then
        match requests_get w (PyStr.or_empty next) with
        | Ok html =>
            S (pages_fetched w site n' (discover_next_url w site (BeautifulSoup w html)))
        | Raise _ => O
        end
      else O
  end.

(** The pages a run of the job stored as [row] fetches. *)
Definition run_pages (w : World) (row : ScrapeJob.t) : nat :=
  pages_fetched w (ScrapeJob.site row) (ScrapeSite.max_pages (ScrapeJob.site row))
    (Some (start_url w (ScrapeJob.site row))).

(** The error rows are as in [st0]. *)
Definition same_errors (st0 st : Store) : Prop := scrape_errors st = scrape_errors st0.

(** A quote row of site [site], attributed to the job [job_id]. *)
Definition saved_by (job_id : string) (site : ScrapeSite.t) (q : Quote.t) : Prop :=
  Quote.saved_by_job q = Some job_id /\ Quote.site q = ScrapeSite.pk site.

(** The author name under which [QuoteSerializer.create] stores a quote:
    the name of the author given, else the stripped [author_name]. *)
Definition posted_author_name (vd : QuoteData) : string :=
  match vd_author vd with
  | Some a => Author.name a
  | None => PyStr.strip (PyStr.or_empty (vd_author_name vd))
  end.

(** [Author.objects.filter(name=name).first()] on the stored rows. *)
Definition author_named (name : string) (st : Store) : option Author.t :=
  List.find (fun a => String.eqb (Author.name a) name) (authors st).

(** The quote, author and error tables of [st'] are those of [st] with rows
    added at the end. *)
Definition appended (st st' : Store) : Prop :=
  quotes st `prefix_of` quotes st'
  /\ authors st `prefix_of` authors st'
  /\ scrape_errors st `prefix_of` scrape_errors st'.

(** The instance has the [quotes_saved] and [errors_count] of [row]. *)
Definition counts_of (row j : ScrapeJob.t) : Prop :=
  ScrapeJob.quotes_saved j = ScrapeJob.quotes_saved row
  /\ ScrapeJob.errors_count j = ScrapeJob.errors_count row.

(** The locals hold the job [job_id], with the counters of [row]. *)
Definition job_is (job_id : string) (row : ScrapeJob.t) (f : Frame) : Prop :=
  ScrapeJob.pk (job f) = job_id /\ counts_of row (job f).

(** The job [job_id] is stored with a final status and its finish time. *)
Definition finished_job (job_id : string) (st : Store) : Prop :=
  exists row,
    jobs st !! job_id = Some row
    /\ (ScrapeJob.status row = ScrapeJob.SUCCESS
        \/ ScrapeJob.status row = ScrapeJob.PARTIAL
        \/ ScrapeJob.status row = ScrapeJob.FAILED)
    /\ ScrapeJob.finished_at row = Some (clock st).

(** The rows of all jobs but [job_id] are as in [st0]. *)
Definition others_same (job_id : string) (st0 st : Store) : Prop :=
  forall k, k <> job_id -> jobs st !! k = jobs st0 !! k.

(** The unique index on [Author.name]. *)
Definition unique_names (as_ : list Author.t) : Prop := NoDup (map Author.name as_).

Definition keeps_names (st st' : Store) : Prop :=
  unique_names (authors st) -> unique_names (authors st').

(** ** Environments *)

(** [urlparse] accepts every URL that [urljoin] returns for [base]: so it
    is in urllib for a base with a scheme and a host, the only ones the
    validation of [ScrapeSite.base_url] admits. *)
Definition parsable (r : Raises) (w : World) (base : string) : Prop :=
  forall url, urljoin_raises r base url = None ->
              urlparse_raises r (urljoin w base url) = None.

(** The selector of lines 128 and 135. *)
Definition nav_selector (site : ScrapeSite.t) : string :=
  if PyStr.truthy (ScrapeSite.pagination_selector site)
  then ScrapeSite.pagination_selector site else "a[rel=next]"%string.

(** The raw target of the pagination link of a page: the [href] that lines
    126-138 hand to [urljoin]. *)
Definition next_href (site : ScrapeSite.t) (soup : Tag.t) : option string :=
  if PyStr.truthy (ScrapeSite.pagination_selector site) then
    match Tag.select_one soup (ScrapeSite.pagination_selector site) with
    | Some nxt =>
        let href := py_or (Tag.get nxt "href") (Tag.get nxt "data-href") in
        if truthy_opt href then Some (PyStr.or_empty href) else None
    | None => None
    end
  else
    match match Tag.select_one soup "a[rel=next]" with
          | Some n => Some n
          | None => Tag.find_a soup is_next_text
          end with
    | Some n =>
        if truthy_opt (Tag.get n "href")
        then Some (PyStr.or_empty (Tag.get n "href")) else None
    | None => None
    end.

(** The selectors of the site compile. *)
Definition compiles (r : Raises) (site : ScrapeSite.t) : Prop :=
  select_raises r (ScrapeSite.quote_selector site) = None
  /\ (PyStr.truthy (ScrapeSite.author_selector site) = true ->
      select_raises r (ScrapeSite.author_selector site) = None)
  /\ select_raises r (nav_selector site) = None.

(** [urljoin] accepts the pagination link of every page that is fetched
    from one of the URLs [us]. *)
Definition joins (r : Raises) (w : World) (site : ScrapeSite.t) (us : list string)
  : Prop :=
  forall u html url,
    In u us -> requests_get w u = Ok html ->
    next_href site (BeautifulSoup w html) = Some url ->
    urljoin_raises r (ScrapeSite.base_url site) url = None.

(** Nothing raises in [urljoin], [urlparse] and the selector engine on a
    run of the job stored as [row]: the selectors of the site compile,
    [urljoin] accepts the start path and the pagination links of the pages
    the run visits, and [urlparse] accepts what [urljoin] returns. *)
Definition tame (r : Raises) (w : World) (row : ScrapeJob.t) : Prop :=
  let site := ScrapeJob.site row in
  compiles r site
  /\ urljoin_raises r (ScrapeSite.base_url site)
       (if PyStr.truthy (ScrapeSite.start_path site)
        then ScrapeSite.start_path site else "/"%string) = None
  /\ parsable r w (ScrapeSite.base_url site)
  /\ joins r w site (run_visits w row).

(** The environment in which nothing raises. *)
Definition no_raises : Raises :=
  mkRaises (fun _ _ => None) (fun _ => None) (fun _ => None).

(** ** Strings over all code points *)

Module UnicodeSpec.
Import Unicode.

(** A word: not empty, no whitespace. *)
Definition word (w : list Z) : Prop :=
  w <> [] /\ Forall (fun c => isspace c = false) w.

Definition space : list Z := [32].

(** A code point that [str.lower] leaves alone, wherever it stands. *)
Definition settled (d : Z) : Prop := d <> 931 /\ lower_full d = [d].

(** A string without surrogate code points. *)
Definition encodable (s : list Z) : Prop := Forall (fun c => surrogate c = false) s.

(** What the table of lower-case mappings is checked for: every image is
    not empty, and holds neither the capital sigma, nor a code point with a
    lower-case mapping of its own, nor whitespace, nor a surrogate. *)
Definition unmapped (d : Z) : bool :=
  match assoc d lower_table with
  | None => true
  | Some _ => false
  end.

Definition image_ok (d : Z) : bool :=
  negb (d =? 931) && unmapped d && negb (isspace d) && negb (surrogate d).

Definition entry_ok (e : Z * list Z) : bool :=
  nonempty (snd e) && forallb image_ok (snd e).

(** What the whitespace code points are checked for: no lower-case
    mapping, neither cased nor case-ignorable. *)
Definition space_ok (c : Z) : bool :=
  unmapped c && negb (cased c) && negb (case_ignorable c) && negb (c =? 931).

End UnicodeSpec.
(** * Properties *)

(** ** Strings *)

Module PyStrFacts.
Import PyStr PyStrSpec.

Lemma chars_str (l : list ascii) : chars (str l) = l.
Proof. apply list_ascii_of_string_of_list_ascii. Qed.

Lemma str_chars (s : string) : str (chars s) = s.
Proof. apply string_of_list_ascii_of_string. Qed.

Lemma isspace_lower_char (c : ascii) : isspace (lower_char c) = isspace c.
Proof. destruct c as [[] [] [] [] [] [] [] []]; vm_compute; reflexivity. Qed.

Lemma lower_char_idem (c : ascii) : lower_char (lower_char c) = lower_char c.
Proof. destruct c as [[] [] [] [] [] [] [] []]; vm_compute; reflexivity. Qed.

Lemma lower_l_idem (l : list ascii) : lower_l (lower_l l) = lower_l l.
Proof.
  unfold lower_l. rewrite map_map. apply map_ext. intros c. apply lower_char_idem.
Qed.

Lemma lower_l_app (a b : list ascii) : lower_l (a ++ b) = lower_l a ++ lower_l b.
Proof. apply map_app. Qed.

Lemma lstrip_lower (l : list ascii) : lstrip_l (lower_l l) = lower_l (lstrip_l l).
Proof.
  induction l as [|c l IH]; [reflexivity|].
  cbn [lower_l map lstrip_l]. rewrite isspace_lower_char.
  destruct (isspace c); [exact IH | reflexivity].
Qed.

Lemma rstrip_lower (l : list ascii) : rstrip_l (lower_l l) = lower_l (rstrip_l l).
Proof.
  unfold rstrip_l. unfold lower_l at 1. rewrite <- map_rev.
  fold (lower_l (rev l)). rewrite lstrip_lower. unfold lower_l. now rewrite map_rev.
Qed.

Lemma strip_lower (l : list ascii) : strip_l (lower_l l) = lower_l (strip_l l).
Proof. unfold strip_l. now rewrite lstrip_lower, rstrip_lower. Qed.

Lemma fields_nonnil (l : list ascii) : fields l <> [].
Proof.
  destruct l as [|c l]; cbn [fields]; [discriminate|].
  destruct (isspace c); [discriminate|]. destruct (fields l); discriminate.
Qed.

Lemma fields_lower (l : list ascii) : fields (lower_l l) = map lower_l (fields l).
Proof.
  induction l as [|c l IH]; [reflexivity|].
  cbn [lower_l map fields]. fold (lower_l l). rewrite isspace_lower_char, IH.
  destruct (isspace c); [reflexivity|].
  destruct (fields l); reflexivity.
Qed.

Lemma nonempty_lower (w : list ascii) : nonempty (lower_l w) = nonempty w.
Proof. destruct w; reflexivity. Qed.

Lemma split_lower (l : list ascii) : split_l (lower_l l) = map lower_l (split_l l).
Proof.
  unfold split_l. rewrite fields_lower.
  induction (fields l) as [|w ws IH]; [reflexivity|].
  cbn [map List.filter]. rewrite nonempty_lower, IH.
  destruct (nonempty w); reflexivity.
Qed.

Lemma join_lower (sep : list ascii) (ws : list (list ascii)) :
  lower_l (join_l sep ws) = join_l (lower_l sep) (map lower_l ws).
Proof.
  induction ws as [|w ws IH]; [reflexivity|].
  destruct ws as [|w' ws]; [reflexivity|].
  change (join_l sep (w :: w' :: ws)) with (w ++ sep ++ join_l sep (w' :: ws)).
  rewrite !lower_l_app, IH. reflexivity.
Qed.

Lemma fields_nospace (w : list ascii) :
  Forall (fun c => isspace c = false) w -> fields w = [w].
Proof.
  induction 1 as [|c w Hc _ IH]; [reflexivity|].
  cbn [fields]. now rewrite Hc, IH.
Qed.

Lemma fields_app_space (w rest : list ascii) (sp : ascii) :
  Forall (fun c => isspace c = false) w -> isspace sp = true ->
  fields (w ++ sp :: rest) = w :: fields rest.
Proof.
  intros Hw Hsp. induction Hw as [|c w Hc _ IH].
  - cbn [app fields]. now rewrite Hsp.
  - cbn [app fields]. now rewrite Hc, IH.
Qed.

Lemma fields_all_nospace (l : list ascii) :
  Forall (Forall (fun c => isspace c = false)) (fields l).
Proof.
  induction l as [|c l IH]; cbn [fields].
  - repeat constructor.
  - destruct (isspace c) eqn:Hc.
    + constructor; [constructor | exact IH].
    + destruct (fields l) as [|w ws]; [repeat constructor; exact Hc|].
      inversion IH; subst. constructor; [constructor; assumption | assumption].
Qed.

Lemma split_words (l : list ascii) : Forall word (split_l l).
Proof.
  unfold split_l. pose proof (fields_all_nospace l) as H.
  induction H as [|w ws Hw _ IH]; [constructor|].
  cbn [List.filter]. destruct w as [|c w]; [exact IH|].
  cbn [nonempty]. constructor; [split; [discriminate | exact Hw] | exact IH].
Qed.

Lemma split_join (ws : list (list ascii)) :
  Forall word ws -> split_l (join_l space ws) = ws.
Proof.
  induction 1 as [|w ws [Hne Hw] Hws IH]; [reflexivity|].
  destruct ws as [|w' ws].
  - cbn [join_l]. unfold split_l. rewrite fields_nospace by exact Hw.
    destruct w; [congruence | reflexivity].
  - change (join_l space (w :: w' :: ws))
      with (w ++ " "%char :: join_l space (w' :: ws)).
    unfold split_l. rewrite fields_app_space by (exact Hw || reflexivity).
    cbn [List.filter]. fold (split_l (join_l space (w' :: ws))). rewrite IH.
    destruct w; [congruence | reflexivity].
Qed.

Lemma lstrip_word (w rest : list ascii) : word w -> lstrip_l (w ++ rest) = w ++ rest.
Proof.
  intros [Hne Hw]. destruct Hw as [|c w Hc _]; [congruence|].
  cbn [app lstrip_l]. now rewrite Hc.
Qed.

Lemma word_rev (w : list ascii) : word w -> word (rev w).
Proof.
  intros [Hne Hw]. split.
  - intros E. apply Hne. apply (f_equal (@rev ascii)) in E.
    now rewrite rev_involutive in E.
  - rewrite List.Forall_forall in *. intros c Hc. apply Hw. now apply in_rev.
Qed.

Lemma rstrip_word (pre w : list ascii) : word w -> rstrip_l (pre ++ w) = pre ++ w.
Proof.
  intros Hw. unfold rstrip_l. rewrite rev_app_distr.
  rewrite lstrip_word by now apply word_rev.
  now rewrite <- rev_app_distr, rev_involutive.
Qed.

Lemma join_words_shape (ws : list (list ascii)) :
  Forall word ws -> ws <> [] ->
  (exists w rest, word w /\ join_l space ws = w ++ rest) /\
  (exists pre w, word w /\ join_l space ws = pre ++ w).
Proof.
  induction 1 as [|w ws Hw Hws IH]; [congruence|]. intros _.
  destruct ws as [|w' ws].
  - cbn [join_l]. split.
    + exists w, []. now rewrite app_nil_r.
    + exists [], w. now split.
  - change (join_l space (w :: w' :: ws))
      with (w ++ space ++ join_l space (w' :: ws)).
    destruct IH as [_ (pre & wl & Hwl & E)]; [discriminate|]. split.
    + now exists w, (space ++ join_l space (w' :: ws)).
    + exists (w ++ space ++ pre), wl. split; [exact Hwl|].
      rewrite E. now rewrite <- !app_assoc.
Qed.

Lemma strip_join (ws : list (list ascii)) :
  Forall word ws -> strip_l (join_l space ws) = join_l space ws.
Proof.
  intros Hws. destruct ws as [|w0 ws0]; [reflexivity|].
  destruct (join_words_shape _ Hws) as [(w & rest & Hw & E1) (pre & wl & Hwl & E2)];
    [discriminate|].
  unfold strip_l. rewrite E1 at 1. rewrite lstrip_word by exact Hw.
  rewrite <- E1, E2. now apply rstrip_word.
Qed.

Lemma lstrip_idem (l : list ascii) : lstrip_l (lstrip_l l) = lstrip_l l.
Proof.
  induction l as [|c l IH]; [reflexivity|].
  cbn [lstrip_l]. destruct (isspace c) eqn:Hc; [exact IH|].
  cbn [lstrip_l]. now rewrite Hc.
Qed.

Lemma lstrip_app_nonspace (l : list ascii) (c : ascii) :
  isspace c = false -> lstrip_l (l ++ [c]) = lstrip_l l ++ [c].
Proof.
  intros Hc. induction l as [|d l IH]; cbn [app lstrip_l].
  - now rewrite Hc.
  - destruct (isspace d); [exact IH | reflexivity].
Qed.

Lemma lstrip_all_space (l : list ascii) :
  Forall (fun c => isspace c = true) l -> lstrip_l l = [].
Proof. induction 1 as [|c l Hc _ IH]; [reflexivity|]. cbn [lstrip_l]. now rewrite Hc. Qed.

(** Stripping on the left either empties the string or leaves a string that
    starts with a non-space character. *)
Lemma lstrip_cases (l : list ascii) :
  lstrip_l l = [] \/ exists c l', lstrip_l l = c :: l' /\ isspace c = false.
Proof.
  induction l as [|c l IH]; [now left|].
  cbn [lstrip_l]. destruct (isspace c) eqn:Hc; [exact IH|].
  right. now exists c, l.
Qed.

Lemma rstrip_cons_nonspace (c : ascii) (l : list ascii) :
  isspace c = false -> rstrip_l (c :: l) = c :: rstrip_l l.
Proof.
  intros Hc. unfold rstrip_l. cbn [rev].
  rewrite lstrip_app_nonspace by exact Hc.
  rewrite rev_app_distr. reflexivity.
Qed.

Lemma rstrip_idem (l : list ascii) : rstrip_l (rstrip_l l) = rstrip_l l.
Proof. unfold rstrip_l. now rewrite rev_involutive, lstrip_idem. Qed.

Lemma strip_idem (l : list ascii) : strip_l (strip_l l) = strip_l l.
Proof.
  unfold strip_l.
  destruct (lstrip_cases l) as [E | (c & a & E & Hc)]; rewrite E.
  - reflexivity.
  - rewrite rstrip_cons_nonspace by exact Hc.
    cbn [lstrip_l]. rewrite Hc.
    rewrite rstrip_cons_nonspace by exact Hc.
    now rewrite rstrip_idem.
Qed.

Lemma norm_l_idem (l : list ascii) : norm_l (norm_l l) = norm_l l.
Proof.
  unfold norm_l. set (W := split_l (strip_l l)).
  assert (HW : Forall word W) by apply split_words.
  rewrite strip_lower, split_lower, (strip_join W HW), (split_join W HW).
  replace (join_l space (map lower_l W)) with (lower_l (join_l space W))
    by (rewrite join_lower; reflexivity).
  apply lower_l_idem.
Qed.

Lemma norm_author_l_idem (l : list ascii) :
  lower_l (strip_l (lower_l (strip_l l))) = lower_l (strip_l l).
Proof. now rewrite strip_lower, strip_idem, lower_l_idem. Qed.

Lemma map_chars_str (ws : list (list ascii)) : map chars (map str ws) = ws.
Proof.
  rewrite map_map. rewrite <- (map_id ws) at 2. apply map_ext. apply chars_str.
Qed.

End PyStrFacts.

Lemma norm_text_chars (text : option string) :
  norm_text text = PyStr.str (PyStrSpec.norm_l (PyStr.chars (PyStr.or_empty text))).
Proof.
  unfold norm_text, PyStr.lower, PyStr.join, PyStr.split, PyStr.strip.
  now rewrite !PyStrFacts.chars_str, PyStrFacts.map_chars_str.
Qed.

Lemma norm_text_idem (text : option string) :
  norm_text (Some (norm_text text)) = norm_text text.
Proof.
  rewrite !norm_text_chars. cbn [PyStr.or_empty].
  now rewrite PyStrFacts.chars_str, PyStrFacts.norm_l_idem.
Qed.

Lemma norm_author_idem (author_name : option string) :
  norm_author (Some (norm_author author_name)) = norm_author author_name.
Proof.
  unfold norm_author, PyStr.lower, PyStr.strip. cbn [PyStr.or_empty].
  now rewrite !PyStrFacts.chars_str, PyStrFacts.norm_author_l_idem.
Qed.

(** ** The digest format *)

Lemma nibble_hex (v : Z) : is_lower_hex (Sha256.nibble v) = true.
Proof.
  unfold Sha256.nibble.
  assert (H : (Z.to_nat (v mod 16) < 16)%nat).
  { pose proof (Z.mod_pos_bound v 16 eq_refl). lia. }
  revert H. generalize (Z.to_nat (v mod 16)). intros n H.
  do 16 (destruct n as [|n]; [reflexivity|]). lia.
Qed.

Lemma hex32_hex (v : Z) : Forall (fun c => is_lower_hex c = true) (Sha256.hex32 v).
Proof. unfold Sha256.hex32. repeat constructor; apply nibble_hex. Qed.

Lemma string_length_str (l : list ascii) : String.length (PyStr.str l) = length l.
Proof.
  induction l as [|c l IH]; [reflexivity|].
  change (PyStr.str (c :: l)) with (String c (PyStr.str l)).
  cbn [String.length length]. now f_equal.
Qed.

Lemma hexdigest_length (d : Sha256.digest) : String.length (Sha256.hexdigest d) = 64%nat.
Proof. unfold Sha256.hexdigest. apply string_length_str. Qed.

Lemma hexdigest_hex (d : Sha256.digest) :
  Forall (fun c => is_lower_hex c = true) (PyStr.chars (Sha256.hexdigest d)).
Proof.
  unfold Sha256.hexdigest.
  rewrite (PyStrFacts.chars_str (_ ++ _)).
  repeat (apply Forall_app; split); apply hex32_hex.
Qed.


(** ** Strings over all code points *)

Module UnicodeFacts.
Import Unicode UnicodeSpec.

(** *** The tables *)

Lemma table_checked : forallb entry_ok lower_table = true.
Proof. vm_compute. reflexivity. Qed.

Lemma whitespace_checked : forallb space_ok whitespace = true.
Proof. vm_compute. reflexivity. Qed.

Lemma assoc_in (c : Z) (t : list (Z * list Z)) (l : list Z) :
  assoc c t = Some l -> In (c, l) t.
Proof.
  induction t as [|[k v] t IH]; cbn [assoc]; [discriminate|].
  destruct (Z.eqb_spec c k) as [->|_].
  - intros E. inversion E. now left.
  - intros E. right. now apply IH.
Qed.

Lemma unmapped_full (d : Z) : unmapped d = true -> lower_full d = [d].
Proof. unfold unmapped, lower_full. destruct (assoc d lower_table); [discriminate | reflexivity]. Qed.

Lemma image_ok_facts (d : Z) :
  image_ok d = true ->
  settled d /\ isspace d = false /\ surrogate d = false.
Proof.
  unfold image_ok. rewrite !andb_true_iff, !negb_true_iff.
  intros [[[H1 H2] H3] H4]. repeat split; try assumption.
  - now apply Z.eqb_neq.
  - now apply unmapped_full.
Qed.

Lemma sigma_mapped : assoc 931 lower_table <> None.
Proof. vm_compute. discriminate. Qed.

(** The lower-case mapping of a code point: not empty, settled, and free of
    whitespace and of surrogates when the code point is. *)
Lemma lower_full_facts (c : Z) :
  lower_full c <> []
  /\ (c <> 931 -> Forall settled (lower_full c))
  /\ (isspace c = false -> Forall (fun d => isspace d = false) (lower_full c))
  /\ (surrogate c = false -> Forall (fun d => surrogate d = false) (lower_full c)).
Proof.
  unfold lower_full. destruct (assoc c lower_table) as [l|] eqn:E.
  - apply assoc_in in E.
    pose proof table_checked as H. rewrite forallb_forall in H.
    specialize (H _ E). unfold entry_ok in H. cbn [snd] in H.
    apply andb_true_iff in H. destruct H as [Hne Hall].
    rewrite forallb_forall in Hall.
    split; [destruct l; [discriminate | discriminate]|].
    split; [|split]; intros _; apply List.Forall_forall; intros d Hd;
      apply image_ok_facts, Hall, Hd.
  - split; [discriminate|]. split; [|split].
    + intros Hc. constructor; [|constructor]. split; [exact Hc|].
      unfold lower_full. now rewrite E.
    + intros Hc. now repeat constructor.
    + intros Hc. now repeat constructor.
Qed.

Lemma isspace_in (c : Z) : isspace c = true -> In c whitespace.
Proof.
  unfold isspace. rewrite existsb_exists. intros (x & Hx & E).
  apply Z.eqb_eq in E. now subst.
Qed.

(** A whitespace code point is its own lower-case mapping and stops the
    search for a cased letter. *)
Lemma space_facts (c : Z) :
  isspace c = true ->
  c <> 931 /\ lower_full c = [c] /\ cased c = false /\ case_ignorable c = false.
Proof.
  intros H. apply isspace_in in H.
  pose proof whitespace_checked as Hall. rewrite forallb_forall in Hall.
  specialize (Hall _ H). unfold space_ok in Hall.
  rewrite !andb_true_iff, !negb_true_iff in Hall.
  destruct Hall as [[[H1 H2] H3] H4]. repeat split; try assumption.
  - now apply Z.eqb_neq.
  - now apply unmapped_full.
Qed.

Lemma small_sigmas : image_ok 962 = true /\ image_ok 963 = true.
Proof. vm_compute. split; reflexivity. Qed.

(** *** str.lower *)

(** The code points [lower_from] writes for one code point. *)
Definition image (before : list Z) (c : Z) (after : list Z) : list Z :=
  if c =? 931 then [if final_sigma before after then 962 else 963] else lower_full c.

Lemma lower_from_cons (before : list Z) (c : Z) (s : list Z) :
  lower_from before (c :: s) = image before c s ++ lower_from (c :: before) s.
Proof. reflexivity. Qed.

Lemma image_facts (before : list Z) (c : Z) (after : list Z) :
  image before c after <> []
  /\ Forall settled (image before c after)
  /\ (isspace c = false -> Forall (fun d => isspace d = false) (image before c after))
  /\ (surrogate c = false -> Forall (fun d => surrogate d = false) (image before c after)).
Proof.
  unfold image. destruct (Z.eqb_spec c 931) as [->|Hc].
  - destruct small_sigmas as [H2 H3].
    apply image_ok_facts in H2, H3.
    destruct H2 as (A2 & B2 & C2), H3 as (A3 & B3 & C3).
    split; [discriminate|].
    destruct (final_sigma before after); repeat split; intros;
      (constructor; [assumption | constructor]).
  - destruct (lower_full_facts c) as (H1 & H2 & H3 & H4).
    split; [exact H1|]. split; [now apply H2|]. split; assumption.
Qed.

Lemma lower_from_settled (before s : list Z) : Forall settled (lower_from before s).
Proof.
  revert before. induction s as [|c s IH]; intros before; [constructor|].
  rewrite lower_from_cons. apply Forall_app. split; [|apply IH].
  apply image_facts.
Qed.

Lemma lower_from_fixed (before s : list Z) : Forall settled s -> lower_from before s = s.
Proof.
  intros H. revert before. induction H as [|c s [Hc Hl] _ IH]; intros before;
    [reflexivity|].
  rewrite lower_from_cons, IH. unfold image.
  destruct (Z.eqb_spec c 931); [contradiction|]. now rewrite Hl.
Qed.

Lemma lower_idem (s : list Z) : lower (lower s) = lower s.
Proof. apply lower_from_fixed, lower_from_settled. Qed.

Lemma lower_from_nospace (before s : list Z) :
  Forall (fun c => isspace c = false) s ->
  Forall (fun c => isspace c = false) (lower_from before s).
Proof.
  intros H. revert before. induction H as [|c s Hc _ IH]; intros before; [constructor|].
  rewrite lower_from_cons. apply Forall_app. split; [|apply IH].
  now apply image_facts.
Qed.

Lemma lower_from_encodable (before s : list Z) :
  encodable s -> encodable (lower_from before s).
Proof.
  intros H. revert before. induction H as [|c s Hc _ IH]; intros before; [constructor|].
  rewrite lower_from_cons. apply Forall_app. split; [|apply IH].
  now apply image_facts.
Qed.

Lemma lower_from_nonnil (before s : list Z) : s <> [] -> lower_from before s <> [].
Proof.
  destruct s as [|c s]; [congruence|]. intros _. rewrite lower_from_cons.
  destruct (image_facts before c s) as (H & _).
  destruct (image before c s); [congruence | discriminate].
Qed.

Lemma lower_word (w : list Z) : word w -> word (lower w).
Proof.
  intros [Hne Hw]. split; [now apply lower_from_nonnil | now apply lower_from_nospace].
Qed.

(** Whitespace cuts the context of a sigma on both sides. *)
Lemma cased_first_space (l r : list Z) (sp : Z) :
  isspace sp = true -> cased_first (l ++ sp :: r) = cased_first l.
Proof.
  intros Hsp. destruct (space_facts sp Hsp) as (_ & _ & Hc & Hi).
  induction l as [|c l IH]; cbn [app cased_first].
  - now rewrite Hi, Hc.
  - now rewrite IH.
Qed.

Lemma lower_from_before (l r s : list Z) (sp : Z) :
  isspace sp = true -> lower_from (l ++ sp :: r) s = lower_from l s.
Proof.
  intros Hsp. revert l. induction s as [|c s IH]; intros l; [reflexivity|].
  rewrite !lower_from_cons. unfold image, final_sigma.
  rewrite (cased_first_space l r sp Hsp).
  change (c :: l ++ sp :: r) with ((c :: l) ++ sp :: r). now rewrite IH.
Qed.

Lemma lower_from_space (before a b : list Z) (sp : Z) :
  isspace sp = true ->
  lower_from before (a ++ sp :: b) = lower_from before a ++ sp :: lower_from [] b.
Proof.
  intros Hsp. destruct (space_facts sp Hsp) as (Hne & Hfull & _).
  revert before. induction a as [|c a IH]; intros before.
  - cbn [app]. rewrite lower_from_cons. unfold image.
    destruct (Z.eqb_spec sp 931); [contradiction|]. rewrite Hfull.
    cbn [app lower_from].
    change (sp :: before) with ([] ++ sp :: before).
    now rewrite (lower_from_before [] before b sp Hsp).
  - cbn [app]. rewrite !lower_from_cons, IH. unfold image, final_sigma.
    rewrite (cased_first_space a b sp Hsp). now rewrite <- app_assoc.
Qed.

Lemma lower_join (ws : list (list Z)) :
  lower (join space ws) = join space (map lower ws).
Proof.
  induction ws as [|w ws IH]; [reflexivity|].
  destruct ws as [|w' ws]; [reflexivity|].
  change (join space (w :: w' :: ws)) with (w ++ 32 :: join space (w' :: ws)).
  unfold lower at 1. rewrite lower_from_space by reflexivity.
  fold (lower w). fold (lower (join space (w' :: ws))). rewrite IH. reflexivity.
Qed.

(** The lower-case form of a string that ends with a code point other than
    whitespace ends with one. *)
Lemma lower_from_last (before s : list Z) (c : Z) :
  isspace c = false ->
  exists pre d, lower_from before (s ++ [c]) = pre ++ [d] /\ isspace d = false.
Proof.
  intros Hc. revert before. induction s as [|x s IH]; intros before.
  - cbn [app]. rewrite lower_from_cons. cbn [lower_from]. rewrite app_nil_r.
    destruct (image_facts before c []) as (Hne & _ & Hsp & _).
    specialize (Hsp Hc).
    destruct (exists_last Hne) as (pre & d & E). rewrite E in *.
    exists pre, d. split; [reflexivity|].
    apply Forall_app in Hsp. destruct Hsp as [_ Hd]. now inversion Hd.
  - cbn [app]. rewrite lower_from_cons.
    destruct (IH (x :: before)) as (pre & d & E & Hd). rewrite E.
    exists (image before x (s ++ [c]) ++ pre), d. split; [now rewrite app_assoc | exact Hd].
Qed.

Lemma lower_from_first (before s : list Z) (c : Z) :
  isspace c = false ->
  exists d rest, lower_from before (c :: s) = d :: rest /\ isspace d = false.
Proof.
  intros Hc. rewrite lower_from_cons.
  destruct (image_facts before c s) as (Hne & _ & Hsp & _). specialize (Hsp Hc).
  destruct (image before c s) as [|d l]; [congruence|].
  exists d, (l ++ lower_from (c :: before) s). split; [reflexivity|]. now inversion Hsp.
Qed.


(** *** strip, split and join *)

Lemma fields_nospace_u (w : list Z) :
  Forall (fun c => isspace c = false) w -> fields w = [w].
Proof.
  induction 1 as [|c w Hc _ IH]; [reflexivity|].
  cbn [fields]. now rewrite Hc, IH.
Qed.

Lemma fields_app_space_u (w rest : list Z) (sp : Z) :
  Forall (fun c => isspace c = false) w -> isspace sp = true ->
  fields (w ++ sp :: rest) = w :: fields rest.
Proof.
  intros Hw Hsp. induction Hw as [|c w Hc _ IH].
  - cbn [app fields]. now rewrite Hsp.
  - cbn [app fields]. now rewrite Hc, IH.
Qed.

Lemma fields_all_nospace_u (l : list Z) :
  Forall (Forall (fun c => isspace c = false)) (fields l).
Proof.
  induction l as [|c l IH]; cbn [fields].
  - repeat constructor.
  - destruct (isspace c) eqn:Hc.
    + constructor; [constructor | exact IH].
    + destruct (fields l) as [|w ws]; [repeat constructor; exact Hc|].
      inversion IH; subst. constructor; [constructor; assumption | assumption].
Qed.

Lemma split_words_u (l : list Z) : Forall word (split l).
Proof.
  unfold split. pose proof (fields_all_nospace_u l) as H.
  induction H as [|w ws Hw _ IH]; [constructor|].
  cbn [List.filter]. destruct w as [|c w]; [exact IH|].
  cbn [nonempty]. constructor; [split; [discriminate | exact Hw] | exact IH].
Qed.

Lemma split_join_u (ws : list (list Z)) :
  Forall word ws -> split (join space ws) = ws.
Proof.
  induction 1 as [|w ws [Hne Hw] Hws IH]; [reflexivity|].
  destruct ws as [|w' ws].
  - cbn [join]. unfold split. rewrite fields_nospace_u by exact Hw.
    destruct w; [congruence | reflexivity].
  - change (join space (w :: w' :: ws)) with (w ++ 32 :: join space (w' :: ws)).
    unfold split. rewrite fields_app_space_u by (exact Hw || reflexivity).
    cbn [List.filter]. fold (split (join space (w' :: ws))). rewrite IH.
    destruct w; [congruence | reflexivity].
Qed.

Lemma lstrip_word_u (w rest : list Z) : word w -> lstrip (w ++ rest) = w ++ rest.
Proof.
  intros [Hne Hw]. destruct Hw as [|c w Hc _]; [congruence|].
  cbn [app lstrip]. now rewrite Hc.
Qed.

Lemma word_rev_u (w : list Z) : word w -> word (rev w).
Proof.
  intros [Hne Hw]. split.
  - intros E. apply Hne. apply (f_equal (@rev Z)) in E.
    now rewrite rev_involutive in E.
  - rewrite List.Forall_forall in *. intros c Hc. apply Hw. now apply in_rev.
Qed.

Lemma rstrip_word_u (pre w : list Z) : word w -> rstrip (pre ++ w) = pre ++ w.
Proof.
  intros Hw. unfold rstrip. rewrite rev_app_distr.
  rewrite lstrip_word_u by now apply word_rev_u.
  now rewrite <- rev_app_distr, rev_involutive.
Qed.

Lemma join_words_shape_u (ws : list (list Z)) :
  Forall word ws -> ws <> [] ->
  (exists w rest, word w /\ join space ws = w ++ rest) /\
  (exists pre w, word w /\ join space ws = pre ++ w).
Proof.
  induction 1 as [|w ws Hw Hws IH]; [congruence|]. intros _.
  destruct ws as [|w' ws].
  - cbn [join]. split.
    + exists w, []. now rewrite app_nil_r.
    + exists [], w. now split.
  - change (join space (w :: w' :: ws)) with (w ++ space ++ join space (w' :: ws)).
    destruct IH as [_ (pre & wl & Hwl & E)]; [discriminate|]. split.
    + now exists w, (space ++ join space (w' :: ws)).
    + exists (w ++ space ++ pre), wl. split; [exact Hwl|].
      rewrite E. now rewrite <- !app_assoc.
Qed.

Lemma strip_join_u (ws : list (list Z)) :
  Forall word ws -> strip (join space ws) = join space ws.
Proof.
  intros Hws. destruct ws as [|w0 ws0]; [reflexivity|].
  destruct (join_words_shape_u _ Hws) as [(w & rest & Hw & E1) (pre & wl & Hwl & E2)];
    [discriminate|].
  unfold strip. rewrite E1 at 1. rewrite lstrip_word_u by exact Hw.
  rewrite <- E1, E2. now apply rstrip_word_u.
Qed.

Lemma lstrip_cases_u (l : list Z) :
  lstrip l = [] \/ exists c l', lstrip l = c :: l' /\ isspace c = false.
Proof.
  induction l as [|c l IH]; [now left|].
  cbn [lstrip]. destruct (isspace c) eqn:Hc; [exact IH|].
  right. now exists c, l.
Qed.

Lemma lstrip_app_nonspace_u (l : list Z) (c : Z) :
  isspace c = false -> lstrip (l ++ [c]) = lstrip l ++ [c].
Proof.
  intros Hc. induction l as [|d l IH]; cbn [app lstrip].
  - now rewrite Hc.
  - destruct (isspace d); [exact IH | reflexivity].
Qed.

Lemma rstrip_cons_nonspace_u (c : Z) (l : list Z) :
  isspace c = false -> rstrip (c :: l) = c :: rstrip l.
Proof.
  intros Hc. unfold rstrip. cbn [rev].
  rewrite lstrip_app_nonspace_u by exact Hc.
  rewrite rev_app_distr. reflexivity.
Qed.

(** A stripped string is empty, or starts and ends with a code point other
    than whitespace. *)
Lemma strip_cases (l : list Z) :
  strip l = []
  \/ (exists c rest, strip l = c :: rest /\ isspace c = false)
     /\ (exists pre d, strip l = pre ++ [d] /\ isspace d = false).
Proof.
  unfold strip. destruct (lstrip_cases_u l) as [E | (c & a & E & Hc)]; rewrite E.
  - now left.
  - right. rewrite rstrip_cons_nonspace_u by exact Hc. split; [eauto|].
    unfold rstrip. destruct (lstrip_cases_u (rev a)) as [E' | (d & a' & E' & Hd)];
      rewrite E'.
    + exists [], c. now split.
    + exists (c :: rev a'), d. cbn [rev app]. now split.
Qed.

Lemma strip_lowered (l : list Z) : strip (lower (strip l)) = lower (strip l).
Proof.
  destruct (strip_cases l) as [E | [(c & rest & E1 & Hc) (pre & d & E2 & Hd)]].
  - now rewrite E.
  - unfold lower.
    destruct (lower_from_first [] rest c Hc) as (c' & rest' & F1 & Hc').
    destruct (lower_from_last [] pre d Hd) as (pre' & d' & F2 & Hd').
    rewrite <- E1 in F1. rewrite <- E2 in F2.
    generalize dependent (lower_from [] (strip l)). intros X F1 F2.
    unfold strip. rewrite F1. cbn [lstrip]. rewrite Hc'.
    rewrite <- F1, F2. apply rstrip_word_u.
    split; [discriminate | now repeat constructor].
Qed.

(** *** The normal forms *)

Lemma norm_text_join (text : option (list Z)) :
  exists ws, Forall word ws /\ norm_text text = join space ws
             /\ map lower ws = ws.
Proof.
  unfold norm_text. fold space.
  set (W := split (strip (or_empty text))).
  assert (HW : Forall word W) by apply split_words_u.
  exists (map lower W). split; [|split].
  - clearbody W. induction HW; constructor; [now apply lower_word | assumption].
  - apply lower_join.
  - rewrite map_map. apply map_ext. intros w. apply lower_idem.
Qed.

Lemma norm_text_idem_u (text : option (list Z)) :
  norm_text (Some (norm_text text)) = norm_text text.
Proof.
  destruct (norm_text_join text) as (ws & Hws & E & Hl).
  unfold norm_text at 1. cbn [or_empty]. rewrite E. fold space.
  rewrite (strip_join_u ws Hws), (split_join_u ws Hws), lower_join, Hl. reflexivity.
Qed.

Lemma norm_author_idem_u (author_name : option (list Z)) :
  norm_author (Some (norm_author author_name)) = norm_author author_name.
Proof.
  unfold norm_author. cbn [or_empty]. now rewrite strip_lowered, lower_idem.
Qed.

(** *** Surrogates *)

Lemma encodable_lstrip (l : list Z) : encodable l -> encodable (lstrip l).
Proof.
  induction 1 as [|c l Hc H IH]; [constructor|].
  cbn [lstrip]. destruct (isspace c); [exact IH | now constructor].
Qed.

Lemma encodable_rev (l : list Z) : encodable l -> encodable (rev l).
Proof.
  unfold encodable. rewrite !List.Forall_forall. intros H c Hc. apply H.
  now apply in_rev.
Qed.

Lemma encodable_strip (l : list Z) : encodable l -> encodable (strip l).
Proof.
  intros H. unfold strip, rstrip.
  now apply encodable_rev, encodable_lstrip, encodable_rev, encodable_lstrip.
Qed.

Lemma encodable_fields (l : list Z) : encodable l -> Forall encodable (fields l).
Proof.
  induction 1 as [|c l Hc H IH]; cbn [fields]; [repeat constructor|].
  destruct (isspace c).
  - constructor; [constructor | exact IH].
  - destruct (fields l) as [|w ws]; [repeat constructor; exact Hc|].
    inversion IH; subst. constructor; [now constructor | assumption].
Qed.

Lemma encodable_join (ws : list (list Z)) :
  Forall encodable ws -> encodable (join space ws).
Proof.
  induction 1 as [|w ws Hw Hws IH]; [constructor|].
  destruct ws as [|w' ws]; [exact Hw|].
  change (join space (w :: w' :: ws)) with (w ++ 32 :: join space (w' :: ws)).
  apply Forall_app. split; [exact Hw|]. constructor; [reflexivity | exact IH].
Qed.

Lemma encodable_norm_text (text : option (list Z)) :
  encodable (or_empty text) -> encodable (norm_text text).
Proof.
  intros H. unfold norm_text. apply lower_from_encodable. apply encodable_join.
  unfold split. apply encodable_strip, encodable_fields in H.
  induction H as [|w ws Hw _ IH]; [constructor|].
  cbn [List.filter]. destruct (nonempty w); [now constructor | exact IH].
Qed.

Lemma encodable_norm_author (author_name : option (list Z)) :
  encodable (or_empty author_name) -> encodable (norm_author author_name).
Proof. intros H. unfold norm_author. now apply lower_from_encodable, encodable_strip. Qed.

Lemma encode_utf8_ok (s : list Z) :
  (exists bytes, encode_utf8 s = Ok bytes) <-> encodable s.
Proof.
  unfold encode_utf8, encodable. split.
  - intros [bytes E]. destruct (existsb surrogate s) eqn:Ex; [discriminate|].
    apply List.Forall_forall. intros c Hc.
    destruct (surrogate c) eqn:Sc; [|reflexivity].
    assert (existsb surrogate s = true) by (apply existsb_exists; eauto). congruence.
  - intros H. destruct (existsb surrogate s) eqn:Ex; [|eauto].
    apply existsb_exists in Ex. destruct Ex as (c & Hc & Sc).
    rewrite List.Forall_forall in H. rewrite (H c Hc) in Sc. discriminate.
Qed.

End UnicodeFacts.

(** *** The strings of the code points below 256 *)

Module Latin1.

Lemma code_facts (a : ascii) :
  Unicode.isspace (PyStr.code a) = PyStr.isspace a
  /\ (PyStr.code a =? 931) = false
  /\ Unicode.lower_full (PyStr.code a) = [PyStr.code (PyStr.lower_char a)]
  /\ Unicode.surrogate (PyStr.code a) = false
  /\ Unicode.utf8_char (PyStr.code a) = PyStr.utf8_char a.
Proof. destruct a as [[] [] [] [] [] [] [] []]; vm_compute; repeat split. Qed.

Lemma lstrip_code (l : list ascii) :
  Unicode.lstrip (map PyStr.code l) = map PyStr.code (PyStr.lstrip_l l).
Proof.
  induction l as [|a l IH]; [reflexivity|].
  cbn [map Unicode.lstrip PyStr.lstrip_l]. rewrite (proj1 (code_facts a)).
  destruct (PyStr.isspace a); [exact IH | reflexivity].
Qed.

Lemma strip_code (l : list ascii) :
  Unicode.strip (map PyStr.code l) = map PyStr.code (PyStr.strip_l l).
Proof.
  unfold Unicode.strip, Unicode.rstrip, PyStr.strip_l, PyStr.rstrip_l.
  now rewrite lstrip_code, <- map_rev, lstrip_code, map_rev.
Qed.

Lemma fields_code (l : list ascii) :
  Unicode.fields (map PyStr.code l) = map (map PyStr.code) (PyStr.fields l).
Proof.
  induction l as [|a l IH]; [reflexivity|].
  cbn [map Unicode.fields PyStr.fields]. rewrite (proj1 (code_facts a)), IH.
  destruct (PyStr.isspace a); [reflexivity|].
  destruct (PyStr.fields l); reflexivity.
Qed.

Lemma split_code (l : list ascii) :
  Unicode.split (map PyStr.code l) = map (map PyStr.code) (PyStr.split_l l).
Proof.
  unfold Unicode.split, PyStr.split_l. rewrite fields_code.
  induction (PyStr.fields l) as [|w ws IH]; [reflexivity|].
  cbn [map List.filter]. rewrite IH. destruct w; reflexivity.
Qed.

Lemma join_code (sep : list ascii) (ws : list (list ascii)) :
  Unicode.join (map PyStr.code sep) (map (map PyStr.code) ws)
  = map PyStr.code (PyStr.join_l sep ws).
Proof.
  induction ws as [|w ws IH]; [reflexivity|].
  destruct ws as [|w' ws]; [reflexivity|].
  change (PyStr.join_l sep (w :: w' :: ws))
    with (w ++ sep ++ PyStr.join_l sep (w' :: ws)).
  rewrite !map_app, <- IH. reflexivity.
Qed.

Lemma lower_code (before : list Z) (l : list ascii) :
  Unicode.lower_from before (map PyStr.code l) = map PyStr.code (PyStr.lower_l l).
Proof.
  revert before. induction l as [|a l IH]; intros before; [reflexivity|].
  cbn [map Unicode.lower_from PyStr.lower_l].
  destruct (code_facts a) as (_ & H1 & H2 & _). rewrite H1, H2, IH. reflexivity.
Qed.

Lemma of_string_str (l : list ascii) : Unicode.of_string (PyStr.str l) = map PyStr.code l.
Proof. unfold Unicode.of_string. now rewrite PyStrFacts.chars_str. Qed.

Lemma of_string_append (a b : string) :
  Unicode.of_string (a +:+ b) = Unicode.of_string a ++ Unicode.of_string b.
Proof.
  induction a as [|c a IH]; [reflexivity|].
  change ((String c a +:+ b)%string) with (String c (a +:+ b)).
  change (Unicode.of_string (String c (a +:+ b)))
    with (PyStr.code c :: Unicode.of_string (a +:+ b)).
  now rewrite IH.
Qed.

Lemma or_empty_code (o : option string) :
  Unicode.or_empty (option_map Unicode.of_string o)
  = map PyStr.code (PyStr.chars (PyStr.or_empty o)).
Proof. destruct o; reflexivity. Qed.

Lemma norm_text_code (text : option string) :
  Unicode.norm_text (option_map Unicode.of_string text)
  = Unicode.of_string (norm_text text).
Proof.
  unfold Unicode.norm_text, norm_text, PyStr.lower, PyStr.join, PyStr.split, PyStr.strip.
  rewrite of_string_str, !PyStrFacts.chars_str, PyStrFacts.map_chars_str.
  rewrite or_empty_code, strip_code, split_code.
  change [32] with (map PyStr.code (PyStr.chars " ")).
  rewrite join_code. apply lower_code.
Qed.

Lemma norm_author_code (author_name : option string) :
  Unicode.norm_author (option_map Unicode.of_string author_name)
  = Unicode.of_string (norm_author author_name).
Proof.
  unfold Unicode.norm_author, norm_author, PyStr.lower, PyStr.strip.
  rewrite of_string_str, !PyStrFacts.chars_str.
  rewrite or_empty_code, strip_code. apply lower_code.
Qed.

Lemma encode_code (l : list ascii) :
  Unicode.encode_utf8 (map PyStr.code l) = Ok (flat_map PyStr.utf8_char l).
Proof.
  unfold Unicode.encode_utf8.
  assert (E : existsb Unicode.surrogate (map PyStr.code l) = false).
  { induction l as [|a l IH]; [reflexivity|].
    cbn [map existsb]. destruct (code_facts a) as (_ & _ & _ & H & _).
    now rewrite H, IH. }
  rewrite E. f_equal. clear E.
  induction l as [|a l IH]; [reflexivity|].
  cbn [map flat_map]. destruct (code_facts a) as (_ & _ & _ & _ & H).
  rewrite H. f_equal. exact IH.
Qed.

Lemma compute_quote_hash_code (text author_name : option string) :
  Unicode.compute_quote_hash (option_map Unicode.of_string text)
    (option_map Unicode.of_string author_name)
  = Ok (compute_quote_hash text author_name).
Proof.
  unfold Unicode.compute_quote_hash, compute_quote_hash.
  rewrite norm_text_code, norm_author_code.
  change [124] with (Unicode.of_string "|").
  rewrite <- !of_string_append. unfold Unicode.of_string at 1.
  now rewrite encode_code.
Qed.

End Latin1.

(** C5. [compute_quote_hash], on strings over all code points: for every
    pair of arguments the result does not change when the arguments are
    replaced by their normal forms (text: stripped, whitespace runs
    collapsed to one space, lower-cased; author: stripped and lower-cased,
    empty when absent); every value returned is 64 lower-case hexadecimal
    digits; a value is returned exactly when the normal forms hold no
    surrogate code point, which UTF-8 cannot encode, and so for every pair
    of strings that hold none; and on strings of code points below 256 the
    value is that of the function the stored hashes are computed with. *)
Theorem compute_quote_hash_normalized :
  (forall text author_name : option (list Z),
      Unicode.compute_quote_hash text author_name
      = Unicode.compute_quote_hash (Some (Unicode.norm_text text))
          (Some (Unicode.norm_author author_name)))
  /\ (forall (text author_name : option (list Z)) (h : string),
         Unicode.compute_quote_hash text author_name = Ok h ->
         String.length h = 64%nat
         /\ Forall (fun c => is_lower_hex c = true) (PyStr.chars h))
  /\ (forall text author_name : option (list Z),
         (exists h, Unicode.compute_quote_hash text author_name = Ok h)
         <-> UnicodeSpec.encodable
               (Unicode.norm_text text ++ Unicode.norm_author author_name))
  /\ (forall text author_name : option (list Z),
         UnicodeSpec.encodable (Unicode.or_empty text) ->
         UnicodeSpec.encodable (Unicode.or_empty author_name) ->
         exists h, Unicode.compute_quote_hash text author_name = Ok h)
  /\ (forall text author_name : option string,
         Unicode.compute_quote_hash (option_map Unicode.of_string text)
           (option_map Unicode.of_string author_name)
         = Ok (compute_quote_hash text author_name)).
Proof.
  assert (Hok : forall text author_name : option (list Z),
             (exists h, Unicode.compute_quote_hash text author_name = Ok h)
             <-> UnicodeSpec.encodable
                   (Unicode.norm_text text ++ Unicode.norm_author author_name)).
  { intros text author_name. unfold Unicode.compute_quote_hash.
    pose proof (UnicodeFacts.encode_utf8_ok
                  (Unicode.norm_text text ++ [124] ++ Unicode.norm_author author_name))
      as H.
    split.
    - intros [h E].
      destruct (Unicode.encode_utf8 _) as [bytes|e] eqn:Eb; [|discriminate].
      destruct H as [H _]. specialize (H (ex_intro _ bytes eq_refl)).
      unfold UnicodeSpec.encodable in *. rewrite !Forall_app in H.
      rewrite Forall_app. destruct H as (H1 & _ & H2). now split.
    - intros He. destruct H as [_ H].
      destruct H as [bytes Eb].
      + unfold UnicodeSpec.encodable in *. rewrite Forall_app in He.
        rewrite !Forall_app. destruct He as [H1 H2].
        split; [exact H1|]. split; [now repeat constructor | exact H2].
      + rewrite Eb. eauto. }
  split; [|split; [|split; [|split]]].
  - intros text author_name. unfold Unicode.compute_quote_hash.
    now rewrite UnicodeFacts.norm_text_idem_u, UnicodeFacts.norm_author_idem_u.
  - intros text author_name h. unfold Unicode.compute_quote_hash.
    destruct (Unicode.encode_utf8 _); [|discriminate].
    intros E. inversion E. split; [apply hexdigest_length | apply hexdigest_hex].
  - exact Hok.
  - intros text author_name Ht Ha. apply Hok. apply Forall_app. split.
    + now apply UnicodeFacts.encodable_norm_text.
    + now apply UnicodeFacts.encodable_norm_author.
  - apply Latin1.compute_quote_hash_code.
Qed.

(** The digests of hashlib for a text in curly quotes with capital sigmas,
    one of them final, over an ideographic space, and for a text with the
    dotted capital I. *)
Example compute_quote_hash_greek :
  Unicode.compute_quote_hash
    (Some [8220; 927; 916; 933; 931; 931; 917; 933; 931; 32; 12288; 32; 931; 8221; 8195])
    (Some [32; 908; 924; 919; 929; 927; 931; 160; 66560])
  = Ok "7fddf9ae07433af905ca1d7d00fd446c41e77b7b02f2d9c24a3b34975b353144"%string
  /\ Unicode.norm_text
       (Some [8220; 927; 916; 933; 931; 931; 917; 933; 931; 32; 12288; 32; 931; 8221;
              8195])
     = [8220; 959; 948; 965; 963; 963; 949; 965; 962; 32; 963; 8221].
Proof. vm_compute. split; reflexivity. Qed.

Example compute_quote_hash_dotted :
  Unicode.compute_quote_hash
    (Some [304; 115; 116; 97; 110; 98; 117; 108; 32; 32; 201; 84; 201]) None
  = Ok "f50838c84c9c43e574550c4d10b1d54e4b12441adb63ceafe66c1550aab8559f"%string.
Proof. vm_compute. reflexivity. Qed.

Example compute_quote_hash_surrogate :
  exists e, Unicode.compute_quote_hash (Some [55296]) None = Raise e.
Proof. eexists. vm_compute. reflexivity. Qed.


(** The link texts line 136 takes for a link to the next page. *)
Example is_next_text_marks :
  is_next_text (Some [8250]) = true
  /\ is_next_text (Some [187]) = true
  /\ is_next_text (Some (Unicode.of_string " NEXT ")) = true
  /\ is_next_text (Some (Unicode.of_string "previous")) = false
  /\ is_next_text (Some []) = false
  /\ is_next_text None = false.
Proof. vm_compute. repeat split. Qed.

(** ** The model on concrete inputs *)

Example sha256_abc :
  Sha256.hexdigest (Sha256.sha256 (PyStr.encode_utf8 "abc"))
  = "ba7816bf8f01cfea414140de5dae2223b00361a396177a9cb410ff61f20015ad"%string.
Proof. vm_compute. reflexivity. Qed.

Example sha256_two_blocks :
  Sha256.hexdigest (Sha256.sha256 (repeat 97 100))
  = "2816597888e4a0d3a36b82b83316ab32680eb8f00f8cd3b904d681246d285a0e"%string.
Proof. vm_compute. reflexivity. Qed.

Example compute_quote_hash_empty :
  compute_quote_hash None None
  = "cbe5cfdf7c2118a9c3d78ef1d684f3afa089201352886449a06a6511cfef74a7"%string.
Proof. vm_compute. reflexivity. Qed.

Example compute_quote_hash_einstein :
  compute_quote_hash
    (Some "  The world   as we have
 created it. "%string) (Some " Albert Einstein "%string)
  = "d7907380fb6156ace41aaabd95ef03d88f763e3c7b66494296d4d73f9e83f0c7"%string.
Proof. vm_compute. reflexivity. Qed.

Example compute_quote_hash_upper_half :
  let cafe := String "C" (String "A" (String "F" (String (PyStr.chr 201)
                (String " " (String (PyStr.chr 187) EmptyString))))) in
  let emile := String (PyStr.chr 201) "mile" in
  compute_quote_hash (Some cafe) (Some emile)
  = "dce26fcf860970fb583cc0081e205c6d7092de487f5ef9df47fd8bd148adbeeb"%string.
Proof. vm_compute. reflexivity. Qed.

(** A site of two pages: three quotes are stored and two pages fetched; the
    status written by the first run is derived from the counters the job
    was loaded with, the status written by the second run from the counters
    the first run left. *)
Example two_page_site_runs :
  Scenario.summary (snd (Scenario.run Scenario.world Scenario.store0))
  = Some (ScrapeJob.FAILED, 2, 3, 0)
  /\ Scenario.summary
       (snd (Scenario.run Scenario.world
               (snd (Scenario.run Scenario.world Scenario.store0))))
     = Some (ScrapeJob.SUCCESS, 4, 3, 0)
  /\ map Quote.author (quotes (snd (Scenario.run Scenario.world Scenario.store0)))
     = [Some (Author.mk 1 "Albert Einstein" None); None;
        Some (Author.mk 2 "Steve Martin" None)].
Proof. vm_compute. repeat split. Qed.

(** ** Running the primitives *)

Ltac py_simpl :=
  cbn [bind ret raise try_except locals store assign update now sleep_ms call method
       fst snd].

(** ** ScrapeJob.save with the field lists the code uses *)

Lemma copy_fields_running (self row : ScrapeJob.t) :
  ScrapeJob.copy_fields ["status"; "started_at"; "updated_at"]%string self row
  = ScrapeJob.set_started_at (ScrapeJob.started_at self)
      (ScrapeJob.set_status (ScrapeJob.status self) row).
Proof. reflexivity. Qed.

Lemma copy_fields_finished (self row : ScrapeJob.t) :
  ScrapeJob.copy_fields ["status"; "finished_at"; "updated_at"]%string self row
  = ScrapeJob.set_finished_at (ScrapeJob.finished_at self)
      (ScrapeJob.set_status (ScrapeJob.status self) row).
Proof. reflexivity. Qed.

Lemma copy_fields_counters (self row : ScrapeJob.t) :
  ScrapeJob.copy_fields
    ["quotes_fetched"; "quotes_saved"; "errors_count"; "updated_at"]%string self row
  = ScrapeJob.set_errors_count (ScrapeJob.errors_count self)
      (ScrapeJob.set_quotes_saved (ScrapeJob.quotes_saved self)
         (ScrapeJob.set_quotes_fetched (ScrapeJob.quotes_fetched self) row)).
Proof. reflexivity. Qed.

Lemma statement_run {L A} (w : World) (body : Store -> result A * Store) (l : L) (st : Store) :
  statement w body (l, st)
  = match faults w (tick st) with
    | Some e => (Raise e, (l, arrive w st))
    | None => (fst (body (arrive w st)), (l, snd (body (arrive w st))))
    end.
Proof.
  unfold statement. cbn [fst snd]. destruct (faults w (tick st)); [reflexivity|].
  destruct (body (arrive w st)); reflexivity.
Qed.

Lemma mark_finished_run (w : World) (success : bool) (self : ScrapeJob.t) (st : Store) :
  mark_finished w success (self, st)
  = ScrapeJob_save w (finished (clock st) success self)
      ["status"; "finished_at"; "updated_at"]%string
      (finished (clock st) success self, st).
Proof.
  unfold mark_finished, finished, finish_status. py_simpl.
  destruct success; cbn [negb]; [|reflexivity].
  change (ScrapeJob.errors_count (ScrapeJob.set_finished_at _ self))
    with (ScrapeJob.errors_count self).
  change (ScrapeJob.quotes_saved (ScrapeJob.set_finished_at _ self))
    with (ScrapeJob.quotes_saved self).
  destruct (0 <? ScrapeJob.errors_count self), (0 <? ScrapeJob.quotes_saved self);
    reflexivity.
Qed.

Lemma ScrapeJob_save_run {L} (w : World) (j : ScrapeJob.t) (fields : list string)
    (l : L) (st : Store) :
  ScrapeJob_save w j fields (l, st)
  = match faults w (tick st) with
    | Some e => (Raise e, (l, arrive w st))
    | None =>
        match jobs st !! ScrapeJob.pk j with
        | Some row =>
            (Ok tt, (l, set_jobs (<[ScrapeJob.pk j := ScrapeJob.copy_fields fields j row]>
                                    (jobs st)) (arrive w st)))
        | None => (Raise (Exn "DatabaseError"
                            "Save with update_fields did not affect any rows."),
                   (l, arrive w st))
        end
    end.
Proof.
  unfold ScrapeJob_save. rewrite statement_run.
  destruct (faults w (tick st)); [reflexivity|].
  change (jobs (arrive w st)) with (jobs st).
  destruct (jobs st !! ScrapeJob.pk j); reflexivity.
Qed.

Lemma ScrapeJob_save_locals {L} (w : World) (j : ScrapeJob.t) (fields : list string)
    (l : L) (st : Store) :
  locals_after (ScrapeJob_save w j fields) l st = l.
Proof.
  unfold locals_after. rewrite ScrapeJob_save_run.
  destruct (faults w (tick st)); [reflexivity|].
  destruct (jobs st !! ScrapeJob.pk j); reflexivity.
Qed.

Lemma mark_finished_locals (w : World) (success : bool) (self : ScrapeJob.t) (st : Store) :
  locals_after (mark_finished w success) self st = finished (clock st) success self.
Proof.
  unfold locals_after. rewrite mark_finished_run. apply ScrapeJob_save_locals.
Qed.

Lemma mark_finished_row (w : World) (success : bool) (self : ScrapeJob.t) (st : Store) :
  outcome (mark_finished w success) self st = Ok tt ->
  exists row,
    jobs st !! ScrapeJob.pk self = Some row /\
    jobs (store_after (mark_finished w success) self st) !! ScrapeJob.pk self
    = Some (ScrapeJob.set_finished_at (Some (clock st))
              (ScrapeJob.set_status (finish_status success self) row)).
Proof.
  unfold outcome, store_after. rewrite mark_finished_run, ScrapeJob_save_run.
  change (ScrapeJob.pk (finished (clock st) success self)) with (ScrapeJob.pk self).
  destruct (faults w (tick st)); [discriminate|].
  destruct (jobs st !! ScrapeJob.pk self) as [row|]; [|discriminate].
  intros _. exists row. split; [reflexivity|].
  cbn [snd jobs set_jobs]. apply lookup_insert_eq.
Qed.

(** C1. [mark_finished(success)] on an instance whose counters are
    [quotes_saved] and [errors_count]: the instance's finish timestamp is
    set to the current time; its status is FAILED when [success] is false,
    and otherwise FAILED when nothing was saved, SUCCESS when something was
    saved without errors, PARTIAL when something was saved with errors; when
    the save succeeds the stored row carries that status and timestamp. *)
Theorem mark_finished_status (w : World) (success : bool) (self : ScrapeJob.t)
    (st : Store) :
  let self' := locals_after (mark_finished w success) self st in
  let st' := store_after (mark_finished w success) self st in
  ScrapeJob.finished_at self' = Some (clock st)
  /\ (success = false -> ScrapeJob.status self' = ScrapeJob.FAILED)
  /\ (success = true -> ScrapeJob.quotes_saved self = 0 ->
      ScrapeJob.status self' = ScrapeJob.FAILED)
  /\ (success = true -> 0 < ScrapeJob.quotes_saved self ->
      ScrapeJob.errors_count self = 0 -> ScrapeJob.status self' = ScrapeJob.SUCCESS)
  /\ (success = true -> 0 < ScrapeJob.quotes_saved self ->
      0 < ScrapeJob.errors_count self -> ScrapeJob.status self' = ScrapeJob.PARTIAL)
  /\ (outcome (mark_finished w success) self st = Ok tt ->
      exists row, jobs st' !! ScrapeJob.pk self = Some row
                  /\ ScrapeJob.status row = ScrapeJob.status self'
                  /\ ScrapeJob.finished_at row = Some (clock st)).
Proof.
  cbv zeta. rewrite mark_finished_locals.
  change (ScrapeJob.finished_at (finished (clock st) success self)) with (Some (clock st)).
  change (ScrapeJob.status (finished (clock st) success self))
    with (finish_status success self).
  unfold finish_status.
  split; [reflexivity|]. split; [intros ->; reflexivity|].
  split; [intros -> E; cbn [negb]; rewrite E, andb_false_r; reflexivity|].
  split.
  { intros -> Hs E. cbn [negb]. rewrite E.
    destruct (Z.ltb_spec 0 (ScrapeJob.quotes_saved self)); [reflexivity | lia]. }
  split.
  { intros -> Hs He. cbn [negb].
    destruct (Z.ltb_spec 0 (ScrapeJob.quotes_saved self)); [|lia].
    destruct (Z.ltb_spec 0 (ScrapeJob.errors_count self)); [reflexivity | lia]. }
  intros Hok. destruct (mark_finished_row w success self st Hok) as (row & _ & E).
  eexists. split; [exact E|]. split; reflexivity.
Qed.

Lemma ScrapeJob_get_run {L} (w : World) (job_id : string) (l : L) (st : Store) :
  ScrapeJob_get w job_id (l, st)
  = match faults w (tick st) with
    | Some e => (Raise e, (l, arrive w st))
    | None =>
        match jobs st !! job_id with
        | Some row => (Ok (ScrapeJob.set_pk job_id row), (l, arrive w st))
        | None => (Raise (Exn "DoesNotExist" "ScrapeJob matching query does not exist."),
                   (l, arrive w st))
        end
    end.
Proof.
  unfold ScrapeJob_get. rewrite statement_run.
  destruct (faults w (tick st)); [reflexivity|].
  change (jobs (arrive w st)) with (jobs st).
  destruct (jobs st !! job_id); reflexivity.
Qed.

Lemma increment_counters_run (w : World) (fetched saved errors : Z)
    (self : ScrapeJob.t) (st : Store) :
  increment_counters w fetched saved errors (self, st)
  = match faults w (tick st) with
    | Some e => (Raise e, (self, rollback w st (arrive w st)))
    | None =>
        match jobs st !! ScrapeJob.pk self with
        | None => (Raise (Exn "DoesNotExist" "ScrapeJob matching query does not exist."),
                   (self, rollback w st (arrive w st)))
        | Some row =>
            match faults w (S (tick st)) with
            | Some e => (Raise e, (self, rollback w st (arrive w (arrive w st))))
            | None =>
                (Ok tt, (self, set_jobs (<[ScrapeJob.pk self := bump fetched saved errors row]>
                                           (jobs st))
                                 (arrive w (arrive w st))))
            end
        end
    end.
Proof.
  unfold increment_counters, atomic, bind, locals. cbn [fst snd].
  rewrite ScrapeJob_get_run.
  destruct (faults w (tick st)); [reflexivity|].
  destruct (jobs st !! ScrapeJob.pk self) as [row|] eqn:Erow; [|reflexivity].
  rewrite ScrapeJob_save_run. cbn [ScrapeJob.pk ScrapeJob.set_pk
    ScrapeJob.set_quotes_fetched ScrapeJob.set_quotes_saved ScrapeJob.set_errors_count].
  change (tick (arrive w st)) with (S (tick st)).
  destruct (faults w (S (tick st))); [reflexivity|].
  change (jobs (arrive w st)) with (jobs st).
  destruct (jobs st !! ScrapeJob.pk self) as [row'|] eqn:E; [|discriminate].
  inversion Erow; subst row'. rewrite copy_fields_counters. reflexivity.
Qed.

(** ** Reasoning on outcomes *)

Section WpRules.
Context {L : Type}.

Lemma wp_mono {A} (m : Py L A) (Q Q' : result A -> L -> Store -> Prop) l st :
  (forall r l' st', Q r l' st' -> Q' r l' st') -> wp m Q l st -> wp m Q' l st.
Proof. unfold wp. auto. Qed.

Lemma wp_bind {A B} (m : Py L A) (k : A -> Py L B) Q l st :
  wp m (fun r l' st' =>
          match r with
          | Ok a => wp (k a) Q l' st'
          | Raise e => Q (Raise e) l' st'
          end) l st ->
  wp (bind m k) Q l st.
Proof.
  unfold wp, outcome, locals_after, store_after, bind.
  destruct (m (l, st)) as [[a|e] [l' st']]; cbn [fst snd]; auto.
Qed.

Lemma wp_try {A} (m : Py L A) (h : exn -> Py L A) Q l st :
  wp m (fun r l' st' =>
          match r with
          | Ok a => Q (Ok a) l' st'
          | Raise e => wp (h e) Q l' st'
          end) l st ->
  wp (try_except m h) Q l st.
Proof.
  unfold wp, outcome, locals_after, store_after, try_except.
  destruct (m (l, st)) as [[a|e] [l' st']]; cbn [fst snd]; auto.
Qed.

Lemma wp_atomic {A} (w : World) (m : Py L A) Q l st :
  wp m (fun r l' st' =>
          match r with
          | Ok a => Q (Ok a) l' st'
          | Raise e => Q (Raise e) l' (rollback w st st')
          end) l st ->
  wp (atomic w m) Q l st.
Proof.
  unfold wp, outcome, locals_after, store_after, atomic.
  destruct (m (l, st)) as [[a|e] [l' st']]; cbn [fst snd]; auto.
Qed.

Lemma wp_statement {A} (w : World) (body : Store -> result A * Store)
    (Q : result A -> L -> Store -> Prop) (l : L) st :
  (forall e, faults w (tick st) = Some e -> Q (Raise e) l (arrive w st)) ->
  (faults w (tick st) = None ->
   Q (fst (body (arrive w st))) l (snd (body (arrive w st)))) ->
  wp (statement w body) Q l st.
Proof.
  unfold wp, outcome, locals_after, store_after. rewrite statement_run.
  destruct (faults w (tick st)) as [e|]; cbn [fst snd]; auto.
Qed.

Lemma wp_method {A} (get : L -> ScrapeJob.t) (put : ScrapeJob.t -> L -> L)
    (m : Py ScrapeJob.t A) (Q : result A -> L -> Store -> Prop) (l : L) st :
  wp m (fun r self st' => Q r (put self l) st') (get l) st ->
  wp (method get put m) Q l st.
Proof.
  unfold wp, outcome, locals_after, store_after, method. cbn [fst snd].
  destruct (m (get l, st)) as [r [self st']]; cbn [fst snd]; auto.
Qed.

Lemma wp_call {L' A} (l0 : L') (m : Py L' A) (Q : result A -> L -> Store -> Prop) l st :
  wp m (fun r _ st' => Q r l st') l0 st ->
  wp (call l0 m) Q l st.
Proof.
  unfold wp, outcome, locals_after, store_after, call. cbn [fst snd].
  destruct (m (l0, st)) as [r [l' st']]; cbn [fst snd]; auto.
Qed.

End WpRules.

(** One step of backward reasoning through the code. *)
Ltac wp_step :=
  lazymatch goal with
  | |- wp (bind _ _) _ _ _ => apply wp_bind
  | |- wp (try_except _ _) _ _ _ => apply wp_try
  | |- wp (atomic _ _) _ _ _ => apply wp_atomic
  | |- wp (method _ _ _) _ _ _ => apply wp_method
  | |- wp (call _ _) _ _ _ => apply wp_call
  | |- wp (if ?b then _ else _) _ _ _ => destruct b eqn:?
  | |- wp (match ?o with Some _ => _ | None => _ end) _ _ _ => destruct o eqn:?
  | |- wp (ret _) _ _ _ => red; cbn [outcome locals_after store_after ret fst snd]
  | |- wp (raise _) _ _ _ => red; cbn [outcome locals_after store_after raise fst snd]
  | |- wp locals _ _ _ => red; cbn [outcome locals_after store_after locals fst snd]
  | |- wp store _ _ _ => red; cbn [outcome locals_after store_after store fst snd]
  | |- wp (assign _) _ _ _ => red; cbn [outcome locals_after store_after assign fst snd]
  | |- wp (update _) _ _ _ => red; cbn [outcome locals_after store_after update fst snd]
  | |- wp now _ _ _ => unfold now
  | |- wp (sleep_ms _) _ _ _ => unfold sleep_ms
  end.

(** ** Store relations that every step of the code respects *)

Section Transitions.

Variable w : World.
Variable R : Store -> Store -> Prop.
Variable allowed : string -> Prop.

Hypothesis R_refl : forall st, R st st.
Hypothesis R_trans : forall a b c, R a b -> R b c -> R a c.
Hypothesis R_arrive : forall st, R st (arrive w st).
Hypothesis R_clock : forall st v, R st (set_clock v st).
Hypothesis R_log : forall st v, R st (set_requests_log v st).
Hypothesis R_error : forall st e, allowed (ScrapeError.error_type e) ->
  R st (set_scrape_errors (scrape_errors st ++ [e]) st).
Hypothesis R_author : forall st a, R st (set_authors (authors st ++ [a]) st).
Hypothesis R_quote : forall st q text author_name,
  Quote.hash q = compute_quote_hash text author_name ->
  hash_exists (Quote.hash q) (quotes st) = false ->
  R st (set_quotes (quotes st ++ [q]) st).
Hypothesis R_job : forall st k row self fields,
  jobs st !! k = Some row ->
  counters_le row (ScrapeJob.copy_fields fields self row) ->
  R st (set_jobs (<[k := ScrapeJob.copy_fields fields self row]> (jobs st)) st).
Hypothesis R_rollback : forall st0 st1, R st0 st1 -> R st0 (rollback w st0 st1).
Hypothesis allowed_parse : allowed "parse".
Hypothesis allowed_network : allowed "network".
Hypothesis allowed_fatal : allowed "fatal".

Lemma kept_bind {L A B} (P : L -> Prop) st0 (m : Py L A) (k : A -> Py L B) :
  kept R P st0 m -> (forall a, kept R P st0 (k a)) -> kept R P st0 (bind m k).
Proof.
  intros Hm Hk l st H Hl. apply wp_bind.
  eapply wp_mono; [|apply (Hm l st H Hl)].
  intros [a|e] l' st' [H' Hl']; cbn beta; [apply Hk|]; auto.
Qed.

Lemma kept_ret {L A} (P : L -> Prop) st0 (a : A) : kept R P st0 (ret a).
Proof. intros l st H Hl. split; assumption. Qed.

Lemma kept_try {L A} (P : L -> Prop) st0 (m : Py L A) (h : exn -> Py L A) :
  kept R P st0 m -> (forall e, kept R P st0 (h e)) -> kept R P st0 (try_except m h).
Proof.
  intros Hm Hh l st H Hl. apply wp_try.
  eapply wp_mono; [|apply (Hm l st H Hl)].
  intros [a|e] l' st' [H' Hl']; cbn beta; [|apply Hh]; auto.
Qed.

Lemma kept_atomic {L A} (P : L -> Prop) st0 (m : Py L A) :
  (forall st1, kept R P st1 m) -> kept R P st0 (atomic w m).
Proof.
  intros Hm l st H Hl. apply wp_atomic.
  eapply wp_mono; [|apply (Hm st l st (R_refl st) Hl)].
  intros [a|e] l' st' [H' Hl']; cbn beta; split; eauto.
Qed.

Lemma kept_method {L A} (P : L -> Prop) st0 (get : L -> ScrapeJob.t)
    (put : ScrapeJob.t -> L -> L) (m : Py ScrapeJob.t A) :
  (forall self l, P l -> P (put self l)) ->
  kept R (fun _ => True) st0 m -> kept R P st0 (method get put m).
Proof.
  intros Hput Hm l st H Hl. apply wp_method.
  eapply wp_mono; [|apply (Hm (get l) st H Logic.I)].
  intros r self st' [H' _]. auto.
Qed.

Lemma kept_assign {L} (P : L -> Prop) st0 (f : L -> L) :
  (forall l, P l -> P (f l)) -> kept R P st0 (assign f).
Proof.
  intros Hf l st H Hl. red.
  cbn [outcome locals_after store_after assign fst snd]. auto.
Qed.

Lemma kept_statement {L A} (P : L -> Prop) st0 (body : Store -> result A * Store) :
  (forall st, R st0 st -> R st0 (snd (body st))) ->
  kept R P st0 (statement w body).
Proof.
  intros Hb l st H Hl. apply wp_statement; intros; (split; [|exact Hl]).
  - eauto.
  - apply Hb. eauto.
Qed.

Lemma kept_ScrapeJob_get {L} (P : L -> Prop) st0 job_id :
  kept R P st0 (ScrapeJob_get w job_id).
Proof.
  apply kept_statement. intros st H. destruct (jobs st !! job_id); exact H.
Qed.

Lemma kept_ScrapeJob_save {L} (P : L -> Prop) st0 (j : ScrapeJob.t) fields :
  (forall row, counters_le row (ScrapeJob.copy_fields fields j row)) ->
  kept R P st0 (ScrapeJob_save w j fields).
Proof.
  intros Hc. apply kept_statement. intros st H.
  destruct (jobs st !! ScrapeJob.pk j) as [row|] eqn:E; cbn [snd]; eauto.
Qed.

Lemma kept_mark_running st0 : kept R (fun _ => True) st0 (mark_running w).
Proof.
  intros self st H _. unfold mark_running. repeat wp_step.
  apply kept_ScrapeJob_save; [|exact H|exact I].
  intros row. rewrite copy_fields_running. unfold counters_le. cbn. lia.
Qed.

Lemma kept_mark_finished st0 success : kept R (fun _ => True) st0 (mark_finished w success).
Proof.
  intros self st H _. unfold wp, outcome, locals_after, store_after.
  rewrite mark_finished_run.
  apply (kept_ScrapeJob_save (fun _ => True) st0 _ _); [|exact H|exact I].
  intros row. rewrite copy_fields_finished. unfold counters_le. cbn. lia.
Qed.

Lemma kept_increment_counters st0 (fetched saved errors : Z) :
  0 <= fetched -> 0 <= saved -> 0 <= errors ->
  kept R (fun _ => True) st0 (increment_counters w fetched saved errors).
Proof.
  intros Hf Hs He self st H _. unfold wp, outcome, locals_after, store_after.
  rewrite increment_counters_run. split; [|exact I].
  assert (Hrb : forall st1, R st st1 -> R st0 (rollback w st st1))
    by (intros; eapply R_trans; [exact H | apply R_rollback; assumption]).
  destruct (faults w (tick st)); cbn [snd]; [apply Hrb, R_arrive|].
  destruct (jobs st !! ScrapeJob.pk self) as [row|] eqn:E; cbn [snd];
    [|apply Hrb, R_arrive].
  destruct (faults w (S (tick st))); cbn [snd].
  - apply Hrb. eapply R_trans; apply R_arrive.
  - eapply R_trans; [exact H|]. eapply R_trans; [apply R_arrive|].
    eapply R_trans; [apply R_arrive|].
    replace (bump fetched saved errors row)
      with (ScrapeJob.copy_fields
              ["quotes_fetched"; "quotes_saved"; "errors_count"; "updated_at"]%string
              (bump fetched saved errors row) row)
      by (rewrite copy_fields_counters; reflexivity).
    apply (R_job (arrive w (arrive w st)) _ row); [exact E|].
    rewrite copy_fields_counters. unfold counters_le, bump. cbn. lia.
Qed.

Lemma kept_ScrapeError_create {L} (P : L -> Prop) st0 j url error_type message :
  allowed error_type ->
  kept R P st0 (ScrapeError_create w j url error_type message).
Proof.
  intros Ha. apply kept_statement. intros st H. cbn [snd].
  eapply R_trans; [exact H|]. apply R_error. exact Ha.
Qed.

Lemma kept_Author_get_or_create {L} (P : L -> Prop) st0 name :
  kept R P st0 (Author_get_or_create w name).
Proof.
  apply kept_bind.
  - apply kept_statement. intros st H. exact H.
  - intros [a|]; [apply kept_ret|].
    apply kept_bind; [|intros; apply kept_ret].
    apply kept_statement. intros st H. cbn [snd]. eauto.
Qed.

Lemma kept_Quote_exists {L} (P : L -> Prop) st0 h : kept R P st0 (Quote_exists w h).
Proof. apply kept_statement. intros st H. exact H. Qed.

Lemma kept_Quote_insert {L} (P : L -> Prop) st0 q text author_name :
  Quote.hash q = compute_quote_hash text author_name ->
  kept R P st0 (Quote_insert w q).
Proof.
  intros Hq. apply kept_statement. intros st H.
  destruct (hash_exists (Quote.hash q) (quotes st)) eqn:E; cbn [snd]; eauto.
Qed.

Lemma kept_Quote_save {L} (P : L -> Prop) st0 q :
  (PyStr.truthy (Quote.hash q) = true ->
   exists text author_name, Quote.hash q = compute_quote_hash text author_name) ->
  kept R P st0 (Quote_save w q).
Proof.
  intros Hq. unfold Quote_save.
  apply kept_bind; [|intros; apply kept_ret].
  destruct (PyStr.truthy (Quote.hash q)) eqn:E; cbn [negb].
  - destruct (Hq eq_refl) as (t & a & Ha). eapply kept_Quote_insert. exact Ha.
  - eapply kept_Quote_insert. reflexivity.
Qed.

Lemma kept_fetch_page {L} (P : L -> Prop) st0 url : kept R P st0 (fetch_page w url).
Proof.
  unfold fetch_page. apply kept_bind.
  - intros l st H Hl. split; [|exact Hl]. cbn. eauto.
  - intros _. destruct (requests_get w url); [apply kept_ret|].
    intros l st H Hl. split; assumption.
Qed.

Lemma nonneg_saved f : nonneg f -> nonneg (set_saved (saved f + 1) f).
Proof. unfold nonneg. cbn. lia. Qed.

Lemma nonneg_errors f : nonneg f -> nonneg (set_errors (errors f + 1) f).
Proof. unfold nonneg. cbn. lia. Qed.

Lemma nonneg_fetched f : nonneg f -> nonneg (set_fetched (fetched f + 1) f).
Proof. unfold nonneg. cbn. lia. Qed.

Lemma kept_bind_locals {L A} (P : L -> Prop) st0 (k : L -> Py L A) :
  (forall l0, P l0 -> kept R P st0 (k l0)) -> kept R P st0 (bind locals k).
Proof.
  intros Hk l st H Hl. apply wp_bind. red.
  cbn [outcome locals_after store_after locals fst snd]. apply Hk; assumption.
Qed.

Lemma kept_raise {L A} (P : L -> Prop) st0 (e : exn) : kept R P st0 (@raise L A e).
Proof. intros l st H Hl. split; assumption. Qed.

Lemma kept_update {L} (P : L -> Prop) st0 (f : Store -> Store) :
  (forall st, R st (f st)) -> kept R P st0 (update f).
Proof.
  intros Hf l st H Hl. red.
  cbn [outcome locals_after store_after update fst snd]. eauto.
Qed.

Lemma cqh_truthy text author_name :
  PyStr.truthy (compute_quote_hash text author_name) = true.
Proof.
  pose proof (hexdigest_length
    (Sha256.sha256 (PyStr.encode_utf8
       (norm_text text +:+ "|" +:+ norm_author author_name)))) as H.
  unfold compute_quote_hash.
  destruct (Sha256.hexdigest _); [discriminate | reflexivity].
Qed.

Lemma kept_save_candidate (P : Frame -> Prop) st0 site text author_name :
  (forall f, P f -> P (set_saved (saved f + 1) f)) ->
  kept R P st0 (save_candidate w site text author_name).
Proof.
  intros Hsaved. unfold save_candidate. apply kept_atomic. intros st1.
  apply kept_bind.
  { destruct (truthy_opt author_name); [|apply kept_ret].
    apply kept_bind; [apply kept_Author_get_or_create | intros; apply kept_ret]. }
  intros author. apply kept_bind; [apply kept_Quote_exists|].
  intros [|]; cbn [negb]; [apply kept_ret|].
  apply kept_bind_locals. intros f Hf.
  apply kept_bind; [|intros; apply kept_assign, Hsaved].
  apply kept_Quote_save. intros _. cbn [Quote.hash]. eauto.
Qed.

Lemma kept_candidates (P : Frame -> Prop) st0 site author_nodes quote_nodes :
  (forall f, P f -> P (set_saved (saved f + 1) f)) ->
  (forall f, P f -> P (set_errors (errors f + 1) f)) ->
  forall i, kept R P st0 (candidates w site author_nodes i quote_nodes).
Proof.
  intros Hsaved Herrors.
  induction quote_nodes as [|qnode rest IH]; intros i; cbn [candidates].
  - apply kept_ret.
  - apply kept_bind; [|intros; apply IH].
    apply kept_try; [apply kept_save_candidate, Hsaved|].
    intros ex. apply kept_bind; [apply kept_assign, Herrors|].
    intros _. apply kept_bind_locals. intros f Hf.
    apply kept_ScrapeError_create, allowed_parse.
Qed.

Lemma kept_flush st0 (f : Frame) :
  nonneg f ->
  kept R nonneg st0
    (method job set_job (increment_counters w (fetched f) (saved f) (errors f))).
Proof.
  intros (Hf & Hs & He). apply kept_method; [intros ? ? H; exact H|].
  apply kept_increment_counters; assumption.
Qed.

Lemma kept_page_loop st0 guard site n :
  (forall st1, kept R nonneg st1 (guard w)) ->
  kept R nonneg st0 (page_loop_with guard w site n).
Proof.
  intros Hg. induction n as [|n IH]; cbn [page_loop_with]; [apply kept_ret|].
  apply kept_bind_locals. intros f Hf.
  destruct (truthy_opt (next_url f)); cbn [negb]; [|apply kept_ret].
  apply kept_bind; [apply kept_update; intros; apply R_clock|]. intros _.
  apply kept_bind.
  { apply kept_try.
    - apply kept_bind; [apply kept_fetch_page | intros; apply kept_ret].
    - intros e. apply kept_bind; [apply kept_assign, nonneg_errors|]. intros _.
      apply kept_bind_locals. intros f' Hf'.
      apply kept_bind;
        [apply kept_ScrapeError_create, allowed_network | intros; apply kept_ret]. }
  intros [text|]; [|apply kept_ret].
  apply kept_bind; [apply kept_assign, nonneg_fetched|]. intros _.
  apply kept_bind; [apply kept_assign; intros ? H; exact H|]. intros _.
  apply kept_bind;
    [apply kept_candidates; [apply nonneg_saved | apply nonneg_errors]|]. intros _.
  apply kept_bind_locals. intros f' Hf'.
  apply kept_bind; [apply kept_flush, Hf'|]. intros _.
  apply kept_bind; [apply kept_assign; unfold nonneg; cbn; intros; lia|]. intros _.
  apply kept_bind; [apply kept_assign; unfold nonneg; cbn; intros; lia|]. intros _.
  apply kept_bind; [apply kept_assign; unfold nonneg; cbn; intros; lia|]. intros _.
  apply kept_bind; [apply kept_assign; intros ? H; exact H|]. intros _.
  apply kept_bind; [apply Hg | intros; apply IH].
Qed.

Lemma kept_same_page_guard st0 : kept R nonneg st0 (same_page_guard w).
Proof.
  unfold same_page_guard. apply kept_bind_locals. intros f Hf.
  destruct (_ && _); apply kept_ret.
Qed.

Lemma kept_scrape_site_try st0 guard site job_id :
  (forall st1, kept R nonneg st1 (guard w)) ->
  kept R nonneg st0 (scrape_site_try guard w site job_id).
Proof.
  intros Hg. unfold scrape_site_try.
  apply kept_bind; [apply kept_assign; intros ? H; exact H|]. intros _.
  apply kept_bind; [apply kept_page_loop, Hg|]. intros _.
  apply kept_bind_locals. intros f Hf.
  apply kept_bind; [apply kept_flush, Hf|]. intros _.
  apply kept_bind; [|intros; apply kept_ret].
  apply kept_method; [intros ? ? H; exact H | apply kept_mark_finished].
Qed.

Lemma kept_scrape_site_except {A} st0 fatal :
  kept R nonneg st0 (@scrape_site_except A w fatal).
Proof.
  unfold scrape_site_except. apply kept_bind_locals. intros f (Hf & Hs & He).
  apply kept_bind; [apply kept_ScrapeError_create, allowed_fatal|]. intros _.
  apply kept_bind.
  { apply kept_method; [intros ? ? H; exact H|].
    apply kept_increment_counters; lia. }
  intros _. apply kept_bind; [|intros; apply kept_raise].
  apply kept_method; [intros ? ? H; exact H | apply kept_mark_finished].
Qed.

Lemma kept_call {L L' A} (P : L -> Prop) (P' : L' -> Prop) st0 (l0 : L') (m : Py L' A) :
  P' l0 -> kept R P' st0 m -> kept R P st0 (call l0 m).
Proof.
  intros H0 Hm l st H Hl. apply wp_call.
  eapply wp_mono; [|apply (Hm l0 st H H0)].
  intros r l' st' [H' _]. split; assumption.
Qed.

Lemma kept_scrape_site_with st0 guard job_id :
  (forall st1, kept R nonneg st1 (guard w)) ->
  kept R (fun _ : unit => True) st0 (scrape_site_with guard w job_id).
Proof.
  intros Hg. unfold scrape_site_with.
  apply kept_bind; [apply kept_ScrapeJob_get|]. intros j.
  apply kept_call with (P' := nonneg); [unfold nonneg; cbn; lia|].
  apply kept_bind.
  { apply kept_method; [intros ? ? H; exact H | apply kept_mark_running]. }
  intros _. apply kept_try; [apply kept_scrape_site_try, Hg|].
  intros e. apply kept_scrape_site_except.
Qed.

(** Every run of [scrape_site], whatever the world does, moves the store
    along [R]. *)
Lemma scrape_site_related (job_id : string) (st : Store) :
  R st (store_after (scrape_site w job_id) tt st).
Proof.
  apply (kept_scrape_site_with st same_page_guard job_id
           (fun st1 => kept_same_page_guard st1) tt st (R_refl st) Logic.I).
Qed.

Lemma kept_QuoteSerializer_create st0 validated_data :
  kept R (fun _ : unit => True) st0 (QuoteSerializer_create w validated_data).
Proof.
  unfold QuoteSerializer_create.
  apply kept_bind.
  { destruct (vd_author validated_data); [apply kept_ret|].
    destruct (PyStr.truthy _); [|apply kept_ret].
    apply kept_bind; [apply kept_Author_get_or_create | intros; apply kept_ret]. }
  intros author. destruct (ScrapeSite.active _); cbn [negb]; [|apply kept_raise].
  apply kept_Quote_save. cbn [Quote.hash PyStr.truthy]. discriminate.
Qed.

Lemma QuoteSerializer_create_related (validated_data : QuoteData) (st : Store) :
  R st (store_after (QuoteSerializer_create w validated_data) tt st).
Proof.
  apply (kept_QuoteSerializer_create st validated_data tt st (R_refl st) Logic.I).
Qed.

End Transitions.

(** The same, for a relation given with all its closure properties. *)
Lemma scrape_site_respected (w : World) (R : Store -> Store -> Prop) :
  respected w R ->
  forall job_id st, R st (store_after (scrape_site w job_id) tt st).
Proof.
  intros [Hrefl Htrans Harr Hclk Hlog Herr Hauth Hq Hjob Hrb].
  apply (scrape_site_related w R (fun _ => True)); auto.
Qed.

Lemma QuoteSerializer_create_respected (w : World) (R : Store -> Store -> Prop) :
  respected w R ->
  forall validated_data st,
    R st (store_after (QuoteSerializer_create w validated_data) tt st).
Proof.
  intros [Hrefl Htrans Harr Hclk Hlog Herr Hauth Hq Hjob Hrb].
  apply (QuoteSerializer_create_related w R); auto.
Qed.

Lemma increment_counters_respected (w : World) (R : Store -> Store -> Prop) :
  respected w R ->
  forall fetched saved errors self st,
    0 <= fetched -> 0 <= saved -> 0 <= errors ->
    R st (store_after (increment_counters w fetched saved errors) self st).
Proof.
  intros [Hrefl Htrans Harr Hclk Hlog Herr Hauth Hq Hjob Hrb] f s e self st Hf Hs He.
  eapply proj1. eapply (kept_increment_counters w R); eauto.
Qed.

Lemma mark_running_respected (w : World) (R : Store -> Store -> Prop) :
  respected w R ->
  forall self st, R st (store_after (mark_running w) self st).
Proof.
  intros [Hrefl Htrans Harr Hclk Hlog Herr Hauth Hq Hjob Hrb] self st.
  eapply proj1. eapply (kept_mark_running w R); eauto.
Qed.

Lemma mark_finished_respected (w : World) (R : Store -> Store -> Prop) :
  respected w R ->
  forall success self st, R st (store_after (mark_finished w success) self st).
Proof.
  intros [Hrefl Htrans Harr Hclk Hlog Herr Hauth Hq Hjob Hrb] success self st.
  eapply proj1. eapply (kept_mark_finished w R); eauto.
Qed.

(** ** Counters never decrease *)

Lemma counters_le_refl (j : ScrapeJob.t) : counters_le j j.
Proof. unfold counters_le. lia. Qed.

Lemma counters_le_trans (a b c : ScrapeJob.t) :
  counters_le a b -> counters_le b c -> counters_le a c.
Proof. unfold counters_le. lia. Qed.

Lemma jobs_grow_refl st : jobs_grow st st.
Proof. intros k row E. exists row. split; [exact E | apply counters_le_refl]. Qed.

Lemma jobs_grow_trans a b c : jobs_grow a b -> jobs_grow b c -> jobs_grow a c.
Proof.
  intros Hab Hbc k row E. destruct (Hab k row E) as (row' & E' & Hle).
  destruct (Hbc k row' E') as (row'' & E'' & Hle').
  exists row''. split; [exact E'' | eapply counters_le_trans; eassumption].
Qed.

Lemma jobs_grow_same st st' : jobs st' = jobs st -> jobs_grow st st'.
Proof. intros E k row Hk. exists row. rewrite E. split; [exact Hk | apply counters_le_refl]. Qed.

Lemma jobs_grow_job st k row row' :
  jobs st !! k = Some row -> counters_le row row' ->
  jobs_grow st (set_jobs (<[k := row']> (jobs st)) st).
Proof.
  intros E Hle k' r Hk'. cbn [jobs set_jobs].
  destruct (decide (k = k')) as [->|Hne].
  - rewrite lookup_insert_eq. exists row'. split; [reflexivity|]. congruence.
  - rewrite lookup_insert_ne by exact Hne. exists r. split; [exact Hk' | apply counters_le_refl].
Qed.

Lemma jobs_grow_respected (w : World) : respected w jobs_grow.
Proof.
  constructor; intros;
    first [ apply jobs_grow_refl
          | eapply jobs_grow_trans; eassumption
          | eapply jobs_grow_job; eassumption
          | apply jobs_grow_same; reflexivity ].
Qed.

(** C8. The three counters of a stored job never decrease: not by
    [increment_counters] with deltas that are not negative, not by
    [mark_running], not by [mark_finished], and not by a whole run of
    [scrape_site], in any world (the deltas the crawl loop produces are
    never negative). *)
Theorem counters_never_decrease :
  (forall w fetched saved errors self st,
      0 <= fetched -> 0 <= saved -> 0 <= errors ->
      jobs_grow st (store_after (increment_counters w fetched saved errors) self st))
  /\ (forall w self st, jobs_grow st (store_after (mark_running w) self st))
  /\ (forall w success self st,
         jobs_grow st (store_after (mark_finished w success) self st))
  /\ (forall w job_id st, jobs_grow st (store_after (scrape_site w job_id) tt st)).
Proof.
  repeat split.
  - intros w f s e self st Hf Hs He.
    apply increment_counters_respected; [apply jobs_grow_respected | assumption ..].
  - intros w self st. apply mark_running_respected, jobs_grow_respected.
  - intros w success self st. apply mark_finished_respected, jobs_grow_respected.
  - intros w job_id st. apply scrape_site_respected, jobs_grow_respected.
Qed.

(** ** Stored hashes *)

Lemma hash_ok_computed (q : Quote.t) text author_name :
  Quote.hash q = compute_quote_hash text author_name -> hash_ok q.
Proof.
  intros E. unfold hash_ok. rewrite E. unfold compute_quote_hash.
  split; [apply hexdigest_length | apply hexdigest_hex].
Qed.

Lemma commit_rivals_ok rs qs : hashes_ok rs -> hashes_ok qs -> hashes_ok (commit_rivals rs qs).
Proof.
  unfold commit_rivals. revert qs.
  induction rs as [|r rs IH]; intros qs Hrs Hqs; cbn [fold_left]; [exact Hqs|].
  inversion Hrs; subst. apply IH; [assumption|].
  unfold commit_rival. destruct (hash_exists _ _); [exact Hqs|].
  apply Forall_app. split; [exact Hqs|].
  apply List.Forall_cons; [assumption | apply List.Forall_nil].
Qed.

Lemma replay_ok w t0 t1 qs :
  (forall n, hashes_ok (rivals w n)) -> hashes_ok qs -> hashes_ok (replay w t0 t1 qs).
Proof.
  intros Hw. unfold replay. generalize (seq t0 (t1 - t0)). intros ns. revert qs.
  induction ns as [|n ns IH]; intros qs Hqs; cbn [fold_left]; [exact Hqs|].
  apply IH, commit_rivals_ok; [apply Hw | exact Hqs].
Qed.

Lemma keeps_hashes_ok_respected (w : World) :
  (forall n, hashes_ok (rivals w n)) -> respected w keeps_hashes_ok.
Proof.
  intros Hw. constructor; unfold keeps_hashes_ok; intros; cbn [quotes arrive set_tick
    set_quotes set_clock set_requests_log set_scrape_errors set_authors set_jobs rollback];
    auto.
  - apply commit_rivals_ok; [apply Hw | assumption].
  - apply Forall_app. split; [assumption|].
    apply List.Forall_cons; [|apply List.Forall_nil].
    eapply hash_ok_computed; eassumption.
  - apply replay_ok; assumption.
Qed.

Lemma Quote_save_unset {L} (w : World) (q q' : Quote.t) (l : L) (st : Store) :
  Quote.hash q = EmptyString ->
  outcome (Quote_save w q) l st = Ok q' ->
  q' = Quote.set_hash
         (compute_quote_hash (Some (Quote.text q)) (Some (author_name_of q))) q
  /\ In q' (quotes (store_after (Quote_save w q) l st)).
Proof.
  intros Hq. unfold outcome, store_after, Quote_save, Quote_insert, bind.
  rewrite Hq. cbn [PyStr.truthy negb]. rewrite statement_run.
  fold (author_name_of q).
  destruct (faults w (tick st)); [discriminate|].
  destruct (hash_exists _ _); cbn [fst snd ret]; [discriminate|].
  intros E. inversion E; subst q'. split; [reflexivity|].
  cbn [quotes set_quotes]. apply in_or_app. right. now left.
Qed.

(** C10. A quote saved with its hash unset is stored with the hash computed
    from its text and its author's name (the empty string without author),
    a 64-digit lower-case hexadecimal string; and in a table whose hashes all
    have that format, the crawl loop and the serializer store only such
    hashes (other workers storing such hashes too). *)
Theorem stored_quotes_carry_hash :
  (forall w q q' (l : unit) st,
      Quote.hash q = EmptyString ->
      outcome (Quote_save w q) l st = Ok q' ->
      Quote.hash q'
      = compute_quote_hash (Some (Quote.text q)) (Some (author_name_of q))
      /\ In q' (quotes (store_after (Quote_save w q) l st))
      /\ hash_ok q')
  /\ (forall w st,
         (forall n, hashes_ok (rivals w n)) -> hashes_ok (quotes st) ->
         (forall job_id,
             hashes_ok (quotes (store_after (scrape_site w job_id) tt st)))
         /\ (forall validated_data,
                hashes_ok (quotes (store_after
                                     (QuoteSerializer_create w validated_data) tt st)))).
Proof.
  split.
  - intros w q q' l st Hq Hok.
    destruct (Quote_save_unset w q q' l st Hq Hok) as [-> Hin].
    split; [reflexivity|]. split; [exact Hin|].
    eapply hash_ok_computed. reflexivity.
  - intros w st Hw Hst. split.
    + intros job_id.
      apply (scrape_site_respected w _ (keeps_hashes_ok_respected w Hw) job_id st Hst).
    + intros vd.
      apply (QuoteSerializer_create_respected w _ (keeps_hashes_ok_respected w Hw) vd st Hst).
Qed.

(** ** The statements of the quote table *)

Lemma Quote_exists_run {L} (w : World) (h : string) (l : L) (st : Store) :
  Quote_exists w h (l, st)
  = match faults w (tick st) with
    | Some e => (Raise e, (l, arrive w st))
    | None => (Ok (hash_exists h (quotes (arrive w st))), (l, arrive w st))
    end.
Proof.
  unfold Quote_exists. rewrite statement_run. destruct (faults w (tick st)); reflexivity.
Qed.

Lemma Quote_insert_run {L} (w : World) (q : Quote.t) (l : L) (st : Store) :
  Quote_insert w q (l, st)
  = match faults w (tick st) with
    | Some e => (Raise e, (l, arrive w st))
    | None =>
        if hash_exists (Quote.hash q) (quotes (arrive w st))
        then (Raise (Exn "IntegrityError"
                       "duplicate key value violates unique constraint on hash"),
              (l, arrive w st))
        else (Ok tt, (l, set_quotes (quotes (arrive w st) ++ [q]) (arrive w st)))
    end.
Proof.
  unfold Quote_insert. rewrite statement_run. destruct (faults w (tick st)); [reflexivity|].
  destruct (hash_exists _ _); reflexivity.
Qed.

Lemma ScrapeError_create_run {L} (w : World) (j : ScrapeJob.t) (url : option string)
    (error_type message : string) (l : L) (st : Store) :
  ScrapeError_create w j url error_type message (l, st)
  = match faults w (tick st) with
    | Some e => (Raise e, (l, arrive w st))
    | None =>
        (Ok tt, (l, set_scrape_errors
                      (scrape_errors st
                       ++ [ScrapeError.mk (ScrapeJob.pk j) url error_type message None])
                      (arrive w st)))
    end.
Proof.
  unfold ScrapeError_create. rewrite statement_run.
  destruct (faults w (tick st)); reflexivity.
Qed.

Lemma quotes_arrive_quiet (w : World) (st : Store) :
  rivals w (tick st) = [] -> quotes (arrive w st) = quotes st.
Proof. intros E. unfold arrive. cbn [quotes set_tick set_quotes]. now rewrite E. Qed.

(** ** Author resolution *)

Lemma candidates_extract (w : World) (site : ScrapeSite.t) (author_nodes : list Tag.t)
    (quote_nodes : list Tag.t) :
  forall i, candidates w site author_nodes i quote_nodes
            = store_all w site (extract site author_nodes i quote_nodes).
Proof.
  induction quote_nodes as [|q rest IH]; intros i; [reflexivity|].
  cbn [candidates extract store_all]. now rewrite IH.
Qed.

Lemma extract_lookup (site : ScrapeSite.t) (author_nodes quote_nodes : list Tag.t) :
  forall i0 i qnode, quote_nodes !! i = Some qnode ->
  extract site author_nodes i0 quote_nodes !! i
  = Some (Tag.get_text qnode, resolve_author_name site author_nodes (i0 + i) qnode).
Proof.
  induction quote_nodes as [|q rest IH]; intros i0 i qnode E; [discriminate|].
  destruct i as [|i]; cbn [extract].
  - cbn in E. inversion E; subst. now rewrite Nat.add_0_r.
  - cbn in E. rewrite Nat.add_succ_r. exact (IH (S i0) i qnode E).
Qed.

Lemma resolve_author_paired (site : ScrapeSite.t) (author_nodes : list Tag.t) (i : nat)
    (qnode a : Tag.t) :
  author_nodes !! i = Some a ->
  resolve_author_name site author_nodes i qnode = Some (Tag.get_text a).
Proof.
  intros E. unfold resolve_author_name.
  pose proof (lookup_lt_Some _ _ _ E) as Hlt.
  destruct (Nat.eqb_spec (length author_nodes) 0); [lia|].
  destruct (Nat.ltb_spec i (length author_nodes)); [|lia].
  cbn [negb andb]. now rewrite E.
Qed.

Lemma resolve_author_unpaired (site : ScrapeSite.t) (author_nodes : list Tag.t) (i : nat)
    (qnode : Tag.t) :
  author_nodes !! i = None ->
  resolve_author_name site author_nodes i qnode
  = match (if PyStr.truthy (ScrapeSite.author_selector site)
           then Tag.select_one qnode (ScrapeSite.author_selector site)
           else None) with
    | Some p => Some (Tag.get_text p)
    | None => None
    end.
Proof.
  intros E. unfold resolve_author_name.
  apply lookup_ge_None in E.
  destruct (Nat.ltb_spec i (length author_nodes)); [lia|].
  now rewrite andb_false_r.
Qed.

Lemma save_candidate_no_author (w : World) (site : ScrapeSite.t) (text : string)
    (f : Frame) (st : Store) :
  faults w (tick st) = None -> faults w (S (tick st)) = None ->
  rivals w (tick st) = [] -> rivals w (S (tick st)) = [] ->
  hash_exists (compute_quote_hash (Some text) None) (quotes st) = false ->
  outcome (save_candidate w site text None) f st = Ok tt
  /\ quotes (store_after (save_candidate w site text None) f st)
     = quotes st ++ [crawled_quote site f text None None]
  /\ locals_after (save_candidate w site text None) f st = set_saved (saved f + 1) f.
Proof.
  intros F0 F1 R0 R1 Hnew.
  unfold outcome, store_after, locals_after, save_candidate, atomic, bind.
  cbn [truthy_opt ret]. rewrite Quote_exists_run, F0.
  rewrite (quotes_arrive_quiet w st R0), Hnew. cbn [negb locals fst snd].
  unfold Quote_create, Quote_save, bind. cbn [Quote.hash].
  rewrite cqh_truthy. cbn [negb]. rewrite Quote_insert_run.
  change (tick (arrive w st)) with (S (tick st)). rewrite F1.
  rewrite (quotes_arrive_quiet w (arrive w st) R1), (quotes_arrive_quiet w st R0).
  cbn [Quote.hash]. rewrite Hnew. cbn [ret assign fst snd quotes set_quotes].
  repeat split.
Qed.

(** C7. The author of the quote node at index [i] of a page: the text of
    the author node at index [i] when the independently selected author
    nodes have one; otherwise the text of the match of the author selector
    inside the quote node, when a selector is configured and matches;
    otherwise no author, and the quote is then stored with a null author.
    The loop over the quote nodes stores exactly these candidates. *)
Theorem author_resolution_priority (w : World) (site : ScrapeSite.t)
    (author_nodes quote_nodes : list Tag.t) (i : nat) (qnode : Tag.t) :
  quote_nodes !! i = Some qnode ->
  let sel := ScrapeSite.author_selector site in
  let author := resolve_author_name site author_nodes i qnode in
  candidates w site author_nodes 0 quote_nodes
  = store_all w site (extract site author_nodes 0 quote_nodes)
  /\ extract site author_nodes 0 quote_nodes !! i = Some (Tag.get_text qnode, author)
  /\ (forall a, author_nodes !! i = Some a -> author = Some (Tag.get_text a))
  /\ (forall p, author_nodes !! i = None -> PyStr.truthy sel = true ->
                Tag.select_one qnode sel = Some p -> author = Some (Tag.get_text p))
  /\ (author_nodes !! i = None ->
      PyStr.truthy sel = false \/ Tag.select_one qnode sel = None ->
      author = None)
  /\ (author = None ->
      forall f st,
        faults w (tick st) = None -> faults w (S (tick st)) = None ->
        rivals w (tick st) = [] -> rivals w (S (tick st)) = [] ->
        hash_exists (compute_quote_hash (Some (Tag.get_text qnode)) None) (quotes st)
        = false ->
        outcome (save_candidate w site (Tag.get_text qnode) author) f st = Ok tt
        /\ quotes (store_after (save_candidate w site (Tag.get_text qnode) author) f st)
           = quotes st ++ [crawled_quote site f (Tag.get_text qnode) None None]
        /\ Quote.author (crawled_quote site f (Tag.get_text qnode) None None) = None).
Proof.
  intros Hq sel author. split; [apply candidates_extract|].
  split; [apply (extract_lookup site author_nodes quote_nodes 0 i qnode Hq)|].
  split; [intros a Ha; apply resolve_author_paired, Ha|].
  split.
  { intros p Hn Hs Hp. subst author. rewrite resolve_author_unpaired by exact Hn.
    fold sel. now rewrite Hs, Hp. }
  split.
  { intros Hn Hs. subst author. rewrite resolve_author_unpaired by exact Hn.
    fold sel. destruct Hs as [Hs|Hs]; [now rewrite Hs|].
    rewrite Hs. now destruct (PyStr.truthy sel). }
  intros Ha f st F0 F1 R0 R1 Hnew. rewrite Ha.
  destruct (save_candidate_no_author w site (Tag.get_text qnode) f st F0 F1 R0 R1 Hnew)
    as (H1 & H2 & _).
  repeat split; assumption.
Qed.

Lemma author_resolution_priority_witness :
  Tag.select Scenario.page1 ".text" !! 1%nat = Some (Scenario.leaf "It is our choices.")
  /\ resolve_author_name Scenario.site (Tag.select Scenario.page1 ".author") 1
       (Scenario.leaf "It is our choices.") = None.
Proof.
  split; [reflexivity|].
  destruct (author_resolution_priority Scenario.world Scenario.site
              (Tag.select Scenario.page1 ".author") (Tag.select Scenario.page1 ".text")
              1 (Scenario.leaf "It is our choices.") eq_refl)
    as (_ & _ & _ & _ & H & _).
  apply H; [reflexivity | right; reflexivity].
Defined.

(** ** Runs without database faults *)

Lemma bind_ok_run {L A B} (m : Py L A) (k : A -> Py L B) (l : L) (st : Store) (a : A) :
  outcome m l st = Ok a ->
  bind m k (l, st) = k a (locals_after m l st, store_after m l st).
Proof.
  unfold outcome, locals_after, store_after, bind.
  destruct (m (l, st)) as [[a'|e] [l' st']]; cbn [fst snd]; [|discriminate].
  intros E. inversion E. reflexivity.
Qed.

Lemma try_ok_run {L A} (m : Py L A) (h : exn -> Py L A) (l : L) (st : Store) (a : A) :
  outcome m l st = Ok a ->
  try_except m h (l, st) = (Ok a, (locals_after m l st, store_after m l st)).
Proof.
  unfold outcome, locals_after, store_after, try_except.
  destruct (m (l, st)) as [[a'|e] [l' st']]; cbn [fst snd]; [|discriminate].
  intros E. inversion E. reflexivity.
Qed.

Lemma run_eta {L A} (m : Py L A) (l : L) (st : Store) :
  m (l, st) = (outcome m l st, (locals_after m l st, store_after m l st)).
Proof.
  unfold outcome, locals_after, store_after. destruct (m (l, st)) as [r [l' st']].
  reflexivity.
Qed.

Lemma bind_value {L A B} (m : Py L A) (k : A -> Py L B) (s s' : L * Store) (a : A) :
  m s = (Ok a, s') -> bind m k s = k a s'.
Proof. intros E. unfold bind. now rewrite E. Qed.

Lemma bind_assign {L B} (g : L -> L) (k : unit -> Py L B) (l : L) (st : Store) :
  bind (assign g) k (l, st) = k tt (g l, st).
Proof. reflexivity. Qed.

Lemma bind_locals {L B} (k : L -> Py L B) (l : L) (st : Store) :
  bind locals k (l, st) = k l (l, st).
Proof. reflexivity. Qed.

Lemma bind_update {L B} (g : Store -> Store) (k : unit -> Py L B) (l : L) (st : Store) :
  bind (update g) k (l, st) = k tt (l, g st).
Proof. reflexivity. Qed.

Lemma bind_ret {L A B} (a : A) (k : A -> Py L B) (s : L * Store) :
  bind (ret a) k s = k a s.
Proof. reflexivity. Qed.

Lemma fetch_page_run {L} (w : World) (url : string) (l : L) (st : Store) :
  fetch_page w url (l, st)
  = (match requests_get w url with Ok text => Ok text | Raise e => Raise e end,
     (l, set_requests_log (requests_log st ++ [url]) st)).
Proof.
  unfold fetch_page. rewrite bind_update. destruct (requests_get w url); reflexivity.
Qed.

Lemma method_run {L A} (get : L -> ScrapeJob.t) (put : ScrapeJob.t -> L -> L)
    (m : Py ScrapeJob.t A) (l : L) (st : Store) :
  method get put m (l, st)
  = (outcome m (get l) st,
     (put (locals_after m (get l) st) l, store_after m (get l) st)).
Proof.
  unfold method, outcome, locals_after, store_after. cbn [fst snd].
  destruct (m (get l, st)) as [r [self st']]. reflexivity.
Qed.

Lemma set_job_job (f : Frame) : set_job (job f) f = f.
Proof. destruct f. reflexivity. Qed.

Lemma still_refl st : still st st.
Proof.
  repeat split. exists []. split; [now rewrite app_nil_r | constructor].
Qed.

Lemma still_trans a b c : still a b -> still b c -> still a c.
Proof.
  intros (J1 & L1 & C1 & es1 & E1 & F1) (J2 & L2 & C2 & es2 & E2 & F2).
  repeat split; try congruence.
  exists (es1 ++ es2). split; [rewrite E2, E1; now rewrite app_assoc|].
  apply Forall_app. split; assumption.
Qed.

Lemma candidates_still (w : World) (site : ScrapeSite.t)
    (author_nodes quote_nodes : list Tag.t) (i : nat) (f : Frame) (st : Store) :
  still st (store_after (candidates w site author_nodes i quote_nodes) f st)
  /\ same_page f (locals_after (candidates w site author_nodes i quote_nodes) f st).
Proof.
  apply (kept_candidates w still (fun t => t = "parse"%string)); try reflexivity.
  - apply still_refl.
  - apply still_trans.
  - intros st0. repeat split. exists []. split; [now rewrite app_nil_r | constructor].
  - intros st0 e He. repeat split. exists [e]. split; [reflexivity|].
    apply List.Forall_cons; [exact He | constructor].
  - intros st0 a. repeat split. exists []. split; [now rewrite app_nil_r | constructor].
  - intros st0 q t a _ _. repeat split. exists [].
    split; [now rewrite app_nil_r | constructor].
  - intros st0 st1 (J & L & C & _). repeat split; try assumption.
    exists []. split; [now rewrite app_nil_r | constructor].
  - intros f0 H. exact H.
  - intros f0 H. exact H.
  - apply still_refl.
  - repeat split.
Qed.

Lemma increment_counters_locals (w : World) (fetched saved errors : Z)
    (self : ScrapeJob.t) (st : Store) :
  locals_after (increment_counters w fetched saved errors) self st = self.
Proof.
  unfold locals_after. rewrite increment_counters_run.
  destruct (faults w (tick st)); [reflexivity|].
  destruct (jobs st !! ScrapeJob.pk self); [|reflexivity].
  destruct (faults w (S (tick st))); reflexivity.
Qed.

Section Faultless.

Variable w : World.
Hypothesis Hw : faultless w.

Lemma guarded_ok (site : ScrapeSite.t) (text : string) (author_name : option string)
    (f : Frame) (st : Store) :
  outcome
    (try_except
       (save_candidate w site text author_name)
       (fun ex =>
          assign (fun f => set_errors (errors f + 1) f) ;;
          f <- locals ;;
          ScrapeError_create w (job f) (next_url f) "parse" (exn_str ex))) f st
  = Ok tt.
Proof.
  unfold outcome, try_except.
  destruct (save_candidate w site text author_name (f, st)) as [[[]|e] [f' st']];
    [reflexivity|].
  unfold bind. cbn [assign locals fst snd]. rewrite ScrapeError_create_run, Hw.
  reflexivity.
Qed.

Lemma store_all_ok (site : ScrapeSite.t) (cs : list (string * option string)) :
  forall f st, outcome (store_all w site cs) f st = Ok tt.
Proof.
  induction cs as [|[text a] cs IH]; intros f st; [reflexivity|].
  cbn [store_all]. unfold outcome. rewrite (bind_ok_run _ _ f st tt (guarded_ok _ _ _ _ _)).
  apply IH.
Qed.

Lemma candidates_ok (site : ScrapeSite.t) (author_nodes quote_nodes : list Tag.t)
    (i : nat) (f : Frame) (st : Store) :
  outcome (candidates w site author_nodes i quote_nodes) f st = Ok tt.
Proof. rewrite candidates_extract. apply store_all_ok. Qed.

Lemma increment_counters_ok (fetched saved errors : Z) (self : ScrapeJob.t) (st : Store)
    (row : ScrapeJob.t) :
  jobs st !! ScrapeJob.pk self = Some row ->
  increment_counters w fetched saved errors (self, st)
  = (Ok tt, (self, set_jobs (<[ScrapeJob.pk self := bump fetched saved errors row]>
                               (jobs st))
                     (arrive w (arrive w st)))).
Proof. intros E. now rewrite increment_counters_run, !Hw, E. Qed.

Variable guard : World -> Py Frame unit.
Hypothesis Hg : noop guard.

Lemma page_loop_stop (site : ScrapeSite.t) (n : nat) (f : Frame) (st : Store) :
  truthy_opt (next_url f) = false ->
  page_loop_with guard w site (S n) (f, st) = (Ok tt, (f, st)).
Proof.
  intros E. cbn [page_loop_with]. unfold bind at 1. cbn [locals fst snd].
  now rewrite E.
Qed.

Lemma page_loop_fail (site : ScrapeSite.t) (n : nat) (f : Frame) (st : Store) (e : exn) :
  truthy_opt (next_url f) = true ->
  requests_get w (PyStr.or_empty (next_url f)) = Raise e ->
  page_loop_with guard w site (S n) (f, st)
  = (Ok tt, failed_state w site (PyStr.or_empty (next_url f)) e f st).
Proof.
  intros E Hget. cbn [page_loop_with]. rewrite bind_locals, E. cbn [negb].
  unfold sleep_ms. rewrite bind_update.
  unfold bind at 1, try_except. unfold bind at 1.
  rewrite fetch_page_run, Hget.
  rewrite bind_assign, bind_locals. unfold bind at 1.
  rewrite ScrapeError_create_run, Hw. reflexivity.
Qed.

Lemma page_loop_step (site : ScrapeSite.t) (n : nat) (f : Frame) (st : Store)
    (html : string) :
  truthy_opt (next_url f) = true ->
  requests_get w (PyStr.or_empty (next_url f)) = Ok html ->
  is_Some (jobs st !! ScrapeJob.pk (job f)) ->
  page_loop_with guard w site (S n) (f, st)
  = page_loop_with guard w site n
      (page_state w site (PyStr.or_empty (next_url f)) html f st).
Proof.
  intros E Hget [row Hrow]. cbn [page_loop_with]. rewrite bind_locals, E. cbn [negb].
  unfold sleep_ms. rewrite bind_update.
  unfold bind at 1, try_except. unfold bind at 1.
  rewrite fetch_page_run, Hget. cbn [ret].
  rewrite !bind_assign.
  fold (author_nodes_of site (BeautifulSoup w html)).
  fold (quote_nodes_of site (BeautifulSoup w html)).
  set (f1 := set_pages_scraped _ _). set (st1 := set_requests_log _ _).
  set (c := candidates w site _ 0 _).
  rewrite (bind_ok_run c _ f1 st1 tt (candidates_ok _ _ _ _ _ _)).
  destruct (candidates_still w site (author_nodes_of site (BeautifulSoup w html))
              (quote_nodes_of site (BeautifulSoup w html)) 0 f1 st1)
    as [(J & _) (Hjob & _)].
  fold c in J, Hjob.
  rewrite bind_locals.
  set (f2 := locals_after c f1 st1) in *. set (st2 := store_after c f1 st1) in *.
  assert (Hrow2 : jobs st2 !! ScrapeJob.pk (job f2) = Some row).
  { rewrite J, Hjob. exact Hrow. }
  unfold bind at 1. rewrite method_run.
  unfold outcome, locals_after, store_after.
  rewrite (increment_counters_ok _ _ _ _ _ row Hrow2). cbn [fst snd].
  rewrite set_job_job, !bind_assign.
  unfold bind at 1. rewrite Hg.
  unfold page_state. fold f1 st1. fold c. fold f2 st2.
  unfold store_after at 1. rewrite (increment_counters_ok _ _ _ _ _ row Hrow2).
  reflexivity.
Qed.

Lemma page_state_facts (site : ScrapeSite.t) (url html : string) (f : Frame)
    (st : Store) (row : ScrapeJob.t) :
  jobs st !! ScrapeJob.pk (job f) = Some row ->
  let f' := fst (page_state w site url html f st) in
  let st' := snd (page_state w site url html f st) in
  job f' = job f
  /\ next_url f' = discover_next_url w site (BeautifulSoup w html)
  /\ (fetched f' = 0 /\ saved f' = 0 /\ errors f' = 0)
  /\ requests_log st' = requests_log st ++ [url]
  /\ is_Some (jobs st' !! ScrapeJob.pk (job f))
  /\ (forall k, k <> ScrapeJob.pk (job f) -> jobs st' !! k = jobs st !! k)
  /\ exists es, scrape_errors st' = scrape_errors st ++ es
                /\ Forall (fun e => ScrapeError.error_type e = "parse"%string) es.
Proof.
  intros Hrow. unfold page_state. cbv zeta.
  set (f1 := set_pages_scraped _ _). set (st1 := set_requests_log _ _).
  set (c := candidates w site _ 0 _).
  destruct (candidates_still w site (author_nodes_of site (BeautifulSoup w html))
              (quote_nodes_of site (BeautifulSoup w html)) 0 f1 st1)
    as [(J & Lg & _ & es & Hes & Fes) (Hjob & _)].
  fold c in J, Lg, Hes, Hjob.
  set (f2 := locals_after c f1 st1) in *. set (st2 := store_after c f1 st1) in *.
  assert (Hrow2 : jobs st2 !! ScrapeJob.pk (job f2) = Some row).
  { rewrite J, Hjob. exact Hrow. }
  assert (E3 : store_after (increment_counters w (fetched f2) (saved f2) (errors f2))
                 (job f2) st2
               = set_jobs (<[ScrapeJob.pk (job f2)
                             := bump (fetched f2) (saved f2) (errors f2) row]> (jobs st2))
                   (arrive w (arrive w st2))).
  { unfold store_after. now rewrite (increment_counters_ok _ _ _ _ _ row Hrow2). }
  rewrite E3.
  cbn [fst snd job next_url fetched saved errors set_next_url set_errors set_saved
       set_fetched requests_log jobs scrape_errors set_jobs arrive set_tick set_quotes].
  rewrite Hjob. change (job f1) with (job f).
  repeat split; try reflexivity.
  - exact Lg.
  - rewrite lookup_insert_eq. eauto.
  - intros k Hk. rewrite lookup_insert_ne by congruence. now rewrite J.
  - exists es. split; assumption.
Qed.

Lemma not_fatal_parse (es : list ScrapeError.t) :
  Forall (fun e => ScrapeError.error_type e = "parse"%string) es -> Forall not_fatal es.
Proof. intros H. eapply List.Forall_impl; [|exact H]. intros e He. now left. Qed.

Lemma page_loop_faultless (site : ScrapeSite.t) :
  forall n f st,
    is_Some (jobs st !! ScrapeJob.pk (job f)) ->
    outcome (page_loop_with guard w site n) f st = Ok tt
    /\ job (locals_after (page_loop_with guard w site n) f st) = job f
    /\ requests_log (store_after (page_loop_with guard w site n) f st)
       = requests_log st ++ visits w site n (next_url f)
    /\ is_Some (jobs (store_after (page_loop_with guard w site n) f st)
                !! ScrapeJob.pk (job f))
    /\ (forall k, k <> ScrapeJob.pk (job f) ->
                  jobs (store_after (page_loop_with guard w site n) f st) !! k
                  = jobs st !! k)
    /\ exists es,
         scrape_errors (store_after (page_loop_with guard w site n) f st)
         = scrape_errors st ++ es
         /\ Forall not_fatal es.
Proof.
  induction n as [|n IH]; intros f st Hjob.
  { cbn [page_loop_with visits]. unfold outcome, locals_after, store_after.
    cbn [ret fst snd]. rewrite app_nil_r. repeat split; try assumption.
    exists []. split; [now rewrite app_nil_r | constructor]. }
  unfold outcome, locals_after, store_after. cbn [visits].
  destruct (truthy_opt (next_url f)) eqn:E.
  2:{ rewrite (page_loop_stop site n f st E). cbn [fst snd]. rewrite app_nil_r.
      repeat split; try assumption.
      exists []. split; [now rewrite app_nil_r | constructor]. }
  destruct (requests_get w (PyStr.or_empty (next_url f))) as [html|e] eqn:Hget.
  - rewrite (page_loop_step site n f st html E Hget Hjob).
    destruct Hjob as [row Hrow].
    pose proof (page_state_facts site (PyStr.or_empty (next_url f)) html f st row Hrow)
      as Hf.
    destruct (page_state w site (PyStr.or_empty (next_url f)) html f st) as [f' st'].
    cbn [fst snd] in Hf.
    destruct Hf as (Hj & Hn & _ & Hlog & Hsome & Hother & es & Hes & Fes).
    rewrite <- Hj in Hsome.
    destruct (IH f' st' Hsome) as (H1 & H2 & H3 & H4 & H5 & es' & Hes' & Fes').
    unfold outcome, locals_after, store_after in H1, H2, H3, H4, H5, Hes'.
    rewrite Hj in H2, H4, H5.
    repeat split; try assumption.
    + rewrite H3, Hlog, Hn. now rewrite <- app_assoc.
    + intros k Hk. rewrite H5 by exact Hk. apply Hother, Hk.
    + exists (es ++ es'). split; [rewrite Hes', Hes; now rewrite app_assoc|].
      apply Forall_app. split; [apply not_fatal_parse, Fes | exact Fes'].
  - rewrite (page_loop_fail site n f st e E Hget). unfold failed_state.
    cbn [fst snd job set_errors requests_log jobs scrape_errors set_scrape_errors
         arrive set_tick set_quotes set_requests_log set_clock].
    repeat split; try assumption.
    eexists. split; [reflexivity|].
    apply List.Forall_cons; [now right | constructor].
Qed.

Lemma mark_running_run (self : ScrapeJob.t) (st : Store) :
  mark_running w (self, st)
  = ScrapeJob_save w (running (clock st) self)
      ["status"; "started_at"; "updated_at"]%string (running (clock st) self, st).
Proof. reflexivity. Qed.

Lemma run_finish_facts (f : Frame) (st : Store) (row : ScrapeJob.t) :
  jobs st !! ScrapeJob.pk (job f) = Some row ->
  outcome (increment_counters w (fetched f) (saved f) (errors f)) (job f) st = Ok tt
  /\ outcome (mark_finished w true) (job f)
       (store_after (increment_counters w (fetched f) (saved f) (errors f)) (job f) st)
     = Ok tt
  /\ jobs (run_finish w f st)
     = <[ScrapeJob.pk (job f)
         := ScrapeJob.set_finished_at (Some (clock st))
              (ScrapeJob.set_status (finish_status true (job f))
                 (bump (fetched f) (saved f) (errors f) row))]> (jobs st)
  /\ requests_log (run_finish w f st) = requests_log st
  /\ scrape_errors (run_finish w f st) = scrape_errors st
  /\ authors (run_finish w f st) = authors st
  /\ quotes (run_finish w f st) = quotes (arrive w (arrive w (arrive w st))).
Proof.
  intros Hrow. unfold run_finish, outcome, store_after.
  rewrite (increment_counters_ok _ _ _ _ _ row Hrow). cbn [fst snd].
  rewrite mark_finished_run, ScrapeJob_save_run, Hw.
  change (ScrapeJob.pk (finished _ true (job f))) with (ScrapeJob.pk (job f)).
  cbn [jobs set_jobs]. rewrite lookup_insert_eq. cbn [fst snd jobs set_jobs].
  rewrite insert_insert_eq, copy_fields_finished.
  repeat split.
Qed.

Lemma scrape_site_try_run (site : ScrapeSite.t) (job_id : string) (f : Frame)
    (st : Store) :
  is_Some (jobs st !! ScrapeJob.pk (job f)) ->
  let f0 := set_next_url (Some (start_url w site)) f in
  let loop := page_loop_with guard w site (ScrapeSite.max_pages site) in
  exists fF,
    scrape_site_try guard w site job_id (f, st)
    = (Ok (job_id, "done"%string),
       (fF, run_finish w (locals_after loop f0 st) (store_after loop f0 st))).
Proof.
  intros Hjob f0 loop.
  destruct (page_loop_faultless site (ScrapeSite.max_pages site) f0 st Hjob)
    as (Hok & Hj & _ & [row Hrow] & _).
  fold loop in Hok, Hj, Hrow.
  unfold scrape_site_try.
  fold (start_url w site). rewrite bind_assign. fold f0. fold loop.
  rewrite (bind_ok_run loop _ f0 st tt Hok), bind_locals.
  set (fL := locals_after loop f0 st) in *. set (stL := store_after loop f0 st) in *.
  change (job f0) with (job f) in Hj, Hrow. rewrite <- Hj in Hrow.
  destruct (run_finish_facts fL stL row Hrow) as (Hinc & Hfin & _).
  unfold bind at 1. rewrite method_run, Hinc.
  rewrite increment_counters_locals, set_job_job.
  unfold bind at 1. rewrite method_run, Hfin. cbn [ret fst snd].
  eexists. reflexivity.
Qed.

Lemma scrape_site_run (job_id : string) (row : ScrapeJob.t) (st : Store) :
  jobs st !! job_id = Some row ->
  let s0 := run_start w job_id row st in
  let loop := page_loop_with guard w (ScrapeJob.site row)
                (ScrapeSite.max_pages (ScrapeJob.site row)) in
  scrape_site_with guard w job_id (tt, st)
  = (Ok (job_id, "done"%string),
     (tt, run_finish w (locals_after loop (fst s0) (snd s0))
            (store_after loop (fst s0) (snd s0)))).
Proof.
  intros Hrow s0 loop. unfold scrape_site_with.
  rewrite (bind_value _ _ _ (tt, arrive w st) (ScrapeJob.set_pk job_id row))
    by now rewrite ScrapeJob_get_run, Hw, Hrow.
  unfold call. cbn [fst snd ScrapeJob.site ScrapeJob.set_pk].
  set (j := ScrapeJob.set_pk job_id row).
  assert (Hrun : method job set_job (mark_running w) (init_frame j, arrive w st)
                 = (Ok tt, (init_frame (running (clock st) j), snd s0))).
  { rewrite method_run. unfold outcome, locals_after, store_after.
    cbn [job init_frame]. rewrite mark_running_run, ScrapeJob_save_run, Hw.
    change (jobs (arrive w st) !! ScrapeJob.pk (running (clock (arrive w st)) j))
      with (jobs st !! job_id). rewrite Hrow. reflexivity. }
  rewrite (bind_value _ _ _ _ _ Hrun). unfold try_except.
  destruct (scrape_site_try_run (ScrapeJob.site row) job_id
              (init_frame (running (clock st) j)) (snd s0)) as [fF E].
  { cbn [job init_frame snd s0 run_start jobs set_jobs].
    change (ScrapeJob.pk (running (clock st) j)) with job_id.
    rewrite lookup_insert_eq. eauto. }
  rewrite E. reflexivity.
Qed.

End Faultless.

(** ** The same-page guard *)

Lemma same_page_guard_noop : noop same_page_guard.
Proof.
  intros w f st. unfold same_page_guard. rewrite bind_locals.
  destruct (_ && _); reflexivity.
Qed.

Lemma no_guard_noop : noop (fun _ => ret tt).
Proof. intros w f st. reflexivity. Qed.

Lemma bind_ext {L A B} (m : Py L A) (k1 k2 : A -> Py L B) (s : L * Store) :
  (forall a s', k1 a s' = k2 a s') -> bind m k1 s = bind m k2 s.
Proof. intros H. unfold bind. destruct (m s) as [[a|e] s']; [apply H | reflexivity]. Qed.

Lemma page_loop_guard_ext (g1 g2 : World -> Py Frame unit) (w : World)
    (site : ScrapeSite.t) :
  (forall s, g1 w s = g2 w s) ->
  forall n s, page_loop_with g1 w site n s = page_loop_with g2 w site n s.
Proof.
  intros Hg. induction n as [|n IH]; intros s; [reflexivity|].
  cbn [page_loop_with]. apply bind_ext. intros f s1.
  destruct (negb (truthy_opt (next_url f))); [reflexivity|].
  apply bind_ext. intros _ s2. apply bind_ext. intros [text|] s3; [|reflexivity].
  do 3 (apply bind_ext; intros ? ?).
  apply bind_ext. intros f' s4.
  do 5 (apply bind_ext; intros ? ?).
  unfold bind. rewrite Hg. destruct (g2 w _) as [[[]|e] sg]; [apply IH | reflexivity].
Qed.

Lemma try_ext {L A} (m1 m2 : Py L A) (h : exn -> Py L A) (s : L * Store) :
  m1 s = m2 s -> try_except m1 h s = try_except m2 h s.
Proof. intros E. unfold try_except. now rewrite E. Qed.

Lemma scrape_site_guard_ext (g1 g2 : World -> Py Frame unit) (w : World)
    (job_id : string) (s : unit * Store) :
  (forall s, g1 w s = g2 w s) ->
  scrape_site_with g1 w job_id s = scrape_site_with g2 w job_id s.
Proof.
  intros Hg. unfold scrape_site_with. apply bind_ext. intros j s1.
  unfold call.
  match goal with
  | |- (let '(_, _) := ?a in _) = (let '(_, _) := ?b in _) =>
      assert (E : a = b); [|now rewrite E]
  end.
  apply bind_ext. intros _ s2. apply try_ext.
  unfold scrape_site_try. apply bind_ext. intros _ s3.
  unfold bind at 1 3. rewrite (page_loop_guard_ext g1 g2 w _ Hg). reflexivity.
Qed.

Lemma visits_self (w : World) (site : ScrapeSite.t) (u html : string) :
  PyStr.truthy u = true ->
  requests_get w u = Ok html ->
  discover_next_url w site (BeautifulSoup w html) = Some u ->
  forall n, visits w site n (Some u) = repeat u n.
Proof.
  intros Hu Hget Hnext. induction n as [|n IH]; [reflexivity|].
  cbn [visits truthy_opt PyStr.or_empty repeat]. now rewrite Hu, Hget, Hnext, IH.
Qed.

Lemma scrape_site_log (w : World) (job_id : string) (row : ScrapeJob.t) (st : Store) :
  faultless w -> jobs st !! job_id = Some row ->
  requests_log (store_after (scrape_site w job_id) tt st)
  = requests_log st ++ run_visits w row.
Proof.
  intros Hw Hrow. unfold store_after, scrape_site.
  rewrite (scrape_site_run w Hw same_page_guard same_page_guard_noop job_id row st Hrow).
  cbn [snd].
  set (s0 := run_start w job_id row st).
  assert (Hjob : is_Some (jobs (snd s0) !! ScrapeJob.pk (job (fst s0)))).
  { cbn [s0 run_start fst snd job set_next_url init_frame jobs set_jobs].
    change (ScrapeJob.pk (running _ _)) with job_id. rewrite lookup_insert_eq. eauto. }
  destruct (page_loop_faultless w Hw same_page_guard same_page_guard_noop
              (ScrapeJob.site row) (ScrapeSite.max_pages (ScrapeJob.site row))
              (fst s0) (snd s0) Hjob) as (_ & Hj & Hlog & [rowL HrowL] & _).
  rewrite <- Hj in HrowL.
  destruct (run_finish_facts w Hw _ _ rowL HrowL) as (_ & _ & _ & Hlog' & _).
  rewrite Hlog', Hlog. reflexivity.
Qed.

(** ** The same-page guard, with the exceptions of urllib *)

Lemma strict_guard_state (r : Raises) (w : World) (f : Frame) (st : Store) :
  snd (Strict.same_page_guard r w (f, st)) = (f, st).
Proof.
  unfold Strict.same_page_guard, Strict.py_urlparse_path, bind, locals, ret, raise.
  cbn [fst snd].
  destruct (truthy_opt (next_url f)); [|reflexivity].
  destruct (urlparse_raises r _); [reflexivity|].
  cbn [fst snd]. destruct (String.eqb _ _); reflexivity.
Qed.

Lemma strict_guard_returns (r : Raises) (w : World) (f : Frame) (st : Store) :
  (truthy_opt (next_url f) = true ->
   urlparse_raises r (PyStr.or_empty (next_url f)) = None) ->
  Strict.same_page_guard r w (f, st) = (Ok tt, (f, st)).
Proof.
  intros H.
  unfold Strict.same_page_guard, Strict.py_urlparse_path, bind, locals, ret.
  cbn [fst snd].
  destruct (truthy_opt (next_url f)); [|reflexivity].
  rewrite (H eq_refl). destruct (String.eqb _ _); reflexivity.
Qed.

Lemma strict_guard_raises (r : Raises) (w : World) (f : Frame) (st : Store) (e : exn) :
  truthy_opt (next_url f) = true ->
  urlparse_raises r (PyStr.or_empty (next_url f)) = Some e ->
  Strict.same_page_guard r w (f, st) = (Raise e, (f, st)).
Proof.
  intros Ht H.
  unfold Strict.same_page_guard, Strict.py_urlparse_path, bind, locals, raise.
  cbn [fst snd]. now rewrite Ht, H.
Qed.

(** What [discover_next_url] leaves when it returns: the next URL is the
    discovered target joined to the base URL, by a call of [urljoin] that
    has returned. *)
Lemma strict_discover_returns (r : Raises) (w : World) (site : ScrapeSite.t)
    (soup : Tag.t) (f f' : Frame) (st st' : Store) :
  Strict.discover_next_url r w site soup (f, st) = (Ok tt, (f', st')) ->
  f' = set_next_url (discover_next_url w site soup) f
  /\ st' = st
  /\ forall u, next_url f' = Some u ->
       exists url, urljoin_raises r (ScrapeSite.base_url site) url = None
                   /\ u = urljoin w (ScrapeSite.base_url site) url.
Proof.
  unfold Strict.discover_next_url, discover_next_url, Strict.select_one,
    Strict.py_urljoin.
  unfold bind at 1. cbn [assign fst snd].
  destruct (PyStr.truthy (ScrapeSite.pagination_selector site)).
  - unfold bind at 1. destruct (select_raises r _); [discriminate|].
    cbn [ret]. destruct (Tag.select_one soup _) as [nxt|].
    + destruct (truthy_opt _).
      * unfold bind. destruct (urljoin_raises r _ _) eqn:Hj; [discriminate|].
        cbn [ret assign fst snd]. intros E. inversion E; subst f' st'.
        split; [reflexivity|]. split; [reflexivity|].
        cbn [next_url set_next_url]. intros u Hu. inversion Hu; subst u. eauto.
      * cbn [ret]. intros E. inversion E; subst f' st'.
        split; [reflexivity|]. split; [reflexivity|]. discriminate.
    + cbn [ret]. intros E. inversion E; subst f' st'.
      split; [reflexivity|]. split; [reflexivity|]. discriminate.
  - unfold bind at 1. destruct (select_raises r _); [discriminate|].
    cbn [ret].
    destruct (match Tag.select_one soup "a[rel=next]" with
              | Some n => Some n
              | None => Tag.find_a soup is_next_text
              end) as [n|].
    + destruct (truthy_opt _).
      * unfold bind. destruct (urljoin_raises r _ _) eqn:Hj; [discriminate|].
        cbn [ret assign fst snd]. intros E. inversion E; subst f' st'.
        split; [reflexivity|]. split; [reflexivity|].
        cbn [next_url set_next_url]. intros u Hu. inversion Hu; subst u. eauto.
      * cbn [ret]. intros E. inversion E; subst f' st'.
        split; [reflexivity|]. split; [reflexivity|]. discriminate.
    + cbn [ret]. intros E. inversion E; subst f' st'.
      split; [reflexivity|]. split; [reflexivity|]. discriminate.
Qed.

Lemma strict_guard_after_discover (r : Raises) (w : World) (site : ScrapeSite.t)
    (soup : Tag.t) (f f' : Frame) (st st' : Store) :
  parsable r w (ScrapeSite.base_url site) ->
  Strict.discover_next_url r w site soup (f, st) = (Ok tt, (f', st')) ->
  Strict.same_page_guard r w (f', st') = (Ok tt, (f', st')).
Proof.
  intros Hp E. destruct (strict_discover_returns r w site soup f f' st st' E)
    as (_ & _ & Hu).
  apply strict_guard_returns.
  destruct (next_url f') as [u|] eqn:En; [|discriminate].
  intros _. cbn [PyStr.or_empty]. destruct (Hu u eq_refl) as (url & Hj & ->).
  now apply Hp.
Qed.

Lemma strict_page_loop_unguarded (r : Raises) (w : World) (site : ScrapeSite.t) :
  parsable r w (ScrapeSite.base_url site) ->
  forall n s,
    Strict.page_loop_with Strict.same_page_guard r w site n s
    = Strict.page_loop_with (fun _ _ => ret tt) r w site n s.
Proof.
  intros Hp. induction n as [|n IH]; intros s; [reflexivity|].
  cbn [Strict.page_loop_with]. apply bind_ext. intros f s1.
  destruct (negb (truthy_opt (next_url f))); [reflexivity|].
  apply bind_ext. intros _ s2. apply bind_ext. intros [text|] s3; [|reflexivity].
  do 5 (apply bind_ext; intros ? ?).
  apply bind_ext. intros f' s4.
  do 3 (apply bind_ext; intros ? ?).
  apply bind_ext. intros _ [f8 st8].
  unfold bind at 1 3.
  destruct (Strict.discover_next_url r w site (BeautifulSoup w text) (f8, st8))
    as [[[]|e] [f9 st9]] eqn:E; [|reflexivity].
  unfold bind. rewrite (strict_guard_after_discover r w site _ f8 f9 st8 st9 Hp E).
  cbn [ret]. apply IH.
Qed.

Lemma strict_scrape_site_unguarded (r : Raises) (w : World) (job_id : string)
    (st : Store) :
  (forall row, jobs st !! job_id = Some row ->
               parsable r w (ScrapeSite.base_url (ScrapeJob.site row))) ->
  Strict.scrape_site r w job_id (tt, st) = Strict.scrape_site_unguarded r w job_id (tt, st).
Proof.
  intros Hp. unfold Strict.scrape_site, Strict.scrape_site_unguarded,
    Strict.scrape_site_with.
  unfold bind at 1 3. rewrite ScrapeJob_get_run.
  destruct (faults w (tick st)); [reflexivity|].
  destruct (jobs st !! job_id) as [row|] eqn:Hrow; [|reflexivity].
  specialize (Hp row eq_refl). cbn [fst snd].
  unfold call.
  match goal with
  | |- (let '(_, _) := ?a in _) = (let '(_, _) := ?b in _) =>
      assert (E : a = b); [|now rewrite E]
  end.
  apply bind_ext. intros _ s2. apply try_ext.
  unfold Strict.scrape_site_try. apply bind_ext. intros u s3.
  apply bind_ext. intros _ s4.
  unfold bind at 1 3.
  change (ScrapeJob.site (ScrapeJob.set_pk job_id row)) with (ScrapeJob.site row).
  rewrite (strict_page_loop_unguarded r w _ Hp). reflexivity.
Qed.

(** ** The definitions with exceptions and those without *)

Lemma bind_ext_run {L A B} (m : Py L A) (k1 k2 : A -> Py L B) (s : L * Store) :
  (forall a s', m s = (Ok a, s') -> k1 a s' = k2 a s') -> bind m k1 s = bind m k2 s.
Proof.
  intros H. unfold bind. destruct (m s) as [[a|e] s']; [now apply H | reflexivity].
Qed.

Lemma discover_next_href (w : World) (site : ScrapeSite.t) (soup : Tag.t) :
  discover_next_url w site soup
  = option_map (urljoin w (ScrapeSite.base_url site)) (next_href site soup).
Proof.
  unfold discover_next_url, next_href.
  destruct (PyStr.truthy (ScrapeSite.pagination_selector site)).
  - destruct (Tag.select_one soup _); [|reflexivity].
    destruct (truthy_opt _); reflexivity.
  - destruct (match Tag.select_one soup "a[rel=next]" with
              | Some n => Some n
              | None => Tag.find_a soup is_next_text
              end); [|reflexivity].
    destruct (truthy_opt _); reflexivity.
Qed.

Lemma tame_discover (r : Raises) (w : World) (site : ScrapeSite.t) (soup : Tag.t)
    (f : Frame) (st : Store) :
  select_raises r (nav_selector site) = None ->
  (forall url, next_href site soup = Some url ->
               urljoin_raises r (ScrapeSite.base_url site) url = None) ->
  Strict.discover_next_url r w site soup (f, st)
  = (Ok tt, (set_next_url (discover_next_url w site soup) f, st)).
Proof.
  unfold nav_selector, next_href.
  unfold Strict.discover_next_url, discover_next_url, Strict.select_one,
    Strict.py_urljoin.
  unfold bind at 1. cbn [assign fst snd].
  destruct (PyStr.truthy (ScrapeSite.pagination_selector site)).
  - intros Hs Hj. unfold bind at 1. rewrite Hs. cbn [ret].
    destruct (Tag.select_one soup _) as [nxt|]; [|reflexivity].
    destruct (truthy_opt _); [|reflexivity].
    unfold bind. rewrite (Hj _ eq_refl). reflexivity.
  - intros Hs Hj. unfold bind at 1. rewrite Hs. cbn [ret].
    destruct (match Tag.select_one soup "a[rel=next]" with
              | Some n => Some n
              | None => Tag.find_a soup is_next_text
              end) as [n|]; [|reflexivity].
    destruct (truthy_opt _); [|reflexivity].
    unfold bind. rewrite (Hj _ eq_refl). reflexivity.
Qed.

Lemma fetched_page (w : World) (url : string) (h : exn -> Py Frame (option string))
    (s s' : Frame * Store) (text : string) :
  (forall e s1 t s2, h e s1 <> (Ok (Some t), s2)) ->
  try_except (text <- fetch_page w url ;; ret (Some text)) h s = (Ok (Some text), s') ->
  requests_get w url = Ok text.
Proof.
  intros Hh. unfold try_except, fetch_page, bind, update, ret, raise. cbn [fst snd].
  destruct (requests_get w url) as [t|e].
  - intros E. now inversion E.
  - intros E. now apply Hh in E.
Qed.

Lemma network_handler_none (w : World) (e : exn) (s1 s2 : Frame * Store) (t : string) :
  (assign (fun f => set_errors (errors f + 1) f) ;;
   f <- locals ;;
   ScrapeError_create w (job f) (next_url f) "network" (exn_str e) ;;
   ret None) s1 <> (Ok (Some t), s2).
Proof.
  unfold bind, assign, locals, ret. cbn [fst snd].
  rewrite ScrapeError_create_run. destruct (faults w _); discriminate.
Qed.

Lemma tame_page_loop (r : Raises) (w : World) (site : ScrapeSite.t) :
  compiles r site -> parsable r w (ScrapeSite.base_url site) ->
  forall n f st,
    joins r w site (visits w site n (next_url f)) ->
    Strict.page_loop_with Strict.same_page_guard r w site n (f, st)
    = page_loop_with same_page_guard w site n (f, st).
Proof.
  intros (Hq & Ha & Hn) Hp. induction n as [|n IH]; intros f st Hj; [reflexivity|].
  cbn [Strict.page_loop_with page_loop_with].
  rewrite !bind_locals.
  cbn [visits] in Hj.
  destruct (truthy_opt (next_url f)) eqn:Ht; cbn [negb]; [|reflexivity].
  apply bind_ext. intros _ s2. apply bind_ext_run. intros [text|] s3 Hresp; [|reflexivity].
  apply fetched_page in Hresp; [|intros; apply network_handler_none].
  rewrite Hresp in Hj.
  do 2 (apply bind_ext; intros ? ?).
  unfold Strict.select. rewrite Hq. unfold bind at 1. cbn [ret].
  assert (E : (if PyStr.truthy (ScrapeSite.author_selector site)
               then match select_raises r (ScrapeSite.author_selector site) with
                    | Some e => raise e
                    | None => @ret Frame _ (Tag.select (BeautifulSoup w text)
                                              (ScrapeSite.author_selector site))
                    end
               else ret [])
              = ret (if PyStr.truthy (ScrapeSite.author_selector site)
                     then Tag.select (BeautifulSoup w text)
                            (ScrapeSite.author_selector site)
                     else [])).
  { destruct (PyStr.truthy _); [|reflexivity]. now rewrite Ha. }
  rewrite E. unfold bind at 1. cbn [ret].
  apply bind_ext. intros _ s5. apply bind_ext. intros f' s6.
  do 3 (apply bind_ext; intros ? ?).
  apply bind_ext. intros _ [f8 st8].
  assert (Hjoin : forall url, next_href site (BeautifulSoup w text) = Some url ->
                              urljoin_raises r (ScrapeSite.base_url site) url = None).
  { intros url Hurl. apply (Hj (PyStr.or_empty (next_url f)) text url);
      [now left | exact Hresp | exact Hurl]. }
  unfold bind at 1. rewrite (tame_discover r w site _ f8 st8 Hn Hjoin).
  unfold bind at 1.
  rewrite strict_guard_returns.
  2:{ cbn [next_url set_next_url]. rewrite discover_next_href.
      destruct (next_href site (BeautifulSoup w text)) as [url|] eqn:Hurl;
        cbn [option_map PyStr.or_empty truthy_opt]; [|discriminate].
      intros _. apply Hp, Hjoin. reflexivity. }
  unfold bind. cbn [assign fst snd]. rewrite same_page_guard_noop. apply IH.
  cbn [next_url set_next_url]. intros u html url Hin.
  apply Hj. now right.
Qed.

Lemma tame_scrape_site (r : Raises) (w : World) (job_id : string) (row : ScrapeJob.t)
    (st : Store) :
  jobs st !! job_id = Some row -> tame r w row ->
  Strict.scrape_site r w job_id (tt, st) = scrape_site w job_id (tt, st).
Proof.
  intros Hrow (Hc & Hs & Hp & Hj).
  unfold Strict.scrape_site, Strict.scrape_site_with, scrape_site, scrape_site_with.
  unfold bind at 1 3. rewrite ScrapeJob_get_run.
  destruct (faults w (tick st)); [reflexivity|].
  rewrite Hrow. cbn [fst snd]. unfold call.
  match goal with
  | |- (let '(_, _) := ?a in _) = (let '(_, _) := ?b in _) =>
      assert (E : a = b); [|now rewrite E]
  end.
  change (ScrapeJob.site (ScrapeJob.set_pk job_id row)) with (ScrapeJob.site row).
  apply bind_ext. intros _ s2. apply try_ext.
  unfold Strict.scrape_site_try, scrape_site_try, Strict.py_urljoin.
  rewrite Hs. unfold bind at 1. cbn [ret].
  destruct s2 as [f2 st2]. rewrite !bind_assign.
  unfold bind at 1 3.
  rewrite (tame_page_loop r w _ Hc Hp); [reflexivity|].
  exact Hj.
Qed.

(** C9. The comparison at lines 141-143 changes nothing.  The guard writes
    neither to the locals nor to the store, and it returns whenever
    [urlparse] accepts the next URL.  The next URL an iteration leaves is
    the raw target of the pagination link joined to the base URL, and the
    guard that follows leaves it as it is.  For every site whose base URL is
    such that [urlparse] accepts what [urljoin] returns, [scrape_site] equals
    the orchestrator without the guard, in every world and whatever
    [urljoin] and the selectors raise.  A page whose pagination link
    resolves to its own URL is requested once per iteration until the page
    cap, when no database statement fails and nothing raises on the run. *)
Theorem same_page_guard_is_noop :
  (forall r w f st,
      snd (Strict.same_page_guard r w (f, st)) = (f, st)
      /\ ((truthy_opt (next_url f) = true ->
           urlparse_raises r (PyStr.or_empty (next_url f)) = None) ->
          Strict.same_page_guard r w (f, st) = (Ok tt, (f, st))))
  /\ (forall r w site soup f st f' st',
         Strict.discover_next_url r w site soup (f, st) = (Ok tt, (f', st')) ->
         next_url f'
         = option_map (urljoin w (ScrapeSite.base_url site)) (next_href site soup)
         /\ (parsable r w (ScrapeSite.base_url site) ->
             Strict.same_page_guard r w (f', st') = (Ok tt, (f', st'))))
  /\ (forall r w job_id st,
         (forall row, jobs st !! job_id = Some row ->
                      parsable r w (ScrapeSite.base_url (ScrapeJob.site row))) ->
         Strict.scrape_site r w job_id (tt, st)
         = Strict.scrape_site_unguarded r w job_id (tt, st))
  /\ (forall r w job_id row st html href,
         faultless w ->
         jobs st !! job_id = Some row ->
         tame r w row ->
         PyStr.truthy (start_url w (ScrapeJob.site row)) = true ->
         requests_get w (start_url w (ScrapeJob.site row)) = Ok html ->
         next_href (ScrapeJob.site row) (BeautifulSoup w html) = Some href ->
         urljoin w (ScrapeSite.base_url (ScrapeJob.site row)) href
         = start_url w (ScrapeJob.site row) ->
         requests_log (store_after (Strict.scrape_site r w job_id) tt st)
         = requests_log st
           ++ repeat (start_url w (ScrapeJob.site row))
                (ScrapeSite.max_pages (ScrapeJob.site row))).
Proof.
  split.
  { intros r w f st. split; [apply strict_guard_state | apply strict_guard_returns]. }
  split.
  { intros r w site soup f st f' st' E. split.
    - destruct (strict_discover_returns r w site soup f f' st st' E) as (-> & _ & _).
      cbn [next_url set_next_url]. apply discover_next_href.
    - intros Hp. exact (strict_guard_after_discover r w site soup f f' st st' Hp E). }
  split.
  { intros r w job_id st Hp. now apply strict_scrape_site_unguarded. }
  intros r w job_id row st html href Hw Hrow Ht Hu Hget Hnext Hjoin.
  unfold store_after. rewrite (tame_scrape_site r w job_id row st Hrow Ht).
  fold (store_after (scrape_site w job_id) tt st).
  rewrite (scrape_site_log w job_id row st Hw Hrow). unfold run_visits.
  rewrite (visits_self w _ _ html Hu Hget); [reflexivity|].
  rewrite discover_next_href, Hnext. cbn [option_map]. now rewrite Hjoin.
Qed.

Lemma loop_world_tame :
  tame no_raises Scenario.loop_world (ScrapeJob.fresh Scenario.job_id Scenario.loop_site).
Proof.
  split; [|split; [|split]].
  - repeat split.
  - reflexivity.
  - intros url _. reflexivity.
  - intros u html url _ _ _. reflexivity.
Qed.

Lemma same_page_guard_is_noop_witness :
  requests_log (store_after (Strict.scrape_site no_raises Scenario.loop_world
                               Scenario.job_id) tt Scenario.loop_store)
  = ["http://loop.test/"; "http://loop.test/"; "http://loop.test/"]%string.
Proof.
  destruct same_page_guard_is_noop as (_ & _ & _ & H).
  apply (H no_raises Scenario.loop_world Scenario.job_id
           (ScrapeJob.fresh Scenario.job_id Scenario.loop_site) Scenario.loop_store
           "<html>loop</html>"%string "/"%string).
  - intros n. reflexivity.
  - reflexivity.
  - exact loop_world_tame.
  - reflexivity.
  - reflexivity.
  - reflexivity.
  - reflexivity.
Defined.

(** Why the base URL matters.  [ScrapeSite.base_url] is a URL field, and a
    row that has gone through its validation has a scheme and a host.  For
    a row written without validation, with an empty base URL, [urljoin]
    returns the link "//[" as it is, [urlparse] raises at line 141, and the
    run ends in the handler of the [try], where without the guard the next
    request fails and the run returns. *)
Lemma guard_raises_on_unparsable_url :
  fst (Strict.scrape_site Bracket.raises Bracket.world Scenario.job_id
         (tt, Bracket.store0))
  = Raise Bracket.invalid
  /\ map ScrapeError.error_type
       (scrape_errors
          (store_after (Strict.scrape_site Bracket.raises Bracket.world Scenario.job_id)
             tt Bracket.store0))
     = ["fatal"%string]
  /\ fst (Strict.scrape_site_unguarded Bracket.raises Bracket.world Scenario.job_id
            (tt, Bracket.store0))
     = Ok (Scenario.job_id, "done"%string)
  /\ map ScrapeError.error_type
       (scrape_errors
          (store_after
             (Strict.scrape_site_unguarded Bracket.raises Bracket.world Scenario.job_id)
             tt Bracket.store0))
     = ["network"%string].
Proof. vm_compute. repeat split. Qed.

(** ** A failing first request *)

(** C4. When the first page request fails (a timeout, say) in a run of a
    freshly created job, with no database fault: the run ends normally,
    exactly one request was made, exactly one error row was added, of type
    "network" with the exception's message, and the job row ends FAILED with
    quotes_fetched = 0, quotes_saved = 0 and errors_count = 1. *)
Theorem first_fetch_failure (w : World) (job_id : string) (row : ScrapeJob.t)
    (st : Store) (e : exn) :
  faultless w ->
  jobs st !! job_id = Some row ->
  ScrapeJob.quotes_fetched row = 0 ->
  ScrapeJob.quotes_saved row = 0 ->
  ScrapeJob.errors_count row = 0 ->
  ScrapeSite.max_pages (ScrapeJob.site row) <> O ->
  PyStr.truthy (start_url w (ScrapeJob.site row)) = true ->
  requests_get w (start_url w (ScrapeJob.site row)) = Raise e ->
  let st' := store_after (scrape_site w job_id) tt st in
  outcome (scrape_site w job_id) tt st = Ok (job_id, "done"%string)
  /\ requests_log st' = requests_log st ++ [start_url w (ScrapeJob.site row)]
  /\ scrape_errors st'
     = scrape_errors st
       ++ [ScrapeError.mk job_id (Some (start_url w (ScrapeJob.site row)))
             "network" (exn_str e) None]
  /\ exists row',
       jobs st' !! job_id = Some row'
       /\ ScrapeJob.status row' = ScrapeJob.FAILED
       /\ ScrapeJob.quotes_fetched row' = 0
       /\ ScrapeJob.quotes_saved row' = 0
       /\ ScrapeJob.errors_count row' = 1.
Proof.
  intros Hw Hrow Hf Hs He Hmax Hu Hget st'. subst st'.
  unfold outcome, store_after, scrape_site.
  rewrite (scrape_site_run w Hw same_page_guard same_page_guard_noop job_id row st Hrow).
  cbn [fst snd].
  destruct (ScrapeSite.max_pages (ScrapeJob.site row)) as [|n] eqn:En; [congruence|].
  set (s0 := run_start w job_id row st).
  assert (Hloop : page_loop_with same_page_guard w (ScrapeJob.site row) (S n)
                    (fst s0, snd s0)
                  = (Ok tt, failed_state w (ScrapeJob.site row)
                              (start_url w (ScrapeJob.site row)) e (fst s0) (snd s0))).
  { apply (page_loop_fail w Hw same_page_guard (ScrapeJob.site row) n (fst s0) (snd s0) e).
    - cbn [s0 run_start fst next_url set_next_url truthy_opt]. exact Hu.
    - exact Hget. }
  set (sF := failed_state _ _ _ _ _ _) in Hloop.
  assert (HL : locals_after (page_loop_with same_page_guard w (ScrapeJob.site row) (S n))
                 (fst s0) (snd s0) = fst sF)
    by (unfold locals_after; now rewrite Hloop).
  assert (HS : store_after (page_loop_with same_page_guard w (ScrapeJob.site row) (S n))
                 (fst s0) (snd s0) = snd sF)
    by (unfold store_after; now rewrite Hloop).
  rewrite HL, HS.
  set (row1 := ScrapeJob.copy_fields ["status"; "started_at"; "updated_at"]%string
                 (running (clock st) (ScrapeJob.set_pk job_id row)) row).
  assert (HrowF : jobs (snd sF) !! ScrapeJob.pk (job (fst sF)) = Some row1).
  { cbn. apply lookup_insert_eq. }
  destruct (run_finish_facts w Hw (fst sF) (snd sF) row1 HrowF)
    as (_ & _ & Hjobs & Hlog & Herr & _).
  rewrite Hjobs, Hlog, Herr.
  split; [reflexivity|]. split; [reflexivity|]. split; [reflexivity|].
  eexists. split; [apply lookup_insert_eq|].
  cbn. unfold finish_status. cbn. rewrite Hf, Hs, He. repeat split.
Qed.

Lemma first_fetch_failure_witness :
  outcome (scrape_site Scenario.timeout_world Scenario.job_id) tt Scenario.store0
  = Ok (Scenario.job_id, "done"%string)
  /\ scrape_errors (store_after (scrape_site Scenario.timeout_world Scenario.job_id) tt
                      Scenario.store0)
     = [ScrapeError.mk Scenario.job_id (Some "http://quotes.test/"%string) "network"
          "Read timed out. (read timeout=10)" None].
Proof.
  destruct (first_fetch_failure Scenario.timeout_world Scenario.job_id
              (ScrapeJob.fresh Scenario.job_id Scenario.site) Scenario.store0
              (Exn "ReadTimeout" "Read timed out. (read timeout=10)")
              (fun n => eq_refl) eq_refl eq_refl eq_refl eq_refl
              (fun H => O_S _ (eq_sym H)) eq_refl eq_refl)
    as (H1 & _ & H3 & _).
  split; [exact H1 | exact H3].
Defined.

(** ** Uniqueness violations *)

Section Violation.

Variable w : World.
Hypothesis Hw : faultless w.

Lemma statement_never_raises {L A} (body : Store -> result A * Store)
    (Q : result A -> L -> Store -> Prop) (l : L) (st : Store) :
  Q (fst (body (arrive w st))) l (snd (body (arrive w st))) ->
  wp (statement w body) Q l st.
Proof.
  intros H. apply wp_statement; [|intros _; exact H].
  intros e He. rewrite Hw in He. discriminate.
Qed.

Lemma save_candidate_raises (site : ScrapeSite.t) (text : string)
    (author_name : option string) (f : Frame) (st : Store) :
  only_integrity (outcome (save_candidate w site text author_name) f st).
Proof.
  change (wp (save_candidate w site text author_name)
            (fun r _ _ => only_integrity r) f st).
  unfold save_candidate. apply wp_atomic.
  apply wp_mono with (Q := fun r _ _ => only_integrity r).
  { intros [a|e] ? ? H; exact H. }
  wp_step. wp_step.
  - wp_step. unfold Author_get_or_create. wp_step.
    apply statement_never_raises. cbn [fst snd].
    destruct (List.find _ _) as [a|].
    + repeat wp_step. apply statement_never_raises. cbn [fst snd].
      destruct (hash_exists _ _); cbn [negb]; repeat wp_step; try discriminate.
      unfold Quote_create, Quote_save. wp_step. unfold Quote_insert.
      apply statement_never_raises.
      destruct (hash_exists _ _); cbn [fst snd]; repeat wp_step.
      * intros e E. now inversion E.
      * discriminate.
    + wp_step. apply statement_never_raises. cbn [fst snd]. repeat wp_step.
      apply statement_never_raises. cbn [fst snd].
      destruct (hash_exists _ _); cbn [negb]; repeat wp_step; try discriminate.
      unfold Quote_create, Quote_save. wp_step. unfold Quote_insert.
      apply statement_never_raises.
      destruct (hash_exists _ _); cbn [fst snd]; repeat wp_step.
      * intros e E. now inversion E.
      * discriminate.
  - repeat wp_step. apply statement_never_raises. cbn [fst snd].
    destruct (hash_exists _ _); cbn [negb]; repeat wp_step; try discriminate.
    unfold Quote_create, Quote_save. wp_step. unfold Quote_insert.
    apply statement_never_raises.
    destruct (hash_exists _ _); cbn [fst snd]; repeat wp_step.
    + intros e E. now inversion E.
    + discriminate.
Qed.

Lemma violation_caught (site : ScrapeSite.t) (text : string)
    (author_name : option string) (rest : list (string * option string))
    (f f1 : Frame) (st st1 : Store) (e : exn) :
  save_candidate w site text author_name (f, st) = (Raise e, (f1, st1)) ->
  store_all w site ((text, author_name) :: rest) (f, st)
  = store_all w site rest (caught_state w e f1 st1).
Proof.
  intros E. cbn [store_all]. unfold bind at 1, try_except. rewrite E.
  rewrite bind_assign, bind_locals, ScrapeError_create_run, Hw. reflexivity.
Qed.

Lemma scrape_site_faultless (job_id : string) (row : ScrapeJob.t) (st : Store) :
  jobs st !! job_id = Some row ->
  outcome (scrape_site w job_id) tt st = Ok (job_id, "done"%string)
  /\ requests_log (store_after (scrape_site w job_id) tt st)
     = requests_log st ++ run_visits w row
  /\ (exists es, scrape_errors (store_after (scrape_site w job_id) tt st)
                 = scrape_errors st ++ es
                 /\ Forall not_fatal es)
  /\ exists row', jobs (store_after (scrape_site w job_id) tt st) !! job_id = Some row'
                  /\ ScrapeJob.status row' = finish_status true row.
Proof.
  intros Hrow. split; [|split; [apply scrape_site_log; assumption|]].
  { unfold outcome, scrape_site.
    now rewrite (scrape_site_run w Hw same_page_guard same_page_guard_noop job_id row st
                   Hrow). }
  unfold store_after, scrape_site.
  rewrite (scrape_site_run w Hw same_page_guard same_page_guard_noop job_id row st Hrow).
  cbn [snd].
  set (s0 := run_start w job_id row st).
  assert (Hjob : is_Some (jobs (snd s0) !! ScrapeJob.pk (job (fst s0)))).
  { cbn [s0 run_start fst snd job set_next_url init_frame jobs set_jobs].
    change (ScrapeJob.pk (running _ _)) with job_id. rewrite lookup_insert_eq. eauto. }
  destruct (page_loop_faultless w Hw same_page_guard same_page_guard_noop
              (ScrapeJob.site row) (ScrapeSite.max_pages (ScrapeJob.site row))
              (fst s0) (snd s0) Hjob) as (_ & Hj & _ & [rowL HrowL] & _ & es & Hes & Fes).
  rewrite <- Hj in HrowL.
  destruct (run_finish_facts w Hw _ _ rowL HrowL) as (_ & _ & Hjobs & _ & Herr & _).
  rewrite Hjobs, Herr, Hes, Hj. split.
  - exists es. split; [reflexivity | exact Fes].
  - eexists. split; [apply lookup_insert_eq|]. reflexivity.
Qed.

End Violation.

(** C6. The code does not treat a uniqueness violation raised past the
    existence check as a duplicate.  [Scenario.race_world]: another worker
    commits the first quote of page 1 between the check (line 103) and the
    insert (line 104) of the run.  The violation is taken by the catch-all
    handler of the candidate (lines 113-116): the run counts one error and
    stores an error row of type "parse" with the message of the violation,
    where the same row committed before the check ([Scenario.early_world])
    is skipped without a count and without a row.  The run itself goes on
    and returns; the count surfaces at the next run of the job, which ends
    PARTIAL where it ends SUCCESS after the duplicate found by the check. *)
Theorem race_is_recorded_as_error :
  fst (Scenario.run Scenario.race_world Scenario.store0)
  = Ok (Scenario.job_id, "done"%string)
  /\ Scenario.summary (snd (Scenario.run Scenario.race_world Scenario.store0))
     = Some (ScrapeJob.FAILED, 2, 2, 1)
  /\ map ScrapeError.error_type
       (scrape_errors (snd (Scenario.run Scenario.race_world Scenario.store0)))
     = ["parse"%string]
  /\ map ScrapeError.message
       (scrape_errors (snd (Scenario.run Scenario.race_world Scenario.store0)))
     = ["duplicate key value violates unique constraint on hash"%string]
  /\ Scenario.summary (snd (Scenario.run Scenario.early_world Scenario.store0))
     = Some (ScrapeJob.FAILED, 2, 2, 0)
  /\ scrape_errors (snd (Scenario.run Scenario.early_world Scenario.store0)) = []
  /\ Scenario.summary
       (snd (Scenario.run Scenario.world
               (snd (Scenario.run Scenario.race_world Scenario.store0))))
     = Some (ScrapeJob.PARTIAL, 4, 2, 1)
  /\ Scenario.summary
       (snd (Scenario.run Scenario.world
               (snd (Scenario.run Scenario.early_world Scenario.store0))))
     = Some (ScrapeJob.SUCCESS, 4, 2, 0).
Proof. vm_compute. repeat split. Qed.


(** ** Reruns over the same pages *)

Lemma copy_field_site (field : string) (self row : ScrapeJob.t) :
  ScrapeJob.site (ScrapeJob.copy_field field self row) = ScrapeJob.site row.
Proof.
  unfold ScrapeJob.copy_field.
  repeat match goal with |- context [if ?b then _ else _] => destruct b end;
    reflexivity.
Qed.

Lemma copy_fields_site (fields : list string) (self row : ScrapeJob.t) :
  ScrapeJob.site (ScrapeJob.copy_fields fields self row) = ScrapeJob.site row.
Proof.
  unfold ScrapeJob.copy_fields. revert row.
  induction fields as [|f fields IH]; intros row; cbn [fold_left]; [reflexivity|].
  now rewrite IH, copy_field_site.
Qed.

Lemma sites_kept_same st st' : jobs st' = jobs st -> sites_kept st st'.
Proof. intros E k row Hk. exists row. rewrite E. split; [exact Hk | reflexivity]. Qed.

Lemma sites_kept_respected (w : World) : respected w sites_kept.
Proof.
  constructor; intros; try (apply sites_kept_same; reflexivity).
  - intros k row Hk. destruct (H k row Hk) as (row' & Hk' & E').
    destruct (H0 k row' Hk') as (row'' & Hk'' & E'').
    exists row''. split; [exact Hk'' | congruence].
  - intros k' r Hk'. cbn [jobs set_jobs].
    destruct (decide (k = k')) as [->|Hne].
    + rewrite lookup_insert_eq. eexists. split; [reflexivity|].
      rewrite copy_fields_site. congruence.
    + rewrite lookup_insert_ne by exact Hne. exists r. split; [exact Hk' | reflexivity].
Qed.

Lemma hash_exists_app h qs qs' :
  hash_exists h (qs ++ qs') = hash_exists h qs || hash_exists h qs'.
Proof. unfold hash_exists. apply existsb_app. Qed.

Lemma hash_exists_In h qs :
  hash_exists h qs = true <-> In h (map Quote.hash qs).
Proof.
  unfold hash_exists. rewrite existsb_exists, in_map_iff. split.
  - intros (q & Hq & E). apply String.eqb_eq in E. eauto.
  - intros (q & E & Hq). exists q. split; [exact Hq|]. now apply String.eqb_eq.
Qed.

Lemma unique_hashes_insert qs q :
  unique_hashes qs -> hash_exists (Quote.hash q) qs = false ->
  unique_hashes (qs ++ [q]).
Proof.
  unfold unique_hashes. intros Hnd Hnew. rewrite map_app. cbn [map].
  apply NoDup_app. split; [exact Hnd|]. split.
  - intros h Hin Hin'. apply list_elem_of_In in Hin, Hin'.
    destruct Hin' as [<-|[]]. apply hash_exists_In in Hin. congruence.
  - apply NoDup_singleton.
Qed.

Lemma commit_rivals_unique rs qs : unique_hashes qs -> unique_hashes (commit_rivals rs qs).
Proof.
  unfold commit_rivals. revert qs.
  induction rs as [|r rs IH]; intros qs Hqs; cbn [fold_left]; [exact Hqs|].
  apply IH. unfold commit_rival.
  destruct (hash_exists (Quote.hash r) qs) eqn:E; [exact Hqs|].
  now apply unique_hashes_insert.
Qed.

Lemma replay_unique w t0 t1 qs : unique_hashes qs -> unique_hashes (replay w t0 t1 qs).
Proof.
  unfold replay. generalize (seq t0 (t1 - t0)). intros ns. revert qs.
  induction ns as [|n ns IH]; intros qs Hqs; cbn [fold_left]; [exact Hqs|].
  apply IH, commit_rivals_unique, Hqs.
Qed.

Lemma keeps_unique_respected (w : World) : respected w keeps_unique.
Proof.
  constructor; unfold keeps_unique; intros; cbn [quotes arrive set_tick
    set_quotes set_clock set_requests_log set_scrape_errors set_authors set_jobs rollback];
    auto.
  - now apply commit_rivals_unique.
  - now apply unique_hashes_insert.
  - now apply replay_unique.
Qed.

Lemma unique_rows (qs : list Quote.t) (h : string) :
  unique_hashes qs ->
  (length (List.filter (fun q => String.eqb (Quote.hash q) h) qs) <= 1)%nat.
Proof.
  unfold unique_hashes. induction qs as [|q qs IH]; intros Hnd; cbn [List.filter map];
    [cbn; lia|].
  cbn [map] in Hnd. apply NoDup_cons in Hnd. destruct Hnd as [Hnot Hnd].
  destruct (String.eqb_spec (Quote.hash q) h) as [E|E]; [|apply IH, Hnd].
  cbn [length].
  assert (Hnone : List.filter (fun q0 => String.eqb (Quote.hash q0) h) qs = []).
  { destruct (List.filter _ qs) as [|q' l] eqn:Ef; [reflexivity|]. exfalso.
    assert (Hin : In q' (List.filter (fun q0 => String.eqb (Quote.hash q0) h) qs))
      by (rewrite Ef; now left).
    apply filter_In in Hin. destruct Hin as [Hin Hq'].
    apply String.eqb_eq in Hq'. apply Hnot. apply list_elem_of_In.
    rewrite E, <- Hq'. now apply in_map. }
  rewrite Hnone. cbn. lia.
Qed.

Section Quiet.

Variable w : World.
Hypothesis Hq : quiet w.

Let Hw : faultless w := proj1 Hq.

Lemma quiet_quotes_arrive (st : Store) : quotes (arrive w st) = quotes st.
Proof. apply quotes_arrive_quiet, Hq. Qed.

Lemma save_candidate_quiet (site : ScrapeSite.t) (text : string)
    (author_name : option string) (f : Frame) (st : Store) :
  let h := compute_quote_hash (Some text) author_name in
  wp (save_candidate w site text author_name)
    (fun r f' st' =>
       r = Ok tt /\ errors f' = errors f /\
       ((hash_exists h (quotes st) = true /\ quotes st' = quotes st
         /\ saved f' = saved f)
        \/ (hash_exists h (quotes st) = false
            /\ (exists author,
                   quotes st' = quotes st ++ [crawled_quote site f text author author_name])
            /\ saved f' = saved f + 1))) f st.
Proof.
  intros h.
  set (P := fun (r : result unit) (f' : Frame) (st' : Store) =>
       r = Ok tt /\ errors f' = errors f /\
       ((hash_exists h (quotes st) = true /\ quotes st' = quotes st
         /\ saved f' = saved f)
        \/ (hash_exists h (quotes st) = false
            /\ (exists author,
                   quotes st' = quotes st ++ [crawled_quote site f text author author_name])
            /\ saved f' = saved f + 1))).
  unfold save_candidate. apply wp_atomic.
  apply (wp_mono _ P).
  { intros [[]|e] f' st' H; [exact H|]. destruct H as [H _]. discriminate. }
  assert (Hins : forall author (st1 : Store),
             quotes st1 = quotes st ->
             wp (found <- Quote_exists w h ;;
                 if negb found
                 then f0 <- locals ;;
                      _ <- Quote_create w text author site (next_url f0) h
                             (Some (ScrapeJob.pk (job f0))) ;;
                      assign (fun f1 => set_saved (saved f1 + 1) f1)
                 else ret tt) P f st1).
  { intros author st1 E1. wp_step. unfold Quote_exists.
    apply (statement_never_raises w Hw). cbn [fst snd].
    rewrite quiet_quotes_arrive, E1.
    destruct (hash_exists h (quotes st)) eqn:Hex; cbn [negb]; repeat wp_step.
    - unfold P. rewrite quiet_quotes_arrive. repeat split. left. repeat split.
      exact E1.
    - unfold Quote_create, Quote_save. cbn [Quote.hash].
      unfold h at 1. rewrite cqh_truthy. cbn [negb]. wp_step. unfold Quote_insert.
      apply (statement_never_raises w Hw). cbn [Quote.hash].
      rewrite !quiet_quotes_arrive, E1. fold h. rewrite Hex. cbn [fst snd].
      repeat wp_step. unfold P. repeat split. right. repeat split.
      exists author. cbn [quotes set_quotes]. reflexivity. }
  wp_step.
  apply (wp_mono _ (fun r f' st' =>
           exists author, r = Ok author /\ f' = f /\ quotes st' = quotes st)).
  { intros r f' st' (author & -> & -> & E1). apply Hins, E1. }
  destruct (truthy_opt author_name).
  - wp_step. unfold Author_get_or_create. wp_step.
    apply (statement_never_raises w Hw). cbn [fst snd].
    destruct (List.find _ _) as [a|].
    + do 2 wp_step. eexists. repeat split. apply quiet_quotes_arrive.
    + wp_step. apply (statement_never_raises w Hw). cbn [fst snd]. do 2 wp_step.
      eexists. repeat split. cbn [quotes set_authors]. now rewrite !quiet_quotes_arrive.
  - wp_step. eexists. repeat split.
Qed.

Lemma hash_exists_last (qs : list Quote.t) (q : Quote.t) :
  hash_exists (Quote.hash q) (qs ++ [q]) = true.
Proof.
  rewrite hash_exists_app. cbn [hash_exists existsb]. rewrite String.eqb_refl.
  now rewrite orb_true_r.
Qed.

Lemma guarded_quiet (site : ScrapeSite.t) (text : string) (author_name : option string)
    (rest : list (string * option string)) (f : Frame) (st : Store) :
  exists f1 st1,
    store_all w site ((text, author_name) :: rest) (f, st) = store_all w site rest (f1, st1)
    /\ errors f1 = errors f
    /\ hashes_stay st st1
    /\ hash_exists (key_of (text, author_name)) (quotes st1) = true
    /\ (hash_exists (key_of (text, author_name)) (quotes st) = true ->
        quotes st1 = quotes st /\ saved f1 = saved f).
Proof.
  pose proof (save_candidate_quiet site text author_name f st) as H.
  cbv zeta in H. unfold wp in H. destruct H as (Hok & Herr & Hcase).
  exists (locals_after (save_candidate w site text author_name) f st),
         (store_after (save_candidate w site text author_name) f st).
  split.
  { cbn [store_all]. unfold bind at 1. now rewrite (try_ok_run _ _ f st tt Hok). }
  split; [exact Herr|]. unfold key_of, hashes_stay. cbn [fst snd].
  destruct Hcase as [(Hex & Eq & Es) | (Hex & (author & Eq) & Es)].
  - rewrite Eq. repeat split; try assumption; auto.
  - rewrite Eq. split; [|split].
    + intros h Hh. rewrite hash_exists_app, Hh. reflexivity.
    + apply (hash_exists_last (quotes st) (crawled_quote site f text author author_name)).
    + intros Hex'. congruence.
Qed.

Lemma hashes_stay_trans a b c : hashes_stay a b -> hashes_stay b c -> hashes_stay a c.
Proof. intros H1 H2 h Hh. apply H2, H1, Hh. Qed.

Lemma covered_stay cs st st' : hashes_stay st st' -> covered cs (quotes st) -> covered cs (quotes st').
Proof.
  intros Hs Hc. unfold covered in *. eapply List.Forall_impl; [|exact Hc].
  intros c Hc'. apply Hs, Hc'.
Qed.

Lemma store_all_quiet (site : ScrapeSite.t) (cs : list (string * option string)) :
  forall f st,
    hashes_stay st (store_after (store_all w site cs) f st)
    /\ covered cs (quotes (store_after (store_all w site cs) f st))
    /\ errors (locals_after (store_all w site cs) f st) = errors f
    /\ (covered cs (quotes st) ->
        quotes (store_after (store_all w site cs) f st) = quotes st
        /\ saved (locals_after (store_all w site cs) f st) = saved f).
Proof.
  induction cs as [|[text a] cs IH]; intros f st.
  { unfold store_after, locals_after. cbn [store_all ret fst snd].
    repeat split; try constructor. intros h Hh; exact Hh. }
  destruct (guarded_quiet site text a cs f st) as (f1 & st1 & E & He & Hs & Hk & Hno).
  unfold store_after, locals_after. rewrite E.
  destruct (IH f1 st1) as (Hs' & Hc' & He' & Hno').
  unfold store_after, locals_after in Hs', Hc', He', Hno'.
  split; [eapply hashes_stay_trans; eassumption|].
  split; [apply List.Forall_cons; [apply Hs', Hk | exact Hc']|].
  split; [congruence|].
  intros Hcov. inversion Hcov as [|c cs' Hhead Htail]; subst.
  destruct (Hno Hhead) as [Eq Es].
  destruct Hno' as [Eq' Es']; [now rewrite Eq|].
  split; congruence.
Qed.

Lemma page_state_quiet (site : ScrapeSite.t) (url html : string) (f : Frame)
    (st : Store) (row : ScrapeJob.t) :
  jobs st !! ScrapeJob.pk (job f) = Some row ->
  let soup := BeautifulSoup w html in
  let cs := extract site (author_nodes_of site soup) 0 (quote_nodes_of site soup) in
  let f' := fst (page_state w site url html f st) in
  let st' := snd (page_state w site url html f st) in
  hashes_stay st st'
  /\ covered cs (quotes st')
  /\ (covered cs (quotes st) -> saved f = 0 ->
      quotes st' = quotes st
      /\ exists row', jobs st' !! ScrapeJob.pk (job f) = Some row'
                      /\ ScrapeJob.quotes_saved row' = ScrapeJob.quotes_saved row).
Proof.
  intros Hrow soup cs. unfold page_state. cbv zeta. fold soup.
  set (f1 := set_pages_scraped _ _). set (st1 := set_requests_log _ _).
  set (c := candidates w site _ 0 _).
  destruct (candidates_still w site (author_nodes_of site soup)
              (quote_nodes_of site soup) 0 f1 st1) as [(J & _) (Hjob & _)].
  fold c in J, Hjob.
  assert (Ec : c = store_all w site cs) by apply candidates_extract.
  destruct (store_all_quiet site cs f1 st1) as (Hs & Hc & _ & Hno).
  rewrite <- Ec in Hs, Hc, Hno.
  set (f2 := locals_after c f1 st1) in *. set (st2 := store_after c f1 st1) in *.
  assert (Hrow2 : jobs st2 !! ScrapeJob.pk (job f2) = Some row).
  { rewrite J, Hjob. exact Hrow. }
  assert (E3 : store_after (increment_counters w (fetched f2) (saved f2) (errors f2))
                 (job f2) st2
               = set_jobs (<[ScrapeJob.pk (job f2)
                             := bump (fetched f2) (saved f2) (errors f2) row]> (jobs st2))
                   (arrive w (arrive w st2))).
  { unfold store_after. now rewrite (increment_counters_ok w Hw _ _ _ _ _ row Hrow2). }
  rewrite E3. unfold hashes_stay in *.
  cbn [fst snd quotes set_jobs jobs]. rewrite !quiet_quotes_arrive.
  change (quotes st1) with (quotes st) in Hs, Hno.
  split; [exact Hs|]. split; [exact Hc|].
  intros Hcov H0. destruct (Hno Hcov) as [Eq Es].
  split; [exact Eq|]. rewrite Hjob. change (job f1) with (job f).
  rewrite lookup_insert_eq. eexists. split; [reflexivity|].
  unfold bump. cbn. rewrite Es. change (saved f1) with (saved f). lia.
Qed.

Lemma covered_app cs cs' qs : covered (cs ++ cs') qs <-> covered cs qs /\ covered cs' qs.
Proof. unfold covered. apply Forall_app. Qed.

Lemma hashes_stay_refl st : hashes_stay st st.
Proof. intros h Hh. exact Hh. Qed.

Lemma page_loop_quiet (site : ScrapeSite.t) :
  forall n f st row,
    jobs st !! ScrapeJob.pk (job f) = Some row ->
    let loop := page_loop_with same_page_guard w site n in
    hashes_stay st (store_after loop f st)
    /\ covered (crawl_candidates w site n (next_url f)) (quotes (store_after loop f st))
    /\ (covered (crawl_candidates w site n (next_url f)) (quotes st) -> saved f = 0 ->
        quotes (store_after loop f st) = quotes st
        /\ saved (locals_after loop f st) = 0
        /\ exists row', jobs (store_after loop f st) !! ScrapeJob.pk (job f) = Some row'
                        /\ ScrapeJob.quotes_saved row' = ScrapeJob.quotes_saved row).
Proof.
  induction n as [|n IH]; intros f st row Hrow loop; subst loop.
  { unfold store_after, locals_after. cbn [page_loop_with crawl_candidates ret fst snd].
    split; [apply hashes_stay_refl|]. split; [constructor|]. eauto. }
  unfold store_after, locals_after. cbn [crawl_candidates].
  destruct (truthy_opt (next_url f)) eqn:E.
  2:{ rewrite (page_loop_stop w same_page_guard site n f st E). cbn [fst snd].
      split; [apply hashes_stay_refl|]. split; [constructor|]. eauto. }
  destruct (requests_get w (PyStr.or_empty (next_url f))) as [html|e] eqn:Hget.
  - rewrite (page_loop_step w Hw same_page_guard same_page_guard_noop site n f st html
               E Hget (ex_intro _ row Hrow)).
    pose proof (page_state_quiet site (PyStr.or_empty (next_url f)) html f st row Hrow)
      as Hq1.
    pose proof (page_state_facts w Hw site (PyStr.or_empty (next_url f)) html f st row
                  Hrow) as Hf1.
    destruct (page_state w site (PyStr.or_empty (next_url f)) html f st) as [f' st'].
    cbn [fst snd] in Hq1, Hf1. cbv zeta in Hq1.
    destruct Hq1 as (Hs & Hc & Hno).
    destruct Hf1 as (Hj & Hn & (_ & Hsaved & _) & _ & [row1 Hrow1] & _).
    rewrite <- Hj in Hrow1.
    destruct (IH f' st' row1 Hrow1) as (Hs' & Hc' & Hno').
    unfold store_after, locals_after in Hs', Hc', Hno'. rewrite Hn in Hc', Hno'.
    split; [eapply hashes_stay_trans; eassumption|].
    split; [apply covered_app; split; [eapply covered_stay; eassumption | exact Hc']|].
    intros Hcov H0. apply covered_app in Hcov. destruct Hcov as [Hcov1 Hcov2].
    destruct (Hno Hcov1 H0) as (Eq & row1' & Hrow1' & Esaved).
    rewrite <- Hj, Hrow1 in Hrow1'. inversion Hrow1'; subst row1'.
    destruct Hno' as (Eq' & Es' & row2 & Hrow2 & Esaved2);
      [now rewrite Eq | exact Hsaved |].
    rewrite Hj in Hrow2.
    split; [congruence|]. split; [exact Es'|].
    exists row2. split; [exact Hrow2 | congruence].
  - rewrite (page_loop_fail w Hw same_page_guard site n f st e E Hget).
    unfold failed_state, hashes_stay.
    cbn [fst snd quotes set_scrape_errors jobs saved set_errors job].
    rewrite quiet_quotes_arrive. cbn [quotes set_requests_log set_clock].
    split; [auto|]. split; [constructor|].
    intros _ H0. split; [reflexivity|]. split; [exact H0|]. eauto.
Qed.

Lemma scrape_site_quiet (job_id : string) (row : ScrapeJob.t) (st : Store) :
  jobs st !! job_id = Some row ->
  covered (run_candidates w row) (quotes (store_after (scrape_site w job_id) tt st))
  /\ (covered (run_candidates w row) (quotes st) ->
      quotes (store_after (scrape_site w job_id) tt st) = quotes st
      /\ exists row', jobs (store_after (scrape_site w job_id) tt st) !! job_id = Some row'
                      /\ ScrapeJob.quotes_saved row' = ScrapeJob.quotes_saved row).
Proof.
  intros Hrow. unfold store_after at 1 2 3, scrape_site.
  rewrite (scrape_site_run w Hw same_page_guard same_page_guard_noop job_id row st Hrow).
  cbn [snd].
  set (s0 := run_start w job_id row st).
  set (row0 := ScrapeJob.copy_fields ["status"; "started_at"; "updated_at"]%string
                 (running (clock st) (ScrapeJob.set_pk job_id row)) row).
  assert (Hrow0 : jobs (snd s0) !! ScrapeJob.pk (job (fst s0)) = Some row0).
  { cbn [s0 run_start fst snd job set_next_url init_frame jobs set_jobs].
    change (ScrapeJob.pk (running _ _)) with job_id. apply lookup_insert_eq. }
  assert (Hpk : ScrapeJob.pk (job (fst s0)) = job_id) by reflexivity.
  assert (Hq0 : quotes (snd s0) = quotes st).
  { cbn [s0 run_start snd quotes set_jobs]. now rewrite !quiet_quotes_arrive. }
  destruct (page_loop_quiet (ScrapeJob.site row)
              (ScrapeSite.max_pages (ScrapeJob.site row)) (fst s0) (snd s0) row0 Hrow0)
    as (_ & Hc & Hno).
  change (crawl_candidates w (ScrapeJob.site row)
            (ScrapeSite.max_pages (ScrapeJob.site row)) (next_url (fst s0)))
    with (run_candidates w row) in Hc, Hno.
  destruct (page_loop_faultless w Hw same_page_guard same_page_guard_noop
              (ScrapeJob.site row) (ScrapeSite.max_pages (ScrapeJob.site row))
              (fst s0) (snd s0) (ex_intro _ row0 Hrow0))
    as (_ & Hj & _ & [rowL HrowL] & _).
  set (loop := page_loop_with same_page_guard w (ScrapeJob.site row)
                 (ScrapeSite.max_pages (ScrapeJob.site row))) in *.
  set (fL := locals_after loop (fst s0) (snd s0)) in *.
  set (stL := store_after loop (fst s0) (snd s0)) in *.
  assert (HrowL' : jobs stL !! ScrapeJob.pk (job fL) = Some rowL) by now rewrite Hj.
  destruct (run_finish_facts w Hw fL stL rowL HrowL') as (_ & _ & Hjobs & _ & _ & _ & Hqf).
  rewrite Hqf, !quiet_quotes_arrive, Hjobs.
  split; [exact Hc|].
  intros Hcov. rewrite Hq0 in Hno.
  destruct (Hno Hcov eq_refl) as (Eq & Es & row' & Hrow' & Esaved).
  split; [congruence|].
  rewrite Hj, Hpk, lookup_insert_eq. eexists. split; [reflexivity|].
  rewrite HrowL in Hrow'. inversion Hrow'; subst row'.
  unfold bump. cbn. rewrite Es, Esaved. subst row0. rewrite copy_fields_running. cbn. lia.
Qed.

End Quiet.

Lemma rows_of_covered (text : string) (author_name : option string) (qs : list Quote.t) :
  hash_exists (compute_quote_hash (Some text) author_name) qs = true ->
  (1 <= length (rows_of (Some text) author_name qs))%nat.
Proof.
  unfold hash_exists, rows_of. intros H. apply existsb_exists in H.
  destruct H as (q & Hin & Hq).
  assert (Hin' : In q (List.filter
                         (fun q0 => String.eqb (Quote.hash q0)
                                      (compute_quote_hash (Some text) author_name)) qs))
    by (apply filter_In; split; assumption).
  destruct (List.filter _ qs); [destruct Hin' | cbn; lia].
Qed.

(** C2. Running the job a second time over the same pages, with no database
    fault and no other writer: the quote table after the second run is the
    table after the first run (so its row count is unchanged), the second
    run adds 0 to quotes_saved, at most one row is stored under the key of
    any (text, author) pair, and exactly one under the key of each candidate
    the run meets. *)
Theorem rerun_is_idempotent (w : World) (job_id : string) (row : ScrapeJob.t)
    (st : Store) :
  quiet w ->
  jobs st !! job_id = Some row ->
  unique_hashes (quotes st) ->
  let st1 := store_after (scrape_site w job_id) tt st in
  let st2 := store_after (scrape_site w job_id) tt st1 in
  quotes st2 = quotes st1
  /\ length (quotes st2) = length (quotes st1)
  /\ (exists row1 row2,
         jobs st1 !! job_id = Some row1 /\ jobs st2 !! job_id = Some row2
         /\ ScrapeJob.quotes_saved row2 - ScrapeJob.quotes_saved row1 = 0)
  /\ (forall text author_name,
         (length (rows_of text author_name (quotes st2)) <= 1)%nat)
  /\ (forall c, In c (run_candidates w row) ->
                length (rows_of (Some (fst c)) (snd c) (quotes st2)) = 1%nat).
Proof.
  intros Hq Hrow Hu st1 st2.
  destruct (scrape_site_quiet w Hq job_id row st Hrow) as [Hcov1 _]. fold st1 in Hcov1.
  destruct (scrape_site_respected w _ (sites_kept_respected w) job_id st job_id row Hrow)
    as (row1 & Hrow1 & Hsite). fold st1 in Hrow1.
  assert (Hcands : run_candidates w row1 = run_candidates w row)
    by (unfold run_candidates; now rewrite Hsite).
  destruct (scrape_site_quiet w Hq job_id row1 st1 Hrow1) as [_ Hno]. fold st2 in Hno.
  rewrite Hcands in Hno. destruct (Hno Hcov1) as (Eq & row2 & Hrow2 & Esaved).
  assert (Hu2 : unique_hashes (quotes st2)).
  { apply (scrape_site_respected w _ (keeps_unique_respected w) job_id st1).
    apply (scrape_site_respected w _ (keeps_unique_respected w) job_id st). exact Hu. }
  split; [exact Eq|]. split; [now rewrite Eq|].
  split; [exists row1, row2; repeat split; [assumption..|lia]|].
  split.
  - intros text author_name. apply unique_rows, Hu2.
  - intros [text a] Hin. cbn [fst snd].
    pose proof (unique_rows (quotes st2) (compute_quote_hash (Some text) a) Hu2) as Hle.
    assert (Hge : (1 <= length (rows_of (Some text) a (quotes st2)))%nat).
    { apply rows_of_covered. rewrite Eq. unfold covered in Hcov1.
      rewrite List.Forall_forall in Hcov1. apply (Hcov1 (text, a) Hin). }
    unfold rows_of in *. lia.
Qed.

Lemma rerun_is_idempotent_witness :
  quotes (store_after (scrape_site Scenario.world Scenario.job_id) tt
            (store_after (scrape_site Scenario.world Scenario.job_id) tt Scenario.store0))
  = quotes (store_after (scrape_site Scenario.world Scenario.job_id) tt Scenario.store0).
Proof.
  destruct (rerun_is_idempotent Scenario.world Scenario.job_id
              (ScrapeJob.fresh Scenario.job_id Scenario.site) Scenario.store0
              (conj (fun n => eq_refl) (fun n => eq_refl)) eq_refl NoDup_nil_2)
    as (H & _).
  exact H.
Defined.

(** ** The handler of fatal exceptions *)

(** What lines 151-157 do when their own statements succeed: the "fatal"
    error row is recorded with the exception's message, the job row gets the
    page's fetched and saved deltas and exactly one error, its status is
    FAILED, and the exception is raised again. *)
Lemma fatal_handler_run {A} (w : World) (fatal : exn) (f : Frame) (st : Store)
    (row : ScrapeJob.t) :
  faults w (tick st) = None ->
  faults w (S (tick st)) = None ->
  faults w (S (S (tick st))) = None ->
  faults w (S (S (S (tick st)))) = None ->
  jobs st !! ScrapeJob.pk (job f) = Some row ->
  outcome (@scrape_site_except A w fatal) f st = Raise fatal
  /\ scrape_errors (store_after (@scrape_site_except A w fatal) f st)
     = scrape_errors st
       ++ [ScrapeError.mk (ScrapeJob.pk (job f)) None "fatal" (exn_str fatal) None]
  /\ jobs (store_after (@scrape_site_except A w fatal) f st) !! ScrapeJob.pk (job f)
     = Some (ScrapeJob.set_finished_at (Some (clock st))
               (ScrapeJob.set_status ScrapeJob.FAILED
                  (bump (fetched f) (saved f) 1 row))).
Proof.
  intros F0 F1 F2 F3 Hrow.
  assert (E : exists fF,
             @scrape_site_except A w fatal (f, st)
             = (Raise fatal,
                (fF, set_jobs
                       (<[ScrapeJob.pk (job f)
                          := ScrapeJob.set_finished_at (Some (clock st))
                               (ScrapeJob.set_status ScrapeJob.FAILED
                                  (bump (fetched f) (saved f) 1 row))]> (jobs st))
                       (arrive w (arrive w (arrive w
                          (set_scrape_errors
                             (scrape_errors st
                              ++ [ScrapeError.mk (ScrapeJob.pk (job f)) None "fatal"
                                    (exn_str fatal) None])
                             (arrive w st)))))))).
  { unfold scrape_site_except. rewrite bind_locals.
    unfold bind at 1. rewrite ScrapeError_create_run, F0.
    unfold bind at 1. rewrite method_run. unfold outcome, locals_after, store_after.
    rewrite increment_counters_run.
    cbn [tick arrive set_tick set_quotes set_scrape_errors jobs].
    rewrite F1, Hrow, F2. cbn [fst snd].
    unfold bind at 1. rewrite method_run. unfold outcome, locals_after, store_after.
    rewrite mark_finished_run, ScrapeJob_save_run.
    cbn [tick arrive set_tick set_quotes set_scrape_errors set_jobs jobs].
    rewrite F3.
    change (ScrapeJob.pk (finished _ false (job f))) with (ScrapeJob.pk (job f)).
    rewrite lookup_insert_eq. cbn [fst snd raise].
    rewrite insert_insert_eq, copy_fields_finished.
    eexists. reflexivity. }
  destruct E as [fF E]. unfold outcome, store_after. rewrite E. cbn [fst snd].
  split; [reflexivity|]. split; [reflexivity|].
  cbn [jobs set_jobs]. apply lookup_insert_eq.
Qed.

(** C3 at a failing input. On page 2 the insert of the quote is refused
    and so is the insert of the "parse" error row that reports it: the
    [try] body ends with that exception while the page's deltas are
    (fetched, saved, errors) = (1, 0, 1) and the job row holds (1, 2, 0).
    The handler records the "fatal" row, ends the job FAILED and raises the
    exception again, but the job row ends with errors_count = 1: the error
    delta of the page is not flushed, only the one error of the handler. *)
Theorem fatal_flush_drops_error_delta :
  let w := Scenario.overlong_world in
  let s0 := run_start w Scenario.job_id
              (ScrapeJob.fresh Scenario.job_id Scenario.site) Scenario.store0 in
  let body := scrape_site_try same_page_guard w Scenario.site Scenario.job_id in
  outcome body (fst s0) (snd s0) = Raise Scenario.data_error
  /\ Scenario.deltas (locals_after body (fst s0) (snd s0)) = (1, 0, 1)
  /\ Scenario.summary (store_after body (fst s0) (snd s0))
     = Some (ScrapeJob.RUNNING, 1, 2, 0)
  /\ fst (Scenario.run w Scenario.store0) = Raise Scenario.data_error
  /\ Scenario.summary (snd (Scenario.run w Scenario.store0))
     = Some (ScrapeJob.FAILED, 2, 2, 1)
  /\ map ScrapeError.error_type (scrape_errors (snd (Scenario.run w Scenario.store0)))
     = ["fatal"%string].
Proof. vm_compute. repeat split. Qed.

(** ** The separator of the hashed payload *)

Module BarFacts.
Import PyStr PyStrSpec PyStrFacts.

Lemma chars_append (a b : string) : chars (a +:+ b) = chars a ++ chars b.
Proof.
  unfold chars. induction a as [|c a IH]; [reflexivity|].
  change (String c a +:+ b)%string with (String c (a +:+ b)).
  cbn [list_ascii_of_string app]. now rewrite IH.
Qed.

Lemma str_app (a b : list ascii) : str (a ++ b) = (str a +:+ str b)%string.
Proof.
  rewrite <- (chars_str a) at 1. rewrite <- (chars_str b) at 1.
  now rewrite <- chars_append, str_chars.
Qed.

Lemma chars_inj (a b : string) : chars a = chars b -> a = b.
Proof. intros E. rewrite <- (str_chars a), <- (str_chars b). now f_equal. Qed.

Lemma join_snoc (sep : list ascii) (ws : list (list ascii)) (wl y : list ascii) :
  join_l sep (ws ++ [wl]) ++ y = join_l sep (ws ++ [wl ++ y]).
Proof.
  induction ws as [|w ws IH]; [reflexivity|].
  destruct ws as [|w' ws].
  - cbn [app join_l]. now rewrite <- !app_assoc.
  - change (join_l sep ((w :: w' :: ws) ++ [wl]))
      with (w ++ sep ++ join_l sep ((w' :: ws) ++ [wl])).
    change (join_l sep ((w :: w' :: ws) ++ [wl ++ y]))
      with (w ++ sep ++ join_l sep ((w' :: ws) ++ [wl ++ y])).
    rewrite <- IH. now rewrite <- !app_assoc.
Qed.

Lemma word_app (a b : list ascii) :
  word a -> Forall (fun c => isspace c = false) b -> word (a ++ b).
Proof.
  intros [Hne Ha] Hb. split.
  - destruct a; [congruence | discriminate].
  - apply Forall_app. now split.
Qed.

Lemma word_lower (w : list ascii) : word w -> word (lower_l w).
Proof.
  intros [Hne Hw]. split.
  - destruct w; [congruence | discriminate].
  - unfold lower_l. apply List.Forall_map.
    eapply List.Forall_impl; [|exact Hw].
    intros c Hc. now rewrite isspace_lower_char.
Qed.

(** The normal form of a sequence of words joined by single spaces. *)
Lemma norm_join (ws : list (list ascii)) :
  Forall word ws -> norm_l (join_l space ws) = lower_l (join_l space ws).
Proof.
  intros H. unfold norm_l. now rewrite (strip_join ws H), (split_join ws H).
Qed.

(** A word appended to a text in normal form extends its last word. *)
Lemma norm_append_word (l y : list ascii) :
  norm_l l = l -> word y -> norm_l (l ++ y) = l ++ lower_l y.
Proof.
  intros Hl Hy.
  set (W := map lower_l (split_l (strip_l l))).
  assert (HW : Forall word W).
  { unfold W. apply List.Forall_map.
    eapply List.Forall_impl; [|apply split_words]. apply word_lower. }
  assert (E : l = join_l space W).
  { rewrite <- Hl at 1. unfold norm_l, W. now rewrite join_lower. }
  assert (Hlow : lower_l l = l).
  { rewrite <- Hl. unfold norm_l. apply lower_l_idem. }
  clearbody W.
  destruct W as [|w0 W0];
    [|destruct (@exists_last _ (w0 :: W0)) as (A & wl & EW); [discriminate|]].
  - rewrite E. cbn [join_l app].
    apply (norm_join [y]). constructor; [exact Hy | constructor].
  - assert (HW' : Forall word (A ++ [wl ++ y])).
    { rewrite EW in HW. apply Forall_app in HW. destruct HW as [HA Hwl].
      apply Forall_app. split; [exact HA|].
      inversion Hwl; subst. constructor; [|constructor].
      apply word_app; [assumption | apply Hy]. }
    rewrite E at 1. rewrite EW, join_snoc, (norm_join _ HW'), <- join_snoc.
    rewrite <- EW, <- E, lower_l_app, Hlow. reflexivity.
Qed.

End BarFacts.

Lemma norm_author_unspaced (s : string) :
  unspaced s -> norm_author (Some s) = PyStr.lower s.
Proof.
  intros H. unfold norm_author, PyStr.lower, PyStr.strip. cbn [PyStr.or_empty].
  rewrite PyStrFacts.chars_str. f_equal. f_equal.
  unfold unspaced in H. destruct (PyStr.chars s) as [|c l] eqn:E; [reflexivity|].
  assert (Hw : PyStrSpec.word (c :: l)) by (split; [discriminate | exact H]).
  unfold PyStr.strip_l.
  rewrite <- (app_nil_r (c :: l)) at 1.
  rewrite (PyStrFacts.lstrip_word _ [] Hw), app_nil_r.
  apply (PyStrFacts.rstrip_word [] _ Hw).
Qed.

(** X1. The payload joins text and author with a bar and escapes nothing:
    a bar can move from the text to the author without changing the hash. *)
Theorem separator_collision (t x a : string) :
  norm_text (Some t) = t -> unspaced x -> unspaced a ->
  compute_quote_hash (Some (t +:+ "|" +:+ x)) (Some a)
  = compute_quote_hash (Some t) (Some (x +:+ "|" +:+ a)).
Proof.
  intros Ht Hx Ha. unfold compute_quote_hash. do 3 f_equal.
  assert (Hbar : unspaced ("|" +:+ x)).
  { unfold unspaced. rewrite BarFacts.chars_append.
    apply Forall_app. split; [repeat constructor | exact Hx]. }
  assert (Hxa : unspaced (x +:+ "|" +:+ a)).
  { unfold unspaced. rewrite !BarFacts.chars_append.
    apply Forall_app. split; [exact Hx|].
    apply Forall_app. split; [repeat constructor | exact Ha]. }
  rewrite (norm_author_unspaced _ Ha), (norm_author_unspaced _ Hxa), Ht.
  rewrite norm_text_chars. cbn [PyStr.or_empty].
  rewrite BarFacts.chars_append.
  rewrite BarFacts.norm_append_word.
  - apply BarFacts.chars_inj. unfold PyStr.lower.
    repeat (rewrite BarFacts.chars_append || rewrite PyStrFacts.chars_str).
    rewrite !PyStrFacts.lower_l_app. now rewrite <- !app_assoc.
  - rewrite norm_text_chars in Ht. cbn [PyStr.or_empty] in Ht.
    rewrite <- Ht at 2. now rewrite PyStrFacts.chars_str.
  - split; [|exact Hbar]. rewrite BarFacts.chars_append. discriminate.
Qed.

Lemma separator_collision_witness :
  compute_quote_hash (Some "it is our choices|rowling"%string) (Some "j.k."%string)
  = compute_quote_hash (Some "it is our choices"%string) (Some "rowling|j.k."%string).
Proof.
  apply (separator_collision "it is our choices" "rowling" "j.k.");
    [vm_compute; reflexivity | repeat constructor ..].
Defined.

(** ** models.py: the methods of a job, on the stored row *)

Lemma bump_bump (a b c a' b' c' : Z) (row : ScrapeJob.t) :
  bump a' b' c' (bump a b c row) = bump (a + a') (b + b') (c + c') row.
Proof.
  destruct row. cbv -[Z.add]. f_equal; lia.
Qed.

Lemma bump_zero (row : ScrapeJob.t) : bump 0 0 0 row = row.
Proof. destruct row. cbv -[Z.add]. f_equal; lia. Qed.

(** X2. [increment_counters] is all or nothing, and never touches the
    instance it is called on: when it returns, the stored row holds the sums
    and is otherwise as before, and no other row has changed; when it raises,
    the job table is as before; without a stored row it raises. *)
Theorem increment_counters_all_or_nothing (w : World) (fetched saved errors : Z)
    (self : ScrapeJob.t) (st : Store) :
  let m := increment_counters w fetched saved errors in
  let st' := store_after m self st in
  locals_after m self st = self
  /\ (outcome m self st = Ok tt ->
      exists row row',
        jobs st !! ScrapeJob.pk self = Some row
        /\ jobs st' !! ScrapeJob.pk self = Some row'
        /\ ScrapeJob.quotes_fetched row' = ScrapeJob.quotes_fetched row + fetched
        /\ ScrapeJob.quotes_saved row' = ScrapeJob.quotes_saved row + saved
        /\ ScrapeJob.errors_count row' = ScrapeJob.errors_count row + errors
        /\ ScrapeJob.status row' = ScrapeJob.status row
        /\ ScrapeJob.started_at row' = ScrapeJob.started_at row
        /\ ScrapeJob.finished_at row' = ScrapeJob.finished_at row
        /\ forall k, k <> ScrapeJob.pk self -> jobs st' !! k = jobs st !! k)
  /\ (forall e, outcome m self st = Raise e -> jobs st' = jobs st)
  /\ (jobs st !! ScrapeJob.pk self = None -> exists e, outcome m self st = Raise e).
Proof.
  cbv zeta. split; [apply increment_counters_locals|].
  unfold outcome, store_after. rewrite increment_counters_run.
  destruct (faults w (tick st)) as [e0|].
  { cbn [fst snd]. split; [discriminate|]. split; [reflexivity | eauto]. }
  destruct (jobs st !! ScrapeJob.pk self) as [row|] eqn:Hrow.
  2:{ cbn [fst snd]. split; [discriminate|]. split; [reflexivity | eauto]. }
  destruct (faults w (S (tick st))) as [e1|]; cbn [fst snd].
  { split; [discriminate|]. split; [reflexivity | discriminate]. }
  split; [|split; [discriminate | discriminate]].
  intros _. exists row, (bump fetched saved errors row).
  cbn [jobs set_jobs]. rewrite lookup_insert_eq.
  repeat split; try reflexivity.
  intros k Hk. now rewrite lookup_insert_ne by congruence.
Qed.

(** X3. Without database faults the increments add up: two calls in a row
    leave the job table as one call with the sums of the deltas does, and a
    call with no delta leaves it as it is. *)
Theorem increment_counters_additive (w : World) (a b c a' b' c' : Z)
    (self : ScrapeJob.t) (st : Store) :
  faultless w -> is_Some (jobs st !! ScrapeJob.pk self) ->
  jobs (store_after (increment_counters w a b c ;; increment_counters w a' b' c')
          self st)
  = jobs (store_after (increment_counters w (a + a') (b + b') (c + c')) self st)
  /\ jobs (store_after (increment_counters w 0 0 0) self st) = jobs st.
Proof.
  intros Hw [row Hrow]. unfold store_after. split.
  - rewrite (bind_value _ _ _ _ _ (increment_counters_ok w Hw a b c self st row Hrow)).
    rewrite (increment_counters_ok w Hw a' b' c' self _ (bump a b c row))
      by (cbn [jobs set_jobs]; apply lookup_insert_eq).
    rewrite (increment_counters_ok w Hw _ _ _ self st row Hrow).
    cbn [fst snd jobs set_jobs arrive set_tick set_quotes].
    now rewrite insert_insert_eq, bump_bump.
  - rewrite (increment_counters_ok w Hw 0 0 0 self st row Hrow).
    cbn [fst snd jobs set_jobs]. rewrite bump_zero. now apply insert_id.
Qed.

Lemma increment_counters_additive_witness :
  jobs (store_after (increment_counters Scenario.world 1 2 0 ;;
                     increment_counters Scenario.world 1 1 1)
          (ScrapeJob.fresh Scenario.job_id Scenario.site) Scenario.store0)
  = jobs (store_after (increment_counters Scenario.world (1 + 1) (2 + 1) (0 + 1))
            (ScrapeJob.fresh Scenario.job_id Scenario.site) Scenario.store0)
  /\ jobs (store_after (increment_counters Scenario.world 0 0 0)
             (ScrapeJob.fresh Scenario.job_id Scenario.site) Scenario.store0)
     = jobs Scenario.store0.
Proof.
  apply (increment_counters_additive Scenario.world 1 2 0 1 1 1
           (ScrapeJob.fresh Scenario.job_id Scenario.site) Scenario.store0).
  - intros n. reflexivity.
  - exists (ScrapeJob.fresh Scenario.job_id Scenario.site). reflexivity.
Defined.

(** X4. [mark_running] and [mark_finished] write their own columns only:
    whatever the instance holds and however the call ends, the stored row
    keeps its counters; [mark_running] keeps the finish time of an earlier
    run, [mark_finished] keeps the start time. *)
Theorem status_methods_keep_counters (w : World) (self row : ScrapeJob.t) (st : Store) :
  jobs st !! ScrapeJob.pk self = Some row ->
  (exists row',
      jobs (store_after (mark_running w) self st) !! ScrapeJob.pk self = Some row'
      /\ ScrapeJob.quotes_fetched row' = ScrapeJob.quotes_fetched row
      /\ ScrapeJob.quotes_saved row' = ScrapeJob.quotes_saved row
      /\ ScrapeJob.errors_count row' = ScrapeJob.errors_count row
      /\ ScrapeJob.finished_at row' = ScrapeJob.finished_at row)
  /\ (forall success, exists row',
        jobs (store_after (mark_finished w success) self st) !! ScrapeJob.pk self
        = Some row'
        /\ ScrapeJob.quotes_fetched row' = ScrapeJob.quotes_fetched row
        /\ ScrapeJob.quotes_saved row' = ScrapeJob.quotes_saved row
        /\ ScrapeJob.errors_count row' = ScrapeJob.errors_count row
        /\ ScrapeJob.started_at row' = ScrapeJob.started_at row).
Proof.
  intros Hrow. split; [|intros success]; unfold store_after.
  - rewrite mark_running_run, ScrapeJob_save_run.
    change (ScrapeJob.pk (running (clock st) self)) with (ScrapeJob.pk self).
    destruct (faults w (tick st)); [exists row; cbn [snd]; now repeat split|].
    rewrite Hrow. cbn [snd jobs set_jobs]. rewrite lookup_insert_eq.
    eexists. split; [reflexivity|]. rewrite copy_fields_running. now repeat split.
  - rewrite mark_finished_run, ScrapeJob_save_run.
    change (ScrapeJob.pk (finished (clock st) success self)) with (ScrapeJob.pk self).
    destruct (faults w (tick st)); [exists row; cbn [snd]; now repeat split|].
    rewrite Hrow. cbn [snd jobs set_jobs]. rewrite lookup_insert_eq.
    eexists. split; [reflexivity|]. rewrite copy_fields_finished. now repeat split.
Qed.

Lemma status_methods_keep_counters_witness :
  exists row',
    jobs (store_after (mark_finished Scenario.world true)
            (bump 7 7 7 (ScrapeJob.fresh Scenario.job_id Scenario.site))
            Scenario.store0)
    !! Scenario.job_id = Some row'
    /\ ScrapeJob.quotes_saved row' = 0.
Proof.
  destruct (status_methods_keep_counters Scenario.world
              (bump 7 7 7 (ScrapeJob.fresh Scenario.job_id Scenario.site))
              (ScrapeJob.fresh Scenario.job_id Scenario.site) Scenario.store0)
    as [_ H]; [reflexivity|].
  destruct (H true) as (row' & H1 & _ & H2 & _).
  exists row'. split; [exact H1 | exact H2].
Defined.

(** ** tasks.py: what happens before the [try] *)

Lemma bind_raised {L A B} (m : Py L A) (k : A -> Py L B) (s s' : L * Store) (e : exn) :
  m s = (Raise e, s') -> bind m k s = (Raise e, s').
Proof. intros E. unfold bind. now rewrite E. Qed.

(** X5. The job is loaded and marked as running before the [try] block is
    entered.  When the job row does not exist, or when the save of
    [mark_running] fails, [scrape_site] raises without recording anything: no
    error row is written, no page is requested, and the job rows are as they
    were (a job that exists keeps the status it had). *)
Theorem failure_before_try_is_unrecorded (w : World) (job_id : string) (st : Store) :
  let st' := store_after (scrape_site w job_id) tt st in
  (jobs st !! job_id = None ->
   (exists e, outcome (scrape_site w job_id) tt st = Raise e
              /\ (faults w (tick st) = None -> exn_class e = "DoesNotExist"%string))
   /\ scrape_errors st' = scrape_errors st
   /\ requests_log st' = requests_log st
   /\ jobs st' = jobs st)
  /\ (forall e, is_Some (jobs st !! job_id) ->
      faults w (tick st) = None -> faults w (S (tick st)) = Some e ->
      outcome (scrape_site w job_id) tt st = Raise e
      /\ scrape_errors st' = scrape_errors st
      /\ requests_log st' = requests_log st
      /\ jobs st' = jobs st).
Proof.
  cbv zeta. unfold outcome, store_after, scrape_site, scrape_site_with. split.
  - intros Hnone.
    destruct (faults w (tick st)) as [e|] eqn:F0.
    + rewrite (bind_raised _ _ _ (tt, arrive w st) e)
        by now rewrite ScrapeJob_get_run, F0.
      cbn [fst snd]. split; [exists e; split; [reflexivity | discriminate]|].
      now repeat split.
    + rewrite (bind_raised _ _ _ (tt, arrive w st)
                 (Exn "DoesNotExist" "ScrapeJob matching query does not exist."))
        by now rewrite ScrapeJob_get_run, F0, Hnone.
      cbn [fst snd]. split; [eexists; split; [reflexivity | reflexivity]|].
      now repeat split.
  - intros e [row Hrow] F0 F1.
    rewrite (bind_value _ _ _ (tt, arrive w st) (ScrapeJob.set_pk job_id row))
      by now rewrite ScrapeJob_get_run, F0, Hrow.
    unfold call. cbn [fst snd].
    rewrite (bind_raised _ _ _
               (init_frame (running (clock st) (ScrapeJob.set_pk job_id row)),
                arrive w (arrive w st)) e).
    + cbn [fst snd]. now repeat split.
    + rewrite method_run. unfold outcome, locals_after, store_after.
      rewrite mark_running_run, ScrapeJob_save_run.
      change (tick (arrive w st)) with (S (tick st)). rewrite F1. reflexivity.
Qed.

Lemma failure_before_try_is_unrecorded_witness :
  outcome (scrape_site Cases.down_world Scenario.job_id) tt Scenario.store0
  = Raise Cases.down
  /\ scrape_errors (store_after (scrape_site Cases.down_world Scenario.job_id) tt
                      Scenario.store0) = []
  /\ Scenario.summary (store_after (scrape_site Cases.down_world Scenario.job_id) tt
                         Scenario.store0)
     = Some (ScrapeJob.PENDING, 0, 0, 0).
Proof.
  destruct (failure_before_try_is_unrecorded Cases.down_world Scenario.job_id
              Scenario.store0) as [_ H].
  destruct (H Cases.down) as (H1 & H2 & _ & H4);
    [eexists; reflexivity | reflexivity | reflexivity |].
  split; [exact H1|]. split; [exact H2|].
  unfold Scenario.summary. rewrite H4. reflexivity.
Defined.

(** ** tasks.py: the requests of a run, in any world *)

Lemma wp_kept_bind {L A B} (R : Store -> Store -> Prop) (P : L -> Prop) (st0 : Store)
    (m : Py L A) (k : A -> Py L B) (Q : result B -> L -> Store -> Prop) (l : L)
    (st : Store) :
  kept R P st0 m -> R st0 st -> P l ->
  (forall a l' st', R st0 st' -> P l' -> wp (k a) Q l' st') ->
  (forall e l' st', R st0 st' -> P l' -> Q (Raise e) l' st') ->
  wp (bind m k) Q l st.
Proof.
  intros Hm HR HP Hk He. apply wp_bind.
  eapply wp_mono; [|apply (Hm l st HR HP)].
  intros [a|e] l' st' [H1 H2]; cbn beta; auto.
Qed.

Ltac pace :=
  try solve [ intros; unfold same_pace, rollback in *; cbn in *; intuition congruence
            | exact Logic.I
            | apply nonneg_saved | apply nonneg_errors | apply nonneg_fetched
            | intros ? H; exact H
            | unfold nonneg; cbn; intros; lia ].

Lemma visits_length (w : World) (site : ScrapeSite.t) (n : nat) :
  forall next, (length (visits w site n next) <= n)%nat.
Proof.
  induction n as [|n IH]; intros next; cbn [visits]; [cbn; lia|].
  destruct (truthy_opt next); [|cbn; lia].
  destruct (requests_get w _); cbn [length]; [|lia].
  specialize (IH (discover_next_url w site (BeautifulSoup w a))). lia.
Qed.

Section Pace.

Variable w : World.

Lemma pace_candidates st0 site author_nodes quote_nodes i :
  kept same_pace nonneg st0 (candidates w site author_nodes i quote_nodes).
Proof. apply (kept_candidates w same_pace (fun _ => True)); pace. Qed.

Lemma pace_flush st0 (f : Frame) :
  nonneg f ->
  kept same_pace nonneg st0
    (method job set_job (increment_counters w (fetched f) (saved f) (errors f))).
Proof. intros Hf. apply (kept_flush w same_pace); pace. Qed.

Lemma pace_error st0 j url error_type message :
  kept same_pace nonneg st0 (ScrapeError_create w j url error_type message).
Proof. apply (kept_ScrapeError_create w same_pace (fun _ => True)); pace. Qed.

Lemma pace_assign st0 (g : Frame -> Frame) :
  (forall f, nonneg f -> nonneg (g f)) -> kept same_pace nonneg st0 (assign g).
Proof. apply kept_assign. Qed.

Lemma pace_mark_finished st0 success :
  kept same_pace nonneg st0 (method job set_job (mark_finished w success)).
Proof.
  apply kept_method; [intros ? ? H; exact H|].
  apply (kept_mark_finished w same_pace); pace.
Qed.

Lemma pace_mark_running st0 :
  kept same_pace nonneg st0 (method job set_job (mark_running w)).
Proof.
  apply kept_method; [intros ? ? H; exact H|].
  apply (kept_mark_running w same_pace); pace.
Qed.

Lemma pace_except {A} st0 fatal :
  kept same_pace nonneg st0 (@scrape_site_except A w fatal).
Proof. apply (kept_scrape_site_except w same_pace (fun _ => True)); pace. Qed.

Lemma same_pace_refl st : same_pace st st.
Proof. split; reflexivity. Qed.

Lemma page_loop_on_chain (site : ScrapeSite.t) (n : nat) :
  forall f st, nonneg f ->
    wp (page_loop_with same_page_guard w site n) (on_chain w site n f st) f st.
Proof.
  induction n as [|n IH]; intros f st Hf.
  { red. cbn [page_loop_with visits outcome locals_after store_after ret fst snd].
    split; [exact Hf|]. exists []. unfold paced. cbn [length].
    rewrite app_nil_r. repeat split; [reflexivity | lia]. }
  cbn [page_loop_with]. apply wp_bind. red.
  cbn [outcome locals_after store_after locals fst snd].
  destruct (truthy_opt (next_url f)) eqn:Hnext; cbn [negb].
  2:{ red. cbn [outcome locals_after store_after ret fst snd].
      split; [exact Hf|]. exists []. unfold paced. cbn [visits length].
      rewrite Hnext, app_nil_r. repeat split; [reflexivity | lia]. }
  set (url := PyStr.or_empty (next_url f)).
  set (st1 := set_requests_log (requests_log st ++ [url])
                (set_clock (clock st + Z.of_nat (ScrapeSite.rate_limit_ms site)) st)).
  (* one request made: every way out from here has requested [url] only *)
  assert (Hstop : forall r f' st',
             same_pace st1 st' -> nonneg f' ->
             (r = Ok tt -> exists e, requests_get w url = Raise e) ->
             on_chain w site (S n) f st r f' st').
  { intros r f' st' [Hlog Hclock] Hf' Hr. split; [exact Hf'|]. exists [url].
    cbn [visits]. rewrite Hnext. fold url. split; [|split].
    - eexists. reflexivity.
    - split; [rewrite Hlog; reflexivity|]. rewrite Hclock. cbn. lia.
    - intros E. destruct (Hr E) as [e He]. now rewrite He. }
  apply wp_bind. unfold sleep_ms. red.
  cbn [outcome locals_after store_after update fst snd].
  apply wp_bind. apply wp_try. apply wp_bind.
  unfold wp at 1, outcome, locals_after, store_after. rewrite fetch_page_run.
  fold url. fold st1. cbn [fst snd].
  destruct (requests_get w url) as [html|e] eqn:Hget.
  2:{ (* lines 70-74 *)
      apply (wp_kept_bind same_pace nonneg st1);
        [apply pace_assign, nonneg_errors | apply same_pace_refl | exact Hf | |].
      2:{ intros e' f' st' H1 H2. apply Hstop; [assumption .. | discriminate]. }
      intros _ f1 st2 H1 Hf1. apply wp_bind. red.
      cbn [outcome locals_after store_after locals fst snd].
      apply (wp_kept_bind same_pace nonneg st1);
        [apply pace_error | exact H1 | exact Hf1 | |].
      2:{ intros e' f' st' H2 H3. apply Hstop; [assumption .. | discriminate]. }
      intros _ f2 st3 H2 Hf2. red.
      cbn [outcome locals_after store_after ret fst snd].
      apply Hstop; [assumption .. | eauto]. }
  red. cbn [outcome locals_after store_after ret fst snd].
  set (soup := BeautifulSoup w html).
  assert (Habort : forall e f' st',
             same_pace st1 st' -> nonneg f' -> on_chain w site (S n) f st (Raise e) f' st').
  { intros e f' st' H1 H2. apply Hstop; [assumption .. | discriminate]. }
  apply (wp_kept_bind same_pace nonneg st1);
    [apply pace_assign, nonneg_fetched | apply same_pace_refl | exact Hf | | exact Habort].
  intros _ f1 st2 H1 Hf1.
  apply (wp_kept_bind same_pace nonneg st1);
    [apply pace_assign; pace | exact H1 | exact Hf1 | | exact Habort].
  clear f1 st2 H1 Hf1. intros _ f1 st2 H1 Hf1.
  apply (wp_kept_bind same_pace nonneg st1);
    [apply pace_candidates | exact H1 | exact Hf1 | | exact Habort].
  clear f1 st2 H1 Hf1. intros _ f1 st2 H1 Hf1.
  apply wp_bind. red. cbn [outcome locals_after store_after locals fst snd].
  apply (wp_kept_bind same_pace nonneg st1);
    [apply pace_flush, Hf1 | exact H1 | exact Hf1 | | exact Habort].
  clear st2 H1. intros _ f2 st2 H1 Hf2.
  apply (wp_kept_bind same_pace nonneg st1);
    [apply pace_assign; pace | exact H1 | exact Hf2 | | exact Habort].
  clear f1 Hf1 f2 st2 H1 Hf2. intros _ f1 st2 H1 Hf1.
  apply (wp_kept_bind same_pace nonneg st1);
    [apply pace_assign; pace | exact H1 | exact Hf1 | | exact Habort].
  clear f1 st2 H1 Hf1. intros _ f1 st2 H1 Hf1.
  apply (wp_kept_bind same_pace nonneg st1);
    [apply pace_assign; pace | exact H1 | exact Hf1 | | exact Habort].
  clear f1 st2 H1 Hf1. intros _ f1 st2 H1 Hf1.
  (* line 125 on: the next URL *)
  apply wp_bind. red. cbn [outcome locals_after store_after assign fst snd].
  set (f2 := set_next_url (discover_next_url w site soup) f1).
  assert (Hf2 : nonneg f2) by exact Hf1.
  apply wp_bind. unfold wp at 1, outcome, locals_after, store_after.
  rewrite same_page_guard_noop. cbn [fst snd].
  eapply wp_mono; [|apply (IH f2 st2 Hf2)].
  intros r f' st' (Hf' & l & Hpre & (Hlog & Hclock) & Hr).
  destruct H1 as [Hlog1 Hclock1].
  split; [exact Hf'|]. exists (url :: l).
  cbn [visits]. rewrite Hnext. fold url. rewrite Hget. fold soup.
  change (next_url f2) with (discover_next_url w site soup) in Hpre, Hr.
  split; [|split].
  - destruct Hpre as [k Hk]. exists k. rewrite Hk. reflexivity.
  - split.
    + rewrite Hlog, Hlog1. unfold st1. cbn [requests_log set_requests_log].
      now rewrite <- app_assoc.
    + rewrite Hclock, Hclock1. unfold st1. cbn [clock set_clock set_requests_log length].
      lia.
  - intros E. now rewrite (Hr E).
Qed.

Lemma except_raises {A} (fatal : exn) (f : Frame) (st : Store) :
  exists e, outcome (@scrape_site_except A w fatal) f st = Raise e.
Proof.
  unfold outcome, scrape_site_except. rewrite bind_locals. unfold bind.
  destruct (ScrapeError_create w _ _ _ _ _) as [[[]|e] s1]; [|eauto].
  destruct (method job set_job (increment_counters w _ _ _) s1) as [[[]|e] s2]; [|eauto].
  destruct (method job set_job (mark_finished w false) s2) as [[[]|e] s3]; eauto.
Qed.

Lemma paced_same (site : ScrapeSite.t) (st st1 st2 : Store) (l : list string) :
  paced site st st1 l -> same_pace st1 st2 -> paced site st st2 l.
Proof. intros [H1 H2] [H3 H4]. split; congruence. Qed.

End Pace.

(** X6. In every world, whatever fails, the pages a run requests are the
    first pages of the pagination chain of its site, in order and never more
    than [max_pages] of them; before each request the run sleeps for the
    site's [rate_limit_ms]; and a run that returns has requested the whole
    chain.  A run whose job row is missing requests nothing. *)
Theorem requests_stay_on_chain (w : World) (job_id : string) (st : Store) :
  let st' := store_after (scrape_site w job_id) tt st in
  match jobs st !! job_id with
  | Some row =>
      exists l,
        l `prefix_of` run_visits w row
        /\ paced (ScrapeJob.site row) st st' l
        /\ (length l <= ScrapeSite.max_pages (ScrapeJob.site row))%nat
        /\ (forall a, outcome (scrape_site w job_id) tt st = Ok a ->
            l = run_visits w row)
  | None => same_pace st st'
  end.
Proof.
  cbv zeta.
  set (Q := fun (r : result (string * string)) (st' : Store) =>
              match jobs st !! job_id with
              | Some row =>
                  exists l,
                    l `prefix_of` run_visits w row
                    /\ paced (ScrapeJob.site row) st st' l
                    /\ (forall a, r = Ok a -> l = run_visits w row)
              | None => same_pace st st'
              end).
  assert (H : wp (scrape_site w job_id) (fun r _ st' => Q r st') tt st).
  2:{ unfold wp, Q in H. destruct (jobs st !! job_id) as [row|]; [|exact H].
      destruct H as (l & Hpre & Hp & Hr). exists l. repeat split; try assumption.
      - apply Hp.
      - apply Hp.
      - destruct Hpre as [k Hk]. pose proof (visits_length w (ScrapeJob.site row)
          (ScrapeSite.max_pages (ScrapeJob.site row))
          (Some (start_url w (ScrapeJob.site row)))) as Hlen.
        fold (run_visits w row) in Hlen. rewrite Hk, length_app in Hlen. lia. }
  assert (Hnil : forall e st', same_pace st st' -> Q (Raise e) st').
  { intros e st' Hs. unfold Q. destruct (jobs st !! job_id) as [row|]; [|exact Hs].
    exists []. split; [apply prefix_nil|]. split; [|discriminate].
    destruct Hs as [H1 H2]. split; [now rewrite app_nil_r|]. cbn. lia. }
  unfold scrape_site, scrape_site_with. apply wp_bind.
  unfold wp at 1, outcome, locals_after, store_after. rewrite ScrapeJob_get_run.
  destruct (faults w (tick st)); cbn [fst snd];
    [apply Hnil; split; reflexivity|].
  destruct (jobs st !! job_id) as [row|] eqn:Hrow; cbn [fst snd];
    [|apply Hnil; split; reflexivity].
  change (ScrapeJob.site (ScrapeJob.set_pk job_id row)) with (ScrapeJob.site row).
  set (site := ScrapeJob.site row).
  assert (HQ : forall r st' l,
             l `prefix_of` run_visits w row -> paced site st st' l ->
             (forall a, r = Ok a -> l = run_visits w row) -> Q r st').
  { intros r st' l H1 H2 H3. unfold Q. eauto. }
  apply wp_call.
  apply (wp_kept_bind same_pace nonneg (arrive w st));
    [apply pace_mark_running | split; reflexivity | unfold nonneg; cbn; lia | |].
  2:{ intros e f' st' Hs _. apply Hnil. exact Hs. }
  intros _ f1 st1 Hs1 Hf1.
  assert (Hexcept : forall e f' st' l,
             l `prefix_of` run_visits w row -> paced site st st' l -> nonneg f' ->
             wp (scrape_site_except w e)
                (fun (r : result (string * string)) (_ : Frame) st'' => Q r st'') f' st').
  { intros e f' st' l Hpre Hp Hf'.
    pose proof (pace_except w (A:=string * string) st' e f' st'
                  (same_pace_refl st') Hf') as Hk.
    destruct (except_raises w (A:=string * string) e f' st') as [e' He'].
    unfold wp in *. rewrite He'. destruct Hk as [Hk _].
    apply (HQ _ _ l Hpre); [eapply paced_same; eassumption | discriminate]. }
  apply wp_try. unfold scrape_site_try. fold (start_url w site).
  apply wp_bind. red. cbn [outcome locals_after store_after assign fst snd].
  set (f0 := set_next_url (Some (start_url w site)) f1).
  apply wp_bind.
  eapply wp_mono; [|apply (page_loop_on_chain w site (ScrapeSite.max_pages site) f0 st1 Hf1)].
  intros r f2 st2 (Hf2 & l & Hpre & Hp & Hr).
  assert (Hp' : paced site st st2 l).
  { destruct Hp as [H1 H2]. destruct Hs1 as [H3 H4].
    split; [rewrite H1, H3; reflexivity | rewrite H2, H4; reflexivity]. }
  change (visits w site (ScrapeSite.max_pages site) (next_url f0))
    with (run_visits w row) in Hpre, Hr.
  destruct r as [[]|e]; [|apply (Hexcept e f2 st2 l); assumption].
  specialize (Hr eq_refl).
  apply wp_bind. red. cbn [outcome locals_after store_after locals fst snd].
  apply (wp_kept_bind same_pace nonneg st2);
    [apply pace_flush, Hf2 | apply same_pace_refl | exact Hf2 | |].
  2:{ intros e f' st' Hs Hf'. apply (Hexcept e f' st' l); [assumption | | assumption].
      eapply paced_same; eassumption. }
  intros _ f3 st3 Hs3 Hf3.
  apply (wp_kept_bind same_pace nonneg st2);
    [apply pace_mark_finished | exact Hs3 | exact Hf3 | |].
  2:{ intros e f' st' Hs Hf'. apply (Hexcept e f' st' l); [assumption | | assumption].
      eapply paced_same; eassumption. }
  intros _ f4 st4 Hs4 Hf4. red.
  cbn [outcome locals_after store_after ret fst snd].
  apply (HQ _ _ l Hpre); [eapply paced_same; eassumption | intros _ _; exact Hr].
Qed.

(** ** tasks.py: what the counters count *)

Lemma save_candidate_same_errors (w : World) (site : ScrapeSite.t) (text : string)
    (author_name : option string) (f : Frame) (st : Store) :
  scrape_errors (store_after (save_candidate w site text author_name) f st)
  = scrape_errors st
  /\ errors (locals_after (save_candidate w site text author_name) f st) = errors f.
Proof.
  refine (kept_save_candidate w same_errors _ _ _ _ _ _
            (fun f' => errors f' = errors f) st site text author_name _ f st _ _);
    try solve [intros; unfold same_errors, rollback in *; cbn in *; congruence].
Qed.

Section Counting.

Variable w : World.
Hypothesis Hw : faultless w.

(** Each error the per-candidate handler counts has its row. *)
Lemma store_all_errors (site : ScrapeSite.t) (cs : list (string * option string)) :
  forall f st,
    exists es,
      scrape_errors (store_after (store_all w site cs) f st) = scrape_errors st ++ es
      /\ errors (locals_after (store_all w site cs) f st)
         = errors f + Z.of_nat (length es).
Proof.
  induction cs as [|[text a] cs IH]; intros f st.
  { exists []. cbn. rewrite app_nil_r. split; [reflexivity | lia]. }
  cbn [store_all]. unfold store_after, locals_after.
  rewrite (bind_ok_run _ _ f st tt (guarded_ok w Hw site text a f st)).
  set (g := try_except _ _).
  destruct (IH (locals_after g f st) (store_after g f st)) as (es & H1 & H2).
  unfold store_after, locals_after in H1, H2 |- *.
  assert (Hg : exists e1,
             scrape_errors (store_after g f st) = scrape_errors st ++ e1
             /\ errors (locals_after g f st) = errors f + Z.of_nat (length e1)).
  { destruct (save_candidate_same_errors w site text a f st) as [S1 S2].
    unfold g, store_after, locals_after, try_except in *.
    destruct (save_candidate w site text a (f, st)) as [[[]|e] [f1 st1]];
      cbn [fst snd] in *.
    - exists []. rewrite app_nil_r. split; [assumption | cbn; lia].
    - rewrite bind_assign, bind_locals, ScrapeError_create_run, Hw.
      cbn [fst snd scrape_errors set_scrape_errors errors set_errors arrive
           set_tick set_quotes]. rewrite S1, S2.
      eexists [_]. split; [reflexivity | cbn; lia]. }
  destruct Hg as (e1 & G1 & G2). unfold store_after, locals_after in G1, G2.
  exists (e1 ++ es). rewrite H1, H2, G1, G2, length_app, <- app_assoc.
  split; [reflexivity | lia].
Qed.

Lemma page_state_counts (site : ScrapeSite.t) (url html : string) (f : Frame)
    (st : Store) (row : ScrapeJob.t) :
  jobs st !! ScrapeJob.pk (job f) = Some row ->
  let f' := fst (page_state w site url html f st) in
  let st' := snd (page_state w site url html f st) in
  exists row' es,
    jobs st' !! ScrapeJob.pk (job f) = Some row'
    /\ scrape_errors st' = scrape_errors st ++ es
    /\ fetched f' = 0 /\ errors f' = 0
    /\ ScrapeJob.quotes_fetched row' = ScrapeJob.quotes_fetched row + fetched f + 1
    /\ ScrapeJob.errors_count row'
       = ScrapeJob.errors_count row + errors f + Z.of_nat (length es).
Proof.
  intros Hrow. unfold page_state. cbv zeta.
  set (f1 := set_pages_scraped _ _). set (st1 := set_requests_log _ _).
  set (soup := BeautifulSoup w html).
  set (c := candidates w site _ 0 _).
  destruct (candidates_still w site (author_nodes_of site soup)
              (quote_nodes_of site soup) 0 f1 st1)
    as [(J & _) (Hjob & _ & _ & Hfetched)].
  fold c in J, Hjob, Hfetched.
  destruct (store_all_errors site
              (extract site (author_nodes_of site soup) 0 (quote_nodes_of site soup))
              f1 st1) as (es & Hes & Herr).
  rewrite <- candidates_extract in Hes, Herr. fold c in Hes, Herr.
  set (f2 := locals_after c f1 st1) in *. set (st2 := store_after c f1 st1) in *.
  assert (Hrow2 : jobs st2 !! ScrapeJob.pk (job f2) = Some row).
  { rewrite J, Hjob. exact Hrow. }
  unfold store_after at 1 2.
  rewrite (increment_counters_ok w Hw _ _ _ _ _ row Hrow2).
  cbn [fst snd jobs set_jobs scrape_errors arrive set_tick set_quotes fetched errors
       set_next_url set_errors set_saved set_fetched].
  rewrite Hjob. change (job f1) with (job f). rewrite lookup_insert_eq.
  exists (bump (fetched f2) (saved f2) (errors f2) row), es.
  split; [reflexivity|]. split; [exact Hes|].
  split; [reflexivity|]. split; [reflexivity|].
  cbn [bump ScrapeJob.quotes_fetched ScrapeJob.errors_count ScrapeJob.set_errors_count
       ScrapeJob.set_quotes_saved ScrapeJob.set_quotes_fetched].
  rewrite Hfetched, Herr. cbn [fetched errors f1 set_pages_scraped set_fetched].
  split; lia.
Qed.

(** Through the page loop, the stored counter and the pending delta add up
    to the number of pages fetched, and to the number of error rows. *)
Lemma page_loop_counts (site : ScrapeSite.t) :
  forall n f st row,
    jobs st !! ScrapeJob.pk (job f) = Some row ->
    let loop := page_loop_with same_page_guard w site n in
    exists rowL es,
      jobs (store_after loop f st) !! ScrapeJob.pk (job f) = Some rowL
      /\ scrape_errors (store_after loop f st) = scrape_errors st ++ es
      /\ ScrapeJob.quotes_fetched rowL + fetched (locals_after loop f st)
         = ScrapeJob.quotes_fetched row + fetched f
           + Z.of_nat (pages_fetched w site n (next_url f))
      /\ ScrapeJob.errors_count rowL + errors (locals_after loop f st)
         = ScrapeJob.errors_count row + errors f + Z.of_nat (length es).
Proof.
  induction n as [|n IH]; intros f st row Hrow; cbv zeta.
  { exists row, []. cbn [page_loop_with pages_fetched].
    unfold store_after, locals_after. cbn [ret fst snd length].
    rewrite app_nil_r. repeat split; [assumption | lia | lia]. }
  unfold store_after, locals_after. cbn [pages_fetched].
  destruct (truthy_opt (next_url f)) eqn:E.
  2:{ rewrite (page_loop_stop w same_page_guard site n f st E).
      exists row, []. cbn [fst snd length]. rewrite app_nil_r.
      repeat split; [assumption | lia | lia]. }
  destruct (requests_get w (PyStr.or_empty (next_url f))) as [html|e] eqn:Hget.
  - rewrite (page_loop_step w Hw same_page_guard same_page_guard_noop site n f st html
               E Hget (ex_intro _ row Hrow)).
    destruct (page_state_counts site (PyStr.or_empty (next_url f)) html f st row Hrow)
      as (row1 & es1 & Hrow1 & Hes1 & Hf0 & He0 & Hfetched & Herrors).
    destruct (page_state_facts w Hw site (PyStr.or_empty (next_url f)) html f st row Hrow)
      as (Hj & Hn & _).
    destruct (page_state w site (PyStr.or_empty (next_url f)) html f st) as [f1 st1].
    cbn [fst snd] in *. rewrite <- Hj in Hrow1.
    destruct (IH f1 st1 row1 Hrow1) as (rowL & es & H1 & H2 & H3 & H4).
    unfold store_after, locals_after in H1, H2, H3, H4.
    rewrite Hj in H1. rewrite Hn in H3.
    exists rowL, (es1 ++ es). rewrite H2, Hes1, length_app, <- app_assoc.
    repeat split; [assumption | lia | lia].
  - rewrite (page_loop_fail w Hw same_page_guard site n f st e E Hget).
    unfold failed_state.
    cbn [fst snd job set_errors errors fetched jobs scrape_errors set_scrape_errors
         arrive set_tick set_quotes set_requests_log set_clock].
    exists row. eexists [_]. repeat split; [assumption | lia | cbn; lia].
Qed.

End Counting.

(** X7. Without database faults, [quotes_fetched] counts pages, not quotes:
    a run adds to it the number of pages it fetched.  And [errors_count]
    counts the error rows: a run adds to it the number of rows it appended
    to the error table. *)
Theorem counters_count_pages_and_error_rows (w : World) (job_id : string)
    (row : ScrapeJob.t) (st : Store) :
  faultless w -> jobs st !! job_id = Some row ->
  let st' := store_after (scrape_site w job_id) tt st in
  exists row' es,
    jobs st' !! job_id = Some row'
    /\ scrape_errors st' = scrape_errors st ++ es
    /\ ScrapeJob.quotes_fetched row'
       = ScrapeJob.quotes_fetched row + Z.of_nat (run_pages w row)
    /\ ScrapeJob.errors_count row'
       = ScrapeJob.errors_count row + Z.of_nat (length es).
Proof.
  intros Hw Hrow. cbv zeta. unfold store_after, scrape_site.
  rewrite (scrape_site_run w Hw same_page_guard same_page_guard_noop job_id row st Hrow).
  cbn [snd].
  set (s0 := run_start w job_id row st).
  set (row0 := ScrapeJob.copy_fields ["status"; "started_at"; "updated_at"]%string
                 (running (clock st) (ScrapeJob.set_pk job_id row)) row).
  assert (Hrow0 : jobs (snd s0) !! ScrapeJob.pk (job (fst s0)) = Some row0).
  { cbn [s0 run_start fst snd job set_next_url init_frame jobs set_jobs].
    change (ScrapeJob.pk (running _ _)) with job_id. apply lookup_insert_eq. }
  destruct (page_loop_counts w Hw (ScrapeJob.site row)
              (ScrapeSite.max_pages (ScrapeJob.site row)) (fst s0) (snd s0) row0 Hrow0)
    as (rowL & es & HrowL & Hes & Hfetched & Herrors).
  destruct (page_loop_faultless w Hw same_page_guard same_page_guard_noop
              (ScrapeJob.site row) (ScrapeSite.max_pages (ScrapeJob.site row))
              (fst s0) (snd s0) (ex_intro _ row0 Hrow0)) as (_ & Hj & _).
  set (loop := page_loop_with same_page_guard w (ScrapeJob.site row) _) in *.
  rewrite <- Hj in HrowL.
  destruct (run_finish_facts w Hw _ _ rowL HrowL) as (_ & _ & Hjobs & _ & Herr & _).
  rewrite Hjobs, Herr, Hes, Hj.
  change (ScrapeJob.pk (job (fst s0))) with job_id. rewrite lookup_insert_eq.
  eexists. exists es. split; [reflexivity|]. split; [reflexivity|].
  cbn [bump ScrapeJob.quotes_fetched ScrapeJob.errors_count ScrapeJob.set_errors_count
       ScrapeJob.set_quotes_saved ScrapeJob.set_quotes_fetched ScrapeJob.set_status
       ScrapeJob.set_finished_at].
  change (fetched (fst s0)) with 0 in Hfetched.
  change (errors (fst s0)) with 0 in Herrors.
  change (next_url (fst s0)) with (Some (start_url w (ScrapeJob.site row))) in Hfetched.
  fold (run_pages w row) in Hfetched.
  change (ScrapeJob.quotes_fetched row0) with (ScrapeJob.quotes_fetched row) in Hfetched.
  change (ScrapeJob.errors_count row0) with (ScrapeJob.errors_count row) in Herrors.
  split; lia.
Qed.

Lemma counters_count_pages_and_error_rows_witness :
  exists row' es,
    jobs (store_after (scrape_site Scenario.world Scenario.job_id) tt Scenario.store0)
    !! Scenario.job_id = Some row'
    /\ scrape_errors (store_after (scrape_site Scenario.world Scenario.job_id) tt
                        Scenario.store0) = [] ++ es
    /\ ScrapeJob.quotes_fetched row' = 0 + 2
    /\ ScrapeJob.errors_count row' = 0 + Z.of_nat (length es).
Proof.
  apply (counters_count_pages_and_error_rows Scenario.world Scenario.job_id
           (ScrapeJob.fresh Scenario.job_id Scenario.site) Scenario.store0).
  - intros n. reflexivity.
  - reflexivity.
Defined.

Lemma save_candidate_same_job (w : World) (site : ScrapeSite.t) (text : string)
    (author_name : option string) (f : Frame) (st : Store) :
  job (locals_after (save_candidate w site text author_name) f st) = job f.
Proof.
  refine (proj2 (kept_save_candidate w (fun _ _ => True) _ _ _ _ _ _
                   (fun f' => job f' = job f) st site text author_name _ f st _ _));
    try solve [intros; first [exact Logic.I | reflexivity | assumption]].
Qed.

Section Saving.

Variable w : World.
Hypothesis Hq : quiet w.

(** Each candidate the loop counts as saved has its quote row. *)
Lemma store_all_saved (site : ScrapeSite.t) (cs : list (string * option string)) :
  forall f st,
    exists qs,
      quotes (store_after (store_all w site cs) f st) = quotes st ++ qs
      /\ saved (locals_after (store_all w site cs) f st)
         = saved f + Z.of_nat (length qs)
      /\ Forall (saved_by (ScrapeJob.pk (job f)) site) qs
      /\ job (locals_after (store_all w site cs) f st) = job f.
Proof.
  induction cs as [|[text a] cs IH]; intros f st.
  { exists []. cbn. rewrite app_nil_r. repeat split; [lia | constructor]. }
  cbn [store_all]. unfold store_after, locals_after.
  rewrite (bind_ok_run _ _ f st tt (guarded_ok w (proj1 Hq) site text a f st)).
  set (g := try_except _ _).
  assert (Hg : exists q1,
             quotes (store_after g f st) = quotes st ++ q1
             /\ saved (locals_after g f st) = saved f + Z.of_nat (length q1)
             /\ Forall (saved_by (ScrapeJob.pk (job f)) site) q1
             /\ job (locals_after g f st) = job f).
  { pose proof (save_candidate_quiet w Hq site text a f st) as H.
    pose proof (save_candidate_same_job w site text a f st) as Hj.
    cbv zeta in H. unfold wp, outcome, store_after, locals_after in H, Hj.
    unfold g, store_after, locals_after, try_except.
    destruct (save_candidate w site text a (f, st)) as [r [f1 st1]].
    cbn [fst snd] in *. destruct H as (-> & _ & H). cbn [fst snd].
    destruct H as [(_ & H1 & H2) | (_ & (author & H1) & H2)].
    - exists []. rewrite app_nil_r. repeat split; [assumption | cbn; lia | constructor
                                                   | assumption].
    - eexists [_]. repeat split; [exact H1 | cbn; lia | | assumption].
      constructor; [|constructor]. split; reflexivity. }
  destruct Hg as (q1 & G1 & G2 & G3 & G4).
  destruct (IH (locals_after g f st) (store_after g f st)) as (qs & H1 & H2 & H3 & H4).
  unfold store_after, locals_after in H1, H2, H3, H4, G1, G2, G4 |- *.
  exists (q1 ++ qs). rewrite H1, H2, H4, G1, G2, G4, length_app, <- app_assoc.
  repeat split; [lia|]. apply Forall_app. split; [exact G3|].
  rewrite G4 in H3. exact H3.
Qed.

Lemma page_state_saved (site : ScrapeSite.t) (url html : string) (f : Frame)
    (st : Store) (row : ScrapeJob.t) :
  jobs st !! ScrapeJob.pk (job f) = Some row ->
  let f' := fst (page_state w site url html f st) in
  let st' := snd (page_state w site url html f st) in
  exists row' qs,
    jobs st' !! ScrapeJob.pk (job f) = Some row'
    /\ quotes st' = quotes st ++ qs
    /\ saved f' = 0
    /\ ScrapeJob.quotes_saved row'
       = ScrapeJob.quotes_saved row + saved f + Z.of_nat (length qs)
    /\ Forall (saved_by (ScrapeJob.pk (job f)) site) qs.
Proof.
  intros Hrow. unfold page_state. cbv zeta.
  set (f1 := set_pages_scraped _ _). set (st1 := set_requests_log _ _).
  set (soup := BeautifulSoup w html).
  set (c := candidates w site _ 0 _).
  destruct (candidates_still w site (author_nodes_of site soup)
              (quote_nodes_of site soup) 0 f1 st1) as [(J & _) (Hjob & _)].
  fold c in J, Hjob.
  destruct (store_all_saved site
              (extract site (author_nodes_of site soup) 0 (quote_nodes_of site soup))
              f1 st1) as (qs & Hqs & Hsaved & Hby & _).
  rewrite <- candidates_extract in Hqs, Hsaved. fold c in Hqs, Hsaved.
  set (f2 := locals_after c f1 st1) in *. set (st2 := store_after c f1 st1) in *.
  assert (Hrow2 : jobs st2 !! ScrapeJob.pk (job f2) = Some row).
  { rewrite J, Hjob. exact Hrow. }
  unfold store_after at 1 2.
  rewrite (increment_counters_ok w (proj1 Hq) _ _ _ _ _ row Hrow2).
  cbn [fst snd jobs set_jobs quotes saved set_next_url set_errors set_saved set_fetched].
  rewrite !(quiet_quotes_arrive w Hq).
  rewrite Hjob. change (job f1) with (job f). rewrite lookup_insert_eq.
  exists (bump (fetched f2) (saved f2) (errors f2) row), qs.
  split; [reflexivity|]. split; [exact Hqs|]. split; [reflexivity|].
  split; [|exact Hby].
  cbn [bump ScrapeJob.quotes_saved ScrapeJob.set_errors_count
       ScrapeJob.set_quotes_saved ScrapeJob.set_quotes_fetched].
  rewrite Hsaved. cbn [saved f1 set_pages_scraped set_fetched]. lia.
Qed.

Lemma page_loop_saved (site : ScrapeSite.t) :
  forall n f st row,
    jobs st !! ScrapeJob.pk (job f) = Some row ->
    let loop := page_loop_with same_page_guard w site n in
    exists rowL qs,
      jobs (store_after loop f st) !! ScrapeJob.pk (job f) = Some rowL
      /\ quotes (store_after loop f st) = quotes st ++ qs
      /\ ScrapeJob.quotes_saved rowL + saved (locals_after loop f st)
         = ScrapeJob.quotes_saved row + saved f + Z.of_nat (length qs)
      /\ Forall (saved_by (ScrapeJob.pk (job f)) site) qs.
Proof.
  induction n as [|n IH]; intros f st row Hrow; cbv zeta.
  { exists row, []. cbn [page_loop_with].
    unfold store_after, locals_after. cbn [ret fst snd length].
    rewrite app_nil_r. repeat split; [assumption | lia | constructor]. }
  unfold store_after, locals_after.
  destruct (truthy_opt (next_url f)) eqn:E.
  2:{ rewrite (page_loop_stop w same_page_guard site n f st E).
      exists row, []. cbn [fst snd length]. rewrite app_nil_r.
      repeat split; [assumption | lia | constructor]. }
  destruct (requests_get w (PyStr.or_empty (next_url f))) as [html|e] eqn:Hget.
  - rewrite (page_loop_step w (proj1 Hq) same_page_guard same_page_guard_noop site n f st
               html E Hget (ex_intro _ row Hrow)).
    destruct (page_state_saved site (PyStr.or_empty (next_url f)) html f st row Hrow)
      as (row1 & qs1 & Hrow1 & Hqs1 & Hs0 & Hsaved & Hby1).
    destruct (page_state_facts w (proj1 Hq) site (PyStr.or_empty (next_url f)) html f st
                row Hrow) as (Hj & _).
    destruct (page_state w site (PyStr.or_empty (next_url f)) html f st) as [f1 st1].
    cbn [fst snd] in *. rewrite <- Hj in Hrow1.
    destruct (IH f1 st1 row1 Hrow1) as (rowL & qs & H1 & H2 & H3 & H4).
    unfold store_after, locals_after in H1, H2, H3.
    rewrite Hj in H1, H4.
    exists rowL, (qs1 ++ qs). rewrite H2, Hqs1, length_app, <- app_assoc.
    repeat split; [assumption | lia |]. apply Forall_app. now split.
  - rewrite (page_loop_fail w (proj1 Hq) same_page_guard site n f st e E Hget).
    unfold failed_state.
    cbn [fst snd job set_errors saved jobs quotes set_scrape_errors
         set_requests_log set_clock].
    rewrite (quiet_quotes_arrive w Hq).
    exists row, []. cbn [quotes set_requests_log set_clock length].
    rewrite app_nil_r. repeat split; [assumption | lia | constructor].
Qed.

End Saving.

(** X8. Without database faults and without other writers, [quotes_saved]
    counts the quote rows of the run: the run appends its rows to the quote
    table, each attributed to the job and to the job's site, and adds their
    number to [quotes_saved]. *)
Theorem quotes_saved_counts_new_rows (w : World) (job_id : string)
    (row : ScrapeJob.t) (st : Store) :
  quiet w -> jobs st !! job_id = Some row ->
  let st' := store_after (scrape_site w job_id) tt st in
  exists row' qs,
    jobs st' !! job_id = Some row'
    /\ quotes st' = quotes st ++ qs
    /\ ScrapeJob.quotes_saved row' = ScrapeJob.quotes_saved row + Z.of_nat (length qs)
    /\ Forall (saved_by job_id (ScrapeJob.site row)) qs.
Proof.
  intros Hq Hrow. cbv zeta. unfold store_after, scrape_site.
  rewrite (scrape_site_run w (proj1 Hq) same_page_guard same_page_guard_noop job_id row st
             Hrow).
  cbn [snd].
  set (s0 := run_start w job_id row st).
  set (row0 := ScrapeJob.copy_fields ["status"; "started_at"; "updated_at"]%string
                 (running (clock st) (ScrapeJob.set_pk job_id row)) row).
  assert (Hrow0 : jobs (snd s0) !! ScrapeJob.pk (job (fst s0)) = Some row0).
  { cbn [s0 run_start fst snd job set_next_url init_frame jobs set_jobs].
    change (ScrapeJob.pk (running _ _)) with job_id. apply lookup_insert_eq. }
  destruct (page_loop_saved w Hq (ScrapeJob.site row)
              (ScrapeSite.max_pages (ScrapeJob.site row)) (fst s0) (snd s0) row0 Hrow0)
    as (rowL & qs & HrowL & Hqs & Hsaved & Hby).
  destruct (page_loop_faultless w (proj1 Hq) same_page_guard same_page_guard_noop
              (ScrapeJob.site row) (ScrapeSite.max_pages (ScrapeJob.site row))
              (fst s0) (snd s0) (ex_intro _ row0 Hrow0)) as (_ & Hj & _).
  set (loop := page_loop_with same_page_guard w (ScrapeJob.site row) _) in *.
  rewrite <- Hj in HrowL.
  destruct (run_finish_facts w (proj1 Hq) _ _ rowL HrowL)
    as (_ & _ & Hjobs & _ & _ & _ & Hquotes).
  rewrite Hjobs, Hquotes, !(quiet_quotes_arrive w Hq), Hqs, Hj.
  change (ScrapeJob.pk (job (fst s0))) with job_id. rewrite lookup_insert_eq.
  change (quotes (snd s0)) with (quotes (arrive w (arrive w st))).
  rewrite !(quiet_quotes_arrive w Hq).
  eexists. exists qs. split; [reflexivity|]. split; [reflexivity|].
  split; [|exact Hby].
  cbn [bump ScrapeJob.quotes_saved ScrapeJob.set_errors_count
       ScrapeJob.set_quotes_saved ScrapeJob.set_quotes_fetched ScrapeJob.set_status
       ScrapeJob.set_finished_at].
  change (saved (fst s0)) with 0 in Hsaved.
  change (ScrapeJob.quotes_saved row0) with (ScrapeJob.quotes_saved row) in Hsaved.
  lia.
Qed.

Lemma quotes_saved_counts_new_rows_witness :
  exists row' qs,
    jobs (store_after (scrape_site Scenario.world Scenario.job_id) tt Scenario.store0)
    !! Scenario.job_id = Some row'
    /\ quotes (store_after (scrape_site Scenario.world Scenario.job_id) tt
                 Scenario.store0) = [] ++ qs
    /\ ScrapeJob.quotes_saved row' = 0 + Z.of_nat (length qs)
    /\ Forall (saved_by Scenario.job_id Scenario.site) qs.
Proof.
  apply (quotes_saved_counts_new_rows Scenario.world Scenario.job_id
           (ScrapeJob.fresh Scenario.job_id Scenario.site) Scenario.store0).
  - split; intros n; reflexivity.
  - reflexivity.
Defined.

(** ** serializers.py: QuoteSerializer.create *)

Lemma hash_exists_commit_rivals (h : string) (rs qs : list Quote.t) :
  hash_exists h qs = true -> hash_exists h (commit_rivals rs qs) = true.
Proof.
  unfold commit_rivals. revert qs.
  induction rs as [|r rs IH]; intros qs H; cbn [fold_left]; [exact H|].
  apply IH. unfold commit_rival.
  destruct (hash_exists (Quote.hash r) qs); [exact H|].
  rewrite hash_exists_app, H. reflexivity.
Qed.

Lemma hash_exists_arrive (w : World) (h : string) (st : Store) :
  hash_exists h (quotes st) = true -> hash_exists h (quotes (arrive w st)) = true.
Proof. intros H. cbn [arrive quotes set_tick set_quotes]. now apply hash_exists_commit_rivals. Qed.

Lemma find_author_name (name : string) (l : list Author.t) (a : Author.t) :
  List.find (fun a => String.eqb (Author.name a) name) l = Some a -> Author.name a = name.
Proof. intros H. apply find_some in H. now apply String.eqb_eq. Qed.

(** X11. [QuoteSerializer.create] looks for no stored hash before it saves:
    without database faults, posting a quote whose text and author name
    normalise to those of a stored quote ends with the IntegrityError of the
    unique index, where the crawl loop skips such a quote silently. *)
Theorem posted_duplicate_is_refused (w : World) (validated_data : QuoteData)
    (st : Store) :
  faultless w ->
  ScrapeSite.active (vd_site validated_data) = true ->
  hash_exists
    (compute_quote_hash (Some (vd_text validated_data))
       (Some (posted_author_name validated_data))) (quotes st) = true ->
  exists message,
    outcome (QuoteSerializer_create w validated_data) tt st
    = Raise (Exn "IntegrityError" message).
Proof.
  intros Hw Hactive Hdup.
  set (Q := fun (r : result Quote.t) (_ : unit) (_ : Store) =>
              exists message, r = Raise (Exn "IntegrityError" message)).
  assert (Hsave : forall (author : option Author.t) st1,
             author_name_of
               (Quote.mk (vd_text validated_data) author
                  (ScrapeSite.pk (vd_site validated_data))
                  (vd_source_url validated_data) EmptyString
                  (vd_saved_by_job validated_data))
             = posted_author_name validated_data ->
             hash_exists
               (compute_quote_hash (Some (vd_text validated_data))
                  (Some (posted_author_name validated_data))) (quotes st1) = true ->
             wp (if negb (ScrapeSite.active (vd_site validated_data))
                 then raise (Exn "ValidationError"
                               "Specified site is not active for scraping.")
                 else Quote_save w
                        (Quote.mk (vd_text validated_data) author
                           (ScrapeSite.pk (vd_site validated_data))
                           (vd_source_url validated_data) EmptyString
                           (vd_saved_by_job validated_data))) Q tt st1).
  { intros author st1 Hname H1. rewrite Hactive. cbn [negb].
    unfold Quote_save. cbn [Quote.hash PyStr.truthy negb].
    fold (author_name_of (Quote.mk (vd_text validated_data) author
            (ScrapeSite.pk (vd_site validated_data)) (vd_source_url validated_data)
            EmptyString (vd_saved_by_job validated_data))).
    rewrite Hname. cbn [Quote.text]. apply wp_bind. unfold Quote_insert.
    apply (statement_never_raises w Hw). cbn [Quote.hash Quote.set_hash].
    rewrite (hash_exists_arrive w _ st1 H1). cbn [fst snd].
    eexists. reflexivity. }
  assert (H : wp (QuoteSerializer_create w validated_data) Q tt st).
  2:{ exact H. }
  unfold QuoteSerializer_create.
  unfold posted_author_name in Hsave, Hdup.
  destruct (vd_author validated_data) as [a|] eqn:Ha.
  { apply wp_bind. red. cbn [outcome locals_after store_after ret fst snd].
    apply Hsave; [reflexivity | exact Hdup]. }
  change (match vd_author_name validated_data with
          | Some s => s
          | None => EmptyString
          end) with (PyStr.or_empty (vd_author_name validated_data)).
  set (name := PyStr.strip (PyStr.or_empty (vd_author_name validated_data))) in *.
  destruct (PyStr.truthy name) eqn:Hname.
  2:{ apply wp_bind. red. cbn [outcome locals_after store_after ret fst snd].
      apply Hsave; [|exact Hdup].
      unfold author_name_of. cbn [Quote.author].
      destruct name; [reflexivity | discriminate]. }
  apply wp_bind. apply wp_bind. unfold Author_get_or_create. apply wp_bind.
  apply (statement_never_raises w Hw). cbn [fst snd].
  change (authors (arrive w st)) with (authors st).
  destruct (List.find _ (authors st)) as [a|] eqn:Hfind.
  - red. cbn [outcome locals_after store_after ret fst snd].
    red. cbn [outcome locals_after store_after ret fst snd].
    apply Hsave; [|now apply hash_exists_arrive].
    unfold author_name_of. cbn [Quote.author]. now apply find_author_name in Hfind.
  - apply wp_bind. apply (statement_never_raises w Hw). cbn [fst snd].
    red. cbn [outcome locals_after store_after ret fst snd].
    red. cbn [outcome locals_after store_after ret fst snd].
    apply Hsave; [reflexivity|].
    change (quotes (set_authors _ ?s)) with (quotes s).
    now apply hash_exists_arrive, hash_exists_arrive.
Qed.

Lemma posted_duplicate_is_refused_witness :
  exists message,
    outcome (QuoteSerializer_create Scenario.world
               (mkQuoteData "IT IS  our Choices. " None None Scenario.site None None))
      tt Cases.store1
    = Raise (Exn "IntegrityError" message).
Proof.
  apply (posted_duplicate_is_refused Scenario.world
           (mkQuoteData "IT IS  our Choices. " None None Scenario.site None None)
           Cases.store1).
  - intros n. reflexivity.
  - reflexivity.
  - vm_compute. reflexivity.
Defined.

(** X12. [QuoteSerializer.create] runs outside any transaction and creates
    the author before it saves the quote: without database faults, a quote
    posted for an active site under an author name that is not stored yet,
    and refused by the unique index because its text and author name
    normalise to those of a stored quote, ends with the IntegrityError and
    leaves the author row it created behind. *)
Theorem refused_post_leaves_author (w : World) (validated_data : QuoteData)
    (st : Store) :
  faultless w ->
  ScrapeSite.active (vd_site validated_data) = true ->
  vd_author validated_data = None ->
  PyStr.truthy (posted_author_name validated_data) = true ->
  author_named (posted_author_name validated_data) st = None ->
  hash_exists
    (compute_quote_hash (Some (vd_text validated_data))
       (Some (posted_author_name validated_data))) (quotes st) = true ->
  let st' := store_after (QuoteSerializer_create w validated_data) tt st in
  (exists message,
      outcome (QuoteSerializer_create w validated_data) tt st
      = Raise (Exn "IntegrityError" message))
  /\ authors st'
     = authors st ++ [Author.mk (S (length (authors st)))
                        (posted_author_name validated_data) None]
  /\ jobs st' = jobs st
  /\ scrape_errors st' = scrape_errors st.
Proof.
  intros Hw Hactive Hauthor Hname Hnew Hdup. cbv zeta.
  unfold outcome, store_after, QuoteSerializer_create, posted_author_name, author_named
    in *.
  rewrite Hactive. cbn [negb]. rewrite Hauthor in *.
  change (match vd_author_name validated_data with
          | Some s => s
          | None => EmptyString
          end) with (PyStr.or_empty (vd_author_name validated_data)).
  set (name := PyStr.strip (PyStr.or_empty (vd_author_name validated_data))) in *.
  rewrite Hname.
  unfold Quote_save, Quote_insert, Author_get_or_create.
  cbn [Quote.hash PyStr.truthy negb Quote.author Quote.text Quote.set_hash fst
       Author.name].
  unfold bind, ret. rewrite statement_run, Hw. cbn [fst snd].
  change (authors (arrive w st)) with (authors st). rewrite Hnew.
  rewrite statement_run, Hw. cbn [fst snd].
  rewrite statement_run, Hw.
  set (st2 := arrive w (set_authors _ (arrive w (arrive w st)))).
  assert (H2 : hash_exists
                 (compute_quote_hash (Some (vd_text validated_data)) (Some name))
                 (quotes st2) = true).
  { subst st2. apply hash_exists_arrive.
    change (quotes (set_authors _ ?s)) with (quotes s).
    now apply hash_exists_arrive, hash_exists_arrive. }
  cbn [Quote.hash Author.name]. rewrite H2. cbn [fst snd].
  split; [eexists; reflexivity|]. repeat split.
Qed.

Lemma refused_post_leaves_author_witness :
  (exists message,
      outcome (QuoteSerializer_create Scenario.world
                 (mkQuoteData "The world as we have created it." None
                    (Some "ALBERT EINSTEIN") Scenario.site None None)) tt Cases.store1
      = Raise (Exn "IntegrityError" message))
  /\ map Author.name
       (authors (store_after
                   (QuoteSerializer_create Scenario.world
                      (mkQuoteData "The world as we have created it." None
                         (Some "ALBERT EINSTEIN") Scenario.site None None)) tt
                   Cases.store1))
     = ["Albert Einstein"; "Steve Martin"; "ALBERT EINSTEIN"]%string.
Proof.
  destruct (refused_post_leaves_author Scenario.world
              (mkQuoteData "The world as we have created it." None
                 (Some "ALBERT EINSTEIN") Scenario.site None None) Cases.store1)
    as (H1 & H2 & _).
  - intros n. reflexivity.
  - reflexivity.
  - reflexivity.
  - reflexivity.
  - vm_compute. reflexivity.
  - vm_compute. reflexivity.
  - split; [exact H1|]. rewrite H2. vm_compute. reflexivity.
Defined.

(** ** models.py, admin.py: the display strings *)

Lemma length_substring_0 (n : nat) (s : string) :
  String.length (substring 0 n s) = Nat.min n (String.length s).
Proof.
  revert s. induction n as [|n IH]; intros [|c s]; cbn; try reflexivity.
  now rewrite IH.
Qed.

Lemma length_append (a b : string) :
  String.length (a +:+ b) = (String.length a + String.length b)%nat.
Proof.
  induction a as [|c a IH]; [reflexivity|].
  change (String c a +:+ b)%string with (String c (a +:+ b)).
  cbn [String.length]. now rewrite IH.
Qed.

(** The text cut after [n] characters, as both display strings cut it. *)
Lemma cut_text (n : nat) (text : string) :
  let short := if (n <? String.length text)%nat
               then (substring 0 n text +:+ "...")%string else text in
  (String.length short <= n + 3)%nat
  /\ (forall p, (p < n)%nat -> get p short = get p text)
  /\ ((String.length text <= n)%nat -> short = text).
Proof.
  cbv zeta. destruct (Nat.ltb_spec n (String.length text)) as [H|H].
  - split; [|split].
    + rewrite length_append, length_substring_0. cbn [String.length]. lia.
    + intros p Hp. rewrite <- append_correct1
        by (rewrite length_substring_0; lia).
      rewrite substring_correct1 by exact Hp. now rewrite Nat.add_0_r.
    + lia.
  - split; [lia|]. split; reflexivity.
Qed.

(** X13. The display strings of a quote are bounded: [QuoteAdmin.short_text]
    has at most 78 characters and [Quote.__str__] shows at most 63
    characters of the text; both agree with the text on the characters they
    keep (the first 75 and the first 60), and a text that fits is shown
    unchanged. *)
Theorem display_strings_are_bounded (q : Quote.t) :
  ((String.length (short_text q) <= 78)%nat
   /\ (forall p, (p < 75)%nat -> get p (short_text q) = get p (Quote.text q))
   /\ ((String.length (Quote.text q) <= 75)%nat -> short_text q = Quote.text q))
  /\ exists short,
       Quote_str q
       = ("Quote(" +:+ short +:+ ") - "
          +:+ match Quote.author q with
              | Some a => Author.name a
              | None => "Unknown"
              end)%string
       /\ (String.length short <= 63)%nat
       /\ (forall p, (p < 60)%nat -> get p short = get p (Quote.text q))
       /\ ((String.length (Quote.text q) <= 60)%nat -> short = Quote.text q).
Proof.
  split; [exact (cut_text 75 (Quote.text q))|].
  eexists. split; [reflexivity|]. exact (cut_text 60 (Quote.text q)).
Qed.

(** ** tasks.py, views.py: the jobs and the broker *)

Lemma get_object_or_404_state {L} (w : World) (pk : string) (l : L) (st : Store) :
  snd (get_object_or_404 w pk (l, st)) = (l, arrive w st).
Proof.
  unfold get_object_or_404, try_except. rewrite ScrapeJob_get_run.
  destruct (faults w (tick st)) as [e|].
  - destruct (String.eqb (exn_class e) "DoesNotExist"); reflexivity.
  - destruct (jobs st !! pk); reflexivity.
Qed.

Lemma get_object_or_404_run {L} (w : World) (pk : string) (l : L) (st : Store) :
  faults w (tick st) = None ->
  get_object_or_404 w pk (l, st)
  = (match jobs st !! pk with
     | Some row => Ok (ScrapeJob.set_pk pk row)
     | None => Raise (Exn "Http404" "No ScrapeJob matches the given query.")
     end, (l, arrive w st)).
Proof.
  intros F. unfold get_object_or_404, try_except. rewrite ScrapeJob_get_run, F.
  destruct (jobs st !! pk); reflexivity.
Qed.

(** X14. [enqueue_scrape_job] checks that the job exists and nothing else:
    whatever the status of the job, it hands one [scrape_site] message for
    it to the broker; it never writes to the job table; when the job does
    not exist, or the lookup fails, it raises and sends nothing. *)
Theorem enqueue_scrape_job_effect (w : World) (job_id : string) (queue : Broker)
    (st : Store) :
  let m := enqueue_scrape_job w job_id in
  jobs (store_after m queue st) = jobs st
  /\ (faults w (tick st) = None -> is_Some (jobs st !! job_id) ->
      outcome m queue st = Ok (job_id, "enqueued"%string)
      /\ locals_after m queue st = queue ++ [mkMessage scrape_site_task job_id])
  /\ (forall e, outcome m queue st = Raise e -> locals_after m queue st = queue)
  /\ (jobs st !! job_id = None -> exists e, outcome m queue st = Raise e).
Proof.
  cbv zeta. unfold outcome, locals_after, store_after, enqueue_scrape_job, bind.
  rewrite ScrapeJob_get_run.
  destruct (faults w (tick st)) as [e0|].
  { cbn [fst snd]. split; [reflexivity|]. split; [discriminate|].
    split; [reflexivity | eauto]. }
  destruct (jobs st !! job_id) as [row|]; cbn [fst snd delay assign ret].
  - split; [reflexivity|]. split; [intros _ _; split; reflexivity|].
    split; [discriminate | discriminate].
  - split; [reflexivity|]. split; [intros _ [? ?]; discriminate|].
    split; [reflexivity | eauto].
Qed.

(** X15. [ScrapeJobViewSet.start] never writes to the job table.  For a
    job that is PENDING it answers 202 and hands one [enqueue_scrape_job]
    message to the broker; for a job in any other status it answers 400 and
    sends nothing; for a job that does not exist it raises Http404 and sends
    nothing; and it sends nothing when it raises. *)
Theorem start_effect (w : World) (pk : string) (queue : Broker) (st : Store) :
  let m := ScrapeJobViewSet_start w pk in
  jobs (store_after m queue st) = jobs st
  /\ (forall row, faults w (tick st) = None -> jobs st !! pk = Some row ->
      ScrapeJob.status row = ScrapeJob.PENDING ->
      outcome m queue st = Ok (mkResponse 202 (Detail "Job enqueued."))
      /\ locals_after m queue st = queue ++ [mkMessage enqueue_scrape_job_task pk])
  /\ (forall row, faults w (tick st) = None -> jobs st !! pk = Some row ->
      ScrapeJob.status row <> ScrapeJob.PENDING ->
      outcome m queue st = Ok (mkResponse 400 (Detail "Job not in PENDING state."))
      /\ locals_after m queue st = queue)
  /\ (faults w (tick st) = None -> jobs st !! pk = None ->
      outcome m queue st
      = Raise (Exn "Http404" "No ScrapeJob matches the given query."))
  /\ (forall e, outcome m queue st = Raise e -> locals_after m queue st = queue).
Proof.
  cbv zeta. unfold outcome, locals_after, store_after, ScrapeJobViewSet_start, bind.
  pose proof (get_object_or_404_state w pk queue st) as Hst.
  pose proof (get_object_or_404_run w pk queue st) as Hrun.
  destruct (get_object_or_404 w pk (queue, st)) as [[job|e] [l1 st1]].
  2:{ cbn [fst snd] in *. inversion Hst; subst l1 st1.
      split; [reflexivity|].
      split; [intros row F Hrow _; specialize (Hrun F); rewrite Hrow in Hrun;
              discriminate|].
      split; [intros row F Hrow _; specialize (Hrun F); rewrite Hrow in Hrun;
              discriminate|].
      split; [|reflexivity].
      intros F Hnone. specialize (Hrun F). rewrite Hnone in Hrun.
      inversion Hrun. reflexivity. }
  cbn [fst snd] in Hst. inversion Hst; subst l1 st1.
  assert (Hjob : forall row, faults w (tick st) = None -> jobs st !! pk = Some row ->
                             job = ScrapeJob.set_pk pk row).
  { intros row F Hrow. specialize (Hrun F). rewrite Hrow in Hrun. now inversion Hrun. }
  destruct (Status_eqb (ScrapeJob.status job) ScrapeJob.PENDING) eqn:Hs;
    cbn [negb fst snd delay assign ret].
  - split; [reflexivity|]. split; [|split; [|split]].
    + intros row F Hrow _. rewrite (Hjob row F Hrow). split; reflexivity.
    + intros row F Hrow Hne. rewrite (Hjob row F Hrow) in Hs.
      cbn [ScrapeJob.status ScrapeJob.set_pk] in Hs.
      destruct (ScrapeJob.status row); discriminate || congruence.
    + intros F Hnone. specialize (Hrun F). rewrite Hnone in Hrun. discriminate.
    + discriminate.
  - split; [reflexivity|]. split; [|split; [|split]].
    + intros row F Hrow Hp. rewrite (Hjob row F Hrow) in Hs.
      cbn [ScrapeJob.status ScrapeJob.set_pk] in Hs. rewrite Hp in Hs. discriminate.
    + intros row F Hrow _. split; reflexivity.
    + intros F Hnone. specialize (Hrun F). rewrite Hnone in Hrun. discriminate.
    + discriminate.
Qed.

Lemma start_run (w : World) (pk : string) (row : ScrapeJob.t) (queue : Broker)
    (st : Store) :
  faults w (tick st) = None -> jobs st !! pk = Some row ->
  ScrapeJobViewSet_start w pk (queue, st)
  = if Status_eqb (ScrapeJob.status row) ScrapeJob.PENDING
    then (Ok (mkResponse 202 (Detail "Job enqueued.")),
          (queue ++ [mkMessage enqueue_scrape_job_task pk], arrive w st))
    else (Ok (mkResponse 400 (Detail "Job not in PENDING state.")),
          (queue, arrive w st)).
Proof.
  intros F Hrow. unfold ScrapeJobViewSet_start, bind.
  rewrite (get_object_or_404_run w pk queue st F), Hrow.
  cbn [ScrapeJob.status ScrapeJob.set_pk].
  destruct (Status_eqb (ScrapeJob.status row) ScrapeJob.PENDING); reflexivity.
Qed.

Lemma create_run (w : World) (uuid4 : string) (data vd : JobData) (queue : Broker)
    (st : Store) :
  faults w (tick st) = None -> jobs st !! uuid4 = None ->
  ScrapeJobSerializer_is_valid data = Ok vd ->
  let job := ScrapeJob.mk uuid4 (jd_site vd) ScrapeJob.PENDING None None 0 0 0
               (match jd_initiator vd with Some i => i | None => "api"%string end) in
  ScrapeJobViewSet_create w uuid4 data (queue, st)
  = (Ok (mkResponse 201 (Representation job)),
     (queue ++ [mkMessage enqueue_scrape_job_task uuid4],
      set_jobs (<[uuid4 := job]> (jobs st)) (arrive w st))).
Proof.
  intros F Hnone Hvalid. cbv zeta.
  unfold ScrapeJobViewSet_create. rewrite Hvalid.
  unfold bind, ScrapeJobSerializer_create, ScrapeJob_create.
  rewrite statement_run, F. change (jobs (arrive w st)) with (jobs st).
  rewrite Hnone. reflexivity.
Qed.

Lemma validate_cases (attrs : JobData) :
  ScrapeJobSerializer_validate attrs = Ok attrs
  \/ ScrapeJobSerializer_validate attrs
     = Raise (Exn "ValidationError" "meta must be a JSON object/dict.").
Proof.
  unfold ScrapeJobSerializer_validate.
  destruct (jd_meta attrs) as [[]|]; auto.
Qed.

(** What [is_valid] hands to [create]: the site and the [meta] of the
    request, and the stripped [initiator]. *)
Lemma is_valid_data (data vd : JobData) :
  ScrapeJobSerializer_is_valid data = Ok vd ->
  ScrapeSite.active (jd_site data) = true
  /\ jd_site vd = jd_site data
  /\ jd_meta vd = jd_meta data
  /\ jd_initiator vd = option_map PyStr.strip (jd_initiator data).
Proof.
  unfold ScrapeJobSerializer_is_valid.
  destruct (ScrapeSite.active (jd_site data)); cbn [negb]; [|discriminate].
  assert (Hv : forall i, ScrapeJobSerializer_validate
                           (mkJobData (jd_site data) i (jd_meta data)) = Ok vd ->
                         jd_site vd = jd_site data /\ jd_meta vd = jd_meta data
                         /\ jd_initiator vd = i).
  { intros i H. destruct (validate_cases (mkJobData (jd_site data) i (jd_meta data)))
      as [E|E]; rewrite E in H; inversion H. now repeat split. }
  destruct (jd_initiator data) as [s|]; cbn [option_map].
  - unfold initiator_field.
    destruct (negb _); [discriminate|]. destruct (_ <? _)%nat; [discriminate|].
    destruct (existsb _ _); [discriminate|].
    destruct (jd_meta data) as [[]|] eqn:Hm; try discriminate;
      intros H; destruct (Hv _ H) as (H1 & H2 & H3); now repeat split.
  - destruct (jd_meta data) as [[]|] eqn:Hm; try discriminate;
      intros H; destruct (Hv _ H) as (H1 & H2 & H3); now repeat split.
Qed.

(** X16. [ScrapeJobViewSet.create] rejects a request and changes nothing
    when the serializer refuses it: a request for an inactive site, a
    request whose [meta] is present and not an object (null included), a
    request whose [initiator] is blank or longer than 40 characters once
    stripped.  For a request the serializer accepts, when the insert goes
    through, it stores one new job, hands one [enqueue_scrape_job] message
    for it to the broker and answers 201; the job is PENDING, not started,
    with its three counters at 0, and its initiator is the stripped one of
    the request, "api" when the request names none.  A message is only ever
    sent for a job that has been stored. *)
Theorem create_effect (w : World) (uuid4 : string) (data : JobData) (queue : Broker)
    (st : Store) :
  let m := ScrapeJobViewSet_create w uuid4 data in
  (forall e, ScrapeJobSerializer_is_valid data = Raise e ->
     outcome m queue st = Raise e
     /\ locals_after m queue st = queue /\ store_after m queue st = st)
  /\ (ScrapeSite.active (jd_site data) = false ->
      exists e, ScrapeJobSerializer_is_valid data = Raise e)
  /\ (forall v, jd_meta data = Some v -> (forall l, v <> JDict l) ->
      exists e, ScrapeJobSerializer_is_valid data = Raise e)
  /\ (forall s, jd_initiator data = Some s ->
      PyStr.strip s = EmptyString \/ (40 < String.length (PyStr.strip s))%nat ->
      exists e, ScrapeJobSerializer_is_valid data = Raise e)
  /\ (forall vd, ScrapeJobSerializer_is_valid data = Ok vd ->
      faults w (tick st) = None -> jobs st !! uuid4 = None ->
      exists job,
        outcome m queue st = Ok (mkResponse 201 (Representation job))
        /\ locals_after m queue st = queue ++ [mkMessage enqueue_scrape_job_task uuid4]
        /\ jobs (store_after m queue st) = <[uuid4 := job]> (jobs st)
        /\ job = ScrapeJob.mk uuid4 (jd_site data) ScrapeJob.PENDING None None 0 0 0
                   (match jd_initiator data with
                    | Some i => PyStr.strip i
                    | None => "api"%string
                    end))
  /\ (locals_after m queue st = queue
      \/ locals_after m queue st = queue ++ [mkMessage enqueue_scrape_job_task uuid4]
         /\ is_Some (jobs (store_after m queue st) !! uuid4)).
Proof.
  cbv zeta. split; [|split; [|split; [|split; [|split]]]].
  - intros e He. unfold outcome, locals_after, store_after, ScrapeJobViewSet_create.
    rewrite He. repeat split.
  - intros Hactive. unfold ScrapeJobSerializer_is_valid. rewrite Hactive. eauto.
  - intros v Hv Hdict.
    destruct (ScrapeJobSerializer_is_valid data) as [vd|e] eqn:E; [|eauto].
    exfalso. unfold ScrapeJobSerializer_is_valid in E.
    destruct (negb _); [discriminate|].
    destruct (match jd_initiator data with Some _ => _ | None => _ end) as [i|];
      [|discriminate].
    rewrite Hv in E. unfold ScrapeJobSerializer_validate in E. cbn [jd_meta] in E.
    destruct v; try discriminate. eapply Hdict; eauto.
  - intros s Hs Hbad.
    destruct (ScrapeJobSerializer_is_valid data) as [vd|e] eqn:E; [|eauto].
    exfalso. unfold ScrapeJobSerializer_is_valid in E.
    destruct (negb _); [discriminate|].
    rewrite Hs in E. unfold initiator_field in E.
    destruct Hbad as [Hb|Hb].
    + rewrite Hb in E. cbn in E. discriminate.
    + destruct (negb _); [discriminate|].
      apply Nat.ltb_lt in Hb. rewrite Hb in E. discriminate.
  - intros vd Hvalid F Hnone.
    destruct (is_valid_data data vd Hvalid) as (_ & Hsite & _ & Hinit).
    eexists. unfold outcome, locals_after, store_after.
    rewrite (create_run w uuid4 data vd queue st F Hnone Hvalid). cbn [fst snd].
    rewrite Hsite, Hinit. repeat split.
    destruct (jd_initiator data); reflexivity.
  - unfold locals_after, store_after, ScrapeJobViewSet_create.
    destruct (ScrapeJobSerializer_is_valid data) as [vd|e0]; [|left; reflexivity].
    unfold bind, ScrapeJobSerializer_create, ScrapeJob_create.
    rewrite statement_run. change (jobs (arrive w st)) with (jobs st).
    destruct (faults w (tick st)); [left; reflexivity|].
    destruct (jobs st !! uuid4); cbn [fst snd delay assign ret]; [left; reflexivity|].
    right. split; [reflexivity|]. cbn [jobs set_jobs]. rewrite lookup_insert_eq. eauto.
Qed.

(** X17. A job stays PENDING until a worker marks it as running, and
    nothing remembers that it was enqueued: without database faults,
    [start] on a job that [create] has just stored and enqueued answers 202
    and enqueues it a second time, and so does a second [start] on a
    PENDING job. *)
Theorem pending_job_is_enqueued_again (w : World) (queue : Broker) (st : Store) :
  faultless w ->
  (forall uuid4 data vd,
      jobs st !! uuid4 = None -> ScrapeJobSerializer_is_valid data = Ok vd ->
      let m := (ScrapeJobViewSet_create w uuid4 data ;; ScrapeJobViewSet_start w uuid4) in
      outcome m queue st = Ok (mkResponse 202 (Detail "Job enqueued."))
      /\ locals_after m queue st
         = queue ++ [mkMessage enqueue_scrape_job_task uuid4;
                     mkMessage enqueue_scrape_job_task uuid4])
  /\ (forall pk row,
         jobs st !! pk = Some row -> ScrapeJob.status row = ScrapeJob.PENDING ->
         let m := (ScrapeJobViewSet_start w pk ;; ScrapeJobViewSet_start w pk) in
         outcome m queue st = Ok (mkResponse 202 (Detail "Job enqueued."))
         /\ locals_after m queue st
            = queue ++ [mkMessage enqueue_scrape_job_task pk;
                        mkMessage enqueue_scrape_job_task pk]).
Proof.
  intros Hw. split.
  - intros uuid4 data vd Hnone Hvalid. cbv zeta.
    unfold outcome, locals_after.
    rewrite (bind_value _ _ _ _ _
               (create_run w uuid4 data vd queue st (Hw _) Hnone Hvalid)).
    erewrite start_run;
      [|apply Hw | cbn [jobs set_jobs]; apply lookup_insert_eq].
    cbn [ScrapeJob.status Status_eqb fst snd]. rewrite <- app_assoc.
    split; reflexivity.
  - intros pk row Hrow Hp. cbv zeta. unfold outcome, locals_after.
    pose proof (start_run w pk row queue st (Hw _) Hrow) as E1.
    rewrite Hp in E1. cbn [Status_eqb] in E1.
    rewrite (bind_value _ _ _ _ _ E1).
    rewrite (start_run w pk row _ (arrive w st) (Hw _) Hrow), Hp.
    cbn [Status_eqb fst snd]. rewrite <- app_assoc. split; reflexivity.
Qed.

Lemma pending_job_is_enqueued_again_witness :
  outcome (ScrapeJobViewSet_create Scenario.world "7d20" Cases.job_request ;;
           ScrapeJobViewSet_start Scenario.world "7d20") [] Cases.empty_store
  = Ok (mkResponse 202 (Detail "Job enqueued."))
  /\ locals_after (ScrapeJobViewSet_create Scenario.world "7d20" Cases.job_request ;;
                   ScrapeJobViewSet_start Scenario.world "7d20") [] Cases.empty_store
     = [mkMessage enqueue_scrape_job_task "7d20";
        mkMessage enqueue_scrape_job_task "7d20"].
Proof.
  destruct (pending_job_is_enqueued_again Scenario.world [] Cases.empty_store)
    as [H _]; [intros n; reflexivity|].
  apply (H "7d20"%string Cases.job_request Cases.job_request); reflexivity.
Defined.

(** X18. Once a run has gone through, the job cannot be started again:
    without database faults, after [scrape_site] the job is in one of the
    final statuses, and [start] answers 400 and sends nothing. *)
Theorem start_after_run_is_refused (w : World) (job_id : string) (row : ScrapeJob.t)
    (queue : Broker) (st : Store) :
  faultless w -> jobs st !! job_id = Some row ->
  let st' := store_after (scrape_site w job_id) tt st in
  outcome (ScrapeJobViewSet_start w job_id) queue st'
  = Ok (mkResponse 400 (Detail "Job not in PENDING state."))
  /\ locals_after (ScrapeJobViewSet_start w job_id) queue st' = queue.
Proof.
  intros Hw Hrow. cbv zeta.
  destruct (scrape_site_faultless w Hw job_id row st Hrow)
    as (_ & _ & _ & row' & Hrow' & Hstatus).
  unfold outcome, locals_after.
  rewrite (start_run w job_id row' queue _ (Hw _) Hrow'), Hstatus.
  unfold finish_status. cbn [negb].
  destruct (_ && _); [split; reflexivity|].
  destruct (0 <? ScrapeJob.quotes_saved row); split; reflexivity.
Qed.

Lemma start_after_run_is_refused_witness :
  outcome (ScrapeJobViewSet_start Scenario.world Scenario.job_id) []
    (store_after (scrape_site Scenario.world Scenario.job_id) tt Scenario.store0)
  = Ok (mkResponse 400 (Detail "Job not in PENDING state."))
  /\ locals_after (ScrapeJobViewSet_start Scenario.world Scenario.job_id) []
       (store_after (scrape_site Scenario.world Scenario.job_id) tt Scenario.store0)
     = [].
Proof.
  apply (start_after_run_is_refused Scenario.world Scenario.job_id
           (ScrapeJob.fresh Scenario.job_id Scenario.site) [] Scenario.store0).
  - intros n. reflexivity.
  - reflexivity.
Defined.

(** ** tasks.py: a failure inside the handler of fatal exceptions *)

(** X19. The handler of [scrape_site] is not protected itself.  When one
    of its four database statements fails (the insert of the "fatal" row,
    the two statements of the flush, the save of [mark_finished]), the
    exception that leaves the handler is that failure and not the exception
    it was handling, and the job is not marked as failed: its row keeps the
    status and the finish time it had. *)
Theorem handler_failure_masks_the_exception (w : World) (fatal e : exn) (f : Frame)
    (st : Store) (row : ScrapeJob.t) (k : nat) :
  jobs st !! ScrapeJob.pk (job f) = Some row ->
  (k <= 3)%nat ->
  (forall i, (i < k)%nat -> faults w (tick st + i) = None) ->
  faults w (tick st + k) = Some e ->
  let m := @scrape_site_except (string * string) w fatal in
  outcome m f st = Raise e
  /\ exists row',
       jobs (store_after m f st) !! ScrapeJob.pk (job f) = Some row'
       /\ ScrapeJob.status row' = ScrapeJob.status row
       /\ ScrapeJob.finished_at row' = ScrapeJob.finished_at row.
Proof.
  intros Hrow Hk Hnone Hsome. cbv zeta.
  unfold outcome, store_after, scrape_site_except. rewrite bind_locals.
  destruct k as [|k].
  { rewrite Nat.add_0_r in Hsome.
    rewrite (bind_raised _ _ _ (f, arrive w st) e)
      by now rewrite ScrapeError_create_run, Hsome.
    cbn [fst snd]. split; [reflexivity|].
    exists row. split; [exact Hrow | split; reflexivity]. }
  pose proof (Hnone 0%nat ltac:(lia)) as F0. rewrite Nat.add_0_r in F0.
  set (st1 := set_scrape_errors
                (scrape_errors st
                 ++ [ScrapeError.mk (ScrapeJob.pk (job f)) None "fatal"
                       (exn_str fatal) None]) (arrive w st)).
  rewrite (bind_value _ _ _ (f, st1) tt) by now rewrite ScrapeError_create_run, F0.
  assert (Hrow1 : jobs st1 !! ScrapeJob.pk (job f) = Some row) by exact Hrow.
  destruct k as [|k].
  { replace (tick st + 1)%nat with (tick st1) in Hsome by (cbn; lia).
    rewrite (bind_raised _ _ _ (f, rollback w st1 (arrive w st1)) e).
    - cbn [fst snd]. split; [reflexivity|].
      exists row. split; [exact Hrow | split; reflexivity].
    - rewrite method_run. unfold outcome, locals_after, store_after.
      rewrite increment_counters_run, Hsome. cbn [fst snd]. now rewrite set_job_job. }
  pose proof (Hnone 1%nat ltac:(lia)) as F1.
  replace (tick st + 1)%nat with (tick st1) in F1 by (cbn; lia).
  destruct k as [|k].
  { replace (tick st + 2)%nat with (S (tick st1)) in Hsome by (cbn; lia).
    rewrite (bind_raised _ _ _ (f, rollback w st1 (arrive w (arrive w st1))) e).
    - cbn [fst snd]. split; [reflexivity|].
      exists row. split; [exact Hrow | split; reflexivity].
    - rewrite method_run. unfold outcome, locals_after, store_after.
      rewrite increment_counters_run, F1, Hrow1, Hsome. cbn [fst snd].
      now rewrite set_job_job. }
  pose proof (Hnone 2%nat ltac:(lia)) as F2.
  replace (tick st + 2)%nat with (S (tick st1)) in F2 by (cbn; lia).
  assert (k = 0%nat) by lia. subst k.
  replace (tick st + 3)%nat with (S (S (tick st1))) in Hsome by (cbn; lia).
  set (st2 := set_jobs (<[ScrapeJob.pk (job f)
                          := bump (fetched f) (saved f) 1 row]> (jobs st1))
                (arrive w (arrive w st1))).
  rewrite (bind_value _ _ _ (f, st2) tt).
  2:{ rewrite method_run. unfold outcome, locals_after, store_after.
      rewrite increment_counters_run, F1, Hrow1, F2. cbn [fst snd].
      now rewrite set_job_job. }
  rewrite (bind_raised _ _ _
             (set_job (finished (clock st2) false (job f)) f, arrive w st2) e).
  2:{ rewrite method_run. unfold outcome, locals_after, store_after.
      rewrite mark_finished_run, ScrapeJob_save_run.
      change (tick st2) with (S (S (tick st1))). rewrite Hsome. reflexivity. }
  cbn [fst snd]. split; [reflexivity|].
  cbn [jobs arrive set_tick set_quotes st2 set_jobs]. rewrite lookup_insert_eq.
  eexists. split; [reflexivity|]. split; reflexivity.
Qed.

Lemma handler_failure_masks_the_exception_witness :
  outcome (@scrape_site_except (string * string) Scenario.overlong_world
             (Exn "ValueError" "boom"))
    (init_frame (ScrapeJob.fresh Scenario.job_id Scenario.site))
    (set_tick 13 Scenario.store0)
  = Raise Scenario.data_error.
Proof.
  refine (proj1 (handler_failure_masks_the_exception Scenario.overlong_world
                   (Exn "ValueError" "boom") Scenario.data_error
                   (init_frame (ScrapeJob.fresh Scenario.job_id Scenario.site))
                   (set_tick 13 Scenario.store0)
                   (ScrapeJob.fresh Scenario.job_id Scenario.site) 0 _ _ _ _)).
  - reflexivity.
  - lia.
  - intros i Hi. lia.
  - reflexivity.
Defined.

(** ** Rows are only added *)

Lemma commit_rivals_prefix (rs qs : list Quote.t) : qs `prefix_of` commit_rivals rs qs.
Proof.
  unfold commit_rivals. revert qs.
  induction rs as [|r rs IH]; intros qs; cbn [fold_left]; [reflexivity|].
  etransitivity; [|apply IH]. unfold commit_rival.
  destruct (hash_exists _ _); [reflexivity | now apply prefix_app_r].
Qed.

Lemma replay_prefix (w : World) (t0 t1 : nat) (qs : list Quote.t) :
  qs `prefix_of` replay w t0 t1 qs.
Proof.
  unfold replay. generalize (seq t0 (t1 - t0)). intros l. revert qs.
  induction l as [|n l IH]; intros qs; cbn [fold_left]; [reflexivity|].
  etransitivity; [|apply IH]. apply commit_rivals_prefix.
Qed.

Lemma appended_respected (w : World) : respected w appended.
Proof.
  split; unfold appended.
  - intros st. repeat split; reflexivity.
  - intros a b c (H1 & H2 & H3) (H4 & H5 & H6).
    repeat split; etransitivity; eassumption.
  - intros st. repeat split; try reflexivity. apply commit_rivals_prefix.
  - intros st v. repeat split; reflexivity.
  - intros st v. repeat split; reflexivity.
  - intros st e. repeat split; try reflexivity. now apply prefix_app_r.
  - intros st a. repeat split; try reflexivity. now apply prefix_app_r.
  - intros st q t a _ _. repeat split; try reflexivity. now apply prefix_app_r.
  - intros st k row self fields _ _. repeat split; reflexivity.
  - intros st0 st1 _. repeat split; try reflexivity. apply replay_prefix.
Qed.

(** X20. Neither a run nor the serializer ever deletes or rewrites a stored
    quote, author or error row: in every world, however the call ends, each
    of the three tables is the table it was with rows added at its end. *)
Theorem tables_are_append_only (w : World) (st : Store) :
  (forall job_id, appended st (store_after (scrape_site w job_id) tt st))
  /\ (forall validated_data,
         appended st (store_after (QuoteSerializer_create w validated_data) tt st)).
Proof.
  split.
  - intros job_id. apply scrape_site_respected, appended_respected.
  - intros vd. apply QuoteSerializer_create_respected, appended_respected.
Qed.

(** ** tasks.py: the row of the job *)

Lemma others_same_refl (job_id : string) (st : Store) : others_same job_id st st.
Proof. intros k _. reflexivity. Qed.

Lemma others_same_trans (job_id : string) (a b c : Store) :
  others_same job_id a b -> others_same job_id b c -> others_same job_id a c.
Proof. intros H1 H2 k Hk. now rewrite H2, H1. Qed.

Ltac own_row :=
  try solve [ apply others_same_refl
            | apply others_same_trans
            | intros; apply others_same_refl
            | intros; unfold others_same; intros; reflexivity
            | intros; exact Logic.I
            | intros ? H; exact H ].

Section OwnRow.

Variable w : World.
Variable job_id : string.

(** The row the job is loaded from. *)
Variable row : ScrapeJob.t.

(** A method that writes to the row of its instance only, and leaves the
    key and the counters of the instance alone. *)
Lemma own_row_method {A} (m : Py ScrapeJob.t A) st0 :
  (forall self st, ScrapeJob.pk (locals_after m self st) = ScrapeJob.pk self
                   /\ ScrapeJob.quotes_saved (locals_after m self st)
                      = ScrapeJob.quotes_saved self
                   /\ ScrapeJob.errors_count (locals_after m self st)
                      = ScrapeJob.errors_count self) ->
  (forall self st k, k <> ScrapeJob.pk self ->
                     jobs (store_after m self st) !! k = jobs st !! k) ->
  kept (others_same job_id) (job_is job_id row) st0 (method job set_job m).
Proof.
  intros Hpk Hjobs f st H [Hf [Hs He]]. apply wp_method. red. split.
  - intros k Hk. rewrite Hjobs by (rewrite Hf; exact Hk). apply H, Hk.
  - unfold job_is, counts_of. cbn [job set_job].
    destruct (Hpk (job f) st) as (E1 & E2 & E3). rewrite E1, E2, E3. now repeat split.
Qed.

Lemma own_row_save (j : ScrapeJob.t) (fields : list string) (self : ScrapeJob.t)
    (st : Store) (k : string) :
  k <> ScrapeJob.pk j ->
  jobs (store_after (ScrapeJob_save w j fields) self st) !! k = jobs st !! k.
Proof.
  intros Hk. unfold store_after. rewrite ScrapeJob_save_run.
  destruct (faults w (tick st)); [reflexivity|].
  destruct (jobs st !! ScrapeJob.pk j); [|reflexivity].
  cbn [snd jobs set_jobs]. now rewrite lookup_insert_ne by congruence.
Qed.

Lemma own_row_flush st0 (a b c : Z) :
  kept (others_same job_id) (job_is job_id row) st0
    (method job set_job (increment_counters w a b c)).
Proof.
  apply own_row_method.
  - intros self st. now rewrite increment_counters_locals.
  - intros self st k Hk. unfold store_after. rewrite increment_counters_run.
    destruct (faults w (tick st)); [reflexivity|].
    destruct (jobs st !! ScrapeJob.pk self); [|reflexivity].
    destruct (faults w (S (tick st))); [reflexivity|].
    cbn [snd jobs set_jobs]. now rewrite lookup_insert_ne by congruence.
Qed.

Lemma own_row_mark_running st0 :
  kept (others_same job_id) (job_is job_id row) st0 (method job set_job (mark_running w)).
Proof.
  apply own_row_method.
  - intros self st. unfold locals_after. rewrite mark_running_run.
    fold (locals_after (ScrapeJob_save w (running (clock st) self)
                          ["status"; "started_at"; "updated_at"]%string)
            (running (clock st) self) st).
    rewrite ScrapeJob_save_locals. now repeat split.
  - intros self st k Hk. unfold store_after. rewrite mark_running_run.
    now apply own_row_save.
Qed.

Lemma own_row_mark_finished st0 success :
  kept (others_same job_id) (job_is job_id row) st0
    (method job set_job (mark_finished w success)).
Proof.
  apply own_row_method.
  - intros self st. rewrite mark_finished_locals. now repeat split.
  - intros self st k Hk. unfold store_after. rewrite mark_finished_run.
    now apply own_row_save.
Qed.

Lemma own_row_error st0 j url error_type message :
  kept (others_same job_id) (job_is job_id row) st0
    (ScrapeError_create w j url error_type message).
Proof.
  apply (kept_ScrapeError_create w (others_same job_id) (fun _ => True)); own_row.
Qed.

Lemma own_row_page_loop (site : ScrapeSite.t) (n : nat) st0 :
  kept (others_same job_id) (job_is job_id row) st0
    (page_loop_with same_page_guard w site n).
Proof.
  induction n as [|n IH]; cbn [page_loop_with]; [apply kept_ret|].
  apply kept_bind_locals. intros f Hf.
  destruct (truthy_opt (next_url f)); cbn [negb]; [|apply kept_ret].
  apply kept_bind; [apply kept_update; own_row|]. intros _.
  apply kept_bind.
  { apply kept_try.
    - apply kept_bind; [apply (kept_fetch_page w (others_same job_id)); own_row
                       | intros; apply kept_ret].
    - intros e. apply kept_bind; [apply kept_assign; own_row|]. intros _.
      apply kept_bind_locals. intros f' Hf'.
      apply kept_bind; [apply own_row_error | intros; apply kept_ret]. }
  intros [text|]; [|apply kept_ret].
  apply kept_bind; [apply kept_assign; own_row|]. intros _.
  apply kept_bind; [apply kept_assign; own_row|]. intros _.
  apply kept_bind.
  { apply (kept_candidates w (others_same job_id) (fun _ => True)); own_row. }
  intros _. apply kept_bind_locals. intros f' Hf'.
  apply kept_bind; [apply own_row_flush|]. intros _.
  apply kept_bind; [apply kept_assign; own_row|]. intros _.
  apply kept_bind; [apply kept_assign; own_row|]. intros _.
  apply kept_bind; [apply kept_assign; own_row|]. intros _.
  apply kept_bind; [apply kept_assign; own_row|]. intros _.
  apply kept_bind; [|intros; apply IH].
  intros f1 st1 H1 Hf1. unfold wp, outcome, locals_after, store_after.
  rewrite same_page_guard_noop. split; [exact H1 | exact Hf1].
Qed.

Lemma own_row_try (site : ScrapeSite.t) (id : string) st0 :
  kept (others_same job_id) (job_is job_id row) st0
    (scrape_site_try same_page_guard w site id).
Proof.
  unfold scrape_site_try.
  apply kept_bind; [apply kept_assign; own_row|]. intros _.
  apply kept_bind; [apply own_row_page_loop|]. intros _.
  apply kept_bind_locals. intros f Hf.
  apply kept_bind; [apply own_row_flush|]. intros _.
  apply kept_bind; [apply own_row_mark_finished | intros; apply kept_ret].
Qed.

Lemma own_row_except {A} (fatal : exn) st0 :
  kept (others_same job_id) (job_is job_id row) st0 (@scrape_site_except A w fatal).
Proof.
  unfold scrape_site_except. apply kept_bind_locals. intros f Hf.
  apply kept_bind; [apply own_row_error|]. intros _.
  apply kept_bind; [apply own_row_flush|]. intros _.
  apply kept_bind; [apply own_row_mark_finished | intros; apply kept_raise].
Qed.

End OwnRow.

(** X21. In every world, however it ends, a run of [scrape_site] writes to
    the row of its own job only: every other job row is as it was. *)
Theorem other_jobs_are_untouched (w : World) (job_id : string) (st : Store) :
  forall k, k <> job_id ->
    jobs (store_after (scrape_site w job_id) tt st) !! k = jobs st !! k.
Proof.
  assert (H : wp (scrape_site w job_id)
                (fun _ _ st' => others_same job_id st st') tt st); [|exact H].
  unfold scrape_site, scrape_site_with. apply wp_bind.
  unfold wp at 1, outcome, locals_after, store_after. rewrite ScrapeJob_get_run.
  destruct (faults w (tick st)); cbn [fst snd]; [intros k _; reflexivity|].
  destruct (jobs st !! job_id) as [row|]; cbn [fst snd]; [|intros k _; reflexivity].
  apply wp_call.
  assert (Hk : kept (others_same job_id) (job_is job_id row) st
                 (method job set_job (mark_running w) ;;
                  try_except
                    (scrape_site_try same_page_guard w
                       (ScrapeJob.site (ScrapeJob.set_pk job_id row)) job_id)
                    (scrape_site_except w))).
  { apply kept_bind; [apply own_row_mark_running|]. intros _.
    apply kept_try; [apply own_row_try | intros; apply own_row_except]. }
  eapply wp_mono;
    [|apply (Hk _ (arrive w st)); [intros k _; reflexivity | now repeat split]].
  intros r f' st' [H1 _]. exact H1.
Qed.

Lemma other_jobs_are_untouched_witness :
  jobs (store_after (scrape_site Scenario.world Scenario.job_id) tt Cases.two_jobs)
  !! "9a2e"%string = Some (ScrapeJob.fresh "9a2e" Cases.closed_site).
Proof.
  rewrite (other_jobs_are_untouched Scenario.world Scenario.job_id Cases.two_jobs).
  - reflexivity.
  - discriminate.
Defined.

(** A run that returns has loaded a row, has kept the counters of the
    instance as loaded, and has ended with [mark_finished(success=True)] on
    that instance. *)
Lemma returned_run (w : World) (job_id : string) (st : Store) (a : string * string) :
  outcome (scrape_site w job_id) tt st = Ok a ->
  a = (job_id, "done"%string)
  /\ exists row self row3,
       jobs st !! job_id = Some row
       /\ counts_of row self
       /\ jobs (store_after (scrape_site w job_id) tt st) !! job_id
          = Some (ScrapeJob.set_finished_at
                    (Some (clock (store_after (scrape_site w job_id) tt st)))
                    (ScrapeJob.set_status (finish_status true self) row3)).
Proof.
  set (R := others_same job_id).
  set (G := fun (r : result (string * string)) (st' : Store) =>
              forall a, r = Ok a ->
                a = (job_id, "done"%string)
                /\ exists row self row3,
                     jobs st !! job_id = Some row
                     /\ counts_of row self
                     /\ jobs st' !! job_id
                        = Some (ScrapeJob.set_finished_at (Some (clock st'))
                                  (ScrapeJob.set_status (finish_status true self) row3))).
  assert (H : wp (scrape_site w job_id) (fun r _ st' => G r st') tt st).
  2:{ intros E. exact (H a E). }
  assert (Hraise : forall e st', G (Raise e) st') by (intros e st' b; discriminate).
  assert (Hexcept : forall e f' st',
             wp (scrape_site_except w e)
                (fun (r : result (string * string)) (_ : Frame) st'' => G r st'') f' st').
  { intros e f' st'.
    destruct (except_raises w (A:=string * string) e f' st') as [e' He'].
    unfold wp. rewrite He'. apply Hraise. }
  unfold scrape_site, scrape_site_with. apply wp_bind.
  unfold wp at 1, outcome, locals_after, store_after. rewrite ScrapeJob_get_run.
  destruct (faults w (tick st)); cbn [fst snd]; [apply Hraise|].
  destruct (jobs st !! job_id) as [row|] eqn:Hrow0; cbn [fst snd]; [|apply Hraise].
  apply wp_call.
  apply (wp_kept_bind R (job_is job_id row) st);
    [apply own_row_mark_running | intros k _; reflexivity | now repeat split |
    | intros; apply Hraise].
  intros _ f1 st1 H1 Hf1. apply wp_try. unfold scrape_site_try.
  apply wp_bind. red. cbn [outcome locals_after store_after assign fst snd].
  set (f1' := set_next_url _ f1).
  apply (wp_kept_bind R (job_is job_id row) st);
    [apply own_row_page_loop | exact H1 | exact Hf1 | | intros; apply Hexcept].
  intros _ f2 st2 H2 Hf2.
  apply wp_bind. red. cbn [outcome locals_after store_after locals fst snd].
  apply (wp_kept_bind R (job_is job_id row) st);
    [apply own_row_flush | exact H2 | exact Hf2 | | intros; apply Hexcept].
  intros _ f3 st3 H3 [Hf3 Hc3].
  apply wp_bind. apply wp_method.
  pose proof (mark_finished_row w true (job f3) st3) as Hrow.
  unfold outcome, store_after in Hrow.
  unfold wp at 1, outcome, locals_after, store_after.
  destruct (mark_finished w true (job f3, st3)) as [[[]|e] [self st4]] eqn:E;
    cbn [fst snd] in *; [|apply Hexcept].
  red. cbn [outcome locals_after store_after ret fst snd].
  intros b Hb. inversion Hb; subst b. split; [reflexivity|].
  destruct (Hrow eq_refl) as (row3 & _ & Hrow4).
  rewrite Hf3 in Hrow4. exists row, (job f3), row3.
  split; [reflexivity|]. split; [exact Hc3|].
  rewrite Hrow4. do 3 f_equal.
  assert (Hclock : snd (snd (mark_finished w true (job f3, st3))) = st4)
    by now rewrite E.
  rewrite mark_finished_run, ScrapeJob_save_run in Hclock.
  destruct (faults w (tick st3)); [subst st4; reflexivity|].
  destruct (jobs st3 !! _); subst st4; reflexivity.
Qed.

(** X22. In every world, a run that returns, returns [job_id] with the
    status "done" and has finished the job: the job row holds one of the
    final statuses SUCCESS, PARTIAL and FAILED, and the current time as its
    finish time. *)
Theorem returned_run_has_finished (w : World) (job_id : string) (st : Store)
    (a : string * string) :
  outcome (scrape_site w job_id) tt st = Ok a ->
  a = (job_id, "done"%string)
  /\ finished_job job_id (store_after (scrape_site w job_id) tt st).
Proof.
  intros E. destruct (returned_run w job_id st a E) as (Ha & row & self & row3 & _ & _ & H).
  split; [exact Ha|]. eexists. split; [exact H|].
  cbn [ScrapeJob.status ScrapeJob.finished_at ScrapeJob.set_finished_at
       ScrapeJob.set_status].
  split; [|reflexivity].
  unfold finish_status. cbn [negb].
  destruct (_ && _); [right; left; reflexivity|].
  destruct (0 <? _); [left | right; right]; reflexivity.
Qed.

Lemma returned_run_has_finished_witness :
  finished_job Scenario.job_id
    (store_after (scrape_site Scenario.world Scenario.job_id) tt Scenario.store0).
Proof.
  refine (proj2 (returned_run_has_finished Scenario.world Scenario.job_id
                   Scenario.store0 (Scenario.job_id, "done"%string) _)).
  vm_compute. reflexivity.
Defined.

(** ** tasks.py: the final status *)

(** X9. In every world, a run that returns has given the job the status
    derived from the [quotes_saved] and [errors_count] the job row held when
    the run loaded it, not from what the run fetched, saved or failed to
    save: the flushes update the row and leave the instance as it is, and
    [mark_finished] reads the instance.  A job whose row held
    [quotes_saved = 0] ends FAILED whatever the run saved. *)
Theorem final_status_from_loaded_counters (w : World) (job_id : string)
    (row : ScrapeJob.t) (st : Store) (a : string * string) :
  jobs st !! job_id = Some row ->
  outcome (scrape_site w job_id) tt st = Ok a ->
  exists row',
    jobs (store_after (scrape_site w job_id) tt st) !! job_id = Some row'
    /\ (ScrapeJob.quotes_saved row <= 0 -> ScrapeJob.status row' = ScrapeJob.FAILED)
    /\ (0 < ScrapeJob.quotes_saved row -> ScrapeJob.errors_count row <= 0 ->
        ScrapeJob.status row' = ScrapeJob.SUCCESS)
    /\ (0 < ScrapeJob.quotes_saved row -> 0 < ScrapeJob.errors_count row ->
        ScrapeJob.status row' = ScrapeJob.PARTIAL).
Proof.
  intros Hrow E.
  destruct (returned_run w job_id st a E)
    as (_ & row0 & self & row3 & Hrow0 & [Hs He] & H).
  rewrite Hrow in Hrow0. inversion Hrow0; subst row0.
  eexists. split; [exact H|].
  cbn [ScrapeJob.status ScrapeJob.set_finished_at ScrapeJob.set_status].
  unfold finish_status. cbn [negb]. rewrite Hs, He. repeat split.
  - intros H1. destruct (Z.ltb_spec 0 (ScrapeJob.quotes_saved row)); [lia|].
    now rewrite andb_false_r.
  - intros H1 H2. destruct (Z.ltb_spec 0 (ScrapeJob.quotes_saved row)); [|lia].
    destruct (Z.ltb_spec 0 (ScrapeJob.errors_count row)); [lia | reflexivity].
  - intros H1 H2. destruct (Z.ltb_spec 0 (ScrapeJob.quotes_saved row)); [|lia].
    destruct (Z.ltb_spec 0 (ScrapeJob.errors_count row)); [reflexivity | lia].
Qed.

Lemma final_status_from_loaded_counters_witness :
  exists row',
    jobs (store_after (scrape_site Scenario.world Scenario.job_id) tt Scenario.store0)
    !! Scenario.job_id = Some row'
    /\ ScrapeJob.status row' = ScrapeJob.FAILED
    /\ ScrapeJob.quotes_saved row' = 3.
Proof.
  destruct (final_status_from_loaded_counters Scenario.world Scenario.job_id
              (ScrapeJob.fresh Scenario.job_id Scenario.site) Scenario.store0
              (Scenario.job_id, "done"%string))
    as (row' & H1 & H2 & _); [reflexivity | vm_compute; reflexivity |].
  exists row'. split; [exact H1|]. split; [apply H2; cbn; lia|].
  assert (E : jobs (store_after (scrape_site Scenario.world Scenario.job_id) tt
                      Scenario.store0) !! Scenario.job_id
              = Some (ScrapeJob.mk Scenario.job_id Scenario.site ScrapeJob.FAILED
                        (Some 0) (Some 1000) 2 3 0 "api"))
    by (vm_compute; reflexivity).
  rewrite E in H1. inversion H1. reflexivity.
Defined.

(** ** get_or_create and the names of the authors *)

Lemma unique_names_insert (l : list Author.t) (a : Author.t) :
  unique_names l ->
  List.find (fun b => String.eqb (Author.name b) (Author.name a)) l = None ->
  unique_names (l ++ [a]).
Proof.
  unfold unique_names. intros Hnd Hnew. rewrite map_app. cbn [map].
  apply NoDup_app. split; [exact Hnd|]. split.
  - intros n Hin Hin'. apply list_elem_of_In in Hin, Hin'.
    destruct Hin' as [<-|[]]. apply in_map_iff in Hin. destruct Hin as (b & Hb & Hinb).
    apply (find_none _ _ Hnew) in Hinb. cbn beta in Hinb.
    rewrite Hb, String.eqb_refl in Hinb. discriminate.
  - apply NoDup_singleton.
Qed.

Ltac names :=
  try solve [ intros; unfold keeps_names, rollback in *; cbn in *; auto
            | intros; exact Logic.I
            | intros ? H; exact H
            | apply nonneg_saved | apply nonneg_errors | apply nonneg_fetched
            | unfold nonneg; cbn; intros; lia ].

Section Names.

Variable w : World.

Lemma names_Author_get_or_create {L} (P : L -> Prop) st0 name :
  kept keeps_names P st0 (Author_get_or_create w name).
Proof.
  intros l st H Hl. unfold Author_get_or_create. apply wp_bind.
  apply wp_statement; [intros e _; split; [exact H | exact Hl]|]. intros _.
  cbn [fst snd]. change (authors (arrive w st)) with (authors st).
  destruct (List.find _ (authors st)) as [a|] eqn:Hfind.
  { split; [exact H | exact Hl]. }
  apply wp_bind. apply wp_statement; [intros e _; split; [exact H | exact Hl]|].
  intros _. cbn [fst snd]. split; [|exact Hl].
  intros H0. cbn [authors set_authors arrive set_tick set_quotes].
  apply unique_names_insert; [apply H, H0 | exact Hfind].
Qed.

Lemma names_save_candidate st0 site text author_name :
  kept keeps_names nonneg st0 (save_candidate w site text author_name).
Proof.
  unfold save_candidate. apply (kept_atomic w keeps_names); names. intros st1.
  apply kept_bind.
  { destruct (truthy_opt author_name); [|apply kept_ret].
    apply kept_bind; [apply names_Author_get_or_create | intros; apply kept_ret]. }
  intros author. apply kept_bind; [apply (kept_Quote_exists w keeps_names); names|].
  intros [|]; cbn [negb]; [apply kept_ret|].
  apply kept_bind_locals. intros f Hf.
  apply kept_bind; [|intros; apply kept_assign, nonneg_saved].
  apply (kept_Quote_save w keeps_names); names.
  intros _. cbn [Quote.hash]. eauto.
Qed.

Lemma names_candidates st0 site author_nodes quote_nodes :
  forall i, kept keeps_names nonneg st0 (candidates w site author_nodes i quote_nodes).
Proof.
  induction quote_nodes as [|qnode rest IH]; intros i; cbn [candidates].
  - apply kept_ret.
  - apply kept_bind; [|intros; apply IH].
    apply kept_try; [apply names_save_candidate|].
    intros ex. apply kept_bind; [apply kept_assign, nonneg_errors|].
    intros _. apply kept_bind_locals. intros f Hf.
    apply (kept_ScrapeError_create w keeps_names (fun _ => True)); names.
Qed.

Lemma names_flush st0 (f : Frame) :
  nonneg f ->
  kept keeps_names nonneg st0
    (method job set_job (increment_counters w (fetched f) (saved f) (errors f))).
Proof. intros Hf. apply (kept_flush w keeps_names); names. Qed.

Lemma names_page_loop st0 site n :
  kept keeps_names nonneg st0 (page_loop_with same_page_guard w site n).
Proof.
  induction n as [|n IH]; cbn [page_loop_with]; [apply kept_ret|].
  apply kept_bind_locals. intros f Hf.
  destruct (truthy_opt (next_url f)); cbn [negb]; [|apply kept_ret].
  apply kept_bind; [apply kept_update; names|]. intros _.
  apply kept_bind.
  { apply kept_try.
    - apply kept_bind; [apply (kept_fetch_page w keeps_names); names
                       | intros; apply kept_ret].
    - intros e. apply kept_bind; [apply kept_assign, nonneg_errors|]. intros _.
      apply kept_bind_locals. intros f' Hf'.
      apply kept_bind; [|intros; apply kept_ret].
      apply (kept_ScrapeError_create w keeps_names (fun _ => True)); names. }
  intros [text|]; [|apply kept_ret].
  apply kept_bind; [apply kept_assign, nonneg_fetched|]. intros _.
  apply kept_bind; [apply kept_assign; names|]. intros _.
  apply kept_bind; [apply names_candidates|]. intros _.
  apply kept_bind_locals. intros f' Hf'.
  apply kept_bind; [apply names_flush, Hf'|]. intros _.
  apply kept_bind; [apply kept_assign; names|]. intros _.
  apply kept_bind; [apply kept_assign; names|]. intros _.
  apply kept_bind; [apply kept_assign; names|]. intros _.
  apply kept_bind; [apply kept_assign; names|]. intros _.
  apply kept_bind; [|intros; apply IH].
  intros f1 st1 H1 Hf1. unfold wp, outcome, locals_after, store_after.
  rewrite same_page_guard_noop. split; [exact H1 | exact Hf1].
Qed.

Lemma names_scrape_site st0 job_id :
  kept keeps_names (fun _ : unit => True) st0 (scrape_site w job_id).
Proof.
  unfold scrape_site, scrape_site_with.
  apply kept_bind; [apply (kept_ScrapeJob_get w keeps_names); names|]. intros j.
  apply kept_call with (P' := nonneg); [unfold nonneg; cbn; lia|].
  apply kept_bind.
  { apply kept_method; [intros ? ? H; exact H|].
    apply (kept_mark_running w keeps_names); names. }
  intros _. apply kept_try.
  - unfold scrape_site_try.
    apply kept_bind; [apply kept_assign; names|]. intros _.
    apply kept_bind; [apply names_page_loop|]. intros _.
    apply kept_bind_locals. intros f Hf.
    apply kept_bind; [apply names_flush, Hf|]. intros _.
    apply kept_bind; [|intros; apply kept_ret].
    apply kept_method; [intros ? ? H; exact H|].
    apply (kept_mark_finished w keeps_names); names.
  - intros e. apply (kept_scrape_site_except w keeps_names (fun _ => True)); names.
Qed.

Lemma names_QuoteSerializer_create st0 validated_data :
  kept keeps_names (fun _ : unit => True) st0 (QuoteSerializer_create w validated_data).
Proof.
  unfold QuoteSerializer_create.
  apply kept_bind.
  { destruct (vd_author validated_data); [apply kept_ret|].
    destruct (PyStr.truthy _); [|apply kept_ret].
    apply kept_bind; [apply names_Author_get_or_create | intros; apply kept_ret]. }
  intros author. destruct (ScrapeSite.active _); cbn [negb]; [|apply kept_raise].
  apply (kept_Quote_save w keeps_names); names.
Qed.

End Names.

(** X23. [get_or_create] never stores a second author under a stored
    name: in every world, however the call ends, a run of [scrape_site] and
    a call of [QuoteSerializer.create] leave the names of the stored authors
    unique when they were. *)
Theorem author_names_stay_unique (w : World) (st : Store) :
  unique_names (authors st) ->
  (forall job_id, unique_names (authors (store_after (scrape_site w job_id) tt st)))
  /\ (forall validated_data,
         unique_names
           (authors (store_after (QuoteSerializer_create w validated_data) tt st))).
Proof.
  intros H. split.
  - intros job_id.
    apply (names_scrape_site w st job_id tt st (fun H0 => H0) Logic.I), H.
  - intros vd.
    apply (names_QuoteSerializer_create w st vd tt st (fun H0 => H0) Logic.I), H.
Qed.

Lemma author_names_stay_unique_witness :
  unique_names
    (authors (store_after (scrape_site Scenario.world Scenario.job_id) tt
                Cases.store1)).
Proof.
  refine (proj1 (author_names_stay_unique Scenario.world Cases.store1 _)
            Scenario.job_id).
  unfold unique_names. apply (bool_decide_unpack _). vm_compute. reflexivity.
Defined.
